(** * AutoUpliftTX: the staged candidate search of [lightautoml/addons/uplift/base.py]

    A shallow embedding of the wrappers, the stage trainer, the candidate
    scheduler, the strategy assembler and the best-strategy selection, with
    the properties of the specification stated and proved over it.

    Conventions.
    - A raised Python exception is the result [None] of an [option]-valued
      function; [Some] carries the value returned normally.
    - A Python [dict] whose iteration order is observed (the cache of trained
      records, the score table, [__MAP_META_TO_STAGES__]) is an association
      list in insertion order, see [dict_get] and [dict_set].
    - Numbers held in data frames, prediction arrays and scores are kept
      abstract: any type with the operations of [Numeric]. *)

From stdpp Require Import gmap strings list fin_maps.
From Stdlib Require Import ZArith.

#[local] Set Warnings "-clear-no-such-hyp".

(* ===================================================================== *)
(** * Numbers and arrays *)
(* ===================================================================== *)

(** The arithmetic and comparisons the module applies to cells, predictions
    and scores (integer literals, [+], [-], [*], [==], [<]). *)
Class Numeric (A : Type) := {
  num_of_Z : Z → A;
  num_add : A → A → A;
  num_sub : A → A → A;
  num_mul : A → A → A;
  num_eqb : A → A → bool;
  num_ltb : A → A → bool
}.

Definition num_zero {A : Type} `{Numeric A} : A := num_of_Z 0.
Definition num_one {A : Type} `{Numeric A} : A := num_of_Z 1.

#[export] Instance Z_Numeric : Numeric Z := {|
  num_of_Z := id;
  num_add := Z.add;
  num_sub := Z.sub;
  num_mul := Z.mul;
  num_eqb := Z.eqb;
  num_ltb := Z.ltb
|}.

Section Arrays.
Context {A : Type} `{Numeric A}.

(** Elementwise operation on two flat arrays. Arrays of different lengths
    are rejected ([ValueError]); the broadcasting of a one-element array
    is not modelled, every array here holds one entry per row. *)
Definition arr_map2 (f : A → A → A) (x y : list A) : option (list A) :=
  if decide (length x = length y) then Some (zip_with f x y) else None.

Definition arr_sub := arr_map2 num_sub.
Definition arr_add := arr_map2 num_add.
Definition arr_mul := arr_map2 num_mul.

(** [1 - x] with the scalar broadcast over the array. *)
Definition arr_one_minus (x : list A) : list A := num_sub num_one <$> x.
End Arrays.

(* ===================================================================== *)
(** * Ordered dictionaries *)
(* ===================================================================== *)

Section Dict.
Context {K V : Type} `{EqDecision K}.

(** [d[k]], the value stored under [k]. *)
Fixpoint dict_get (k : K) (d : list (K * V)) : option V :=
  match d with
  | [] => None
  | (k', v) :: d' => if decide (k' = k) then Some v else dict_get k d'
  end.

(** [d[k] = v]: an existing key keeps its position, a new key goes last. *)
Fixpoint dict_set (k : K) (v : V) (d : list (K * V)) : list (K * V) :=
  match d with
  | [] => [(k, v)]
  | (k', v') :: d' =>
      if decide (k' = k) then (k, v) :: d' else (k', v') :: dict_set k v d'
  end.

(** [k in d]. *)
Definition dict_mem (k : K) (d : list (K * V)) : bool :=
  bool_decide (is_Some (dict_get k d)).
End Dict.

(* ===================================================================== *)
(** * Wrappers *)
(* ===================================================================== *)

(** Parameter values that are not wrappers ([Task(...)], a timeout, ...). *)
Inductive Atom :=
  | ANone
  | AInt (z : Z)
  | AStr (s : string)
  | ATask (task_name : string).

#[export] Instance Atom_eq_dec : EqDecision Atom.
Proof. solve_decision. Defined.

(** [BaseLearnerWrapper]: [name], [klass] and [params]. *)
Record BaseLearnerWrapper := {
  name : string;
  klass : string;
  params : list (string * Atom)
}.

#[export] Instance BaseLearnerWrapper_eq_dec : EqDecision BaseLearnerWrapper.
Proof. solve_decision. Defined.

(** [Wrapper.update_params]: [self.params.update(d)]. *)
Definition update_params (d : list (string * Atom)) (w : BaseLearnerWrapper)
  : BaseLearnerWrapper :=
  {| name := name w;
     klass := klass w;
     params := foldl (λ p kv, dict_set kv.1 kv.2 p) (params w) d |}.

(* ===================================================================== *)
(** * Stage descriptors *)
(* ===================================================================== *)

Definition MLStageFullName := list string.

#[warnings="-register-all"]
Inductive MetaLearnerStage := mkStage {
  stage_name : string;
  stage_params : list (string * Atom);
  prev_stage : option MetaLearnerStage
}.

Fixpoint full_name (s : MetaLearnerStage) : MLStageFullName :=
  match s with
  | mkStage n _ None => [n]
  | mkStage n _ (Some p) => full_name p ++ [n]
  end.

Definition stage (n : string) : MetaLearnerStage := mkStage n [] None.

Definition MAP_META_TO_STAGES : list (string * list MetaLearnerStage) :=
  [ ("TLearner",
      [ stage "outcome_control";
        stage "outcome_treatment" ]);
    ("XLearner",
      [ stage "outcome_control";
        stage "outcome_treatment";
        mkStage "propensity" [("task", ATask "binary")] None;
        mkStage "effect_control" [("task", ATask "reg")]
                (Some (stage "outcome_treatment"));
        mkStage "effect_treatment" [("task", ATask "reg")]
                (Some (stage "outcome_control")) ]) ].

(** [_extract_stages]: every (metalearner name, stage) pair, in order. *)
Definition _extract_stages : list (string * MetaLearnerStage) :=
  '(ml_name, ml_stages) ← MAP_META_TO_STAGES;
  (λ s, (ml_name, s)) <$> ml_stages.

(** [_extract_stage]: the first stage with the given full name. *)
Definition _extract_stage (fn : MLStageFullName) : option MetaLearnerStage :=
  (λ r, r.2.2) <$> list_find (λ p, full_name p.2 = fn) _extract_stages.

(** [stage_name[0:1]]. *)
Definition prefix1 (fn : MLStageFullName) : MLStageFullName := take 1 fn.

(* ===================================================================== *)
(** * Trained stage records and the cache *)
(* ===================================================================== *)

(** [TrainedStageBaseLearner]. [A] is the type of numbers, [Model] the type
    of trained models (the external AutoML engine). *)
Record TrainedStageBaseLearner (A Model : Type) := {
  stage_bl : BaseLearnerWrapper;
  prev_stage_bl : option BaseLearnerWrapper;
  trained_model : Model;
  pred : list A
}.
Arguments stage_bl {A Model} _.
Arguments prev_stage_bl {A Model} _.
Arguments trained_model {A Model} _.
Arguments pred {A Model} _.

(** [_trained_stage_baselearners]: stage full name ↦ records, both in
    insertion order. *)
Abbreviation Cache A Model :=
  (list (MLStageFullName * list (TrainedStageBaseLearner A Model))).

(** One record per stage: [set_bls] and [ml_bls] of [_bl_for_ml]. *)
Abbreviation StageBls A Model :=
  (list (MLStageFullName * TrainedStageBaseLearner A Model)).

(** [TrainedMetaLearnerFullName]. *)
Definition TrainedMetaLearnerFullName : Type :=
  string * list (MLStageFullName * string).

(** The composed predictors [TLearner(...)] and [XLearner(...)]. *)
Inductive MetaLearner (Model : Type) :=
  | TLearner (control_learner treatment_learner : Model)
  | XLearner (outcome_learners effect_learners : list Model)
             (propensity_learner : Model).
Arguments TLearner {Model} _ _.
Arguments XLearner {Model} _ _ _.

(** A parameter of a [MetaLearnerWrapper] as [_create_metalearner_wrap]
    builds it: one base-learner wrapper or a list of them. *)
Inductive WParam :=
  | WOne (w : BaseLearnerWrapper)
  | WList (ws : list BaseLearnerWrapper).

Record MetaLearnerWrapper := {
  ml_name : string;
  ml_klass : string;
  ml_params : list (string * WParam)
}.

(* ===================================================================== *)
(** * Strategy assembler *)
(* ===================================================================== *)

(** [itertools.product]: the rightmost factor advances fastest. *)
Fixpoint product {X : Type} (ls : list (list X)) : list (list X) :=
  match ls with
  | [] => [[]]
  | l :: ls' => x ← l; (λ rest, x :: rest) <$> product ls'
  end.

(** [dict(pairs)]. *)
Definition dict_of_list {K V : Type} `{EqDecision K} (l : list (K * V))
  : list (K * V) :=
  foldl (λ d kv, dict_set kv.1 kv.2 d) [] l.

Section Assembler.
Context {A : Type} `{Numeric A} {Model : Type}.

(** The body of [for ml_stage in ml_stages] in [_bl_for_ml]. *)
Definition ml_bls_step (set_bls : StageBls A Model)
    (ml_bls : StageBls A Model) (ml_stage : MetaLearnerStage)
  : StageBls A Model :=
  let ml_stage_full_name := full_name ml_stage in
  match dict_get ml_stage_full_name set_bls with
  | None => ml_bls
  | Some trained_sbl =>
      match prev_stage_bl trained_sbl with
      | None => dict_set ml_stage_full_name trained_sbl ml_bls
      | Some prev_bl =>
          match dict_get (prefix1 ml_stage_full_name) set_bls with
          | None => ml_bls
          | Some first_sbl =>
              if decide (name prev_bl = name (stage_bl first_sbl))
              then dict_set ml_stage_full_name trained_sbl ml_bls
              else ml_bls
          end
      end
  end.

(** [ml_bls] after the loop over the stages of one metalearner. *)
Definition collect_ml_bls (set_bls : StageBls A Model)
    (ml_stages : list MetaLearnerStage) : StageBls A Model :=
  foldl (ml_bls_step set_bls) [] ml_stages.

(** [set_ml_with_sbls] for one element of the cross product. *)
Definition assemble (set_bls : StageBls A Model)
  : list (string * StageBls A Model) :=
  foldl (λ set_ml_with_sbls ml,
           let ml_bls := collect_ml_bls set_bls ml.2 in
           if decide (length ml_bls = length ml.2)
           then dict_set ml.1 ml_bls set_ml_with_sbls
           else set_ml_with_sbls)
        [] MAP_META_TO_STAGES.

Definition ready_metalearners (cache : Cache A Model) : list bool :=
  (λ ml, forallb (λ s, dict_mem (full_name s) cache) ml.2)
    <$> MAP_META_TO_STAGES.

(** The combinations [set_bls] enumerated by [_bl_for_ml]. *)
Definition combinations (cache : Cache A Model) : list (StageBls A Model) :=
  let stage_names := cache.*1 in
  (λ bl, dict_of_list (zip stage_names bl)) <$> product (cache.*2).

(** [_bl_for_ml]: the sequence of yielded [set_ml_with_sbls]. *)
Definition _bl_for_ml (cache : Cache A Model)
  : option (list (list (string * StageBls A Model))) :=
  if existsb id (ready_metalearners cache)
  then Some (assemble <$> combinations cache)
  else None.

(** [_metalearner_predict]. *)
Definition _metalearner_predict (metalearner : string)
    (baselearners : StageBls A Model) : option (list A) :=
  if decide (metalearner = "TLearner") then
    control_pred ← pred <$> dict_get ["outcome_control"] baselearners;
    treatment_pred ← pred <$> dict_get ["outcome_treatment"] baselearners;
    arr_sub treatment_pred control_pred
  else if decide (metalearner = "XLearner") then
    control_pred ←
      pred <$> dict_get ["outcome_treatment"; "effect_control"] baselearners;
    treatment_pred ←
      pred <$> dict_get ["outcome_control"; "effect_treatment"] baselearners;
    propensity_pred ← pred <$> dict_get ["propensity"] baselearners;
    weighted_treatment ← arr_mul propensity_pred treatment_pred;
    weighted_control ← arr_mul (arr_one_minus propensity_pred) control_pred;
    arr_add weighted_treatment weighted_control
  else None.
End Assembler.

(* ===================================================================== *)
(** * Score table and selection of the best metalearner *)
(* ===================================================================== *)

(** A loop whose body may raise: the first exception ends it. *)
Fixpoint foldlM {S X : Type} (f : S → X → option S) (s : S) (l : list X)
  : option S :=
  match l with
  | [] => Some s
  | x :: l' => s' ← f s x; foldlM f s' l'
  end.

(** Python's ordering of tuples of strings, and of the pairs
    (stage full name, baselearner name) sorted by [_calculate_ml_metric]. *)
Fixpoint tuple_compare (x y : list string) : comparison :=
  match x, y with
  | [], [] => Eq
  | [], _ :: _ => Lt
  | _ :: _, [] => Gt
  | a :: x', b :: y' =>
      match String.compare a b with
      | Eq => tuple_compare x' y'
      | c => c
      end
  end.

Definition sbl_leb (x y : MLStageFullName * string) : bool :=
  match tuple_compare x.1 y.1 with
  | Lt => true
  | Gt => false
  | Eq => String.leb x.2 y.2
  end.

Fixpoint insert_sorted {X : Type} (leb : X → X → bool) (x : X) (l : list X)
  : list X :=
  match l with
  | [] => [x]
  | y :: l' => if leb x y then x :: l else y :: insert_sorted leb x l'
  end.

(** [sorted(l)] (stable). *)
Definition sorted {X : Type} (leb : X → X → bool) (l : list X) : list X :=
  foldr (insert_sorted leb) [] l.

(** [_metalearner_metrics]. *)
Abbreviation ScoreTable A := (list (TrainedMetaLearnerFullName * A)).

Section Selection.
Context {A : Type} `{Numeric A} {Model : Type}.

(** The external metric [calculate_uplift_auc(target, prediction,
    treatment, metric, normed)]. *)
Variable calculate_uplift_auc :
  list A → list A → list A → string → bool → A.

(** The body of the loops of [_calculate_ml_metric]: the entry of one
    assembled metalearner is scored. *)
Definition score_metalearner (metric : string) (normed_metric : bool)
    (test_target test_treatment : list A)
    (metrics : ScoreTable A) (ml : string * StageBls A Model)
  : option (ScoreTable A) :=
  let sbls :=
    sorted sbl_leb ((λ sb, (sb.1, name (stage_bl sb.2))) <$> ml.2) in
  let trained_ml_full_name := (ml.1, sbls) in
  uplift_pred ← _metalearner_predict ml.1 ml.2;
  let metric_value :=
    calculate_uplift_auc test_target uplift_pred test_treatment
                         metric normed_metric in
  Some (dict_set trained_ml_full_name metric_value metrics).

(** [_calculate_ml_metric(self, test_target, test_treatment)]. *)
Definition _calculate_ml_metric (metric : string) (normed_metric : bool)
    (test_target test_treatment : list A)
    (cache : Cache A Model) (metrics : ScoreTable A)
  : option (ScoreTable A) :=
  yielded ← _bl_for_ml cache;
  foldlM (score_metalearner metric normed_metric test_target test_treatment)
         metrics (mjoin yielded).

(** The test of the [elif] in [_set_best_metalearner]: the score [v]
    replaces [best_metric_value]. *)
Definition replaces (increasing_metric : bool) (best_metric_value v : A)
  : bool :=
  (increasing_metric && num_ltb best_metric_value v)
  || (negb increasing_metric && num_ltb v best_metric_value).

(** The body of the loop of [_set_best_metalearner]. *)
Definition best_step (increasing_metric : bool)
    (best : option (TrainedMetaLearnerFullName * A))
    (kv : TrainedMetaLearnerFullName * A)
  : option (TrainedMetaLearnerFullName * A) :=
  match best with
  | None => Some kv
  | Some (best_candidate, best_metric_value) =>
      if replaces increasing_metric best_metric_value kv.2
      then Some kv
      else best
  end.

(** [best_candidate] and [best_metric_value] after the loop. *)
Definition select_best (increasing_metric : bool) (metrics : ScoreTable A)
  : option (TrainedMetaLearnerFullName * A) :=
  foldl (best_step increasing_metric) None metrics.

(** [_get_trained_bl]. *)
Definition _get_trained_bl (cache : Cache A Model)
    (metalearner_stage : MLStageFullName) (baselearner_name : string)
  : option (TrainedStageBaseLearner A Model) :=
  snd <$> list_find (λ bl, name (stage_bl bl) = baselearner_name)
                    (default [] (dict_get metalearner_stage cache)).

(** [self._get_trained_bl(stage, bls[stage])]. *)
Definition chosen_bl (cache : Cache A Model)
    (bls : list (MLStageFullName * string)) (st : MLStageFullName)
  : option (TrainedStageBaseLearner A Model) :=
  bl_name ← dict_get st bls;
  _get_trained_bl cache st bl_name.

(** [_init_metalearner]. *)
Definition _init_metalearner (cache : Cache A Model)
    (metalearner_name : string) (bls : list (MLStageFullName * string))
  : option (MetaLearner Model) :=
  if decide (metalearner_name = "TLearner") then
    ocl ← chosen_bl cache bls ["outcome_control"];
    otl ← chosen_bl cache bls ["outcome_treatment"];
    Some (TLearner (trained_model ocl) (trained_model otl))
  else if decide (metalearner_name = "XLearner") then
    ocl ← chosen_bl cache bls ["outcome_control"];
    otl ← chosen_bl cache bls ["outcome_treatment"];
    pl ← chosen_bl cache bls ["propensity"];
    ecl ← chosen_bl cache bls ["outcome_treatment"; "effect_control"];
    etl ← chosen_bl cache bls ["outcome_control"; "effect_treatment"];
    Some (XLearner [trained_model ocl; trained_model otl]
                   [trained_model ecl; trained_model etl]
                   (trained_model pl))
  else None.

(** [_create_metalearner_wrap]. *)
Definition _create_metalearner_wrap (cache : Cache A Model)
    (metalearner_name : string) (bls : list (MLStageFullName * string))
  : option MetaLearnerWrapper :=
  let ml_wrap_name := "__ML__" +:+ metalearner_name in
  if decide (metalearner_name = "TLearner") then
    ocl ← chosen_bl cache bls ["outcome_control"];
    otl ← chosen_bl cache bls ["outcome_treatment"];
    Some {| ml_name := ml_wrap_name;
            ml_klass := "TLearner";
            ml_params := [ ("control_learner", WOne (stage_bl ocl));
                           ("treatment_learner", WOne (stage_bl otl)) ] |}
  else if decide (metalearner_name = "XLearner") then
    ocl ← chosen_bl cache bls ["outcome_control"];
    otl ← chosen_bl cache bls ["outcome_treatment"];
    pl ← chosen_bl cache bls ["propensity"];
    ecl ← chosen_bl cache bls ["outcome_treatment"; "effect_control"];
    etl ← chosen_bl cache bls ["outcome_control"; "effect_treatment"];
    Some {| ml_name := ml_wrap_name;
            ml_klass := "XLearner";
            ml_params :=
              [ ("outcome_learners", WList [stage_bl ocl; stage_bl otl]);
                ("effect_learners", WList [stage_bl ecl; stage_bl etl]);
                ("propensity_learner", WOne (stage_bl pl)) ] |}
  else None.

(** [_set_best_metalearner]: the selected entry, [_best_metalearner] and
    [_best_metalearner_wrap]. *)
Definition _set_best_metalearner (increasing_metric : bool)
    (cache : Cache A Model) (metrics : ScoreTable A)
  : option (TrainedMetaLearnerFullName * MetaLearner Model
            * MetaLearnerWrapper) :=
  best ← select_best increasing_metric metrics;
  let best_candidate := best.1 in
  let ml_name := best_candidate.1 in
  let stages_params := dict_of_list best_candidate.2 in
  ml ← _init_metalearner cache ml_name stages_params;
  ml_wrap ← _create_metalearner_wrap cache ml_name stages_params;
  Some (best_candidate, ml, ml_wrap).
End Selection.

(* ===================================================================== *)
(** * Data frames and roles *)
(* ===================================================================== *)

(** A data frame is the list of its rows, a row maps column names to
    cells. An operation on a column that some row lacks raises
    ([KeyError]). *)
Abbreviation DataFrame A := (list (gmap string A)).

(** The roles dictionary: role name ↦ column name. *)
Abbreviation Roles := (gmap string string).

Section Frames.
Context {A : Type} `{Numeric A}.

(** [df[col]] as a flat array. *)
Definition get_col (col : string) (df : DataFrame A) : option (list A) :=
  mapM (λ row : gmap string A, row !! col) df.

(** [df[mask]]: the rows whose mask entry is [True]. *)
Definition boolean_index (mask : list bool) (df : DataFrame A)
  : DataFrame A :=
  fst <$> filter (λ p, p.2 = true) (zip df mask).

(** [df[df[col] == v]]. *)
Definition select_eq (col : string) (v : A) (df : DataFrame A)
  : option (DataFrame A) :=
  values ← get_col col df;
  Some (boolean_index ((λ x, num_eqb x v) <$> values) df).

(** The rows whose cell in column [col] is equal to [v], in order. *)
Definition rows_where (col : string) (v : A) (df : DataFrame A)
  : DataFrame A :=
  filter (λ row : gmap string A,
            (λ x, num_eqb x v) <$> row !! col = Some true) df.

(** [df.drop(col, axis=1)]. *)
Definition drop_col (col : string) (df : DataFrame A)
  : option (DataFrame A) :=
  _ ← get_col col df;
  Some (delete col <$> df).

(** [df[col] = values]. *)
Definition set_col (col : string) (values : list A) (df : DataFrame A)
  : option (DataFrame A) :=
  if decide (length values = length df)
  then Some (zip_with (λ (row : gmap string A) v, <[col := v]> row) df values)
  else None.

(** Modelled from the spec: [uplift_utils._get_treatment_role] is not part
    of this module; the roles mapping has a treatment role, and the
    helper returns the role together with its column (it raises when the
    role is absent). The role is keyed by the string ["treatment"]. *)
Definition _get_treatment_role (roles : Roles) : option (string * string) :=
  col ← roles !! "treatment"; Some ("treatment", col).

(** Modelled from the spec: [uplift_utils._get_target_role], as above,
    for the role ["target"]. *)
Definition _get_target_role (roles : Roles) : option (string * string) :=
  col ← roles !! "target"; Some ("target", col).
End Frames.

(* ===================================================================== *)
(** * Stage trainer *)
(* ===================================================================== *)

(** The stage chain with its baselearners handed to [_evaluate]. The
    wrapper is [None] where [zip_longest] filled a missing candidate. *)
Abbreviation StageInfo :=
  (list (MetaLearnerStage * option BaseLearnerWrapper)).

Section Trainer.
Context {A : Type} `{Numeric A} {Model : Type}.

(** The external AutoML engine: [bl = bl_wrap(); bl.fit_predict(data,
    roles)] gives the trained model, [bl.predict(data).data.ravel()] its
    predictions. *)
Variable fit_predict : BaseLearnerWrapper → DataFrame A → Roles → Model.
Variable predict : Model → DataFrame A → list A.

(** [[bl.trained_model for bl in cache[stage] if bl.stage_bl.name ==
    prev_bl_wrap.name][0]]. *)
Definition prev_trained_model (cache : Cache A Model)
    (prev_ml_stage : MetaLearnerStage) (prev_bl_wrap : BaseLearnerWrapper)
  : option Model :=
  head (trained_model <$>
          filter (λ bl, name (stage_bl bl) = name prev_bl_wrap)
                 (default [] (dict_get (full_name prev_ml_stage) cache))).

(** [_prepare_data_for_stage]. *)
Definition _prepare_data_for_stage (cache : Cache A Model)
    (stage_info : StageInfo) (train : DataFrame A) (roles : Roles)
  : option (DataFrame A * Roles) :=
  '(treatment_role, treatment_col) ← _get_treatment_role roles;
  '(target_role, target_col) ← _get_target_role roles;
  last_stage ← last stage_info;
  let stage_name := stage_name last_stage.1 in
  if decide (length stage_info = 1) then
    if decide (stage_name = "propensity") then
      let train_roles :=
        <["target" := treatment_col]>
          (delete target_role (delete treatment_role roles)) in
      train_data ← drop_col target_col train;
      Some (train_data, train_roles)
    else if decide (stage_name = "outcome_control") then
      let train_roles := delete treatment_role roles in
      selected ← select_eq treatment_col num_zero train;
      train_data ← drop_col treatment_col selected;
      Some (train_data, train_roles)
    else if decide (stage_name = "outcome_treatment") then
      let train_roles := delete treatment_role roles in
      selected ← select_eq treatment_col num_one train;
      train_data ← drop_col treatment_col selected;
      Some (train_data, train_roles)
    else None
  else if decide (length stage_info = 2) then
    let train_roles := delete treatment_role roles in
    '(prev_ml_stage, prev_bl_wrap_opt) ← stage_info !! 0;
    prev_bl_wrap ← prev_bl_wrap_opt;
    prev_stage_bl ← prev_trained_model cache prev_ml_stage prev_bl_wrap;
    if decide (stage_name = "effect_control") then
      selected ← select_eq treatment_col num_zero train;
      train_data ← drop_col treatment_col selected;
      let opposite_gr_pred := predict prev_stage_bl train_data in
      target ← get_col target_col train_data;
      derived ← arr_sub opposite_gr_pred target;
      train_data ← set_col target_col derived train_data;
      Some (train_data, train_roles)
    else if decide (stage_name = "effect_treatment") then
      selected ← select_eq treatment_col num_one train;
      train_data ← drop_col treatment_col selected;
      let opposite_gr_pred := predict prev_stage_bl train_data in
      target ← get_col target_col train_data;
      derived ← arr_sub target opposite_gr_pred;
      train_data ← set_col target_col derived train_data;
      Some (train_data, train_roles)
    else None
  else None.

(** [cache[key].append(tsbl)] on the [defaultdict(list)]. *)
Definition cache_append (key : MLStageFullName)
    (tsbl : TrainedStageBaseLearner A Model) (cache : Cache A Model)
  : Cache A Model :=
  dict_set key (default [] (dict_get key cache) ++ [tsbl]) cache.

(** [_evaluate]: returns the cache with the new record appended. *)
Definition _evaluate (cache : Cache A Model) (stage_info : StageInfo)
    (train test : DataFrame A) (roles : Roles) : option (Cache A Model) :=
  '(train_data, train_roles) ←
    _prepare_data_for_stage cache stage_info train roles;
  '(ml_stage, bl_wrap_opt) ← last stage_info;
  let prev_bl_wrap :=
    if decide (length stage_info = 2)
    then '(_, w) ← stage_info !! 0; w
    else None in
  bl_wrap ← bl_wrap_opt;
  let bl := fit_predict bl_wrap train_data train_roles in
  let test_pred := predict bl test in
  let tsbl := {| stage_bl := bl_wrap; prev_stage_bl := prev_bl_wrap;
                 trained_model := bl; pred := test_pred |} in
  Some (cache_append (full_name ml_stage) tsbl cache).
End Trainer.

(* ===================================================================== *)
(** * Candidate scheduler *)
(* ===================================================================== *)

(** [itertools.zip_longest]: the rows run up to the longest list, a list
    that has run out contributes the fill value [None]. *)
Definition zip_longest {X : Type} (ls : list (list X)) : list (list (option X)) :=
  (λ i, (λ l : list X, l !! i) <$> ls) <$> seq 0 (foldr max 0 (length <$> ls)).

(** An element of [pool_iter_levels[2]]: the second-level stage, the
    first-level baselearner it follows, and what is left of the iterator
    over the stage's candidates. *)
Record PoolEntry := {
  pe_stage : MLStageFullName;
  pe_bl_l1 : option BaseLearnerWrapper;
  pe_iter : list BaseLearnerWrapper
}.

(** The local state of the generator. [draws] counts the calls of
    [np.random.randint] made so far. *)
Record GenState := {
  pool : list PoolEntry;
  first_run : bool;
  n_runs : nat;
  draws : nat
}.

(** The result of one [try: ... except StopIteration: ...] block. *)
Inductive Draw :=
  | DYield (stage_info : StageInfo) (pool' : list PoolEntry)
  | DDrop (pool' : list PoolEntry)
  | DRaise.

(** One draw from the pool at index [idx]: the entry's iterator is advanced
    and the pair is yielded, or the exhausted entry is popped. *)
Definition pool_draw (idx : nat) (pool : list PoolEntry) : Draw :=
  match pool !! idx with
  | None => DRaise
  | Some e =>
      match pe_iter e with
      | [] => DDrop (delete idx pool)
      | bl_l2 :: rest =>
          let e' := {| pe_stage := pe_stage e; pe_bl_l1 := pe_bl_l1 e;
                       pe_iter := rest |} in
          match _extract_stage (prefix1 (pe_stage e)),
                _extract_stage (pe_stage e) with
          | Some stage_l1, Some stage_l2 =>
              DYield [(stage_l1, pe_bl_l1 e); (stage_l2, Some bl_l2)]
                     (<[idx := e']> pool)
          | _, _ => DRaise
          end
      end
  end.

(** What the generator has yielded, and its state if it has not raised. *)
Abbreviation GenOut := (list StageInfo * option GenState)%type.

Section Scheduler.
(** The process-wide generator of [np.random]: [rand k] is the raw value
    behind the [k]-th call, [np.random.randint(0, n, 1)[0]] is that value
    reduced to the range [0 .. n-1]. With [n = 0] the call raises. *)
Variable rand : nat → nat.

Definition randint (k n : nat) : option nat :=
  if decide (n = 0) then None else Some (rand k `mod` n).

(** One second-level draw of the generator in state [st]. *)
Definition draw_l2 (st : GenState) : Draw :=
  match randint (draws st) (length (pool st)) with
  | None => DRaise
  | Some idx => pool_draw idx (pool st)
  end.

(** [for _ in range(m)]: the second-level runs that follow a first-level
    submission. *)
Fixpoint run_level2 (m : nat) (st : GenState) : GenOut :=
  match m with
  | 0 => ([], Some st)
  | S m' =>
      match draw_l2 st with
      | DRaise => ([], None)
      | DDrop pool' =>
          run_level2 m' {| pool := pool'; first_run := first_run st;
                           n_runs := n_runs st; draws := S (draws st) |}
      | DYield si pool' =>
          let out :=
            run_level2 m' {| pool := pool'; first_run := first_run st;
                             n_runs := S (n_runs st);
                             draws := S (draws st) |} in
          (si :: out.1, out.2)
      end
  end.

(** [if n_runs >= len(stage_by_levels[1]): first_run = False]. *)
Definition end_of_item (n_level1 : nat) (st : GenState) : GenState :=
  {| pool := pool st;
     first_run := if decide (n_level1 ≤ n_runs st) then false
                  else first_run st;
     n_runs := n_runs st; draws := draws st |}.

(** [stage_baselearners]: stage full name ↦ candidate baselearners, the
    dictionary returned by [_set_stage_baselearners]. *)
Variable stage_baselearners : list (MLStageFullName * list BaseLearnerWrapper).

(** [stage_by_levels[n]]. *)
Definition stage_by_levels (n : nat) : list MLStageFullName :=
  filter (λ st : MLStageFullName, length st = n) (stage_baselearners.*1).

(** The entries appended to the pool when [(stage_name_l1, bl_l1)] is
    reached (each key is one of the dictionary's own). *)
Definition unlocked (stage_name_l1 : MLStageFullName)
    (bl_l1 : option BaseLearnerWrapper) : list PoolEntry :=
  (λ stage_name_l2,
     {| pe_stage := stage_name_l2; pe_bl_l1 := bl_l1;
        pe_iter := default [] (dict_get stage_name_l2 stage_baselearners) |})
    <$> filter (λ stage_name_l2, prefix1 stage_name_l2 = stage_name_l1)
               (stage_by_levels 2).

(** The body of [for stage_name_l1, bl_l1 in zip(...)]. *)
Definition run_level1_item (st : GenState)
    (item : MLStageFullName * option BaseLearnerWrapper) : GenOut :=
  match _extract_stage item.1 with
  | None => ([], None)
  | Some stage_l1 =>
      let st1 := {| pool := pool st ++ unlocked item.1 item.2;
                    first_run := first_run st;
                    n_runs := S (n_runs st); draws := draws st |} in
      let n_level1 := length (stage_by_levels 1) in
      if first_run st1 then
        ([[(stage_l1, item.2)]], Some (end_of_item n_level1 st1))
      else if decide (length (pool st1) = 0) then
        ([[(stage_l1, item.2)]], Some st1)
      else
        let out := run_level2 (length (pool st1) `min` 3) st1 in
        ([(stage_l1, item.2)] :: out.1, end_of_item n_level1 <$> out.2)
  end.

(** The first-level loops over the rows of [zip_longest]. *)
Fixpoint run_level1 (items : list (MLStageFullName * option BaseLearnerWrapper))
    (st : GenState) : GenOut :=
  match items with
  | [] => ([], Some st)
  | item :: items' =>
      let out := run_level1_item st item in
      match out.2 with
      | None => out
      | Some st' =>
          let out' := run_level1 items' st' in
          (out.1 ++ out'.1, out'.2)
      end
  end.

(** [while len(pool) > 0]: the final drain of the pool. Every iteration
    shortens an iterator or pops an entry, [fuel] bounds their number. *)
Fixpoint drain (fuel : nat) (st : GenState) : GenOut :=
  match fuel with
  | 0 => ([], Some st)
  | S fuel' =>
      if decide (length (pool st) = 0) then ([], Some st)
      else
        match draw_l2 st with
        | DRaise => ([], None)
        | DDrop pool' =>
            drain fuel' {| pool := pool'; first_run := first_run st;
                           n_runs := n_runs st; draws := S (draws st) |}
        | DYield si pool' =>
            let out :=
              drain fuel' {| pool := pool'; first_run := first_run st;
                             n_runs := n_runs st; draws := S (draws st) |} in
            (si :: out.1, out.2)
        end
  end.

(** The number of iterations the drain loop can still make. *)
Definition pool_weight (pool : list PoolEntry) : nat :=
  sum_list ((λ e, S (length (pe_iter e))) <$> pool).

(** The pairs (first-level stage, baselearner) in the order the two
    nested [for] loops reach them. *)
Definition level1_items : list (MLStageFullName * option BaseLearnerWrapper) :=
  let bls_level_1 :=
    zip_longest (snd <$> filter (λ sb, sb.1 ∈ stage_by_levels 1)
                                stage_baselearners) in
  bls ← bls_level_1; zip (stage_by_levels 1) bls.

(** [_generate_stage_baselearner_candidates]: the stage infos yielded, in
    order, and whether the generator ended normally. *)
Definition _generate_stage_baselearner_candidates : GenOut :=
  let out :=
    run_level1 level1_items
               {| pool := []; first_run := true; n_runs := 0; draws := 0 |} in
  match out.2 with
  | None => out
  | Some st =>
      let out' := drain (pool_weight (pool st)) st in
      (out.1 ++ out'.1, out'.2)
  end.
End Scheduler.

(* ===================================================================== *)
(** * [fit] *)
(* ===================================================================== *)

(** The settings of an [AutoUpliftTX] object read by [fit]. *)
Record Settings := {
  metric : string;
  normed_metric : bool;
  increasing_metric : bool;
  random_state : nat
}.

(** What [fit] leaves on the object. *)
Record Fitted (A Model : Type) := {
  trained_stage_baselearners : Cache A Model;
  metalearner_metrics : ScoreTable A;
  best_candidate : TrainedMetaLearnerFullName;
  best_metalearner : MetaLearner Model;
  best_metalearner_wrap : MetaLearnerWrapper
}.
Arguments trained_stage_baselearners {A Model} _.
Arguments metalearner_metrics {A Model} _.
Arguments best_candidate {A Model} _.
Arguments best_metalearner {A Model} _.
Arguments best_metalearner_wrap {A Model} _.

Section Fit.
Context {A : Type} `{Numeric A} {Model : Type}.

Variable fit_predict : BaseLearnerWrapper → DataFrame A → Roles → Model.
Variable predict : Model → DataFrame A → list A.
Variable calculate_uplift_auc :
  list A → list A → list A → string → bool → A.

(** The external [train_test_split(data, test_size, stratify,
    random_state)], with the object's [test_size]. *)
Variable train_test_split :
  DataFrame A → list A → nat → DataFrame A * DataFrame A.

(** Modelled from the spec: the [Timer] is not part of this module.
    [time_limit_exceeded n] is the answer of the check made after the
    [n]-th training event of the run. *)
Variable time_limit_exceeded : nat → bool.

Variable rand : nat → nat.

(** [BaseAutoUplift._prepare_data]. *)
Definition _prepare_data (self : Settings) (data : DataFrame A)
    (roles : Roles)
  : option (DataFrame A * DataFrame A * list A * list A) :=
  '(target_role, target_col) ← _get_target_role roles;
  '(treatment_role, treatment_col) ← _get_treatment_role roles;
  target ← get_col target_col data;
  treatment ← get_col treatment_col data;
  stratify_value ← arr_add target (num_mul (num_of_Z 10) <$> treatment);
  let split := train_test_split data stratify_value (random_state self) in
  test_treatment ← get_col treatment_col split.2;
  test_target ← get_col target_col split.2;
  Some (split.1, split.2, test_treatment, test_target).

(** The loop of [fit] over the generator: [submissions] is what the
    generator yields, [ended] tells whether it then ends normally, [n]
    counts the training events done. *)
Fixpoint fit_loop (train test : DataFrame A) (roles : Roles)
    (submissions : list StageInfo) (ended : bool) (n : nat)
    (cache : Cache A Model) : option (Cache A Model) :=
  match submissions with
  | [] => if ended then Some cache else None
  | stage_info :: rest =>
      cache' ← _evaluate fit_predict predict cache stage_info train test roles;
      if time_limit_exceeded (S n) then Some cache'
      else fit_loop train test roles rest ended (S n) cache'
  end.

(** [AutoUpliftTX.fit] on a fresh object. [_calculate_ml_metric] receives
    [test_treatment, test_target] in this order. *)
Definition fit (self : Settings)
    (stage_baselearners : list (MLStageFullName * list BaseLearnerWrapper))
    (data : DataFrame A) (roles : Roles) : option (Fitted A Model) :=
  '(train_data, test_data, test_treatment, test_target) ←
    _prepare_data self data roles;
  let gen := _generate_stage_baselearner_candidates rand stage_baselearners in
  cache ← fit_loop train_data test_data roles gen.1
                   (bool_decide (is_Some gen.2)) 0 [];
  metrics ← _calculate_ml_metric calculate_uplift_auc
              (metric self) (normed_metric self)
              test_treatment test_target cache [];
  best ← _set_best_metalearner (increasing_metric self) cache metrics;
  Some {| trained_stage_baselearners := cache;
          metalearner_metrics := metrics;
          best_candidate := best.1.1;
          best_metalearner := best.1.2;
          best_metalearner_wrap := best.2 |}.
End Fit.

(* ===================================================================== *)
(** * Wrapper objects and [create_best_metalearner] *)
(* ===================================================================== *)

(** [update_baselearner_params] mutates wrapper objects that other
    references may share, so the wrappers live in a store: an object is
    named by its location, a parameter holds locations. *)
Definition loc := nat.

Inductive Item :=
  | IRef (l : loc)
  | IAtom (a : Atom).

Inductive Param :=
  | PItem (x : Item)
  | PList (xs : list Item).

(** A [MetaLearnerWrapper] object. *)
Record MetaObj := {
  mo_name : string;
  mo_klass : string;
  mo_params : list (string * Param)
}.

Inductive Obj :=
  | OBase (w : BaseLearnerWrapper)
  | OMeta (m : MetaObj).

Abbreviation Store := (list Obj).

(** A loop that threads a state and may raise. *)
Fixpoint mapM_st {S X Y : Type} (f : X → S → option (Y * S))
    (xs : list X) (s : S) : option (list Y * S) :=
  match xs with
  | [] => Some ([], s)
  | x :: xs' =>
      '(y, s1) ← f x s;
      '(ys, s2) ← mapM_st f xs' s1;
      Some (y :: ys, s2)
  end.

(** [copy.deepcopy]'s memo: original location ↦ copy. *)
Abbreviation Memo := (list (loc * loc)).

Definition copy_item (copy_loc : loc → Memo * Store → option (loc * (Memo * Store)))
    (x : Item) (s : Memo * Store) : option (Item * (Memo * Store)) :=
  match x with
  | IAtom a => Some (IAtom a, s)
  | IRef l => '(l', s') ← copy_loc l s; Some (IRef l', s')
  end.

Definition copy_param (copy_loc : loc → Memo * Store → option (loc * (Memo * Store)))
    (kp : string * Param) (s : Memo * Store)
  : option (string * Param * (Memo * Store)) :=
  match kp.2 with
  | PItem x => '(x', s') ← copy_item copy_loc x s; Some ((kp.1, PItem x'), s')
  | PList xs =>
      '(xs', s') ← mapM_st (copy_item copy_loc) xs s;
      Some ((kp.1, PList xs'), s')
  end.

(** The deep copy of the object at [l]: an object met before is shared
    through the memo, a new one is allocated at the end of the store. [fuel]
    bounds the nesting depth of wrappers. *)
Fixpoint deepcopy_loc (fuel : nat) (l : loc) (s : Memo * Store)
  : option (loc * (Memo * Store)) :=
  match dict_get l s.1 with
  | Some l' => Some (l', s)
  | None =>
      match fuel with
      | 0 => None
      | S fuel' =>
          o ← s.2 !! l;
          let l' := length s.2 in
          let s1 := (s.1 ++ [(l, l')], s.2 ++ [o]) in
          match o with
          | OBase w => Some (l', s1)
          | OMeta m =>
              '(ps, s2) ← mapM_st (copy_param (deepcopy_loc fuel'))
                                  (mo_params m) s1;
              Some (l', (s2.1,
                         <[l' := OMeta {| mo_name := mo_name m;
                                          mo_klass := mo_klass m;
                                          mo_params := ps |}]> s2.2))
          end
      end
  end.

(** [deepcopy(x)] for the wrapper at [l]. *)
Definition deepcopy (l : loc) (σ : Store) : option (loc * Store) :=
  '(l', s) ← deepcopy_loc (length σ) l ([], σ); Some (l', s.2).

(** [isinstance(v, BaseLearnerWrapper)]. *)
Definition is_baselearner (σ : Store) (x : Item) : option loc :=
  match x with
  | IRef l => match σ !! l with Some (OBase _) => Some l | _ => None end
  | IAtom _ => None
  end.

(** [x.update_params(d)] on the baselearner wrapper at [l]. *)
Definition update_params_at (l : loc) (d : list (string * Atom)) (σ : Store)
  : option Store :=
  match σ !! l with
  | Some (OBase w) => Some (<[l := OBase (update_params d w)]> σ)
  | _ => None
  end.

(** The body of [for x in v] in [update_baselearner_params]. *)
Definition update_list_item (d : list (string * Atom)) (x : Item) (σ : Store)
  : option (Item * Store) :=
  match is_baselearner σ x with
  | Some l => σ' ← update_params_at l d σ; Some (x, σ')
  | None => Some (x, σ)
  end.

(** The body of [for k, v in self.params.items()]. *)
Definition update_param (d : list (string * Atom))
    (s : list (string * Param) * Store) (kv : string * Param)
  : option (list (string * Param) * Store) :=
  let '(new_params, σ) := s in
  match kv.2 with
  | PItem v =>
      match is_baselearner σ v with
      | Some l =>
          '(v_t, σ1) ← deepcopy l σ;
          σ2 ← update_params_at l d σ1;
          Some (dict_set kv.1 (PItem (IRef v_t)) new_params, σ2)
      | None => Some (dict_set kv.1 (PItem v) new_params, σ)
      end
  | PList v =>
      '(vs_t, σ') ← mapM_st (update_list_item d) v σ;
      Some (dict_set kv.1 (PList vs_t) new_params, σ')
  end.

(** [MetaLearnerWrapper.update_baselearner_params] on the object at
    [self]. *)
Definition update_baselearner_params (self : loc) (d : list (string * Atom))
    (σ : Store) : option Store :=
  match σ !! self with
  | Some (OMeta m) =>
      '(new_params, σ') ← foldlM (update_param d) ([], σ) (mo_params m);
      Some (<[self := OMeta {| mo_name := mo_name m; mo_klass := mo_klass m;
                               mo_params := new_params |}]> σ')
  | _ => None
  end.

(** [create_best_metalearner] up to the wrapper [ml_wrap] that is then
    instantiated: [n_trained] is [len(self._trained_stage_baselearners)],
    [best_wrap] the location of [self._best_metalearner_wrap]. *)
Definition create_best_metalearner (n_trained : nat) (best_wrap : loc)
    (update_metalearner_params : list (string * Atom)) (σ : Store)
  : option (loc * Store) :=
  if decide (n_trained = 0) then None
  else
    '(ml_wrap, σ1) ← deepcopy best_wrap σ;
    match update_metalearner_params with
    | [] => Some (ml_wrap, σ1)
    | _ :: _ =>
        σ2 ← update_baselearner_params ml_wrap update_metalearner_params σ1;
        Some (ml_wrap, σ2)
    end.

(** The store that holds a wrapper built by [_create_metalearner_wrap]:
    every baselearner wrapper it names is an object of its own. *)
Definition alloc_wparam (s : list (string * Param) * Store)
    (kp : string * WParam) : list (string * Param) * Store :=
  match kp.2 with
  | WOne w =>
      (s.1 ++ [(kp.1, PItem (IRef (length s.2)))], s.2 ++ [OBase w])
  | WList ws =>
      (s.1 ++ [(kp.1, PList (IRef <$> seq (length s.2) (length ws)))],
       s.2 ++ (OBase <$> ws))
  end.

Definition alloc_wrapper (w : MetaLearnerWrapper) (σ : Store) : loc * Store :=
  let s := foldl alloc_wparam ([], σ) (ml_params w) in
  (length s.2,
   s.2 ++ [OMeta {| mo_name := ml_name w; mo_klass := ml_klass w;
                    mo_params := s.1 |}]).

(** The wrapper at [l] with the baselearner wrappers it names read from the
    store. *)
Definition read_base (σ : Store) (x : Item) : option BaseLearnerWrapper :=
  match x with
  | IRef l => match σ !! l with Some (OBase w) => Some w | _ => None end
  | IAtom _ => None
  end.

Definition read_wparam (σ : Store) (kp : string * Param)
  : option (string * WParam) :=
  match kp.2 with
  | PItem x => w ← read_base σ x; Some (kp.1, WOne w)
  | PList xs => ws ← mapM (read_base σ) xs; Some (kp.1, WList ws)
  end.

Definition read_wrapper (σ : Store) (l : loc) : option MetaLearnerWrapper :=
  match σ !! l with
  | Some (OMeta m) =>
      ps ← mapM (read_wparam σ) (mo_params m);
      Some {| ml_name := mo_name m; ml_klass := mo_klass m; ml_params := ps |}
  | _ => None
  end.

(* ===================================================================== *)
(** * Concrete configurations *)
(* ===================================================================== *)

(** A two-stage assignment over integer predictions. *)
Definition example_record (n : string) (p : list Z)
  : TrainedStageBaseLearner Z unit :=
  {| stage_bl := {| name := n; klass := "TabularAutoML"; params := [] |};
     prev_stage_bl := None; trained_model := tt; pred := p |}.

Definition example_t_assignment : StageBls Z unit :=
  [ (["outcome_control"], example_record "A" [1; 2; 3]%Z);
    (["outcome_treatment"], example_record "B" [5; 5; 5]%Z) ].


(** A score table with a tie for the highest score. *)
Definition example_scores : ScoreTable Z :=
  [ (("TLearner", [(["outcome_control"], "A"); (["outcome_treatment"], "A")]), 3%Z);
    (("TLearner", [(["outcome_control"], "A"); (["outcome_treatment"], "B")]), 7%Z);
    (("TLearner", [(["outcome_control"], "B"); (["outcome_treatment"], "A")]), 5%Z);
    (("TLearner", [(["outcome_control"], "B"); (["outcome_treatment"], "B")]), 7%Z) ].

(** A training frame with a feature ["x"], the treatment ["t"] and the
    target ["y"], and its roles. *)
Definition example_roles : Roles :=
  <["treatment" := "t"]> (<["target" := "y"]> ∅).

Definition example_row (x t y : Z) : gmap string Z :=
  <["x" := x]> (<["t" := t]> (<["y" := y]> ∅)).

Definition example_train : DataFrame Z :=
  [ example_row 10 0 1; example_row 20 1 0;
    example_row 30 0 0; example_row 40 1 1 ].

(** A stand-in for the external engine: the trained model is the name of
    its wrapper, it predicts the feature ["x"] of every row. *)
Definition example_fit_predict (bl : BaseLearnerWrapper) (_ : DataFrame Z)
    (_ : Roles) : string :=
  name bl.

Definition example_predict (_ : string) (df : DataFrame Z) : list Z :=
  (λ row : gmap string Z, default 0%Z (row !! "x")) <$> df.

Definition example_bl (n : string) : BaseLearnerWrapper :=
  {| name := n; klass := "TabularAutoML"; params := [("timeout", AInt 10)] |}.

(** A cache holding one [outcome_treatment] record. *)
Definition example_cache : Cache Z string :=
  [ (["outcome_treatment"],
     [ {| stage_bl := example_bl "A"; prev_stage_bl := None;
          trained_model := "A"; pred := [] |} ]) ].

Definition effect_control_stage : MetaLearnerStage :=
  mkStage "effect_control" [("task", ATask "reg")]
          (Some (stage "outcome_treatment")).

(** A cache with two [outcome_control] candidates and [effect_treatment]
    records trained against each of them. *)
Definition example_trained (n : string) (prev : option string) (p : list Z)
  : TrainedStageBaseLearner Z string :=
  {| stage_bl := example_bl n; prev_stage_bl := example_bl <$> prev;
     trained_model := n; pred := p |}.

Definition example_full_cache : Cache Z string :=
  [ (["outcome_control"],
     [example_trained "A" None [1; 2]%Z; example_trained "B" None [2; 1]%Z]);
    (["outcome_treatment"], [example_trained "A" None [3; 3]%Z]);
    (["propensity"], [example_trained "A" None [1; 0]%Z]);
    (["outcome_control"; "effect_treatment"],
     [example_trained "A" (Some "A") [4; 4]%Z;
      example_trained "A" (Some "B") [5; 5]%Z]);
    (["outcome_treatment"; "effect_control"],
     [example_trained "A" (Some "A") [6; 6]%Z]) ].

Definition example_yielded : list (list (string * StageBls Z string)) :=
  default [] (_bl_for_ml example_full_cache).

Definition example_first_yield : list (string * StageBls Z string) :=
  default [] (example_yielded !! 1).

(** Two candidates for every stage. *)
Definition example_candidates : list (MLStageFullName * list BaseLearnerWrapper) :=
  [ (["outcome_control"], [example_bl "A"; example_bl "B"]);
    (["outcome_treatment"], [example_bl "A"; example_bl "B"]);
    (["propensity"], [example_bl "A"; example_bl "B"]);
    (["outcome_treatment"; "effect_control"], [example_bl "A"; example_bl "B"]);
    (["outcome_control"; "effect_treatment"], [example_bl "A"; example_bl "B"]) ].

(** No candidate for [outcome_control]. *)
Definition example_empty_stage : list (MLStageFullName * list BaseLearnerWrapper) :=
  [ (["outcome_control"], []);
    (["outcome_treatment"], [example_bl "A"]);
    (["propensity"], [example_bl "A"]);
    (["outcome_treatment"; "effect_control"], [example_bl "A"]);
    (["outcome_control"; "effect_treatment"], [example_bl "A"]) ].

Definition example_settings : Settings :=
  {| metric := "adj_qini"; normed_metric := true; increasing_metric := true;
     random_state := 42 |}.

(** Stand-ins for the metric, the split (train and test are the whole
    frame) and a timer without budget. *)
Definition example_metric (_ uplift_pred _ : list Z) (_ : string) (_ : bool) : Z :=
  foldr Z.add 0%Z uplift_pred.

Definition example_split (data : DataFrame Z) (_ : list Z) (_ : nat)
  : DataFrame Z * DataFrame Z :=
  (data, data).

Definition no_time_limit (_ : nat) : bool := false.

(** A timer whose budget is exceeded from the [n]-th training event on. *)
Definition time_limit_after (n : nat) (done : nat) : bool :=
  bool_decide (n ≤ done).

(** [fit] with the stand-ins, the timer and the draws of [np.random] left
    open. *)
Definition example_fit (time_limit_exceeded : nat → bool) (rand : nat → nat)
    (stage_baselearners : list (MLStageFullName * list BaseLearnerWrapper))
  : option (Fitted Z string) :=
  fit example_fit_predict example_predict example_metric example_split
      time_limit_exceeded rand example_settings stage_baselearners
      example_train example_roles.

(** The names of the baselearners cached for a stage by a run of [fit]. *)
Definition cached_names (key : MLStageFullName)
    (fitted : option (Fitted Z string)) : option (list string) :=
  match fitted with
  | Some f =>
      fmap (M:=list) (λ r : TrainedStageBaseLearner Z string, name (stage_bl r))
        <$> dict_get key (trained_stage_baselearners f)
  | None => None
  end.

(** The stage names and baselearner names of a submission. *)
Definition submission_names (stage_info : StageInfo)
  : list (string * option string) :=
  (λ p : MetaLearnerStage * option BaseLearnerWrapper,
     (stage_name p.1, name <$> p.2)) <$> stage_info.

(** The wrapper of an [XLearner] as [_create_metalearner_wrap] builds it. *)
Definition example_x_wrap : MetaLearnerWrapper :=
  {| ml_name := "__ML__XLearner"; ml_klass := "XLearner";
     ml_params :=
       [ ("outcome_learners", WList [example_bl "A"; example_bl "B"]);
         ("effect_learners", WList [example_bl "C"; example_bl "D"]);
         ("propensity_learner", WOne (example_bl "P")) ] |}.

(** The same baselearner with the timeout lifted. *)
Definition example_bl_updated (n : string) : BaseLearnerWrapper :=
  {| name := n; klass := "TabularAutoML"; params := [("timeout", ANone)] |}.

(** The state left by [fit] on the two-candidate configuration without
    time limit. *)
Definition example_fitted : Fitted Z string :=
  default {| trained_stage_baselearners := [];
             metalearner_metrics := [];
             best_candidate := ("", []);
             best_metalearner := TLearner "" "";
             best_metalearner_wrap :=
               {| ml_name := ""; ml_klass := ""; ml_params := [] |} |}
          (example_fit no_time_limit (λ _, 0) example_candidates).

(** The cache after the first [n] training events of that configuration. *)
Definition example_cache_after (n : nat) : Cache Z string :=
  default []
    (foldlM (λ c si, _evaluate example_fit_predict example_predict c si
                               example_train example_train example_roles)
            []
            (take n (_generate_stage_baselearner_candidates
                       (λ _, 0) example_candidates).1)).

(* ===================================================================== *)
(** * Notions used to state the properties *)
(* ===================================================================== *)

(** The identity of a training event: the stage full name, the display name
    of the candidate and, for a second-level stage, the display name of the
    prerequisite candidate. *)
Definition SubmissionKey : Type := MLStageFullName * (string * option string).

(** The identity of a submission whose baselearners are all present. *)
Definition submission_key (stage_info : StageInfo) : option SubmissionKey :=
  match stage_info with
  | [(ml_stage, Some bl)] => Some (full_name ml_stage, (name bl, None))
  | [(_, Some prev_bl); (ml_stage, Some bl)] =>
      Some (full_name ml_stage, (name bl, Some (name prev_bl)))
  | _ => None
  end.

(** The candidate name and prerequisite candidate name of a record. *)
Definition record_key {A Model : Type} (r : TrainedStageBaseLearner A Model)
  : string * option string :=
  (name (stage_bl r), name <$> prev_stage_bl r).

(** The submissions a pool entry can still give rise to. *)
Definition entry_keys (e : PoolEntry) : list SubmissionKey :=
  match pe_bl_l1 e with
  | Some bl_l1 =>
      (λ bl_l2, (pe_stage e, (name bl_l2, Some (name bl_l1)))) <$> pe_iter e
  | None => []
  end.

Definition pool_keys (pool : list PoolEntry) : list SubmissionKey :=
  pool ≫= entry_keys.

(** The submissions a first-level pair gives rise to: its own and those of
    the pool entries it unlocks. *)
Definition item_keys
    (stage_baselearners : list (MLStageFullName * list BaseLearnerWrapper))
    (item : MLStageFullName * option BaseLearnerWrapper) : list SubmissionKey :=
  match item.2 with
  | Some bl =>
      (item.1, (name bl, None))
        :: pool_keys (unlocked stage_baselearners item.1 (Some bl))
  | None => []
  end.

(** The identities of what a run of the generator has yielded, with those
    the pool it stopped with can still give. *)
Definition out_keys (out : GenOut) : list SubmissionKey :=
  omap submission_key out.1 ++ from_option (λ st, pool_keys (pool st)) [] out.2.

(** The two shapes of a submission: a first-level stage with its candidate,
    or a second-level stage with its candidate after the first-level pair it
    depends on. *)
Definition level1_shape (stage_info : StageInfo) : Prop :=
  ∃ key ml_stage bl,
    length key = 1 ∧ _extract_stage key = Some ml_stage
    ∧ stage_info = [(ml_stage, bl)].

Definition level2_shape (stage_info : StageInfo) : Prop :=
  ∃ key prev_ml_stage prev_bl ml_stage bl,
    length key = 2 ∧ _extract_stage (prefix1 key) = Some prev_ml_stage
    ∧ _extract_stage key = Some ml_stage
    ∧ stage_info = [(prev_ml_stage, prev_bl); (ml_stage, Some bl)].

(** Every entry of the pool is for a second-level stage. *)
Definition pool_level2 (pool : list PoolEntry) : Prop :=
  Forall (λ e, length (pe_stage e) = 2) pool.

(** What the generator has yielded has one of the two shapes, and the pool
    it stopped with is for second-level stages. *)
Definition out_shaped (out : GenOut) : Prop :=
  Forall (λ si, level1_shape si ∨ level2_shape si) out.1
  ∧ from_option (λ st, pool_level2 (pool st)) True out.2.

(** The identities of the records of a cache, stage by stage. *)
Definition cache_keys {A Model : Type} (cache : Cache A Model)
  : list SubmissionKey :=
  cache ≫= λ kr, (λ r, (kr.1, record_key r)) <$> kr.2.

(** A well-formed cache: every stage is a key once and has a record; the
    predictions of a record satisfy [P], and a record of a first-level
    stage has no prerequisite baselearner. *)
Definition cache_wf {A Model : Type} (P : list A → Prop) (cache : Cache A Model)
  : Prop :=
  NoDup cache.*1
  ∧ ∀ key records, (key, records) ∈ cache →
      records ≠ []
      ∧ ∀ r, r ∈ records →
          P (pred r) ∧ (length key = 1 → prev_stage_bl r = None).

(** [set_bls] holds, stage by stage, one of the records the cache has for
    the stage. *)
Definition chosen_from {A Model : Type} (cache : Cache A Model)
    (set_bls : StageBls A Model) : Prop :=
  Forall2 (λ kr sr, sr.1 = kr.1 ∧ sr.2 ∈ kr.2) cache set_bls.

(** A metalearner has a trained record for each of its stages. *)
Definition ready {A Model : Type} (cache : Cache A Model)
    (ml_stages : list MetaLearnerStage) : Prop :=
  ∀ ml_stage, ml_stage ∈ ml_stages →
    is_Some (dict_get (full_name ml_stage) cache).

(** An entry of the score table names, for every stage of its metalearner,
    a baselearner that has a record in the cache for this stage. *)
Definition assembled_from {A Model : Type} (cache : Cache A Model)
    (entry : TrainedMetaLearnerFullName) : Prop :=
  NoDup entry.2.*1
  ∧ ∃ ml_stages,
      (entry.1, ml_stages) ∈ MAP_META_TO_STAGES
      ∧ ∀ ml_stage, ml_stage ∈ ml_stages →
          ∃ records r,
            dict_get (full_name ml_stage) cache = Some records
            ∧ r ∈ records
            ∧ (full_name ml_stage, name (stage_bl r)) ∈ entry.2.

(* ===================================================================== *)
(** * Notions used to state the properties of the scheduler *)
(* ===================================================================== *)

(** The submissions a pool entry still gives rise to: one for each
    candidate left in its iterator. *)
Definition entry_infos (e : PoolEntry) : list StageInfo :=
  match _extract_stage (prefix1 (pe_stage e)), _extract_stage (pe_stage e) with
  | Some stage_l1, Some stage_l2 =>
      (λ bl_l2, [(stage_l1, pe_bl_l1 e); (stage_l2, Some bl_l2)]) <$> pe_iter e
  | _, _ => []
  end.

Definition pool_infos (pool : list PoolEntry) : list StageInfo :=
  pool ≫= entry_infos.

(** The submissions a first-level pair gives rise to: its own, and one for
    every candidate of every second-level stage that follows its stage. *)
Definition item_infos
    (stage_baselearners : list (MLStageFullName * list BaseLearnerWrapper))
    (item : MLStageFullName * option BaseLearnerWrapper) : list StageInfo :=
  match _extract_stage item.1 with
  | Some stage_l1 =>
      [(stage_l1, item.2)]
        :: pool_infos (unlocked stage_baselearners item.1 item.2)
  | None => []
  end.

(** All the submissions of a stage dictionary, first-level pair by
    first-level pair. *)
Definition all_submissions
    (stage_baselearners : list (MLStageFullName * list BaseLearnerWrapper))
  : list StageInfo :=
  level1_items stage_baselearners ≫= item_infos stage_baselearners.

(** The stages of every pool entry are stages of [__MAP_META_TO_STAGES__]. *)
Definition pool_known (pool : list PoolEntry) : Prop :=
  Forall (λ e, is_Some (_extract_stage (prefix1 (pe_stage e)))
               ∧ is_Some (_extract_stage (pe_stage e))) pool.

(** Every second-level submission of [ys] comes after the first-level
    submission of the pair it depends on, in [seen] or in [ys] itself. *)
Definition prerequisites_first (seen ys : list StageInfo) : Prop :=
  ∀ pre prev_ml_stage prev_bl ml_stage bl post,
    ys = pre ++ [(prev_ml_stage, prev_bl); (ml_stage, bl)] :: post →
    [(prev_ml_stage, prev_bl)] ∈ seen ++ pre.

(** The first-level submission of every pool entry is in [seen]. *)
Definition pool_backed (seen : list StageInfo) (pool : list PoolEntry) : Prop :=
  ∀ e stage_l1, e ∈ pool →
    _extract_stage (prefix1 (pe_stage e)) = Some stage_l1 →
    [(stage_l1, pe_bl_l1 e)] ∈ seen.

(** The cache holds a trained model for the first-level pair of every
    submission of [seen] that has one stage and a candidate. *)
Definition cache_backs {A Model : Type} (seen : list StageInfo)
    (cache : Cache A Model) : Prop :=
  ∀ ml_stage bl, [(ml_stage, Some bl)] ∈ seen →
    is_Some (prev_trained_model cache ml_stage bl).

(** Every pair of a submission has its candidate: none is the fill value
    of [zip_longest]. *)
Definition candidates_present (stage_info : StageInfo) : Prop :=
  Forall (λ p : MetaLearnerStage * option BaseLearnerWrapper, is_Some p.2)
         stage_info.

Definition propensity_stage : MetaLearnerStage :=
  mkStage "propensity" [("task", ATask "binary")] None.

Definition effect_treatment_stage : MetaLearnerStage :=
  mkStage "effect_treatment" [("task", ATask "reg")]
          (Some (stage "outcome_control")).

(** The generator's run on the two-candidate configuration when every draw
    of [np.random] gives index 0. *)
Definition example_run : GenOut :=
  _generate_stage_baselearner_candidates (λ _, 0) example_candidates.

(* ===================================================================== *)
(** * Default candidates: [_set_stage_baselearners] *)
(* ===================================================================== *)

(** The argument [baselearners] of [AutoUpliftTX]: [None], a list of
    baselearners, or a dictionary from stage full names to baselearners. *)
Inductive BaselearnersArg :=
  | NoBaselearners
  | ListOfBaselearners (l : list BaseLearnerWrapper)
  | StageBaselearners (d : list (MLStageFullName * list BaseLearnerWrapper)).

(** The attributes of an [AutoUpliftTX] object read when the candidates
    are set up. A timeout is an integer number of seconds. *)
Record AutoUpliftTX := {
  base_task : Atom;
  baselearners : BaselearnersArg;
  metalearners : list string;
  timeout : option Z;
  timeout_single_learner : option Z
}.


(** [_calculate_single_bl_timeout]. [int(self.timeout / k)] is the
    quotient truncated towards zero (the float division is exact enough
    for any timeout below [2^50]); [k = 0] raises [ZeroDivisionError]. The
    outer [option] is the exception, the inner one Python's [None]. *)
Definition _calculate_single_bl_timeout (self : AutoUpliftTX)
    (specify_stages : bool) : option (option Z) :=
  if negb specify_stages then
    match timeout self with
    | Some t =>
        let k := (2 * Z.b2z (bool_decide ("TLearner" ∈ metalearners self))
                  + 5 * Z.b2z (bool_decide ("XLearner" ∈ metalearners self)))%Z in
        if decide (k = 0%Z) then None else Some (Some (Z.quot t k))
    | None => Some (timeout_single_learner self)
    end
  else Some (timeout_single_learner self).

(** [__default_learners]. *)
Definition __default_learners (lin_params tab_params : list (string * Atom))
  : list BaseLearnerWrapper :=
  [ {| name := "__Linear__"; klass := "create_linear_automl";
       params := lin_params |};
    {| name := "__Tabular__"; klass := "TabularAutoML";
       params := tab_params |} ].

(** An optional integer as a parameter value. *)
Definition opt_atom (t : option Z) : Atom :=
  match t with Some z => AInt z | None => ANone end.

(** [task.name]; a value that is not a [Task] has no such attribute. *)
Definition task_name (a : Atom) : option string :=
  match a with ATask n => Some n | _ => None end.

(** The body of [for bl in baselearners]: the lists [bin_baselearners],
    [reg_baselearners] and [raw_baselearners]. A baselearner with a
    ['reg'] task is appended to [bin_baselearners]. *)
Definition classify_baselearner
    (acc : list BaseLearnerWrapper * list BaseLearnerWrapper
           * list BaseLearnerWrapper)
    (bl : BaseLearnerWrapper)
  : option (list BaseLearnerWrapper * list BaseLearnerWrapper
            * list BaseLearnerWrapper) :=
  let '(bin_baselearners, reg_baselearners, raw_baselearners) := acc in
  match dict_get "task" (params bl) with
  | Some task =>
      n ← task_name task;
      let bin1 := if decide (n = "binary") then bin_baselearners ++ [bl]
                  else bin_baselearners in
      let bin2 := if decide (n = "reg") then bin1 ++ [bl] else bin1 in
      Some (bin2, reg_baselearners, raw_baselearners)
  | None => Some (bin_baselearners, reg_baselearners, raw_baselearners ++ [bl])
  end.

(** [filled_baselearners[idx].params['task'] = stage_task]. *)
Definition fill_task (stage_task : Atom) (bl : BaseLearnerWrapper)
  : BaseLearnerWrapper :=
  {| name := name bl; klass := klass bl;
     params := dict_set "task" stage_task (params bl) |}.

(** The body of [for full_name in remain_stages_full_names]. *)
Definition fill_stage (self : AutoUpliftTX)
    (bin_baselearners raw_baselearners : list BaseLearnerWrapper)
    (stage_baselearners : list (MLStageFullName * list BaseLearnerWrapper))
    (full_name : MLStageFullName)
  : option (list (MLStageFullName * list BaseLearnerWrapper)) :=
  stage ← _extract_stage full_name;
  let stage_task :=
    default (base_task self) (dict_get "task" (stage_params stage)) in
  let filled_baselearners := fill_task stage_task <$> raw_baselearners in
  n ← task_name stage_task;
  let baselearners_on_stage :=
    if decide (n = "binary") then filled_baselearners ++ bin_baselearners
    else if decide (n = "reg") then filled_baselearners ++ bin_baselearners
    else filled_baselearners in
  Some (dict_set full_name baselearners_on_stage stage_baselearners).

(** [all_stages_full_names], a set: its elements without repetition. *)
Definition all_stages_full_names : list MLStageFullName :=
  remove_dups (full_name <$> (MAP_META_TO_STAGES ≫= snd)).

Section SetStageBaselearners.
(** The order in which Python iterates over a set of stage names; it
    depends on the hashes of the strings, which change from one process to
    the next. *)
Variable set_order : list MLStageFullName → list MLStageFullName.

(** [_set_stage_baselearners]. For a dictionary argument the returned
    dictionary is the argument itself, with the missing stages added. *)
Definition _set_stage_baselearners (self : AutoUpliftTX)
  : option (list (MLStageFullName * list BaseLearnerWrapper)) :=
  let baselearners0 :=
    match baselearners self with ListOfBaselearners l => l | _ => [] end in
  let stage_baselearners :=
    match baselearners self with StageBaselearners d => d | _ => [] end in
  if decide (length stage_baselearners ≠ length all_stages_full_names) then
    timeout ← _calculate_single_bl_timeout self
                (bool_decide (0 < length stage_baselearners));
    let baselearners1 :=
      __default_learners [] [("timeout", opt_atom timeout)] in
    let remain_stages_full_names :=
      set_order (filter (λ fn, fn ∉ stage_baselearners.*1)
                        all_stages_full_names) in
    '(bin_baselearners, _, raw_baselearners) ←
      foldlM classify_baselearner ([], [], []) baselearners1;
    foldlM (fill_stage self bin_baselearners raw_baselearners)
           stage_baselearners remain_stages_full_names
  else Some stage_baselearners.
End SetStageBaselearners.

(** The two default candidates of a stage with task [stage_task]. *)
Definition default_candidates (timeout : option Z) (stage_task : Atom)
  : list BaseLearnerWrapper :=
  [ {| name := "__Linear__"; klass := "create_linear_automl";
       params := [("task", stage_task)] |};
    {| name := "__Tabular__"; klass := "TabularAutoML";
       params := [("timeout", opt_atom timeout); ("task", stage_task)] |} ].

(** The task of a stage: its own parameter, or the base task. *)
Definition task_of_stage (base_task : Atom) (key : MLStageFullName) : Atom :=
  match _extract_stage key with
  | Some stage => default base_task (dict_get "task" (stage_params stage))
  | None => base_task
  end.

(** The stage dictionary of default candidates with its keys in the order
    [order]. *)
Definition default_stage_baselearners (timeout : option Z) (base_task : Atom)
    (order : list MLStageFullName)
  : list (MLStageFullName * list BaseLearnerWrapper) :=
  (λ key, (key, default_candidates timeout (task_of_stage base_task key)))
    <$> order.

(* ===================================================================== *)
(** * [AutoUplift]: the greedy search over uplift candidates *)
(* ===================================================================== *)

Module AutoUplift.
Section GreedySearch.
Context {A : Type} `{Numeric A} {Candidate Model : Type}.

(** The external parts: [metalearner = candidate_info();
    metalearner.fit(train_data, roles)] gives the fitted metalearner,
    [metalearner.predict(test_data)[0].ravel()] its uplift predictions. *)
Variable fit_candidate : Candidate → DataFrame A → Roles → Model.
Variable predict_uplift : Model → DataFrame A → list A.
Variable calculate_uplift_auc :
  list A → list A → list A → string → bool → A.
Variable train_test_split :
  DataFrame A → list A → nat → DataFrame A * DataFrame A.

(** [time_limit_exceeded n] is the answer of the timer's check after the
    [n]-th candidate. *)
Variable time_limit_exceeded : nat → bool.

(** The variables of the loop of [fit]. *)
Record SearchState := {
  candidate_holdout_metrics : list (option A);
  best_metalearner : option Model;
  best_metalearner_candidate_info : option Candidate;
  max_metric_value : A
}.

(** The body of [for idx_candidate, candidate_info in enumerate(...)], up
    to the check of the timer. *)
Definition evaluate_candidate (self : Settings)
    (train_data test_data : DataFrame A) (roles : Roles)
    (test_treatment test_target : list A)
    (idx_candidate : nat) (candidate_info : Candidate) (s : SearchState)
  : SearchState :=
  let metalearner := fit_candidate candidate_info train_data roles in
  let uplift_pred := predict_uplift metalearner test_data in
  let metric_value :=
    calculate_uplift_auc test_target uplift_pred test_treatment
                         (metric self) (normed_metric self) in
  let holdout :=
    <[idx_candidate := Some metric_value]> (candidate_holdout_metrics s) in
  match best_metalearner_candidate_info s with
  | None =>
      {| candidate_holdout_metrics := holdout;
         best_metalearner := Some metalearner;
         best_metalearner_candidate_info := Some candidate_info;
         max_metric_value := max_metric_value s |}
  | Some _ =>
      if num_ltb (max_metric_value s) metric_value then
        {| candidate_holdout_metrics := holdout;
           best_metalearner := Some metalearner;
           best_metalearner_candidate_info := Some candidate_info;
           max_metric_value := metric_value |}
      else
        {| candidate_holdout_metrics := holdout;
           best_metalearner := best_metalearner s;
           best_metalearner_candidate_info :=
             best_metalearner_candidate_info s;
           max_metric_value := max_metric_value s |}
  end.

(** The held-out metric of a candidate, [metric_value]. *)
Definition candidate_metric (self : Settings)
    (train_data test_data : DataFrame A) (roles : Roles)
    (test_treatment test_target : list A) (candidate_info : Candidate) : A :=
  calculate_uplift_auc test_target
    (predict_uplift (fit_candidate candidate_info train_data roles) test_data)
    test_treatment (metric self) (normed_metric self).

(** The loop over the candidates, with its [break]. *)
Fixpoint search (self : Settings)
    (train_data test_data : DataFrame A) (roles : Roles)
    (test_treatment test_target : list A)
    (uplift_candidates : list Candidate) (idx_candidate : nat)
    (s : SearchState) : SearchState :=
  match uplift_candidates with
  | [] => s
  | candidate_info :: rest =>
      let s' := evaluate_candidate self train_data test_data roles
                  test_treatment test_target idx_candidate candidate_info s in
      if time_limit_exceeded (S idx_candidate) then s'
      else search self train_data test_data roles test_treatment test_target
                  rest (S idx_candidate) s'
  end.

(** [AutoUplift.fit] for a non-empty list of candidates (the default
    candidates of an empty list are built from classes outside this
    module). *)
Definition fit (self : Settings) (uplift_candidates : list Candidate)
    (data : DataFrame A) (roles : Roles) : option SearchState :=
  '(train_data, test_data, test_treatment, test_target) ←
    _prepare_data train_test_split self data roles;
  Some (search self train_data test_data roles test_treatment test_target
               uplift_candidates 0
               {| candidate_holdout_metrics :=
                    replicate (length uplift_candidates) None;
                  best_metalearner := None;
                  best_metalearner_candidate_info := None;
                  max_metric_value := num_of_Z 0 |}).
End GreedySearch.
End AutoUplift.

(** The number of candidates the loop of [AutoUplift.fit] evaluates out of
    [n], when [idx] were evaluated before. *)
Fixpoint candidates_evaluated (time_limit_exceeded : nat → bool)
    (idx n : nat) : nat :=
  match n with
  | 0 => 0
  | S n' =>
      if time_limit_exceeded (S idx) then 1
      else S (candidates_evaluated time_limit_exceeded (S idx) n')
  end.

(** The candidate the greedy search has chosen after it evaluated the
    candidates [first :: rest], whose metrics are given by [score]: the
    first candidate as long as no later one scores above zero, otherwise
    the first of the later candidates with the highest score. *)
Definition greedy_choice {A Candidate : Type} `{Numeric A}
    (score : Candidate → A) (first : Candidate) (rest : list Candidate)
    (best : Candidate) (max_metric_value : A) : Prop :=
  (Forall (λ c, num_ltb (num_of_Z 0) (score c) = false) rest
   ∧ best = first ∧ max_metric_value = num_of_Z 0)
  ∨ ∃ pre post,
      rest = pre ++ best :: post
      ∧ max_metric_value = score best
      ∧ num_ltb (num_of_Z 0) (score best) = true
      ∧ (∀ x, x ∈ pre → num_ltb (score x) (score best) = true)
      ∧ (∀ x, x ∈ post → num_ltb (score best) (score x) = false).

(* ===================================================================== *)
(** * [Wrapper.__call__] *)
(* ===================================================================== *)

(** The values a wrapper's parameter can hold: a plain value, a wrapper
    with parameters of its own, a list, a dictionary with string keys, a
    tuple (which stands for every other container), or an object built by
    a call of [klass] with keyword arguments. *)
#[warnings="-register-all"]
Inductive PyValue :=
  | VAtom (a : Atom)
  | VWrapper (w_name w_klass : string) (w_params : list (string * PyValue))
  | VList (xs : list PyValue)
  | VDict (kvs : list (string * PyValue))
  | VTuple (xs : list PyValue)
  | VObject (o_klass : string) (o_kwargs : list (string * PyValue)).

(** [_init] of [Wrapper.__call__], with [x()] for a wrapper [x]: the
    parameters are initialised and handed to [klass]. The deep copy of an
    initialised parameter is the value itself. *)
Fixpoint _init (x : PyValue) : PyValue :=
  match x with
  | VWrapper _ w_klass w_params =>
      VObject w_klass
        ((fix init_params (ps : list (string * PyValue)) :=
            match ps with
            | [] => []
            | (k, v) :: ps' => (k, _init v) :: init_params ps'
            end) w_params)
  | VList xs =>
      VList ((fix init_elems (xs : list PyValue) :=
                match xs with
                | [] => []
                | elem :: xs' => _init elem :: init_elems xs'
                end) xs)
  | VDict kvs =>
      VDict ((fix init_items (kvs : list (string * PyValue)) :=
                match kvs with
                | [] => []
                | (k, v) :: kvs' => (k, _init v) :: init_items kvs'
                end) kvs)
  | _ => x
  end.

(** [Wrapper.__call__] on the wrapper with the given name, class and
    parameters. *)
Definition Wrapper_call (w_name w_klass : string)
    (w_params : list (string * PyValue)) : PyValue :=
  VObject w_klass ((λ kv, (kv.1, _init kv.2)) <$> w_params).

(** No wrapper is left in a value, at any depth. *)
Fixpoint wrapper_free (x : PyValue) : bool :=
  match x with
  | VAtom _ => true
  | VWrapper _ _ _ => false
  | VList xs | VTuple xs =>
      (fix all_free (xs : list PyValue) :=
         match xs with
         | [] => true
         | elem :: xs' => wrapper_free elem && all_free xs'
         end) xs
  | VDict kvs | VObject _ kvs =>
      (fix all_free (kvs : list (string * PyValue)) :=
         match kvs with
         | [] => true
         | (_, v) :: kvs' => wrapper_free v && all_free kvs'
         end) kvs
  end.

(** A value whose wrappers are all reached through wrappers' parameters,
    lists and dictionaries: no tuple and no built object in it holds a
    wrapper. *)
Fixpoint reachable_wrappers (x : PyValue) : bool :=
  match x with
  | VAtom _ => true
  | VWrapper _ _ kvs | VDict kvs =>
      (fix all_reachable (kvs : list (string * PyValue)) :=
         match kvs with
         | [] => true
         | (_, v) :: kvs' => reachable_wrappers v && all_reachable kvs'
         end) kvs
  | VList xs =>
      (fix all_reachable (xs : list PyValue) :=
         match xs with
         | [] => true
         | elem :: xs' => reachable_wrappers elem && all_reachable xs'
         end) xs
  | VTuple _ | VObject _ _ => wrapper_free x
  end.

(* ===================================================================== *)
(** * Notions used to state the properties of the store *)
(* ===================================================================== *)

(** Every object an item, or a parameter, refers to satisfies [Q]. *)
Definition item_refs (Q : loc → Prop) (x : Item) : Prop :=
  match x with
  | IRef l => Q l
  | IAtom _ => True
  end.

Definition param_refs (Q : loc → Prop) (p : Param) : Prop :=
  match p with
  | PItem x => item_refs Q x
  | PList xs => Forall (item_refs Q) xs
  end.

(** An item, or a parameter, that refers to no object below [base]. *)
Definition item_above (base : nat) (x : Item) : Prop :=
  item_refs (λ l, base ≤ l) x.

Definition param_above (base : nat) (p : Param) : Prop :=
  param_refs (λ l, base ≤ l) p.

(** A state of [copy.deepcopy] that has left the objects below [base] as
    they were in [σ] and whose memo maps to copies, which are not below
    [base]. *)
Definition copy_above (base : nat) (σ : Store) (s : Memo * Store) : Prop :=
  take base s.2 = take base σ
  ∧ base ≤ length s.2
  ∧ Forall (λ p : loc * loc, base ≤ p.2) s.1.

(* ===================================================================== *)
(** * Further concrete configurations *)
(* ===================================================================== *)

(** Candidates for the two outcome stages only: [fit] can select nothing
    but a [TLearner]. *)
Definition example_outcome_candidates
  : list (MLStageFullName * list BaseLearnerWrapper) :=
  [ (["outcome_control"], [example_bl "A"; example_bl "B"]);
    (["outcome_treatment"], [example_bl "A"; example_bl "B"]) ].

Definition example_outcome_fitted : Fitted Z string :=
  default example_fitted
          (example_fit no_time_limit (λ _, 0) example_outcome_candidates).

(** The cache after the first training event of the two-candidate
    configuration. *)
Definition example_first_event : Cache Z string :=
  default []
    (_evaluate example_fit_predict example_predict []
               [(stage "outcome_control", Some (example_bl "A"))]
               example_train example_train example_roles).

(** [AutoUpliftTX] objects: without baselearners and with a global
    timeout of 100 seconds, and with a dictionary for one stage. *)
Definition example_tx : AutoUpliftTX :=
  {| base_task := ATask "binary";
     baselearners := NoBaselearners;
     metalearners := ["TLearner"; "XLearner"];
     timeout := Some 100%Z;
     timeout_single_learner := None |}.

Definition example_tx_one_stage : AutoUpliftTX :=
  {| base_task := ATask "binary";
     baselearners :=
       StageBaselearners [(["outcome_control"], [example_bl "A"])];
     metalearners := ["TLearner"; "XLearner"];
     timeout := Some 100%Z;
     timeout_single_learner := Some 30%Z |}.

(** A set iteration that happens to follow the order of insertion. *)
Definition insertion_order (l : list MLStageFullName) : list MLStageFullName :=
  l.

(** Five uplift candidates for [AutoUplift]: a candidate is the number its
    fitted metalearner predicts, and the metric of [example_metric] is this
    number. The timer reports the budget as exceeded after the fourth. *)
Definition example_uplift_candidates : list Z := [3; -1; 5; 5; 2]%Z.

Definition example_fit_candidate (c : Z) (_ : DataFrame Z) (_ : Roles) : Z :=
  c.

Definition example_predict_uplift (m : Z) (_ : DataFrame Z) : list Z := [m].

Definition example_search : AutoUplift.SearchState (Candidate := Z) :=
  {| AutoUplift.candidate_holdout_metrics :=
       [Some 3; Some (-1); Some 5; Some 5; None]%Z;
     AutoUplift.best_metalearner := Some 5%Z;
     AutoUplift.best_metalearner_candidate_info := Some 5%Z;
     AutoUplift.max_metric_value := 5%Z |}.

(** A wrapper's parameters with a wrapper inside a list inside a
    dictionary. *)
Definition example_nested_params : list (string * PyValue) :=
  [ ("timeout", VAtom (AInt 10));
    ("learners",
     VDict [("control",
             VList [VWrapper "inner" "TabularAutoML"
                             [("timeout", VAtom ANone)]])]) ].

(** The store with the wrapper of an [XLearner], and the one left by
    [create_best_metalearner] with the timeout of the baselearners
    lifted. *)
Definition example_stored : loc * Store := alloc_wrapper example_x_wrap [].

Definition example_created : loc * Store :=
  default (0, [])
    (create_best_metalearner 1 example_stored.1 [("timeout", ANone)]
                             example_stored.2).

(** The objects an item, a parameter or a list of parameters refers to. *)
Definition refs_of_item (x : Item) : list loc :=
  match x with
  | IRef l => [l]
  | IAtom _ => []
  end.

Definition refs_of_param (p : Param) : list loc :=
  match p with
  | PItem x => refs_of_item x
  | PList xs => xs ≫= refs_of_item
  end.

Definition refs_of_params (ps : list (string * Param)) : list loc :=
  ps ≫= (λ kp, refs_of_param kp.2).

(** What [update_baselearner_params] makes of a parameter: a wrapper held
    directly stays as it was, the wrappers of a list are updated. *)
Definition update_held_in_lists (d : list (string * Atom))
    (kp : string * WParam) : string * WParam :=
  (kp.1,
   match kp.2 with
   | WOne w => WOne w
   | WList ws => WList (update_params d <$> ws)
   end).

(** The end of [create_best_metalearner]: [best_metalearner] is assigned
    under [if need_report] only, so [return best_metalearner] raises
    [UnboundLocalError] when no report is asked for. The value returned is
    the report decorator around the metalearner instantiated from
    [ml_wrap], given here by the wrapper and the store. *)
Definition create_best_metalearner_result (need_report : bool)
    (n_trained : nat) (best_wrap : loc)
    (update_metalearner_params : list (string * Atom)) (σ : Store)
  : option (loc * Store) :=
  '(ml_wrap, σ') ← create_best_metalearner n_trained best_wrap
                     update_metalearner_params σ;
  if need_report then Some (ml_wrap, σ') else None.

(* ===================================================================== *)
(** * [get_metalearners_ranting] *)
(* ===================================================================== *)

Section Rating.
Context {A : Type} `{Numeric A}.

(** A row of the rating table, with the columns [MetaLearner],
    [Parameters], [Metrics] and [Rank]; its position in the list is its
    index after [reset_index]. *)
Record RatingRow := {
  col_MetaLearner : string;
  col_Parameters : list (MLStageFullName * string);
  col_Metrics : A;
  col_Rank : nat
}.

(** [Series.rank(method='first', ascending=False)] for the value [v] at
    position [i]: one more than the number of values above it plus the
    number of equal values before it. *)
Definition rank_first (values : list A) (i : nat) (v : A) : nat :=
  S (length (filter (λ x, num_ltb v x = true) values)
     + length (filter (λ x, num_eqb x v = true) (take i values))).

(** [AutoUpliftTX.get_metalearners_ranting]: the columns are filled from
    the items of [_metalearner_metrics], the rows are ranked and sorted by
    their rank. *)
Definition get_metalearners_ranting (metalearner_metrics : ScoreTable A)
  : list RatingRow :=
  let metrics := snd <$> metalearner_metrics in
  let rating_table :=
    imap (λ i kv, {| col_MetaLearner := kv.1.1; col_Parameters := kv.1.2;
                     col_Metrics := kv.2;
                     col_Rank := rank_first metrics i kv.2 |})
         metalearner_metrics in
  sorted (λ r r', bool_decide (col_Rank r ≤ col_Rank r')) rating_table.

(** The entry of [_metalearner_metrics] a row was made from. *)
Definition row_entry (r : RatingRow) : TrainedMetaLearnerFullName * A :=
  ((col_MetaLearner r, col_Parameters r), col_Metrics r).
End Rating.

(** A list in ascending order of [key]. *)
Fixpoint ascending {X : Type} (key : X → nat) (l : list X) : Prop :=
  match l with
  | [] => True
  | x :: l' => Forall (λ y, key x ≤ key y) l' ∧ ascending key l'
  end.

(** The rating of the four [TLearner] entries of [example_scores]. *)
Definition example_rating : list (RatingRow (A := Z)) :=
  get_metalearners_ranting example_scores.

(* ===================================================================== *)
(** * A run that selects an [XLearner] *)
(* ===================================================================== *)

(** A stand-in for the engine whose trained model keeps the name of its
    wrapper and the target column it was trained on; its predictions
    depend on both, so that records trained after different candidates
    differ. *)
Definition example_fit_predict_targets (bl : BaseLearnerWrapper)
    (train : DataFrame Z) (roles : Roles) : string * list Z :=
  (name bl, default [] (get_col (default "" (roles !! "target")) train)).

Definition example_predict_targets (m : string * list Z) (df : DataFrame Z)
  : list Z :=
  (λ row : gmap string Z,
     (default 0 (row !! "x") + (if decide (m.1 = "A") then 0 else 1)
      + foldr Z.add 0 m.2)%Z) <$> df.

Definition example_settings_decreasing : Settings :=
  {| metric := "adj_qini"; normed_metric := true; increasing_metric := false;
     random_state := 42 |}.

(** The state left by [fit] with this engine on the two-candidate
    configuration, for a metric that is to be minimal. *)
Definition example_fitted_targets : Fitted Z (string * list Z) :=
  default {| trained_stage_baselearners := [];
             metalearner_metrics := [];
             best_candidate := ("", []);
             best_metalearner := TLearner ("", []) ("", []);
             best_metalearner_wrap :=
               {| ml_name := ""; ml_klass := ""; ml_params := [] |} |}
          (fit example_fit_predict_targets example_predict_targets
               example_metric example_split no_time_limit (λ _, 0)
               example_settings_decreasing example_candidates
               example_train example_roles).

(** The entry this run selects. *)
Definition example_selected_xlearner : list (MLStageFullName * string) :=
  [ (["outcome_control"], "B");
    (["outcome_control"; "effect_treatment"], "A");
    (["outcome_treatment"], "B");
    (["outcome_treatment"; "effect_control"], "B");
    (["propensity"], "B") ].

(* ===================================================================== *)
(** * Properties of ordered dictionaries *)
(* ===================================================================== *)

Section DictFacts.
Context {K V : Type} `{EqDecision K}.
Implicit Types (d : list (K * V)) (k : K) (v : V).

Lemma dict_get_Some_elem d k v : dict_get k d = Some v → (k, v) ∈ d.
Proof.
  induction d as [|[k' v'] d IH]; simpl; [done|].
  case_decide; intros Hg.
  - simplify_eq. left.
  - right. by apply IH.
Qed.

Lemma dict_get_None d k : dict_get k d = None ↔ k ∉ d.*1.
Proof.
  induction d as [|[k' v'] d IH]; simpl.
  - split; [intros _; apply not_elem_of_nil | done].
  - case_decide as Hk; [subst k'|].
    + split; [done|]. intros Hn. exfalso. apply Hn. left.
    + rewrite IH, not_elem_of_cons.
      split; [intros ?; split; [congruence|done] | by intros [_ ?]].
Qed.

Lemma dict_get_is_Some d k : is_Some (dict_get k d) ↔ k ∈ d.*1.
Proof.
  destruct (dict_get k d) eqn:E.
  - split; [intros _|eauto].
    apply dict_get_Some_elem in E. apply (list_elem_of_fmap_2 fst) in E. done.
  - split; [intros [? ?]; done|]. intros Hin. apply dict_get_None in E. done.
Qed.

Lemma dict_get_NoDup d k v : NoDup d.*1 → (k, v) ∈ d → dict_get k d = Some v.
Proof.
  induction d as [|[k' v'] d IH]; simpl; intros Hnd Hin.
  - by apply elem_of_nil in Hin.
  - apply NoDup_cons in Hnd as [Hk Hnd]. apply elem_of_cons in Hin as [Heq|Hin].
    + simplify_eq. by rewrite decide_True.
    + case_decide; simplify_eq.
      * exfalso. apply Hk. by apply (list_elem_of_fmap_2 fst) in Hin.
      * by apply IH.
Qed.

Lemma dict_set_fresh d k v : k ∉ d.*1 → dict_set k v d = d ++ [(k, v)].
Proof.
  induction d as [|[k' v'] d IH]; simpl; [done|].
  rewrite not_elem_of_cons. intros [Hne Hk].
  rewrite decide_False by done. by rewrite IH.
Qed.

Lemma dict_set_elem d k v k' v' :
  (k', v') ∈ dict_set k v d → (k', v') = (k, v) ∨ (k', v') ∈ d.
Proof.
  induction d as [|[k0 v0] d IH]; simpl.
  - intros Hin. apply list_elem_of_singleton in Hin. by left.
  - case_decide; intros Hin; apply elem_of_cons in Hin as [Heq|Hin].
    + by left.
    + right. by right.
    + right. rewrite Heq. left.
    + destruct (IH Hin); [by left|right; by right].
Qed.

Lemma dict_set_keys d k v :
  (dict_set k v d).*1 = if decide (k ∈ d.*1) then d.*1 else d.*1 ++ [k].
Proof.
  induction d as [|[k0 v0] d IH]; csimpl.
  - done.
  - destruct (decide (k0 = k)) as [->|Hne]; csimpl.
    + rewrite decide_True; [done|left].
    + rewrite IH. destruct (decide (k ∈ d.*1)) as [Hin|Hnin].
      * rewrite decide_True; [done|by right].
      * rewrite decide_False; [done|]. rewrite not_elem_of_cons. naive_solver.
Qed.

Lemma dict_get_set_eq d k v : dict_get k (dict_set k v d) = Some v.
Proof.
  induction d as [|[k0 v0] d IH]; simpl.
  - by rewrite decide_True.
  - destruct (decide (k0 = k)) as [->|Hne]; simpl.
    + by rewrite decide_True.
    + by rewrite decide_False.
Qed.

Lemma dict_get_set_ne d k k' v : k ≠ k' → dict_get k' (dict_set k v d) = dict_get k' d.
Proof.
  intros Hne. induction d as [|[k0 v0] d IH]; simpl.
  - by rewrite decide_False.
  - destruct (decide (k0 = k)) as [->|Hne0]; simpl.
    + by rewrite !decide_False.
    + by rewrite IH.
Qed.

Lemma dict_set_NoDup d k v : NoDup d.*1 → NoDup (dict_set k v d).*1.
Proof.
  intros Hnd. rewrite dict_set_keys. case_decide; [done|].
  apply NoDup_app. split_and!; [done| |apply NoDup_singleton].
  intros x Hx Hx'. apply list_elem_of_singleton in Hx'. by subst.
Qed.

Lemma dict_set_length_le d k v : length d ≤ length (dict_set k v d).
Proof.
  rewrite <-(length_fmap fst (dict_set k v d)), dict_set_keys.
  case_decide; rewrite ?length_app, length_fmap; lia.
Qed.
End DictFacts.

(* ===================================================================== *)
(** * The held-out prediction of an assembled metalearner *)
(* ===================================================================== *)

Section PredictFacts.
Context {A : Type} `{Numeric A} {Model : Type}.

Lemma arr_map2_eq_length (f : A → A → A) (x y : list A) :
  length x = length y → arr_map2 f x y = Some (zip_with f x y).
Proof. intros Hl. unfold arr_map2. by rewrite decide_True. Qed.

Lemma arr_map2_Some_length (f : A → A → A) (x y z : list A) :
  arr_map2 f x y = Some z → length x = length y ∧ z = zip_with f x y.
Proof. unfold arr_map2. case_decide; naive_solver. Qed.

(** C4. The held-out uplift prediction of an assembled metalearner is,
    entry by entry, the [outcome_treatment] prediction minus the
    [outcome_control] prediction for [TLearner], and propensity times the
    [effect_treatment] prediction plus (1 - propensity) times the
    [effect_control] prediction for [XLearner]; any other metalearner
    name raises. *)
Theorem metalearner_predict_formula
    (metalearner : string) (baselearners : StageBls A Model) :
  (metalearner = "TLearner" →
   ∀ oc ot,
     dict_get ["outcome_control"] baselearners = Some oc →
     dict_get ["outcome_treatment"] baselearners = Some ot →
     length (pred oc) = length (pred ot) →
     ∃ uplift_pred,
       _metalearner_predict metalearner baselearners = Some uplift_pred
       ∧ length uplift_pred = length (pred ot)
       ∧ ∀ i t c, pred ot !! i = Some t → pred oc !! i = Some c →
                  uplift_pred !! i = Some (num_sub t c))
  ∧ (metalearner = "XLearner" →
     ∀ ec et pl,
       dict_get ["outcome_treatment"; "effect_control"] baselearners = Some ec →
       dict_get ["outcome_control"; "effect_treatment"] baselearners = Some et →
       dict_get ["propensity"] baselearners = Some pl →
       length (pred ec) = length (pred pl) →
       length (pred et) = length (pred pl) →
       ∃ uplift_pred,
         _metalearner_predict metalearner baselearners = Some uplift_pred
         ∧ length uplift_pred = length (pred pl)
         ∧ ∀ i p t c,
             pred pl !! i = Some p → pred et !! i = Some t →
             pred ec !! i = Some c →
             uplift_pred !! i =
               Some (num_add (num_mul p t) (num_mul (num_sub num_one p) c)))
  ∧ (metalearner ≠ "TLearner" → metalearner ≠ "XLearner" →
     _metalearner_predict metalearner baselearners = None).
Proof.
  split_and!.
  - intros -> oc ot Hoc Hot Hlen. unfold _metalearner_predict.
    rewrite decide_True by done. rewrite Hoc, Hot. simpl.
    exists (zip_with num_sub (pred ot) (pred oc)). split_and!.
    + apply arr_map2_eq_length. done.
    + rewrite length_zip_with. lia.
    + intros i t c Ht Hc. rewrite lookup_zip_with, Ht. simpl. by rewrite Hc.
  - intros -> ec et pl Hec Het Hpl Hl1 Hl2. unfold _metalearner_predict.
    rewrite decide_False by done. rewrite decide_True by done.
    rewrite Hec, Het, Hpl. simpl.
    unfold arr_mul, arr_add.
    rewrite (arr_map2_eq_length num_mul (pred pl) (pred et)) by done. simpl.
    rewrite (arr_map2_eq_length num_mul (arr_one_minus (pred pl)) (pred ec))
      by (unfold arr_one_minus; rewrite length_fmap; done).
    simpl.
    eexists. split_and!.
    + apply arr_map2_eq_length.
      unfold arr_one_minus. rewrite !length_zip_with, length_fmap. lia.
    + unfold arr_one_minus. rewrite !length_zip_with, length_fmap. lia.
    + intros i p t c Hp Ht Hc. unfold arr_one_minus.
      rewrite !lookup_zip_with, list_lookup_fmap, Hp, Ht, Hc. done.
  - intros HT HX. unfold _metalearner_predict.
    by rewrite !decide_False.
Qed.
End PredictFacts.

Lemma metalearner_predict_formula_witness :
  ∃ uplift_pred,
    _metalearner_predict "TLearner" example_t_assignment = Some uplift_pred
    ∧ length uplift_pred = 3
    ∧ ∀ i t c, [5; 5; 5]%Z !! i = Some t → [1; 2; 3]%Z !! i = Some c →
               uplift_pred !! i = Some (num_sub t c).
Proof.
  destruct (metalearner_predict_formula (A:=Z) (Model:=unit)
              "TLearner" example_t_assignment) as [HT _].
  apply (HT eq_refl (example_record "A" [1; 2; 3]%Z)
            (example_record "B" [5; 5; 5]%Z)); reflexivity.
Defined.

(* ===================================================================== *)
(** * Selection of the best metalearner *)
(* ===================================================================== *)

Section SelectionFacts.
Context {A : Type} `{Numeric A}.
Implicit Types (metrics : ScoreTable A) (e : TrainedMetaLearnerFullName * A).

(** The comparison [<] of scores is a strict weak order. *)
Hypothesis ltb_trans : ∀ x y z : A,
  num_ltb x y = true → num_ltb y z = true → num_ltb x z = true.
Hypothesis ltb_cotrans : ∀ x y z : A,
  num_ltb x z = true → num_ltb x y = true ∨ num_ltb y z = true.

Lemma replaces_direction (inc : bool) (cur v : A) :
  replaces inc cur v = if inc then num_ltb cur v else num_ltb v cur.
Proof. unfold replaces. destruct inc; simpl; [by rewrite orb_false_r|done]. Qed.

Lemma replaces_trans (inc : bool) (x y z : A) :
  replaces inc x y = true → replaces inc y z = true → replaces inc x z = true.
Proof. rewrite !replaces_direction. destruct inc; eauto. Qed.

Lemma replaces_cotrans (inc : bool) (x y z : A) :
  replaces inc x z = true → replaces inc x y = false → replaces inc y z = true.
Proof.
  rewrite !replaces_direction. destruct inc; intros Hxz Hxy.
  - destruct (ltb_cotrans _ y _ Hxz); [congruence|done].
  - destruct (ltb_cotrans _ y _ Hxz); [done|congruence].
Qed.

Lemma best_step_Some (inc : bool) e e' :
  best_step inc (Some e) e' = if replaces inc e.2 e'.2 then Some e' else Some e.
Proof. by destruct e. Qed.

(** The loop invariant: the current best beats every entry before it and
    no entry met after it beats it. *)
Lemma select_best_invariant (inc : bool) (rest pre post : ScoreTable A) e :
  (∀ x, x ∈ pre → replaces inc x.2 e.2 = true) →
  (∀ x, x ∈ post → replaces inc e.2 x.2 = false) →
  ∃ pre' best post',
    pre ++ e :: post ++ rest = pre' ++ best :: post'
    ∧ foldl (best_step inc) (Some e) rest = Some best
    ∧ (∀ x, x ∈ pre' → replaces inc x.2 best.2 = true)
    ∧ (∀ x, x ∈ post' → replaces inc best.2 x.2 = false).
Proof.
  revert pre post e. induction rest as [|e' rest IH]; intros pre post e Hpre Hpost.
  - exists pre, e, post. by rewrite app_nil_r.
  - cbn [foldl]. rewrite best_step_Some.
    destruct (replaces inc e.2 e'.2) eqn:Hr.
    + destruct (IH (pre ++ e :: post) [] e') as (pre' & best & post' & Heq & Hb & H1 & H2).
      * intros x Hx. apply elem_of_app in Hx as [Hx|Hx].
        { eapply replaces_trans; [by apply Hpre|done]. }
        apply elem_of_cons in Hx as [->|Hx]; [done|].
        eapply replaces_cotrans; [done|by apply Hpost].
      * intros x Hx. by apply elem_of_nil in Hx.
      * exists pre', best, post'. split_and!; try done.
        rewrite <-Heq. by rewrite <-!app_assoc.
    + destruct (IH pre (post ++ [e']) e) as (pre' & best & post' & Heq & Hb & H1 & H2).
      * done.
      * intros x Hx. apply elem_of_app in Hx as [Hx|Hx]; [by apply Hpost|].
        apply list_elem_of_singleton in Hx. by subst.
      * exists pre', best, post'. split_and!; try done.
        rewrite <-Heq. by rewrite <-!app_assoc.
Qed.

(** C10. [_set_best_metalearner] replaces the current best only by an
    entry whose score is strictly greater (increasing metric) or strictly
    less (otherwise); the entry it selects from a non-empty score table
    beats every entry before it and is beaten by no entry after it, so
    among equal scores the first in insertion order is kept. *)
Theorem select_best_first_extremal (inc : bool) (metrics : ScoreTable A) :
  (∀ cur e, best_step inc (Some cur) e
            = if (if inc then num_ltb cur.2 e.2 else num_ltb e.2 cur.2)
              then Some e else Some cur)
  ∧ (metrics ≠ [] →
     ∃ pre best post,
       metrics = pre ++ best :: post
       ∧ select_best inc metrics = Some best
       ∧ (∀ x, x ∈ pre →
            (if inc then num_ltb x.2 best.2 else num_ltb best.2 x.2) = true)
       ∧ (∀ x, x ∈ post →
            (if inc then num_ltb best.2 x.2 else num_ltb x.2 best.2) = false)).
Proof.
  split.
  - intros cur e. by rewrite best_step_Some, replaces_direction.
  - destruct metrics as [|e rest]; [done|]. intros _.
    destruct (select_best_invariant inc rest [] [] e)
      as (pre & best & post & Heq & Hb & H1 & H2).
    + intros x Hx. by apply elem_of_nil in Hx.
    + intros x Hx. by apply elem_of_nil in Hx.
    + exists pre, best, post. split_and!.
      * done.
      * done.
      * intros x Hx. rewrite <-replaces_direction. by apply H1.
      * intros x Hx. rewrite <-replaces_direction. by apply H2.
Qed.
End SelectionFacts.

Lemma select_best_first_extremal_witness :
  ∃ pre best post,
    example_scores = pre ++ best :: post
    ∧ select_best true example_scores = Some best
    ∧ (∀ x, x ∈ pre → num_ltb x.2 best.2 = true)
    ∧ (∀ x, x ∈ post → num_ltb best.2 x.2 = false).
Proof.
  refine (proj2 (select_best_first_extremal (A:=Z) _ _ true example_scores) _).
  - intros x y z Hxy Hyz. apply Z.ltb_lt. apply Z.ltb_lt in Hxy, Hyz.
    simpl in *. lia.
  - intros x y z Hxz. apply Z.ltb_lt in Hxz. simpl in *.
    destruct (Z.ltb_spec x y) as [?|?]; [by left|right]. apply Z.ltb_lt. lia.
  - done.
Defined.

(* ===================================================================== *)
(** * Data frames *)
(* ===================================================================== *)

Section FrameFacts.
Context {A : Type} `{Numeric A}.
Implicit Types (df : DataFrame A) (col : string).

Lemma get_col_Forall2 col df values :
  get_col col df = Some values ↔
  Forall2 (λ (row : gmap string A) x, row !! col = Some x) df values.
Proof. unfold get_col. apply mapM_Some. Qed.

Lemma get_col_is_Some col df :
  Forall (λ row : gmap string A, is_Some (row !! col)) df →
  is_Some (get_col col df).
Proof.
  intros Hall. unfold get_col. apply mapM_is_Some. done.
Qed.

Lemma get_col_length col df values :
  get_col col df = Some values → length values = length df.
Proof.
  intros Hg. apply get_col_Forall2 in Hg. by apply Forall2_length in Hg.
Qed.

Lemma get_col_lookup col df values i row :
  get_col col df = Some values → df !! i = Some row →
  row !! col = values !! i.
Proof.
  intros Hg Hi. apply get_col_Forall2 in Hg.
  destruct (Forall2_lookup_l _ _ _ _ _ Hg Hi) as (x & Hx & Hrow). congruence.
Qed.

(** Indexing with the mask of [df[col] == v] keeps the rows whose cell
    equals [v]. *)
Lemma boolean_index_rows_where col v df values :
  get_col col df = Some values →
  boolean_index ((λ x, num_eqb x v) <$> values) df = rows_where col v df.
Proof.
  intros Hg. apply get_col_Forall2 in Hg.
  unfold boolean_index, rows_where.
  induction Hg as [|row x df values Hrow _ IH]; [done|].
  csimpl. rewrite filter_cons. rewrite (filter_cons _ row). simpl.
  rewrite Hrow. simpl.
  destruct (num_eqb x v) eqn:Hx.
  - rewrite decide_True by done. rewrite decide_True by done.
    csimpl. by rewrite IH.
  - rewrite decide_False by done. rewrite decide_False by congruence.
    done.
Qed.

Lemma select_eq_rows_where col v df :
  Forall (λ row : gmap string A, is_Some (row !! col)) df →
  select_eq col v df = Some (rows_where col v df).
Proof.
  intros Hall. unfold select_eq.
  destruct (get_col_is_Some col df Hall) as [values Hv].
  rewrite Hv. simpl. by rewrite (boolean_index_rows_where _ _ _ _ Hv).
Qed.

Lemma drop_col_Some col df :
  Forall (λ row : gmap string A, is_Some (row !! col)) df →
  drop_col col df = Some (delete col <$> df).
Proof.
  intros Hall. unfold drop_col.
  destruct (get_col_is_Some col df Hall) as [values ->]. done.
Qed.

Lemma rows_where_Forall (P : gmap string A → Prop) col v df :
  Forall P df → Forall P (rows_where col v df).
Proof.
  intros Hall. unfold rows_where. apply Forall_forall. intros row Hin.
  apply list_elem_of_filter in Hin as [_ Hin].
  revert row Hin. by apply Forall_forall.
Qed.

Lemma get_col_delete_ne col col' df :
  col ≠ col' → get_col col' (delete col <$> df) = get_col col' df.
Proof.
  intros Hne. apply option_eq. intros values.
  rewrite !get_col_Forall2, Forall2_fmap_l.
  split; intros Hall; eapply Forall2_impl; try exact Hall;
    intros row x; simpl; by rewrite lookup_delete_ne.
Qed.
End FrameFacts.

(* ===================================================================== *)
(** * The training slice prepared for a stage *)
(* ===================================================================== *)

Section PrepareFacts.
Context {A : Type} `{Numeric A} {Model : Type}.
Variable predict : Model → DataFrame A → list A.

(** C3. For a stage chain of depth 1 the prepared training data is: for
    [outcome_control] the rows with treatment == 0, for
    [outcome_treatment] the rows with treatment == 1, in both cases
    without the treatment column and with the target column as it was;
    for [propensity] all the rows without the target column, the
    treatment column being the training target; any other stage name
    raises. *)
Theorem prepare_data_depth1 (cache : Cache A Model)
    (ml_stage : MetaLearnerStage) (bl : option BaseLearnerWrapper)
    (train : DataFrame A) (roles : Roles) (treatment_col target_col : string) :
  roles !! "treatment" = Some treatment_col →
  roles !! "target" = Some target_col →
  Forall (λ row : gmap string A,
            is_Some (row !! treatment_col) ∧ is_Some (row !! target_col))
         train →
  let prepared :=
    _prepare_data_for_stage predict cache [(ml_stage, bl)] train roles in
  let slice v := delete treatment_col <$> rows_where treatment_col v train in
  (stage_name ml_stage = "outcome_control" →
     prepared = Some (slice num_zero, delete "treatment" roles)
     ∧ (treatment_col ≠ target_col →
        get_col target_col (slice num_zero)
        = get_col target_col (rows_where treatment_col num_zero train)))
  ∧ (stage_name ml_stage = "outcome_treatment" →
     prepared = Some (slice num_one, delete "treatment" roles)
     ∧ (treatment_col ≠ target_col →
        get_col target_col (slice num_one)
        = get_col target_col (rows_where treatment_col num_one train)))
  ∧ (stage_name ml_stage = "propensity" →
     ∃ train_roles,
       prepared = Some (delete target_col <$> train, train_roles)
       ∧ train_roles !! "target" = Some treatment_col
       ∧ train_roles !! "treatment" = None
       ∧ ∀ role, role ≠ "target" → role ≠ "treatment" →
                 train_roles !! role = roles !! role)
  ∧ (stage_name ml_stage ≠ "outcome_control" →
     stage_name ml_stage ≠ "outcome_treatment" →
     stage_name ml_stage ≠ "propensity" →
     prepared = None).
Proof.
  intros Htr Hta Hall prepared slice.
  assert (Ht : Forall (λ row : gmap string A, is_Some (row !! treatment_col)) train)
    by (eapply Forall_impl; [exact Hall|by intros ? [? ?]]).
  assert (Hy : Forall (λ row : gmap string A, is_Some (row !! target_col)) train)
    by (eapply Forall_impl; [exact Hall|by intros ? [? ?]]).
  assert (Hprep : prepared =
    if decide (stage_name ml_stage = "propensity") then
      Some (delete target_col <$> train,
            <["target" := treatment_col]>
              (delete "target" (delete "treatment" roles)))
    else if decide (stage_name ml_stage = "outcome_control") then
      Some (slice num_zero, delete "treatment" roles)
    else if decide (stage_name ml_stage = "outcome_treatment") then
      Some (slice num_one, delete "treatment" roles)
    else None).
  { subst prepared slice. unfold _prepare_data_for_stage.
    unfold _get_treatment_role, _get_target_role. rewrite Htr, Hta. simpl.
    repeat case_decide; try done.
    - by rewrite drop_col_Some.
    - rewrite select_eq_rows_where by done. simpl.
      rewrite drop_col_Some by (by apply rows_where_Forall). done.
    - rewrite select_eq_rows_where by done. simpl.
      rewrite drop_col_Some by (by apply rows_where_Forall). done. }
  rewrite Hprep. split_and!.
  - intros Hn. rewrite Hn. simpl. split; [done|].
    intros Hne. subst slice. simpl. by apply get_col_delete_ne.
  - intros Hn. rewrite Hn. simpl. split; [done|].
    intros Hne. subst slice. simpl. by apply get_col_delete_ne.
  - intros Hn. rewrite Hn. simpl. eexists. split_and!; [done| | |].
    + by rewrite lookup_insert_eq.
    + rewrite lookup_insert_ne by done. rewrite lookup_delete_ne by done.
      by rewrite lookup_delete_eq.
    + intros role H1 H2. rewrite lookup_insert_ne by done.
      by rewrite !lookup_delete_ne.
  - intros H1 H2 H3. by rewrite !decide_False.
Qed.

(** Stage descriptors found by [_extract_stage]. *)
Lemma extract_stage_full_name (key : MLStageFullName) (st : MetaLearnerStage) :
  _extract_stage key = Some st → full_name st = key.
Proof.
  unfold _extract_stage. intros Hex.
  apply fmap_Some in Hex as ([i [ml s]] & Hfind & ->).
  apply list_find_Some in Hfind as (_ & Hfn & _). done.
Qed.

Lemma extract_stage_cases (key : MLStageFullName) (st : MetaLearnerStage) :
  _extract_stage key = Some st →
  full_name st = key
  ∧ st ∈ [ stage "outcome_control"; stage "outcome_treatment";
           mkStage "propensity" [("task", ATask "binary")] None;
           mkStage "effect_control" [("task", ATask "reg")]
                   (Some (stage "outcome_treatment"));
           mkStage "effect_treatment" [("task", ATask "reg")]
                   (Some (stage "outcome_control")) ].
Proof.
  intros Hex. split; [by apply extract_stage_full_name|].
  unfold _extract_stage in Hex.
  apply fmap_Some in Hex as ([i [ml s]] & Hfind & ->).
  apply list_find_Some in Hfind as (Hi & _ & _).
  apply list_elem_of_lookup_2 in Hi. simpl.
  unfold _extract_stages, MAP_META_TO_STAGES in Hi. cbn in Hi.
  set_unfold. naive_solver.
Qed.

Lemma extract_stage_level1 (key : MLStageFullName) (st : MetaLearnerStage) :
  length key = 1 → _extract_stage key = Some st →
  prev_stage st = None ∧ key = [stage_name st]
  ∧ (stage_name st = "outcome_control" ∨ stage_name st = "outcome_treatment"
     ∨ stage_name st = "propensity").
Proof.
  intros Hlen Hex. apply extract_stage_cases in Hex as [<- Hin].
  set_unfold. destruct Hin as [->|[->|[->|[->|[->|[]]]]]];
    simpl in *; try done; eauto 6.
Qed.

Lemma extract_stage_level2 (key : MLStageFullName) (st : MetaLearnerStage) :
  length key = 2 → _extract_stage key = Some st →
  (key = ["outcome_treatment"; "effect_control"]
   ∧ stage_name st = "effect_control")
  ∨ (key = ["outcome_control"; "effect_treatment"]
     ∧ stage_name st = "effect_treatment").
Proof.
  intros Hlen Hex. apply extract_stage_cases in Hex as [<- Hin].
  set_unfold. destruct Hin as [->|[->|[->|[->|[->|[]]]]]];
    simpl in *; try done; eauto.
Qed.

(** The slice of a depth-2 stage: the rows of the group without the
    treatment column, the target replaced by [residual p y] where [p] is
    the prediction of the prerequisite model and [y] the target. *)
Lemma prepare_effect_slice (residual : A → A → A) (rows : DataFrame A)
    (preds : list A) (target_col : string) :
  Forall (λ row : gmap string A, is_Some (row !! target_col)) rows →
  length preds = length rows →
  ∃ target train_data,
    get_col target_col rows = Some target
    ∧ set_col target_col (zip_with residual preds target) rows
      = Some train_data
    ∧ length train_data = length rows
    ∧ ∀ i row p y,
        rows !! i = Some row → preds !! i = Some p →
        row !! target_col = Some y →
        train_data !! i = Some (<[target_col := residual p y]> row).
Proof.
  intros Hall Hlen.
  destruct (get_col_is_Some target_col rows Hall) as [target Ht].
  pose proof (get_col_length _ _ _ Ht) as Hlt.
  exists target. eexists. split_and!; [done| | |].
  - unfold set_col. rewrite decide_True; [done|].
    rewrite length_zip_with. lia.
  - rewrite length_zip_with, length_zip_with. lia.
  - intros i row p y Hrow Hp Hy.
    rewrite lookup_zip_with, Hrow. simpl.
    rewrite lookup_zip_with, Hp. simpl.
    rewrite <-(get_col_lookup _ _ _ _ _ Ht Hrow), Hy. done.
Qed.

(** C2. For a stage chain of depth 2 submitted by the scheduler the
    prepared training data is: for [effect_control], whose prerequisite
    is [outcome_treatment], the rows with treatment == 0 without the
    treatment column, the target being the prediction of the
    prerequisite model on these rows minus the original target; for
    [effect_treatment], whose prerequisite is [outcome_control], the rows
    with treatment == 1, the target being the original target minus the
    prediction; any other depth-2 stage name raises. *)
Theorem prepare_data_depth2 (cache : Cache A Model)
    (key : MLStageFullName) (prev_ml_stage ml_stage : MetaLearnerStage)
    (prev_bl : BaseLearnerWrapper) (bl : option BaseLearnerWrapper)
    (train : DataFrame A) (roles : Roles) (treatment_col target_col : string)
    (prev_model : Model) :
  length key = 2 →
  _extract_stage (prefix1 key) = Some prev_ml_stage →
  _extract_stage key = Some ml_stage →
  roles !! "treatment" = Some treatment_col →
  roles !! "target" = Some target_col →
  treatment_col ≠ target_col →
  Forall (λ row : gmap string A,
            is_Some (row !! treatment_col) ∧ is_Some (row !! target_col))
         train →
  prev_trained_model cache prev_ml_stage prev_bl = Some prev_model →
  (∀ df, length (predict prev_model df) = length df) →
  let prepared :=
    _prepare_data_for_stage predict cache
      [(prev_ml_stage, Some prev_bl); (ml_stage, bl)] train roles in
  let slice v := delete treatment_col <$> rows_where treatment_col v train in
  let derived (residual : A → A → A) (rows train_data : DataFrame A) :=
    length train_data = length rows
    ∧ ∀ i row p y,
        rows !! i = Some row → predict prev_model rows !! i = Some p →
        row !! target_col = Some y →
        train_data !! i = Some (<[target_col := residual p y]> row) in
  ((stage_name ml_stage = "effect_control"
    ∧ full_name prev_ml_stage = ["outcome_treatment"]
    ∧ ∃ train_data,
        prepared = Some (train_data, delete "treatment" roles)
        ∧ derived (λ p y, num_sub p y) (slice num_zero) train_data)
   ∨ (stage_name ml_stage = "effect_treatment"
      ∧ full_name prev_ml_stage = ["outcome_control"]
      ∧ ∃ train_data,
          prepared = Some (train_data, delete "treatment" roles)
          ∧ derived (λ p y, num_sub y p) (slice num_one) train_data))
  ∧ ∀ stage_info last_stage,
      length stage_info = 2 → last stage_info = Some last_stage →
      stage_name last_stage.1 ≠ "effect_control" →
      stage_name last_stage.1 ≠ "effect_treatment" →
      _prepare_data_for_stage predict cache stage_info train roles = None.
Proof.
  intros Hlen Hprev Hst Htr Hta Hne Hall Hmodel Hpred prepared slice derived.
  split.
  - assert (Hslice : ∀ v, Forall (λ row : gmap string A,
                                    is_Some (row !! target_col)) (slice v)).
    { intros v. subst slice. simpl. apply Forall_fmap.
      apply rows_where_Forall. eapply Forall_impl; [exact Hall|].
      intros row [_ Hy]. simpl. by rewrite lookup_delete_ne. }
    assert (Ht : ∀ v, Forall (λ row : gmap string A,
                                is_Some (row !! treatment_col))
                             (rows_where treatment_col v train)).
    { intros v. apply rows_where_Forall.
      eapply Forall_impl; [exact Hall|by intros ? [? ?]]. }
    assert (Ht0 : Forall (λ row : gmap string A,
                            is_Some (row !! treatment_col)) train)
      by (eapply Forall_impl; [exact Hall|by intros ? [? ?]]).
    pose proof (extract_stage_full_name _ _ Hprev) as Hpfn.
    subst prepared. unfold _prepare_data_for_stage.
    unfold _get_treatment_role, _get_target_role. rewrite Htr, Hta. simpl.
    rewrite Hmodel. simpl.
    destruct (extract_stage_level2 _ _ Hlen Hst) as [[-> Hn]|[-> Hn]];
      rewrite Hn; simpl in Hpfn; [left|right]; (split; [done|]);
      (split; [done|]); simpl.
    + destruct (prepare_effect_slice num_sub (slice num_zero)
                  (predict prev_model (slice num_zero)) target_col)
        as (target & train_data & Hg & Hset & Hl & Hrows);
        [done|by rewrite Hpred|].
      exists train_data. split; [|by split].
      rewrite select_eq_rows_where by done. simpl.
      rewrite drop_col_Some by done. simpl.
      fold (slice num_zero). rewrite Hg. simpl.
      unfold arr_sub. rewrite arr_map2_eq_length
        by (rewrite Hpred; symmetry; by eapply get_col_length).
      simpl. by rewrite Hset.
    + destruct (prepare_effect_slice (λ p y, num_sub y p) (slice num_one)
                  (predict prev_model (slice num_one)) target_col)
        as (target & train_data & Hg & Hset & Hl & Hrows);
        [done|by rewrite Hpred|].
      exists train_data. split; [|by split].
      rewrite select_eq_rows_where by done. simpl.
      rewrite drop_col_Some by done. simpl.
      fold (slice num_one). rewrite Hg. simpl.
      unfold arr_sub. rewrite arr_map2_eq_length
        by (rewrite Hpred; by eapply get_col_length).
      simpl.
      replace (zip_with num_sub target (predict prev_model (slice num_one)))
        with (zip_with (λ p y, num_sub y p)
                       (predict prev_model (slice num_one)) target)
        by apply (zip_with_flip num_sub).
      by rewrite Hset.
  - intros stage_info last_stage Hl2 Hlast H1 H2.
    unfold _prepare_data_for_stage.
    destruct (_get_treatment_role roles) as [[? ?]|]; [simpl|done].
    destruct (_get_target_role roles) as [[? ?]|]; [simpl|done].
    rewrite Hlast. simpl. rewrite Hl2. simpl.
    destruct (stage_info !! 0) as [[pst [pbl|]]|]; simpl; try done.
    destruct (prev_trained_model cache pst pbl); simpl; [|done].
    by rewrite !decide_False.
Qed.
End PrepareFacts.

Lemma prepare_data_depth1_witness :
  _prepare_data_for_stage example_predict ([] : Cache Z string)
      [(stage "outcome_control", None)] example_train example_roles
  = Some (delete "t" <$> rows_where "t" num_zero example_train,
          delete "treatment" example_roles).
Proof.
  apply (prepare_data_depth1 example_predict [] (stage "outcome_control") None
           example_train example_roles "t" "y").
  - reflexivity.
  - reflexivity.
  - apply (bool_decide_unpack _). vm_compute. exact I.
  - reflexivity.
Defined.

Lemma prepare_data_depth2_witness :
  ∃ train_data,
    _prepare_data_for_stage example_predict example_cache
      [(stage "outcome_treatment", Some (example_bl "A"));
       (effect_control_stage, Some (example_bl "B"))]
      example_train example_roles
    = Some (train_data, delete "treatment" example_roles)
    ∧ length train_data = 2.
Proof.
  edestruct (prepare_data_depth2 example_predict example_cache
               ["outcome_treatment"; "effect_control"]
               (stage "outcome_treatment") effect_control_stage
               (example_bl "A") (Some (example_bl "B"))
               example_train example_roles "t" "y" "A")
    as [[(_ & _ & train_data & Hprep & Hlen & _)|(Hname & _)] _].
  - reflexivity.
  - reflexivity.
  - reflexivity.
  - reflexivity.
  - reflexivity.
  - apply (bool_decide_unpack _). vm_compute. exact I.
  - apply (bool_decide_unpack _). vm_compute. exact I.
  - reflexivity.
  - intros df. unfold example_predict. apply length_fmap.
  - exists train_data. split; [exact Hprep|]. rewrite Hlen. reflexivity.
  - discriminate Hname.
Defined.

(* ===================================================================== *)
(** * Strategy assembler *)
(* ===================================================================== *)

Lemma NoDup_fmap_inj_on {X Y : Type} (f : X → Y) (l : list X) (x y : X) :
  NoDup (f <$> l) → x ∈ l → y ∈ l → f x = f y → x = y.
Proof.
  induction l as [|z l IH]; csimpl; intros Hnd Hx Hy Hf.
  - by apply elem_of_nil in Hx.
  - apply NoDup_cons in Hnd as [Hz Hnd].
    apply elem_of_cons in Hx as [->|Hx]; apply elem_of_cons in Hy as [->|Hy].
    + done.
    + exfalso. apply Hz. rewrite Hf. by apply list_elem_of_fmap_2.
    + exfalso. apply Hz. rewrite <-Hf. by apply list_elem_of_fmap_2.
    + by apply IH.
Qed.

Section AssemblerFacts.
Context {A : Type} `{Numeric A} {Model : Type}.
Implicit Types (set_bls ml_bls : StageBls A Model)
               (r : TrainedStageBaseLearner A Model).

(** The two outcomes of the loop body for a stage: the stage is left out
    whatever [ml_bls] is, or the record that [set_bls] holds for it is
    assigned, which for a record with a prerequisite baselearner needs
    the record chosen for the prerequisite stage to carry its name. *)
Lemma ml_bls_step_cases set_bls (ml_stage : MetaLearnerStage) :
  (∀ ml_bls, ml_bls_step set_bls ml_bls ml_stage = ml_bls)
  ∨ (∃ r,
       dict_get (full_name ml_stage) set_bls = Some r
       ∧ (∀ prev_bl, prev_stage_bl r = Some prev_bl →
            ∃ first_sbl,
              dict_get (prefix1 (full_name ml_stage)) set_bls = Some first_sbl
              ∧ name (stage_bl first_sbl) = name prev_bl)
       ∧ ∀ ml_bls, ml_bls_step set_bls ml_bls ml_stage
                   = dict_set (full_name ml_stage) r ml_bls).
Proof.
  unfold ml_bls_step.
  destruct (dict_get (full_name ml_stage) set_bls) as [r|] eqn:Hr; [|by left].
  destruct (prev_stage_bl r) as [prev_bl|] eqn:Hprev.
  - destruct (dict_get (prefix1 (full_name ml_stage)) set_bls)
      as [first_sbl|] eqn:Hfirst; [|by left].
    simpl. case_decide as Hname; [|by left].
    right. exists r. split_and!; [done| |done].
    intros prev_bl' ?. simplify_eq. by exists first_sbl.
  - right. exists r. split_and!; [done| |done]. intros ? ?. congruence.
Qed.

Lemma ml_bls_step_rejects set_bls (ml_stage : MetaLearnerStage) r prev_bl first_sbl :
  dict_get (full_name ml_stage) set_bls = Some r →
  prev_stage_bl r = Some prev_bl →
  dict_get (prefix1 (full_name ml_stage)) set_bls = Some first_sbl →
  name (stage_bl first_sbl) ≠ name prev_bl →
  ∀ ml_bls, ml_bls_step set_bls ml_bls ml_stage = ml_bls.
Proof.
  intros Hr Hprev Hfirst Hne ml_bls. unfold ml_bls_step.
  rewrite Hr, Hprev, Hfirst. simpl. by rewrite decide_False.
Qed.

(** What the loop over the stages has assigned. *)
Lemma collect_ml_bls_invariant set_bls (ml_stages : list MetaLearnerStage)
    (acc : StageBls A Model) :
  NoDup acc.*1 →
  let ml_bls := foldl (ml_bls_step set_bls) acc ml_stages in
  NoDup ml_bls.*1
  ∧ ∀ key r, (key, r) ∈ ml_bls →
      (key, r) ∈ acc
      ∨ (∃ ml_stage,
           ml_stage ∈ ml_stages ∧ full_name ml_stage = key
           ∧ (¬ ∀ ml_bls', ml_bls_step set_bls ml_bls' ml_stage = ml_bls')
           ∧ dict_get key set_bls = Some r
           ∧ ∀ prev_bl, prev_stage_bl r = Some prev_bl →
               ∃ first_sbl,
                 dict_get (prefix1 key) set_bls = Some first_sbl
                 ∧ name (stage_bl first_sbl) = name prev_bl).
Proof.
  revert acc. induction ml_stages as [|ml_stage ml_stages IH];
    intros acc Hnd; simpl.
  - split; [done|]. intros key r Hin. by left.
  - destruct (ml_bls_step_cases set_bls ml_stage) as [Hskip|(r0 & Hr0 & Hpair & Hset)].
    + rewrite Hskip. destruct (IH acc Hnd) as [Hnd' Hin']. split; [done|].
      intros key r Hin. destruct (Hin' key r Hin) as [?|(s & Hs & ?)]; [by left|].
      right. exists s. split; [by right|done].
    + rewrite Hset.
      destruct (IH (dict_set (full_name ml_stage) r0 acc)) as [Hnd' Hin'];
        [by apply dict_set_NoDup|].
      split; [done|].
      intros key r Hin. destruct (Hin' key r Hin) as [Hacc|(s & Hs & ?)].
      * apply dict_set_elem in Hacc as [[= -> ->]|Hacc]; [|by left].
        right. exists ml_stage. split_and!; [left|done| |done|done].
        intros Hskip. specialize (Hskip []). rewrite Hset in Hskip.
        simpl in Hskip. done.
      * right. exists s. split; [by right|done].
Qed.

(** A metalearner with a left-out stage does not reach the length test. *)
Lemma collect_ml_bls_short set_bls (ml_stages : list MetaLearnerStage)
    (ml_stage : MetaLearnerStage) :
  NoDup (full_name <$> ml_stages) →
  ml_stage ∈ ml_stages →
  (∀ ml_bls, ml_bls_step set_bls ml_bls ml_stage = ml_bls) →
  length (collect_ml_bls set_bls ml_stages) ≠ length ml_stages.
Proof.
  intros Hnd Hin Hskip Hlen. unfold collect_ml_bls in Hlen.
  destruct (collect_ml_bls_invariant set_bls ml_stages []) as [Hnd' Hin'];
    [apply NoDup_nil_2|].
  simpl in Hnd', Hin'.
  set (ml_bls := foldl (ml_bls_step set_bls) [] ml_stages) in *.
  assert (Hsub : ml_bls.*1 ⊆+ full_name <$> ml_stages).
  { apply NoDup_submseteq; [done|]. intros key Hkey.
    apply list_elem_of_fmap in Hkey as ([key' r] & -> & Hkr).
    destruct (Hin' key' r Hkr) as [Hnil|(s & Hs & <- & _)].
    - by apply elem_of_nil in Hnil.
    - simpl. by apply list_elem_of_fmap_2. }
  apply submseteq_length_Permutation in Hsub;
    [|rewrite !length_fmap; lia].
  assert (Hk : full_name ml_stage ∈ ml_bls.*1).
  { rewrite Hsub. by apply list_elem_of_fmap_2. }
  apply list_elem_of_fmap in Hk as ([key r] & Hkey & Hkr). simpl in Hkey.
  destruct (Hin' key r Hkr) as [Hnil|(s & Hs & Hfn & Hnot & _)].
  - by apply elem_of_nil in Hnil.
  - apply Hnot.
    assert (s = ml_stage) as ->; [|done].
    eapply (NoDup_fmap_inj_on full_name); [done..|congruence].
Qed.

Lemma MAP_META_TO_STAGES_NoDup (ml_name : string)
    (ml_stages : list MetaLearnerStage) :
  (ml_name, ml_stages) ∈ MAP_META_TO_STAGES →
  NoDup (full_name <$> ml_stages).
Proof.
  unfold MAP_META_TO_STAGES. intros Hin.
  apply elem_of_cons in Hin as [[= -> ->]|Hin];
    [|apply list_elem_of_singleton in Hin as [= -> ->]];
    apply (bool_decide_unpack _); vm_compute; exact I.
Qed.

(** The entries of [set_ml_with_sbls]. *)
Lemma assemble_elem set_bls (ml_name : string) ml_bls :
  (ml_name, ml_bls) ∈ assemble set_bls →
  ∃ ml_stages,
    (ml_name, ml_stages) ∈ MAP_META_TO_STAGES
    ∧ ml_bls = collect_ml_bls set_bls ml_stages
    ∧ length ml_bls = length ml_stages.
Proof.
  unfold assemble, MAP_META_TO_STAGES. cbn [foldl fst snd].
  repeat case_decide; cbn [dict_set]; rewrite ?decide_False by done;
    intros Hin; set_unfold; naive_solver.
Qed.

Lemma assemble_None set_bls (ml_name : string)
    (ml_stages : list MetaLearnerStage) :
  (ml_name, ml_stages) ∈ MAP_META_TO_STAGES →
  length (collect_ml_bls set_bls ml_stages) ≠ length ml_stages →
  dict_get ml_name (assemble set_bls) = None.
Proof.
  unfold assemble, MAP_META_TO_STAGES. cbn [foldl fst snd].
  intros Hin Hlen.
  apply elem_of_cons in Hin as [[= -> ->]|Hin];
    [|apply list_elem_of_singleton in Hin as [= -> ->]].
  - rewrite (decide_False (P:=length _ = length [stage "outcome_control"; _]))
      by done.
    case_decide; done.
  - rewrite (decide_False (P:=length _ = length (stage "outcome_control" :: _ :: _ :: _)))
      by done.
    case_decide; done.
Qed.

(** C1. In every combination of the cross product, a trained record
    with a prerequisite baselearner enters a metalearner's stage
    assignment only if the record chosen in that combination for the
    prerequisite stage carries the name of that baselearner; a
    combination in which a required stage of a metalearner is paired with
    another prerequisite candidate does not assemble that metalearner. *)
Theorem assembly_pairs_prerequisite (cache : Cache A Model)
    (yielded : list (list (string * StageBls A Model)))
    (i : nat) (set_ml_with_sbls : list (string * StageBls A Model)) :
  _bl_for_ml cache = Some yielded →
  yielded !! i = Some set_ml_with_sbls →
  ∃ set_bls,
    combinations cache !! i = Some set_bls
    ∧ (∀ ml_name ml_bls key r,
         (ml_name, ml_bls) ∈ set_ml_with_sbls → (key, r) ∈ ml_bls →
         dict_get key set_bls = Some r
         ∧ ∀ prev_bl, prev_stage_bl r = Some prev_bl →
             ∃ first_sbl,
               dict_get (prefix1 key) set_bls = Some first_sbl
               ∧ name (stage_bl first_sbl) = name prev_bl)
    ∧ (∀ ml_name ml_stages ml_stage r prev_bl first_sbl,
         (ml_name, ml_stages) ∈ MAP_META_TO_STAGES →
         ml_stage ∈ ml_stages →
         dict_get (full_name ml_stage) set_bls = Some r →
         prev_stage_bl r = Some prev_bl →
         dict_get (prefix1 (full_name ml_stage)) set_bls = Some first_sbl →
         name (stage_bl first_sbl) ≠ name prev_bl →
         dict_get ml_name set_ml_with_sbls = None).
Proof.
  unfold _bl_for_ml. case_match; [|done]. intros [= <-] Hi.
  rewrite list_lookup_fmap in Hi.
  destruct (combinations cache !! i) as [set_bls|] eqn:Hc; [|done].
  simpl in Hi. injection Hi as <-.
  exists set_bls. split_and!; [done| |].
  - intros ml_name ml_bls key r Hml Hkr.
    apply assemble_elem in Hml as (ml_stages & _ & -> & _).
    destruct (collect_ml_bls_invariant set_bls ml_stages []) as [_ Hin'];
      [apply NoDup_nil_2|].
    destruct (Hin' key r Hkr) as [Hnil|(s & _ & _ & _ & Hget & Hpair)].
    + by apply elem_of_nil in Hnil.
    + done.
  - intros ml_name ml_stages ml_stage r prev_bl first_sbl
           Hml Hst Hr Hprev Hfirst Hne.
    apply (assemble_None _ _ ml_stages); [done|].
    apply (collect_ml_bls_short _ _ ml_stage);
      [by eapply MAP_META_TO_STAGES_NoDup|done|].
    by eapply ml_bls_step_rejects.
Qed.
End AssemblerFacts.

(* ===================================================================== *)
(** * Runs on concrete configurations *)
(* ===================================================================== *)

Lemma assembly_pairs_prerequisite_witness :
  ∃ set_bls,
    combinations example_full_cache !! 1 = Some set_bls
    ∧ (∀ ml_name ml_bls key r,
         (ml_name, ml_bls) ∈ example_first_yield → (key, r) ∈ ml_bls →
         dict_get key set_bls = Some r
         ∧ ∀ prev_bl, prev_stage_bl r = Some prev_bl →
             ∃ first_sbl,
               dict_get (prefix1 key) set_bls = Some first_sbl
               ∧ name (stage_bl first_sbl) = name prev_bl)
    ∧ (∀ ml_name ml_stages ml_stage r prev_bl first_sbl,
         (ml_name, ml_stages) ∈ MAP_META_TO_STAGES →
         ml_stage ∈ ml_stages →
         dict_get (full_name ml_stage) set_bls = Some r →
         prev_stage_bl r = Some prev_bl →
         dict_get (prefix1 (full_name ml_stage)) set_bls = Some first_sbl →
         name (stage_bl first_sbl) ≠ name prev_bl →
         dict_get ml_name example_first_yield = None).
Proof.
  apply (assembly_pairs_prerequisite example_full_cache example_yielded 1
           example_first_yield).
  - vm_compute. reflexivity.
  - vm_compute. reflexivity.
Defined.

(** C5, as stated, fails: with two candidates per stage and no time limit,
    the records cached for the stage [effect_treatment] after [fit] carry
    each candidate name twice, once per [outcome_control] candidate. *)
Lemma cached_names_counterexample :
  ¬ (∀ fitted key records,
       example_fit no_time_limit (λ _, 0) example_candidates = Some fitted →
       dict_get key (trained_stage_baselearners fitted) = Some records →
       NoDup ((λ r, name (stage_bl r)) <$> records)).
Proof.
  intros Hclaim.
  assert (Hnames :
    cached_names ["outcome_control"; "effect_treatment"]
      (example_fit no_time_limit (λ _, 0) example_candidates)
    = Some ["A"; "B"; "A"; "B"]) by (vm_compute; reflexivity).
  unfold cached_names in Hnames.
  destruct (example_fit no_time_limit (λ _, 0) example_candidates)
    as [fitted|]; [|done].
  destruct (dict_get _ (trained_stage_baselearners fitted))
    as [records|] eqn:Hget; [|done].
  simpl in Hnames. injection Hnames as Hnames.
  specialize (Hclaim fitted _ records eq_refl Hget).
  rewrite Hnames in Hclaim.
  apply NoDup_cons in Hclaim as [Hnotin _]. apply Hnotin.
  right. left.
Qed.

(** C6, at a failing input. [create_best_metalearner] with the override
    [{'timeout': None}] on the wrapper of an [XLearner] returns a wrapper
    whose baselearner wrappers held in lists carry the override, while the
    one held directly, [propensity_learner], keeps its timeout; the stored
    wrapper is unchanged. *)
Theorem create_best_metalearner_misses_direct_wrapper :
  let stored := alloc_wrapper example_x_wrap [] in
  ∃ ml_wrap σ,
    create_best_metalearner 5 stored.1 [("timeout", ANone)] stored.2
    = Some (ml_wrap, σ)
    ∧ read_wrapper σ stored.1 = Some example_x_wrap
    ∧ read_wrapper σ ml_wrap
      = Some {| ml_name := "__ML__XLearner"; ml_klass := "XLearner";
                ml_params :=
                  [ ("outcome_learners",
                     WList [example_bl_updated "A"; example_bl_updated "B"]);
                    ("effect_learners",
                     WList [example_bl_updated "C"; example_bl_updated "D"]);
                    ("propensity_learner", WOne (example_bl "P")) ] |}.
Proof.
  eexists _, _. split_and!.
  - vm_compute. reflexivity.
  - vm_compute. reflexivity.
  - vm_compute. reflexivity.
Qed.

(** C7, at a failing input. Two runs of [fit] with the same
    [random_state], data and candidates, whose draws from the process-wide
    generator of [np.random] differ, submit the pairs in different orders;
    with a time budget exceeded at the ninth training event they select
    different metalearners. *)
Theorem draws_change_submissions_and_selection :
  let run rand :=
    (_generate_stage_baselearner_candidates rand example_candidates).1 in
  let selected rand :=
    best_candidate <$> example_fit (time_limit_after 9) rand example_candidates in
  submission_names <$> run (λ _, 0) !! 4
  = Some [ ("outcome_control", Some "A"); ("effect_treatment", Some "A") ]
  ∧ submission_names <$> run (λ _, 1) !! 4
    = Some [ ("outcome_treatment", Some "A"); ("effect_control", Some "A") ]
  ∧ selected (λ _, 0)
    = Some ("XLearner",
            [ (["outcome_control"], "A");
              (["outcome_control"; "effect_treatment"], "A");
              (["outcome_treatment"], "A");
              (["outcome_treatment"; "effect_control"], "A");
              (["propensity"], "A") ])
  ∧ selected (λ _, 1)
    = Some ("XLearner",
            [ (["outcome_control"], "B");
              (["outcome_control"; "effect_treatment"], "A");
              (["outcome_treatment"], "A");
              (["outcome_treatment"; "effect_control"], "A");
              (["propensity"], "A") ]).
Proof. split_and!; vm_compute; reflexivity. Qed.

(** C9, at a failing input. With no candidate for [outcome_control] and
    one candidate for every other stage, the first pair the scheduler
    yields is [outcome_control] with the fill value [None] in place of a
    baselearner; [_evaluate] raises on it, and [fit] ends with this
    exception before any other stage is trained. *)
Theorem empty_stage_is_submitted :
  let gen := _generate_stage_baselearner_candidates (λ _, 0) example_empty_stage in
  gen.1 !! 0 = Some [(stage "outcome_control", None)]
  ∧ _evaluate example_fit_predict example_predict []
      [(stage "outcome_control", None)] example_train example_train
      example_roles = None
  ∧ example_fit no_time_limit (λ _, 0) example_empty_stage = None.
Proof. split_and!; vm_compute; reflexivity. Qed.

(* ===================================================================== *)
(** * Candidate scheduler *)
(* ===================================================================== *)

Lemma pool_keys_app (p1 p2 : list PoolEntry) :
  pool_keys (p1 ++ p2) = pool_keys p1 ++ pool_keys p2.
Proof. unfold pool_keys. apply bind_app. Qed.

Lemma pool_keys_cons (e : PoolEntry) (p : list PoolEntry) :
  pool_keys (e :: p) = entry_keys e ++ pool_keys p.
Proof. done. Qed.

Lemma submseteq_NoDup {X : Type} (l k : list X) : l ⊆+ k → NoDup k → NoDup l.
Proof.
  intros Hsub Hnd. apply submseteq_Permutation in Hsub as [k' Hk].
  rewrite Hk in Hnd. by apply NoDup_app in Hnd as [? _].
Qed.

Lemma insert_middle {X : Type} (l1 l2 : list X) (x y : X) :
  <[length l1 := y]> (l1 ++ x :: l2) = l1 ++ y :: l2.
Proof.
  replace (length l1) with (length l1 + 0) by lia. by rewrite insert_app_r.
Qed.

(** A draw yields a submission the pool accounted for and leaves the rest
    of the account in the pool. *)
Lemma pool_draw_keys (idx : nat) (pool : list PoolEntry) :
  match pool_draw idx pool with
  | DYield si pool' =>
      omap submission_key [si] ++ pool_keys pool' ⊆+ pool_keys pool
  | DDrop pool' => pool_keys pool' ⊆+ pool_keys pool
  | DRaise => True
  end.
Proof.
  unfold pool_draw. destruct (pool !! idx) as [e|] eqn:He; [|done].
  apply list_elem_of_split_length in He as (l1 & l2 & -> & ->).
  destruct (pe_iter e) as [|bl_l2 rest] eqn:Hiter.
  - rewrite delete_middle, !pool_keys_app, pool_keys_cons.
    apply submseteq_skips_l. by apply submseteq_inserts_l.
  - destruct (_extract_stage (prefix1 (pe_stage e))) as [stage_l1|]; [|done].
    destruct (_extract_stage (pe_stage e)) as [stage_l2|] eqn:Hl2; [|done].
    apply extract_stage_full_name in Hl2.
    rewrite insert_middle, !pool_keys_app, !pool_keys_cons.
    unfold entry_keys. simpl. rewrite Hiter.
    destruct (pe_bl_l1 e) as [bl_l1|]; csimpl; [|done].
    rewrite Hl2. by apply submseteq_cons_middle.
Qed.

Section SchedulerFacts.
Variable rand : nat → nat.
Variable stage_baselearners : list (MLStageFullName * list BaseLearnerWrapper).

Lemma draw_l2_keys (st : GenState) :
  match draw_l2 rand st with
  | DYield si pool' =>
      omap submission_key [si] ++ pool_keys pool' ⊆+ pool_keys (pool st)
  | DDrop pool' => pool_keys pool' ⊆+ pool_keys (pool st)
  | DRaise => True
  end.
Proof.
  unfold draw_l2. destruct (randint rand _ _) as [idx|]; [|done].
  apply pool_draw_keys.
Qed.

Lemma out_keys_yield (si : StageInfo) (out : GenOut) :
  out_keys (si :: out.1, out.2) = omap submission_key [si] ++ out_keys out.
Proof.
  unfold out_keys. simpl. destruct (submission_key si); done.
Qed.

(** The second-level runs yield only what the pool accounts for. *)
Lemma run_level2_keys (m : nat) (st : GenState) :
  out_keys (run_level2 rand m st) ⊆+ pool_keys (pool st).
Proof.
  revert st. induction m as [|m IH]; intros st; simpl.
  - unfold out_keys. simpl. done.
  - pose proof (draw_l2_keys st) as Hdraw.
    destruct (draw_l2 rand st) as [si pool'|pool'|].
    + rewrite out_keys_yield. etrans; [|exact Hdraw].
      apply submseteq_skips_l. apply IH.
    + etrans; [apply IH|]. done.
    + unfold out_keys. simpl. apply submseteq_nil_l.
Qed.

Lemma drain_keys (fuel : nat) (st : GenState) :
  out_keys (drain rand fuel st) ⊆+ pool_keys (pool st).
Proof.
  revert st. induction fuel as [|fuel IH]; intros st; simpl.
  - unfold out_keys. simpl. done.
  - case_decide; [unfold out_keys; simpl; done|].
    pose proof (draw_l2_keys st) as Hdraw.
    destruct (draw_l2 rand st) as [si pool'|pool'|].
    + rewrite out_keys_yield. etrans; [|exact Hdraw].
      apply submseteq_skips_l. apply IH.
    + etrans; [apply IH|]. done.
    + unfold out_keys. simpl. apply submseteq_nil_l.
Qed.

Lemma out_keys_end_of_item (n : nat) (ys : list StageInfo) (o : option GenState) :
  out_keys (ys, end_of_item n <$> o) = out_keys (ys, o).
Proof. unfold out_keys. by destruct o. Qed.

Lemma pool_keys_unlocked_None (stage_name_l1 : MLStageFullName) :
  pool_keys (unlocked stage_baselearners stage_name_l1 None) = [].
Proof.
  unfold unlocked, pool_keys.
  induction (filter _ _) as [|s l IH]; [done|]. csimpl. by rewrite IH.
Qed.

(** A first-level pair yields its own submission and what the pool, with
    the entries the pair unlocks, accounts for. *)
Lemma run_level1_item_keys (st : GenState)
    (item : MLStageFullName * option BaseLearnerWrapper) :
  out_keys (run_level1_item rand stage_baselearners st item)
  ⊆+ pool_keys (pool st) ++ item_keys stage_baselearners item.
Proof.
  unfold run_level1_item.
  destruct (_extract_stage item.1) as [stage_l1|] eqn:Hl1;
    [|unfold out_keys; simpl; apply submseteq_nil_l].
  apply extract_stage_full_name in Hl1.
  assert (Hown :
    omap submission_key [[(stage_l1, item.2)]]
    ++ pool_keys (pool st ++ unlocked stage_baselearners item.1 item.2)
    ⊆+ pool_keys (pool st) ++ item_keys stage_baselearners item).
  { rewrite pool_keys_app. unfold item_keys.
    destruct item.2 as [bl|]; csimpl.
    - rewrite Hl1. by apply submseteq_cons_middle.
    - rewrite pool_keys_unlocked_None. done. }
  simpl. destruct (first_run st).
  - etrans; [|exact Hown]. unfold out_keys. simpl. done.
  - case_decide.
    + etrans; [|exact Hown]. unfold out_keys. simpl. done.
    + rewrite out_keys_end_of_item.
      rewrite (out_keys_yield [(stage_l1, item.2)] (run_level2 _ _ _)).
      etrans; [|exact Hown]. apply submseteq_skips_l.
      etrans; [apply run_level2_keys|]. done.
Qed.

Lemma run_level1_keys (items : list (MLStageFullName * option BaseLearnerWrapper))
    (st : GenState) :
  out_keys (run_level1 rand stage_baselearners items st)
  ⊆+ pool_keys (pool st) ++ (items ≫= item_keys stage_baselearners).
Proof.
  revert st. induction items as [|item items IH]; intros st; simpl.
  - unfold out_keys. simpl. by rewrite app_nil_r.
  - pose proof (run_level1_item_keys st item) as Hitem.
    destruct (run_level1_item rand stage_baselearners st item) as [ys [st'|]];
      simpl.
    + unfold out_keys in *. simpl in *.
      rewrite omap_app, <-app_assoc.
      etrans; [apply submseteq_skips_l, IH|].
      rewrite !app_assoc. by apply submseteq_skips_r.
    + etrans; [exact Hitem|]. apply submseteq_skips_l.
      by apply submseteq_inserts_r.
Qed.

(** Every submission of the generator with its baselearners present is
    accounted for by a first-level pair, once. *)
Lemma generate_keys :
  omap submission_key
       (_generate_stage_baselearner_candidates rand stage_baselearners).1
  ⊆+ level1_items stage_baselearners ≫= item_keys stage_baselearners.
Proof.
  unfold _generate_stage_baselearner_candidates.
  pose proof (run_level1_keys (level1_items stage_baselearners)
                {| pool := []; first_run := true; n_runs := 0; draws := 0 |})
    as Hl1.
  destruct (run_level1 _ _ _ _) as [ys [st|]]; simpl in *.
  - pose proof (drain_keys (pool_weight (pool st)) st) as Hdrain.
    unfold out_keys in *. simpl in *. rewrite omap_app.
    etrans; [|exact Hl1]. apply submseteq_skips_l.
    etrans; [|exact Hdrain]. by apply submseteq_inserts_r.
  - unfold out_keys in Hl1. simpl in Hl1. by rewrite app_nil_r in Hl1.
Qed.
End SchedulerFacts.

Lemma list_filter_iff_elem {X : Type} (P Q : X → Prop)
    `{!∀ x, Decision (P x)} `{!∀ x, Decision (Q x)} (l : list X) :
  (∀ x, x ∈ l → P x ↔ Q x) → filter P l = filter Q l.
Proof.
  induction l as [|x l IH]; intros Hiff; [done|].
  rewrite !filter_cons.
  rewrite IH by (intros y Hy; apply Hiff; by right).
  destruct (decide (P x)) as [HP|HP], (decide (Q x)) as [HQ|HQ]; try done.
  - exfalso. apply HQ, Hiff; [left|done].
  - exfalso. apply HP, Hiff; [left|done].
Qed.

Lemma list_bind_bind {X Y Z : Type} (f : X → list Y) (g : Y → list Z)
    (l : list X) :
  (l ≫= f) ≫= g = l ≫= (λ x, f x ≫= g).
Proof.
  induction l as [|x l IH]; [done|]. csimpl. by rewrite bind_app, IH.
Qed.

Lemma zip_fst_fmap_snd {X Y Z : Type} (g : Y → Z) (l : list (X * Y)) :
  zip (l.*1) (g <$> l.*2) = (λ p, (p.1, g p.2)) <$> l.
Proof. induction l as [|[x y] l IH]; [done|]. csimpl. by rewrite IH. Qed.

Lemma stage_by_levels_fst
    (stage_baselearners : list (MLStageFullName * list BaseLearnerWrapper))
    (n : nat) :
  stage_by_levels stage_baselearners n
  = (filter (λ sb : MLStageFullName * list BaseLearnerWrapper, length sb.1 = n)
            stage_baselearners).*1.
Proof.
  unfold stage_by_levels.
  induction stage_baselearners as [|[key cands] l IH]; [done|].
  csimpl. rewrite !filter_cons. simpl. case_decide; csimpl; by rewrite IH.
Qed.

Section ScheduleUnique.
Variable stage_baselearners : list (MLStageFullName * list BaseLearnerWrapper).

(** The stage dictionary has each key once, and the candidates of a stage
    have different display names. *)
Hypothesis keys_NoDup : NoDup stage_baselearners.*1.
Hypothesis names_NoDup : ∀ key candidates,
  (key, candidates) ∈ stage_baselearners → NoDup (name <$> candidates).

Lemma stage_by_levels_NoDup (n : nat) :
  NoDup (stage_by_levels stage_baselearners n).
Proof. unfold stage_by_levels. by apply NoDup_filter. Qed.

Lemma level1_entries :
  filter (λ sb : MLStageFullName * list BaseLearnerWrapper,
            sb.1 ∈ stage_by_levels stage_baselearners 1) stage_baselearners
  = filter (λ sb : MLStageFullName * list BaseLearnerWrapper, length sb.1 = 1)
           stage_baselearners.
Proof.
  apply list_filter_iff_elem. intros [key cands] Hin. simpl.
  unfold stage_by_levels. rewrite list_elem_of_filter.
  split; [by intros [? _]|]. intros Hlen. split; [done|].
  by apply (list_elem_of_fmap_2 fst) in Hin.
Qed.

(** The first-level pairs, row by row of [zip_longest]. *)
Lemma level1_items_rows :
  ∃ n,
    level1_items stage_baselearners
    = seq 0 n ≫= λ i,
        (λ sb : MLStageFullName * list BaseLearnerWrapper, (sb.1, sb.2 !! i))
          <$> filter (λ sb : MLStageFullName * list BaseLearnerWrapper,
                        length sb.1 = 1) stage_baselearners.
Proof.
  unfold level1_items, zip_longest. eexists.
  rewrite list_fmap_bind. apply list_bind_ext; [|done]. intros i. simpl.
  rewrite level1_entries, stage_by_levels_fst.
  apply (zip_fst_fmap_snd (λ l : list BaseLearnerWrapper, l !! i)).
Qed.
Lemma stage_baselearners_NoDup : NoDup stage_baselearners.
Proof. by apply (NoDup_fmap_1 fst). Qed.

Lemma candidates_NoDup (key : MLStageFullName) :
  NoDup (name <$> default [] (dict_get key stage_baselearners)).
Proof.
  destruct (dict_get key stage_baselearners) as [cands|] eqn:Hget; simpl.
  - apply dict_get_Some_elem in Hget. by eapply names_NoDup.
  - apply NoDup_nil_2.
Qed.

Lemma unlocked_keys_NoDup (stage_name_l1 : MLStageFullName)
    (bl_l1 : BaseLearnerWrapper) :
  NoDup (pool_keys (unlocked stage_baselearners stage_name_l1 (Some bl_l1))).
Proof.
  unfold unlocked, pool_keys. rewrite list_fmap_bind. apply NoDup_bind.
  - intros s2 s2' y _ _ Hy Hy'. unfold entry_keys in Hy, Hy'. simpl in *.
    apply list_elem_of_fmap in Hy as (c & -> & _).
    apply list_elem_of_fmap in Hy' as (c' & [= -> _] & _). done.
  - intros s2 _. unfold entry_keys. simpl.
    pose proof (candidates_NoDup s2) as Hnd.
    apply NoDup_fmap_2_strong; [|by apply NoDup_fmap_1 in Hnd].
    intros c c' Hc Hc' [= Hname].
    by apply (NoDup_fmap_inj_on name _ _ _ Hnd).
  - apply NoDup_filter, stage_by_levels_NoDup.
Qed.

(** The first-level pair a submission identity is accounted to. *)
Lemma item_keys_origin (item : MLStageFullName * option BaseLearnerWrapper)
    (y : SubmissionKey) :
  length item.1 = 1 → y ∈ item_keys stage_baselearners item →
  ∃ bl, item.2 = Some bl ∧ prefix1 y.1 = item.1
        ∧ default y.2.1 y.2.2 = name bl.
Proof.
  intros Hlen. unfold item_keys. destruct item.2 as [bl|]; intros Hy.
  - exists bl. split; [done|].
    apply elem_of_cons in Hy as [->|Hy]; simpl.
    + split; [|done]. unfold prefix1. apply take_ge. lia.
    + unfold pool_keys, unlocked in Hy. rewrite list_fmap_bind in Hy.
      apply list_elem_of_bind in Hy as (s2 & Hy & Hs2).
      apply list_elem_of_filter in Hs2 as [Hpre _].
      unfold entry_keys in Hy. simpl in Hy.
      apply list_elem_of_fmap in Hy as (c & -> & _). done.
  - by apply elem_of_nil in Hy.
Qed.

Lemma item_keys_NoDup (item : MLStageFullName * option BaseLearnerWrapper) :
  NoDup (item_keys stage_baselearners item).
Proof.
  unfold item_keys. destruct item.2 as [bl|]; [|apply NoDup_nil_2].
  apply NoDup_cons. split; [|apply unlocked_keys_NoDup].
  intros Hin. unfold pool_keys, unlocked in Hin. rewrite list_fmap_bind in Hin.
  apply list_elem_of_bind in Hin as (s2 & Hy & _).
  unfold entry_keys in Hy. simpl in Hy.
  by apply list_elem_of_fmap in Hy as (c & [=] & _).
Qed.

(** The first-level pairs account for different submissions. *)
Lemma level1_keys_NoDup :
  NoDup (level1_items stage_baselearners ≫= item_keys stage_baselearners).
Proof.
  destruct level1_items_rows as [n ->]. rewrite list_bind_bind.
  assert (Horigin : ∀ i (sb : MLStageFullName * list BaseLearnerWrapper) y,
    sb ∈ filter (λ sb : MLStageFullName * list BaseLearnerWrapper,
                   length sb.1 = 1) stage_baselearners →
    y ∈ item_keys stage_baselearners (sb.1, sb.2 !! i) →
    sb ∈ stage_baselearners
    ∧ ∃ bl, sb.2 !! i = Some bl ∧ prefix1 y.1 = sb.1
            ∧ default y.2.1 y.2.2 = name bl).
  { intros i sb y Hsb Hy. apply list_elem_of_filter in Hsb as [Hlen Hsb].
    split; [done|]. by apply (item_keys_origin (sb.1, sb.2 !! i)). }
  assert (Hsame : ∀ (sb sb' : MLStageFullName * list BaseLearnerWrapper),
    sb ∈ stage_baselearners → sb' ∈ stage_baselearners → sb.1 = sb'.1 →
    sb = sb').
  { intros sb sb' ???. by apply (NoDup_fmap_inj_on fst stage_baselearners). }
  apply NoDup_bind; [| |apply NoDup_seq].
  - intros i i' y _ _ Hy Hy'. rewrite list_fmap_bind in Hy, Hy'.
    apply list_elem_of_bind in Hy as (sb & Hy & Hsb).
    apply list_elem_of_bind in Hy' as (sb' & Hy' & Hsb').
    destruct (Horigin _ _ _ Hsb Hy) as (Hin & bl & Hbl & Hpre & Hname).
    destruct (Horigin _ _ _ Hsb' Hy') as (Hin' & bl' & Hbl' & Hpre' & Hname').
    assert (sb = sb') as <- by (apply Hsame; [done..|congruence]).
    destruct sb as [key cands]. simpl in *.
    apply (NoDup_lookup (name <$> cands) i i' (name bl)).
    + by eapply names_NoDup.
    + by rewrite list_lookup_fmap, Hbl.
    + rewrite list_lookup_fmap, Hbl'. simpl. congruence.
  - intros i _. rewrite list_fmap_bind. apply NoDup_bind.
    + intros sb sb' y Hsb Hsb' Hy Hy'.
      destruct (Horigin _ _ _ Hsb Hy) as (Hin & bl & Hbl & Hpre & Hname).
      destruct (Horigin _ _ _ Hsb' Hy') as (Hin' & bl' & Hbl' & Hpre' & Hname').
      apply Hsame; [done..|congruence].
    + intros sb _. apply item_keys_NoDup.
    + apply NoDup_filter, stage_baselearners_NoDup.
Qed.

(** No two submissions of the generator with their baselearners present
    have the same stage, candidate name and prerequisite candidate name. *)
Lemma generate_keys_NoDup (rand : nat → nat) :
  NoDup (omap submission_key
           (_generate_stage_baselearner_candidates rand stage_baselearners).1).
Proof.
  eapply submseteq_NoDup; [apply generate_keys|apply level1_keys_NoDup].
Qed.
End ScheduleUnique.

Section SchedulerShapes.
Variable rand : nat → nat.
Variable stage_baselearners : list (MLStageFullName * list BaseLearnerWrapper).

Lemma pool_draw_shape (idx : nat) (pool : list PoolEntry) :
  pool_level2 pool →
  match pool_draw idx pool with
  | DYield si pool' => level2_shape si ∧ pool_level2 pool'
  | DDrop pool' => pool_level2 pool'
  | DRaise => True
  end.
Proof.
  intros Hpool. unfold pool_draw.
  destruct (pool !! idx) as [e|] eqn:He; [|done].
  assert (Hlen : length (pe_stage e) = 2).
  { unfold pool_level2 in Hpool. rewrite Forall_lookup in Hpool. by eapply Hpool. }
  destruct (pe_iter e) as [|bl_l2 rest].
  - by apply Forall_delete.
  - destruct (_extract_stage (prefix1 (pe_stage e))) as [stage_l1|] eqn:Hl1;
      [|done].
    destruct (_extract_stage (pe_stage e)) as [stage_l2|] eqn:Hl2; [|done].
    split.
    + exists (pe_stage e), stage_l1, (pe_bl_l1 e), stage_l2, bl_l2. done.
    + by apply Forall_insert.
Qed.

Lemma draw_l2_shape (st : GenState) :
  pool_level2 (pool st) →
  match draw_l2 rand st with
  | DYield si pool' => level2_shape si ∧ pool_level2 pool'
  | DDrop pool' => pool_level2 pool'
  | DRaise => True
  end.
Proof.
  intros Hpool. unfold draw_l2. destruct (randint rand _ _) as [idx|]; [|done].
  by apply pool_draw_shape.
Qed.

Lemma run_level2_shape (m : nat) (st : GenState) :
  pool_level2 (pool st) → out_shaped (run_level2 rand m st).
Proof.
  revert st. induction m as [|m IH]; intros st Hpool; simpl.
  - by split.
  - pose proof (draw_l2_shape st Hpool) as Hdraw.
    destruct (draw_l2 rand st) as [si pool'|pool'|].
    + destruct Hdraw as [Hsi Hpool'].
      destruct (IH {| pool := pool'; first_run := first_run st;
                      n_runs := S (n_runs st); draws := S (draws st) |} Hpool')
        as [Hys Hst].
      split; [|done]. simpl. constructor; [by right|done].
    + by apply IH.
    + by split.
Qed.

Lemma drain_shape (fuel : nat) (st : GenState) :
  pool_level2 (pool st) → out_shaped (drain rand fuel st).
Proof.
  revert st. induction fuel as [|fuel IH]; intros st Hpool; simpl.
  - by split.
  - case_decide; [by split|].
    pose proof (draw_l2_shape st Hpool) as Hdraw.
    destruct (draw_l2 rand st) as [si pool'|pool'|].
    + destruct Hdraw as [Hsi Hpool'].
      destruct (IH {| pool := pool'; first_run := first_run st;
                      n_runs := n_runs st; draws := S (draws st) |} Hpool')
        as [Hys Hst].
      split; [|done]. simpl. constructor; [by right|done].
    + by apply IH.
    + by split.
Qed.

Lemma unlocked_level2 (stage_name_l1 : MLStageFullName)
    (bl_l1 : option BaseLearnerWrapper) :
  pool_level2 (unlocked stage_baselearners stage_name_l1 bl_l1).
Proof.
  unfold pool_level2, unlocked. apply Forall_fmap, Forall_forall.
  intros s2 Hs2. simpl.
  apply list_elem_of_filter in Hs2 as [_ Hs2].
  unfold stage_by_levels in Hs2. by apply list_elem_of_filter in Hs2 as [? _].
Qed.

Lemma run_level1_item_shape (st : GenState)
    (item : MLStageFullName * option BaseLearnerWrapper) :
  length item.1 = 1 → pool_level2 (pool st) →
  out_shaped (run_level1_item rand stage_baselearners st item).
Proof.
  intros Hlen Hpool. unfold run_level1_item.
  destruct (_extract_stage item.1) as [stage_l1|] eqn:Hl1; [|by split].
  assert (Hsi : level1_shape [(stage_l1, item.2)])
    by (by exists item.1, stage_l1, item.2).
  assert (Hpool1 : pool_level2 (pool st ++ unlocked stage_baselearners item.1 item.2))
    by (apply Forall_app; split; [done|apply unlocked_level2]).
  simpl. destruct (first_run st).
  - split; [|done]. simpl. constructor; [by left|done].
  - case_decide.
    + split; [|done]. simpl. constructor; [by left|done].
    + match goal with
      | |- context [run_level2 rand ?m ?st1] =>
          destruct (run_level2_shape m st1 Hpool1) as [Hys Hst];
          destruct (run_level2 rand m st1) as [ys [st'|]]
      end; (split; [constructor; [by left|done]|done]).
Qed.

Lemma run_level1_shape (items : list (MLStageFullName * option BaseLearnerWrapper))
    (st : GenState) :
  Forall (λ item, length item.1 = 1) items → pool_level2 (pool st) →
  out_shaped (run_level1 rand stage_baselearners items st).
Proof.
  intros Hitems. revert st.
  induction Hitems as [|item items Hitem _ IH]; intros st Hpool; simpl.
  - by split.
  - destruct (run_level1_item_shape st item Hitem Hpool) as [Hys Hst].
    destruct (run_level1_item rand stage_baselearners st item) as [ys [st'|]];
      simpl in *; [|by split].
    destruct (IH st' Hst) as [Hys' Hst'].
    split; [|done]. simpl. by apply Forall_app.
Qed.

Lemma level1_items_level1 :
  Forall (λ item : MLStageFullName * option BaseLearnerWrapper, length item.1 = 1)
         (level1_items stage_baselearners).
Proof.
  apply Forall_forall. intros [key obl] Hin. simpl.
  unfold level1_items in Hin. apply list_elem_of_bind in Hin as (row & Hin & _).
  apply elem_of_zip_l in Hin.
  unfold stage_by_levels in Hin. by apply list_elem_of_filter in Hin as [? _].
Qed.

(** The submissions of the generator have one of the two shapes. *)
Lemma generate_shape :
  Forall (λ si, level1_shape si ∨ level2_shape si)
    (_generate_stage_baselearner_candidates rand stage_baselearners).1.
Proof.
  unfold _generate_stage_baselearner_candidates.
  destruct (run_level1_shape (level1_items stage_baselearners)
              {| pool := []; first_run := true; n_runs := 0; draws := 0 |}
              level1_items_level1) as [Hys Hst]; [by apply Forall_nil|].
  destruct (run_level1 _ _ _ _) as [ys [st|]]; simpl in *; [|done].
  destruct (drain_shape (pool_weight (pool st)) st Hst) as [Hys' _].
  by apply Forall_app.
Qed.
End SchedulerShapes.

(** The drain loop has fuel for all its iterations: the generator ends
    with an empty pool. *)
Lemma pool_weight_app (p1 p2 : list PoolEntry) :
  pool_weight (p1 ++ p2) = pool_weight p1 + pool_weight p2.
Proof.
  unfold pool_weight. rewrite fmap_app.
  induction (_ <$> p1) as [|w ws IH]; simpl; [done|]. rewrite IH. lia.
Qed.

Lemma pool_weight_cons (e : PoolEntry) (p : list PoolEntry) :
  pool_weight (e :: p) = S (length (pe_iter e)) + pool_weight p.
Proof. done. Qed.

Lemma pool_draw_weight (idx : nat) (pool : list PoolEntry) :
  match pool_draw idx pool with
  | DYield _ pool' | DDrop pool' => S (pool_weight pool') = pool_weight pool
  | DRaise => True
  end.
Proof.
  unfold pool_draw. destruct (pool !! idx) as [e|] eqn:He; [|done].
  apply list_elem_of_split_length in He as (l1 & l2 & -> & ->).
  destruct (pe_iter e) as [|bl_l2 rest] eqn:Hiter.
  - rewrite delete_middle, !pool_weight_app, pool_weight_cons, Hiter.
    simpl. lia.
  - destruct (_extract_stage (prefix1 (pe_stage e))) as [stage_l1|]; [|done].
    destruct (_extract_stage (pe_stage e)) as [stage_l2|]; [|done].
    rewrite insert_middle, !pool_weight_app, !pool_weight_cons, Hiter.
    simpl. lia.
Qed.

Lemma drain_complete (rand : nat → nat) (fuel : nat) (st : GenState) :
  pool_weight (pool st) ≤ fuel →
  match (drain rand fuel st).2 with
  | Some st' => pool st' = []
  | None => True
  end.
Proof.
  revert st. induction fuel as [|fuel IH]; intros st Hle; simpl.
  - destruct (pool st) as [|e p]; [done|].
    rewrite pool_weight_cons in Hle. lia.
  - case_decide as Hlen; [by apply nil_length_inv|].
    unfold draw_l2. destruct (randint rand _ _) as [idx|]; [|done].
    pose proof (pool_draw_weight idx (pool st)) as Hw.
    destruct (pool_draw idx (pool st)) as [si pool'|pool'|]; [| |done].
    + apply (IH {| pool := pool'; first_run := first_run st;
                   n_runs := n_runs st; draws := S (draws st) |}).
      simpl. lia.
    + apply (IH {| pool := pool'; first_run := first_run st;
                   n_runs := n_runs st; draws := S (draws st) |}).
      simpl. lia.
Qed.

Lemma generate_drains (rand : nat → nat)
    (stage_baselearners : list (MLStageFullName * list BaseLearnerWrapper))
    (st : GenState) :
  (_generate_stage_baselearner_candidates rand stage_baselearners).2 = Some st →
  pool st = [].
Proof.
  unfold _generate_stage_baselearner_candidates.
  destruct (run_level1 _ _ _ _) as [ys [st1|]]; simpl; [|done].
  pose proof (drain_complete rand (pool_weight (pool st1)) st1 (le_n _)) as Hd.
  intros Heq. by rewrite Heq in Hd.
Qed.

(* ===================================================================== *)
(** * Training events and the cache *)
(* ===================================================================== *)

Section TrainerFacts.
Context {A : Type} `{Numeric A} {Model : Type}.
Variable fit_predict : BaseLearnerWrapper → DataFrame A → Roles → Model.
Variable predict : Model → DataFrame A → list A.
Implicit Types (cache : Cache A Model) (r : TrainedStageBaseLearner A Model).

(** Data is prepared for chains of one stage, or of two stages with the
    prerequisite baselearner present. *)
Lemma prepare_data_Some_shape cache (stage_info : StageInfo)
    (train : DataFrame A) (roles : Roles) prepared :
  _prepare_data_for_stage predict cache stage_info train roles = Some prepared →
  (∃ ml_stage bl, stage_info = [(ml_stage, bl)])
  ∨ (∃ prev_ml_stage prev_bl ml_stage bl,
       stage_info = [(prev_ml_stage, Some prev_bl); (ml_stage, bl)]).
Proof.
  unfold _prepare_data_for_stage.
  destruct (_get_treatment_role roles) as [[? ?]|]; [simpl|done].
  destruct (_get_target_role roles) as [[? ?]|]; [simpl|done].
  destruct stage_info as [|[st1 o1] [|[st2 o2] [|? ?]]]; simpl; try done.
  - intros _. left. by exists st1, o1.
  - destruct o1 as [prev_bl|]; simpl; [|done].
    intros _. right. by exists st1, prev_bl, st2, o2.
  - destruct (last _); done.
Qed.

(** A training event appends one record, whose identity is that of the
    submission, to the records of the submitted stage. *)
Lemma evaluate_Some cache cache' (stage_info : StageInfo)
    (train test : DataFrame A) (roles : Roles) :
  _evaluate fit_predict predict cache stage_info train test roles = Some cache' →
  ∃ key r,
    submission_key stage_info = Some (key, record_key r)
    ∧ cache' = cache_append key r cache
    ∧ pred r = predict (trained_model r) test
    ∧ (length stage_info = 1 → prev_stage_bl r = None)
    ∧ ∃ ml_stage bl, last stage_info = Some (ml_stage, bl)
                     ∧ key = full_name ml_stage.
Proof.
  unfold _evaluate.
  destruct (_prepare_data_for_stage _ _ _ _ _) as [[train_data train_roles]|]
    eqn:Hprep; [simpl|done].
  apply prepare_data_Some_shape in Hprep
    as [(s & o & ->)|(p & pb & s & o & ->)]; simpl.
  - destruct o as [bl|]; simpl; [|done]. intros [= <-].
    eexists _, _.
    split; [|split; [reflexivity|split_and!; [done|done|by eexists _, _]]].
    done.
  - destruct o as [bl|]; simpl; [|done]. intros [= <-].
    eexists _, _.
    split; [|split; [reflexivity|split_and!; [done|done|by eexists _, _]]].
    done.
Qed.

Lemma cache_keys_append cache (key : MLStageFullName) r :
  cache_keys (cache_append key r cache) ≡ₚ (key, record_key r) :: cache_keys cache.
Proof.
  unfold cache_append, cache_keys.
  induction cache as [|[k records] cache IH]; csimpl.
  - done.
  - destruct (decide (k = key)) as [->|Hne]; csimpl.
    + rewrite fmap_app. csimpl. rewrite <-app_assoc. csimpl.
      by rewrite <-Permutation_middle.
    + rewrite IH. by rewrite <-Permutation_middle.
Qed.

Lemma cache_append_keys_NoDup cache (key : MLStageFullName) r :
  NoDup cache.*1 → NoDup (cache_append key r cache).*1.
Proof. apply dict_set_NoDup. Qed.

(** The cache after a sequence of training events. *)
Lemma evaluate_all_keys (train test : DataFrame A) (roles : Roles)
    (submissions : list StageInfo) cache cache' :
  foldlM (λ c si, _evaluate fit_predict predict c si train test roles)
         cache submissions = Some cache' →
  cache_keys cache' ≡ₚ cache_keys cache ++ omap submission_key submissions
  ∧ (NoDup cache.*1 → NoDup cache'.*1).
Proof.
  revert cache. induction submissions as [|si submissions IH];
    intros cache; simpl.
  - intros [= <-]. by rewrite app_nil_r.
  - destruct (_evaluate _ _ cache si _ _ _) as [cache1|] eqn:Hev; [simpl|done].
    intros Hrest. destruct (IH _ Hrest) as [Hperm Hnd].
    apply evaluate_Some in Hev as (key & r & Hkey & -> & _).
    rewrite Hkey. split.
    + rewrite Hperm, cache_keys_append. by rewrite <-Permutation_middle.
    + intros ?. by apply Hnd, cache_append_keys_NoDup.
Qed.
Lemma cache_wf_nil (P : list A → Prop) : cache_wf P ([] : Cache A Model).
Proof.
  split; [apply NoDup_nil_2|]. intros ?? Hnil. by apply elem_of_nil in Hnil.
Qed.

Lemma cache_append_wf (P : list A → Prop) cache (key : MLStageFullName) r :
  cache_wf P cache →
  P (pred r) →
  (length key = 1 → prev_stage_bl r = None) →
  cache_wf P (cache_append key r cache).
Proof.
  intros [Hnd Hwf] Hpred Hprev. split; [by apply cache_append_keys_NoDup|].
  intros k records Hin. unfold cache_append in Hin.
  apply dict_set_elem in Hin as [[= -> ->]|Hin]; [|by apply Hwf].
  split; [by destruct (default [] _)|].
  intros r' Hr'. apply elem_of_app in Hr' as [Hr'|Hr'].
  - destruct (dict_get key cache) as [old|] eqn:Hget; simpl in Hr';
      [|by apply elem_of_nil in Hr'].
    apply dict_get_Some_elem in Hget. by apply (Hwf key old).
  - apply list_elem_of_singleton in Hr' as ->. done.
Qed.

(** Training events on submissions of the two shapes keep the cache
    well-formed. *)
Lemma evaluate_all_wf (P : list A → Prop) (train test : DataFrame A)
    (roles : Roles) (submissions : list StageInfo) cache cache' :
  (∀ m, P (predict m test)) →
  Forall (λ si, level1_shape si ∨ level2_shape si) submissions →
  cache_wf P cache →
  foldlM (λ c si, _evaluate fit_predict predict c si train test roles)
         cache submissions = Some cache' →
  cache_wf P cache'.
Proof.
  intros Hpredict Hshape. revert cache.
  induction Hshape as [|si submissions Hsi _ IH]; intros cache Hwf; simpl.
  - by intros [= <-].
  - destruct (_evaluate _ _ cache si _ _ _) as [cache1|] eqn:Hev; [simpl|done].
    apply IH.
    apply evaluate_Some in Hev
      as (key & r & _ & -> & Hpred & Hprev & ml_stage & bl & Hlast & ->).
    apply cache_append_wf; [done|by rewrite Hpred|].
    intros Hlen. destruct Hsi as [(k & s & b & _ & _ & ->)|
                                  (k & p & pb & s & b & Hk & _ & Hex & ->)].
    + by apply Hprev.
    + simpl in Hlast. injection Hlast as <- <-.
      apply extract_stage_full_name in Hex. rewrite Hex in Hlen. lia.
Qed.
End TrainerFacts.

Lemma NoDup_bind_elem {X Y : Type} (f : X → list Y) (l : list X) (x : X) :
  NoDup (l ≫= f) → x ∈ l → NoDup (f x).
Proof.
  induction l as [|z l IH]; csimpl; intros Hnd Hx.
  - by apply elem_of_nil in Hx.
  - apply NoDup_app in Hnd as (Hz & _ & Hl).
    apply elem_of_cons in Hx as [->|Hx]; [done|by apply IH].
Qed.

Lemma omap_take_NoDup {X Y : Type} (f : X → option Y) (l : list X) (k : nat) :
  NoDup (omap f l) → NoDup (omap f (take k l)).
Proof.
  intros Hnd. rewrite <-(take_drop k l), omap_app in Hnd.
  by apply NoDup_app in Hnd as [? _].
Qed.

Section FitFacts.
Context {A : Type} `{Numeric A} {Model : Type}.
Variable fit_predict : BaseLearnerWrapper → DataFrame A → Roles → Model.
Variable predict : Model → DataFrame A → list A.
Variable calculate_uplift_auc : list A → list A → list A → string → bool → A.
Variable train_test_split :
  DataFrame A → list A → nat → DataFrame A * DataFrame A.
Variable time_limit_exceeded : nat → bool.
Variable rand : nat → nat.
Implicit Types (cache : Cache A Model) (r : TrainedStageBaseLearner A Model).

(** The loop of [fit] trains a prefix of the submissions. *)
Lemma fit_loop_Some (train test : DataFrame A) (roles : Roles)
    (submissions : list StageInfo) (ended : bool) (n : nat) cache cache' :
  fit_loop fit_predict predict time_limit_exceeded train test roles
           submissions ended n cache = Some cache' →
  ∃ k,
    foldlM (λ c si, _evaluate fit_predict predict c si train test roles)
           cache (take k submissions) = Some cache'.
Proof.
  revert n cache. induction submissions as [|si submissions IH];
    intros n cache; simpl.
  - intros Hend. exists 0. by destruct ended; simplify_eq.
  - destruct (_evaluate _ _ cache si _ _ _) as [cache1|] eqn:Hev; [simpl|done].
    destruct (time_limit_exceeded (S n)).
    + intros [= <-]. exists 1. simpl. rewrite Hev. simpl. by rewrite ?take_0.
    + intros Hrest. apply IH in Hrest as [k Hk]. exists (S k). simpl.
      by rewrite Hev.
Qed.

(** C5, amended. After a run of [fit] over a stage dictionary whose
    candidates have different display names within each stage, the records
    cached for a stage differ in the pair of candidate display name and
    prerequisite candidate display name: no such pair is trained twice. The
    records of a first-level stage have no prerequisite candidate, they
    differ in the candidate display name. *)
Theorem cache_unique_submissions (self : Settings)
    (stage_baselearners : list (MLStageFullName * list BaseLearnerWrapper))
    (data : DataFrame A) (roles : Roles) (fitted : Fitted A Model) :
  NoDup stage_baselearners.*1 →
  (∀ key candidates,
     (key, candidates) ∈ stage_baselearners → NoDup (name <$> candidates)) →
  fit fit_predict predict calculate_uplift_auc train_test_split
      time_limit_exceeded rand self stage_baselearners data roles
  = Some fitted →
  ∀ key records,
    (key, records) ∈ trained_stage_baselearners fitted →
    NoDup (record_key <$> records)
    ∧ (length key = 1 → NoDup ((λ r, name (stage_bl r)) <$> records)).
Proof.
  intros Hkeys Hnames Hfit key records Hin.
  unfold fit in Hfit.
  destruct (_prepare_data _ _ _ _) as [[[[train test] tt] ty]|];
    [simpl in Hfit|done].
  destruct (fit_loop _ _ _ _ _ _ _ _ _ _) as [cache|] eqn:Hloop;
    [simpl in Hfit|done].
  destruct (_calculate_ml_metric _ _ _ _ _ _ _) as [metrics|];
    [simpl in Hfit|done].
  destruct (_set_best_metalearner _ _ _) as [best|]; [simpl in Hfit|done].
  injection Hfit as <-. simpl in Hin.
  apply fit_loop_Some in Hloop as [k Hk].
  destruct (evaluate_all_keys _ _ _ _ _ _ _ _ Hk) as [Hperm _].
  simpl in Hperm.
  assert (Hnd : NoDup (cache_keys cache)).
  { rewrite Hperm. apply omap_take_NoDup. by apply generate_keys_NoDup. }
  assert (Hrec : NoDup (record_key <$> records)).
  { apply (NoDup_bind_elem _ _ _ Hnd) in Hin. simpl in Hin.
    apply (NoDup_fmap_1 (pair key)). by rewrite <-list_fmap_compose. }
  split; [done|]. intros Hlen.
  assert (Hwf : cache_wf (λ _, True) cache).
  { eapply evaluate_all_wf; [done| |apply cache_wf_nil|exact Hk].
    apply Forall_take, generate_shape. }
  destruct Hwf as [_ Hwf]. destruct (Hwf _ _ Hin) as [_ Hprev].
  apply (NoDup_fmap_1 (λ n, (n, @None string))).
  rewrite <-list_fmap_compose.
  erewrite list_fmap_ext; [exact Hrec|].
  intros i r Hr. simpl. unfold record_key.
  apply list_elem_of_lookup_2 in Hr. destruct (Hprev r Hr) as [_ Hnone].
  by rewrite Hnone.
Qed.
End FitFacts.

(* ===================================================================== *)
(** * Assembly and selection from a well-formed cache *)
(* ===================================================================== *)

Lemma product_elem {X : Type} (ls : list (list X)) (bl : list X) :
  bl ∈ product ls → Forall2 (λ x l, x ∈ l) bl ls.
Proof.
  revert bl. induction ls as [|l ls IH]; intros bl; simpl.
  - intros Hin. apply list_elem_of_singleton in Hin as ->. constructor.
  - intros Hin. apply list_elem_of_bind in Hin as (x & Hin & Hx).
    apply list_elem_of_fmap in Hin as (rest & -> & Hrest).
    constructor; [done|by apply IH].
Qed.

Lemma product_nonempty {X : Type} (ls : list (list X)) :
  Forall (λ l, l ≠ []) ls → product ls ≠ [].
Proof.
  induction 1 as [|l ls Hl _ IH]; simpl; [done|].
  destruct l as [|x l]; [done|]. destruct (product ls) as [|y ys]; done.
Qed.

Lemma dict_of_list_NoDup {K V : Type} `{EqDecision K} (l : list (K * V)) :
  NoDup l.*1 → dict_of_list l = l.
Proof.
  unfold dict_of_list.
  assert (Hgen : ∀ acc : list (K * V),
            NoDup (acc ++ l).*1 →
            foldl (λ d kv, dict_set kv.1 kv.2 d) acc l = acc ++ l).
  { induction l as [|[k v] l IH]; intros acc Hnd; simpl.
    - by rewrite app_nil_r.
    - rewrite dict_set_fresh.
      + rewrite IH; rewrite <-app_assoc; done.
      + rewrite fmap_app in Hnd. apply NoDup_app in Hnd as (_ & Hdisj & _).
        intros Hk. apply (Hdisj k Hk). left. }
  intros Hnd. by apply (Hgen []).
Qed.

Lemma insert_sorted_Permutation {X : Type} (leb : X → X → bool) (x : X)
    (l : list X) :
  insert_sorted leb x l ≡ₚ x :: l.
Proof.
  induction l as [|y l IH]; simpl; [done|].
  destruct (leb x y); [done|]. rewrite IH. apply Permutation_swap.
Qed.

Lemma sorted_Permutation {X : Type} (leb : X → X → bool) (l : list X) :
  sorted leb l ≡ₚ l.
Proof.
  unfold sorted. induction l as [|x l IH]; simpl; [done|].
  by rewrite insert_sorted_Permutation, IH.
Qed.

Section ReadyFacts.
Context {A : Type} `{Numeric A} {Model : Type}.
Implicit Types (cache : Cache A Model) (set_bls ml_bls : StageBls A Model)
               (r : TrainedStageBaseLearner A Model).

Lemma chosen_from_keys cache set_bls :
  chosen_from cache set_bls → set_bls.*1 = cache.*1.
Proof. induction 1 as [|kr sr ?? [? _] _ IH]; csimpl; [done|]. congruence. Qed.

Lemma zip_chosen_from cache (bl : list (TrainedStageBaseLearner A Model)) :
  Forall2 (λ x l, x ∈ l) bl cache.*2 → chosen_from cache (zip cache.*1 bl).
Proof.
  revert bl. induction cache as [|[k records] cache IH]; intros bl Hbl;
    csimpl in *.
  - inv Hbl. constructor.
  - inv Hbl. simpl. constructor; [done|]. by apply IH.
Qed.

(** Every combination of the cross product chooses from the cache. *)
Lemma combinations_chosen_from cache set_bls :
  NoDup cache.*1 → set_bls ∈ combinations cache → chosen_from cache set_bls.
Proof.
  intros Hnd Hin. unfold combinations in Hin.
  apply list_elem_of_fmap in Hin as (bl & -> & Hbl).
  apply product_elem, zip_chosen_from in Hbl.
  rewrite dict_of_list_NoDup; [done|].
  by rewrite (chosen_from_keys _ _ Hbl).
Qed.

Lemma combinations_nonempty cache :
  (∀ key records, (key, records) ∈ cache → records ≠ []) →
  combinations cache ≠ [].
Proof.
  intros Hne. unfold combinations.
  assert (product cache.*2 ≠ []) as Hprod.
  { apply product_nonempty, Forall_fmap, Forall_forall.
    intros [k records] Hin. simpl. by eapply Hne. }
  by destruct (product cache.*2).
Qed.

Lemma chosen_from_lookup cache set_bls (key : MLStageFullName) :
  chosen_from cache set_bls →
  match dict_get key cache with
  | Some records => ∃ r, dict_get key set_bls = Some r ∧ r ∈ records
  | None => dict_get key set_bls = None
  end.
Proof.
  induction 1 as [|[k records] [k' r] cache set_bls [Hk Hr] _ IH];
    simpl in *; [done|].
  subst k'. case_decide; [by exists r|done].
Qed.
(** A complete assignment holds, for every stage of the metalearner, the
    record that the combination has for the stage. *)
Lemma collect_ml_bls_complete set_bls (ml_stages : list MetaLearnerStage) :
  NoDup (full_name <$> ml_stages) →
  length (collect_ml_bls set_bls ml_stages) = length ml_stages →
  NoDup (collect_ml_bls set_bls ml_stages).*1
  ∧ ∀ ml_stage, ml_stage ∈ ml_stages →
      ∃ r, dict_get (full_name ml_stage) (collect_ml_bls set_bls ml_stages)
           = Some r
           ∧ dict_get (full_name ml_stage) set_bls = Some r.
Proof.
  intros Hnd Hlen. unfold collect_ml_bls in *.
  destruct (collect_ml_bls_invariant set_bls ml_stages []) as [Hnd' Hin'];
    [apply NoDup_nil_2|].
  simpl in Hnd', Hin'.
  set (ml_bls := foldl (ml_bls_step set_bls) [] ml_stages) in *.
  split; [done|]. intros ml_stage Hst.
  assert (Hsub : ml_bls.*1 ⊆+ full_name <$> ml_stages).
  { apply NoDup_submseteq; [done|]. intros key Hkey.
    apply list_elem_of_fmap in Hkey as ([key' r] & -> & Hkr).
    destruct (Hin' key' r Hkr) as [Hnil|(s & Hs & <- & _)].
    - by apply elem_of_nil in Hnil.
    - simpl. by apply list_elem_of_fmap_2. }
  apply submseteq_length_Permutation in Hsub;
    [|rewrite !length_fmap; lia].
  assert (Hk : full_name ml_stage ∈ ml_bls.*1).
  { rewrite Hsub. by apply list_elem_of_fmap_2. }
  apply list_elem_of_fmap in Hk as ([key r] & Hkey & Hkr). simpl in Hkey.
  subst key. exists r. split; [by apply dict_get_NoDup|].
  destruct (Hin' _ r Hkr) as [Hnil|(s & _ & _ & _ & Hget & _)]; [|done].
  by apply elem_of_nil in Hnil.
Qed.

(** [set_ml_with_sbls], metalearner by metalearner. *)
Lemma assemble_unfold set_bls :
  assemble set_bls
  = (if decide (length (collect_ml_bls set_bls
                          [stage "outcome_control"; stage "outcome_treatment"])
                = 2)
     then [("TLearner",
            collect_ml_bls set_bls
              [stage "outcome_control"; stage "outcome_treatment"])]
     else [])
    ++ match dict_get "XLearner" (assemble set_bls) with
       | Some ml_bls => [("XLearner", ml_bls)]
       | None => []
       end.
Proof.
  unfold assemble, MAP_META_TO_STAGES. cbn [foldl fst snd length].
  repeat case_decide; reflexivity.
Qed.

Lemma ml_bls_step_level1 set_bls ml_bls (ml_stage : MetaLearnerStage) r :
  dict_get (full_name ml_stage) set_bls = Some r →
  prev_stage_bl r = None →
  ml_bls_step set_bls ml_bls ml_stage = dict_set (full_name ml_stage) r ml_bls.
Proof. intros Hr Hp. unfold ml_bls_step. by rewrite Hr, Hp. Qed.

(** With records for both outcome stages in the cache, every combination
    assembles the [TLearner]. *)
Lemma assemble_TLearner cache set_bls (P : list A → Prop) :
  cache_wf P cache → chosen_from cache set_bls →
  ready cache [stage "outcome_control"; stage "outcome_treatment"] →
  ∃ ml_bls rest, assemble set_bls = ("TLearner", ml_bls) :: rest.
Proof.
  intros [_ Hwf] Hchosen Hready.
  assert (Hstage : ∀ n, stage n ∈ [stage "outcome_control"; stage "outcome_treatment"] →
            ∃ r, dict_get [n] set_bls = Some r ∧ prev_stage_bl r = None).
  { intros n Hn. destruct (Hready _ Hn) as [records Hrec]. simpl in Hrec.
    pose proof (chosen_from_lookup _ _ [n] Hchosen) as Hl.
    rewrite Hrec in Hl. destruct Hl as (r & Hr & Hin). exists r. split; [done|].
    apply dict_get_Some_elem in Hrec.
    destruct (Hwf _ _ Hrec) as [_ Hrs]. by apply (Hrs r Hin). }
  destruct (Hstage "outcome_control") as (r1 & Hr1 & Hp1); [left|].
  destruct (Hstage "outcome_treatment") as (r2 & Hr2 & Hp2); [right; left|].
  rewrite assemble_unfold.
  assert (Hcollect :
    collect_ml_bls set_bls [stage "outcome_control"; stage "outcome_treatment"]
    = [(["outcome_control"], r1); (["outcome_treatment"], r2)]).
  { unfold collect_ml_bls. cbn [foldl].
    rewrite (ml_bls_step_level1 _ _ (stage "outcome_control") r1) by done.
    rewrite (ml_bls_step_level1 _ _ (stage "outcome_treatment") r2) by done.
    done. }
  rewrite Hcollect. simpl. eauto.
Qed.
(** An assembled metalearner has its held-out prediction, and the entry
    scored for it names baselearners of the cache. *)
Lemma assembled_entry cache set_bls (n : nat) (ml_name : string) ml_bls :
  cache_wf (λ p, length p = n) cache → chosen_from cache set_bls →
  (ml_name, ml_bls) ∈ assemble set_bls →
  is_Some (_metalearner_predict ml_name ml_bls)
  ∧ assembled_from cache
      (ml_name,
       sorted sbl_leb ((λ sb, (sb.1, name (stage_bl sb.2))) <$> ml_bls)).
Proof.
  intros [_ Hwf] Hchosen Hin.
  apply assemble_elem in Hin as (ml_stages & HMAP & -> & Hlen).
  pose proof (MAP_META_TO_STAGES_NoDup _ _ HMAP) as Hnames.
  destruct (collect_ml_bls_complete set_bls ml_stages Hnames Hlen)
    as [Hnd Hall].
  set (ml_bls := collect_ml_bls set_bls ml_stages) in *.
  assert (Hs : ∀ ml_stage, ml_stage ∈ ml_stages →
            ∃ records r,
              dict_get (full_name ml_stage) cache = Some records
              ∧ r ∈ records
              ∧ dict_get (full_name ml_stage) ml_bls = Some r
              ∧ length (pred r) = n).
  { intros s Hs. destruct (Hall s Hs) as (r & Hml & Hset).
    pose proof (chosen_from_lookup _ _ (full_name s) Hchosen) as Hl.
    destruct (dict_get (full_name s) cache) as [records|] eqn:Hrec;
      [|congruence].
    destruct Hl as (r' & Hr' & Hin). assert (r' = r) as -> by congruence.
    exists records, r. split_and!; [done..|].
    apply dict_get_Some_elem in Hrec.
    destruct (Hwf _ _ Hrec) as [_ Hrs]. by apply (Hrs r Hin). }
  clear Hall Hlen. clearbody ml_bls.
  split.
  - unfold MAP_META_TO_STAGES in HMAP.
    apply elem_of_cons in HMAP as [[= -> ->]|HMAP];
      [|apply list_elem_of_singleton in HMAP as [= -> ->]].
    + destruct (Hs (stage "outcome_control")) as (? & oc & _ & _ & Hoc & Hloc);
        [set_solver|].
      destruct (Hs (stage "outcome_treatment")) as (? & ot & _ & _ & Hot & Hlot);
        [set_solver|].
      simpl in Hoc, Hot. unfold _metalearner_predict, MLStageFullName in *.
      rewrite decide_True by done. rewrite Hoc, Hot. simpl.
      unfold arr_sub. rewrite arr_map2_eq_length by congruence. done.
    + destruct (Hs (mkStage "propensity" [("task", ATask "binary")] None))
        as (? & pl & _ & _ & Hpl & Hlpl); [set_solver|].
      destruct (Hs (mkStage "effect_control" [("task", ATask "reg")]
                            (Some (stage "outcome_treatment"))))
        as (? & ec & _ & _ & Hec & Hlec); [set_solver|].
      destruct (Hs (mkStage "effect_treatment" [("task", ATask "reg")]
                            (Some (stage "outcome_control"))))
        as (? & et & _ & _ & Het & Hlet); [set_solver|].
      simpl in Hpl, Hec, Het. unfold _metalearner_predict, MLStageFullName in *.
      rewrite decide_False by done. rewrite decide_True by done.
      rewrite Hpl, Hec, Het. simpl.
      unfold arr_mul, arr_add, arr_one_minus.
      rewrite (arr_map2_eq_length num_mul (pred pl) (pred et)) by congruence.
      simpl.
      rewrite (arr_map2_eq_length num_mul (_ <$> pred pl) (pred ec))
        by (rewrite length_fmap; congruence).
      simpl. rewrite arr_map2_eq_length; [done|].
      rewrite !length_zip_with, length_fmap. lia.
  - split; simpl.
    + rewrite sorted_Permutation, <-list_fmap_compose. done.
    + exists ml_stages. split; [done|]. intros s Hst.
      destruct (Hs s Hst) as (records & r & Hrec & Hin & Hml & _).
      exists records, r. split_and!; [done..|].
      rewrite sorted_Permutation. apply dict_get_Some_elem in Hml.
      by apply (list_elem_of_fmap_2 (λ sb, (sb.1, name (stage_bl sb.2)))) in Hml.
Qed.
End ReadyFacts.

Section ScoreFacts.
Context {A : Type} `{Numeric A} {Model : Type}.
Variable calculate_uplift_auc : list A → list A → list A → string → bool → A.
Implicit Types (cache : Cache A Model) (set_bls ml_bls : StageBls A Model)
               (metrics : ScoreTable A).

Lemma score_metalearner_Some (metric : string) (normed : bool)
    (tg tr : list A) metrics (ml : string * StageBls A Model)
    (uplift_pred : list A) :
  _metalearner_predict ml.1 ml.2 = Some uplift_pred →
  score_metalearner calculate_uplift_auc metric normed tg tr metrics ml
  = Some (dict_set
            (ml.1, sorted sbl_leb ((λ sb, (sb.1, name (stage_bl sb.2))) <$> ml.2))
            (calculate_uplift_auc tg uplift_pred tr metric normed) metrics).
Proof. intros Hpred. unfold score_metalearner. by rewrite Hpred. Qed.

(** Scoring assembled metalearners one after the other. *)
Lemma score_all (metric : string) (normed : bool) (tg tr : list A) cache
    (mls : list (string * StageBls A Model)) metrics :
  (∀ ml, ml ∈ mls →
     is_Some (_metalearner_predict ml.1 ml.2)
     ∧ assembled_from cache
         (ml.1, sorted sbl_leb ((λ sb, (sb.1, name (stage_bl sb.2))) <$> ml.2))) →
  (∀ e, e ∈ metrics → assembled_from cache e.1) →
  ∃ metrics',
    foldlM (score_metalearner calculate_uplift_auc metric normed tg tr)
           metrics mls = Some metrics'
    ∧ (∀ e, e ∈ metrics' → assembled_from cache e.1)
    ∧ (mls ≠ [] → metrics' ≠ []).
Proof.
  revert metrics. induction mls as [|ml mls IH]; intros metrics Hmls Hacc; simpl.
  - by exists metrics.
  - destruct (Hmls ml) as [[uplift_pred Hpred] Hentry]; [left|].
    rewrite (score_metalearner_Some _ _ _ _ _ _ _ Hpred). simpl.
    match goal with
    | |- context [foldlM _ ?acc mls] =>
        destruct (IH acc) as (metrics' & Hfold & Hall & Hne)
    end.
    + intros ml' Hml'. apply Hmls. by right.
    + intros [ek ev] He.
      apply dict_set_elem in He as [[= -> _]|He]; [done|by apply Hacc].
    + exists metrics'. split_and!; [done|done|]. intros _.
      destruct mls as [|ml' mls]; [|by apply Hne].
      simpl in Hfold. injection Hfold as <-.
      match goal with
      | |- dict_set ?k ?v ?d ≠ [] => by destruct d as [|[? ?] ?]; simpl;
                                        try case_decide
      end.
Qed.

(** With both outcome stages trained, scoring succeeds and gives a
    non-empty table whose entries name baselearners of the cache. *)
Lemma calculate_ml_metric_ready (metric : string) (normed : bool)
    (tg tr : list A) cache (n : nat) :
  cache_wf (λ p, length p = n) cache →
  ready cache [stage "outcome_control"; stage "outcome_treatment"] →
  ∃ metrics,
    _calculate_ml_metric calculate_uplift_auc metric normed tg tr cache []
    = Some metrics
    ∧ metrics ≠ []
    ∧ ∀ e, e ∈ metrics → assembled_from cache e.1.
Proof.
  intros Hwf Hready. unfold _calculate_ml_metric, _bl_for_ml.
  assert (Hex : existsb id (ready_metalearners cache) = true).
  { unfold ready_metalearners, MAP_META_TO_STAGES. cbn [fmap list_fmap snd].
    cbn [existsb id]. apply orb_true_intro. left.
    cbn [forallb]. unfold dict_mem.
    rewrite !bool_decide_eq_true_2; [done|apply Hready..]; set_solver. }
  rewrite Hex. simpl.
  destruct (score_all metric normed tg tr cache
              (mjoin (assemble <$> combinations cache)) [])
    as (metrics & Hfold & Hall & Hne).
  - intros [ml_name ml_bls] Hin. simpl.
    apply list_elem_of_join in Hin as (l & Hin & Hl).
    apply list_elem_of_fmap in Hl as (set_bls & -> & Hset).
    eapply assembled_entry; [exact Hwf| |exact Hin].
    apply combinations_chosen_from; [by destruct Hwf|done].
  - intros e He. by apply elem_of_nil in He.
  - exists metrics. split_and!; [done| |done]. apply Hne.
    destruct (combinations cache) as [|set_bls combos] eqn:Hcombos.
    + exfalso. revert Hcombos. apply combinations_nonempty.
      intros key records Hin. destruct Hwf as [_ Hwf].
      by destruct (Hwf _ _ Hin).
    + destruct (assemble_TLearner cache set_bls _ Hwf) as (ml_bls & rest & Heq).
      * apply combinations_chosen_from; [by destruct Hwf|].
        rewrite Hcombos. left.
      * done.
      * csimpl. rewrite Heq. done.
Qed.

(** The selection returns an entry of a non-empty table. *)
Lemma select_best_elem (inc : bool) metrics :
  metrics ≠ [] → ∃ best, select_best inc metrics = Some best ∧ best ∈ metrics.
Proof.
  destruct metrics as [|e rest]; [done|]. intros _.
  unfold select_best. cbn [foldl best_step].
  assert (Hgen : ∀ cur, ∃ best,
            foldl (best_step inc) (Some cur) rest = Some best
            ∧ (best = cur ∨ best ∈ rest)).
  { induction rest as [|e' rest IH]; intros cur; simpl.
    - exists cur. by split; [|left].
    - destruct cur as [bk bv]. destruct (replaces inc bv e'.2).
      + destruct (IH e') as (best & Hb & Hin). exists best.
        split; [done|]. right. destruct Hin as [->|Hin]; [left|by right].
      + destruct (IH (bk, bv)) as (best & Hb & Hin). exists best.
        split; [done|]. destruct Hin as [->|Hin]; [by left|right; by right]. }
  destruct (Hgen e) as (best & Hb & Hin). exists best.
  split; [done|]. destruct Hin as [->|Hin]; [left|by right].
Qed.
(** The baselearners named by an entry are found in the cache. *)
Lemma chosen_bl_assembled cache (entry : TrainedMetaLearnerFullName)
    (ml_stages : list MetaLearnerStage) (ml_stage : MetaLearnerStage) :
  NoDup entry.2.*1 →
  (∀ ml_stage, ml_stage ∈ ml_stages →
     ∃ records r,
       dict_get (full_name ml_stage) cache = Some records
       ∧ r ∈ records
       ∧ (full_name ml_stage, name (stage_bl r)) ∈ entry.2) →
  ml_stage ∈ ml_stages →
  is_Some (chosen_bl cache entry.2 (full_name ml_stage)).
Proof.
  intros Hnd Hs Hst. destruct (Hs _ Hst) as (records & r & Hrec & Hin & Hmem).
  unfold chosen_bl. rewrite (dict_get_NoDup _ _ _ Hnd Hmem). simpl.
  unfold _get_trained_bl. rewrite Hrec. simpl.
  destruct (list_find_elem_of (λ bl, name (stage_bl bl) = name (stage_bl r))
              records r Hin eq_refl) as [found Hfound].
  rewrite Hfound. done.
Qed.

(** The selected entry is materialized: the composed predictor and the
    wrapper are built. *)
Lemma materialize_assembled cache (entry : TrainedMetaLearnerFullName) :
  assembled_from cache entry →
  is_Some (_init_metalearner cache entry.1 (dict_of_list entry.2))
  ∧ is_Some (_create_metalearner_wrap cache entry.1 (dict_of_list entry.2)).
Proof.
  intros (Hnd & ml_stages & HMAP & Hs).
  rewrite dict_of_list_NoDup by done.
  pose proof (chosen_bl_assembled cache entry ml_stages) as Hchosen.
  destruct entry as [ml_name sbls]. simpl in *.
  unfold MAP_META_TO_STAGES in HMAP.
  apply elem_of_cons in HMAP as [[= -> ->]|HMAP];
    [|apply list_elem_of_singleton in HMAP as [= -> ->]].
  - destruct (Hchosen (stage "outcome_control")) as [ocl Hocl];
      [done|done|set_solver|].
    destruct (Hchosen (stage "outcome_treatment")) as [otl Hotl];
      [done|done|set_solver|].
    simpl in Hocl, Hotl. unfold _init_metalearner, _create_metalearner_wrap.
    rewrite !decide_True by done. rewrite Hocl, Hotl. simpl. by split.
  - destruct (Hchosen (stage "outcome_control")) as [ocl Hocl];
      [done|done|set_solver|].
    destruct (Hchosen (stage "outcome_treatment")) as [otl Hotl];
      [done|done|set_solver|].
    destruct (Hchosen (mkStage "propensity" [("task", ATask "binary")] None))
      as [pl Hpl]; [done|done|set_solver|].
    destruct (Hchosen (mkStage "effect_control" [("task", ATask "reg")]
                               (Some (stage "outcome_treatment"))))
      as [ecl Hecl]; [done|done|set_solver|].
    destruct (Hchosen (mkStage "effect_treatment" [("task", ATask "reg")]
                               (Some (stage "outcome_control"))))
      as [etl Hetl]; [done|done|set_solver|].
    simpl in Hocl, Hotl, Hpl, Hecl, Hetl.
    unfold _init_metalearner, _create_metalearner_wrap.
    rewrite !(decide_False (P:="XLearner" = "TLearner")) by done.
    rewrite !decide_True by done.
    rewrite Hocl, Hotl, Hpl, Hecl, Hetl. simpl. by split.
Qed.
End ScoreFacts.

(* ===================================================================== *)
(** * [fit] under a time budget *)
(* ===================================================================== *)

Section BudgetFacts.
Context {A : Type} `{Numeric A} {Model : Type}.
Variable fit_predict : BaseLearnerWrapper → DataFrame A → Roles → Model.
Variable predict : Model → DataFrame A → list A.
Variable calculate_uplift_auc : list A → list A → list A → string → bool → A.
Variable train_test_split :
  DataFrame A → list A → nat → DataFrame A * DataFrame A.
Variable time_limit_exceeded : nat → bool.
Variable rand : nat → nat.
Implicit Types (cache : Cache A Model).

(** The loop of [fit] ends with the first training event after which the
    timer reports the budget as exceeded. *)
Lemma fit_loop_budget (train test : DataFrame A) (roles : Roles)
    (submissions : list StageInfo) (ended : bool) (k n : nat) cache cache_k :
  k < length submissions →
  foldlM (λ c si, _evaluate fit_predict predict c si train test roles)
         cache (take (S k) submissions) = Some cache_k →
  (∀ j, j < k → time_limit_exceeded (S (n + j)) = false) →
  time_limit_exceeded (S (n + k)) = true →
  fit_loop fit_predict predict time_limit_exceeded train test roles
           submissions ended n cache = Some cache_k.
Proof.
  revert submissions n cache.
  induction k as [|k IH]; intros [|si submissions] n cache Hlt Hev Hno Hyes;
    simpl in Hlt; try lia.
  - simpl in *.
    destruct (_evaluate _ _ cache si _ _ _) as [cache1|]; [simpl in *|done].
    rewrite ?take_0 in Hev. simpl in Hev. injection Hev as <-.
    rewrite Nat.add_0_r in Hyes. by rewrite Hyes.
  - cbn [take foldlM fit_loop] in *.
    destruct (_evaluate _ _ cache si _ _ _) as [cache1|]; [simpl in *|done].
    pose proof (Hno 0 ltac:(lia)) as H0. rewrite Nat.add_0_r in H0.
    rewrite H0. apply IH; [lia|done| |].
    + intros j Hj. specialize (Hno (S j) ltac:(lia)).
      by replace (S n + j) with (n + S j) by lia.
    + by replace (S n + k) with (n + S k) by lia.
Qed.

(** Every training event adds one record to the cache. *)
Lemma evaluate_all_count (train test : DataFrame A) (roles : Roles)
    (submissions : list StageInfo) cache cache' :
  foldlM (λ c si, _evaluate fit_predict predict c si train test roles)
         cache submissions = Some cache' →
  length (cache_keys cache') = length (cache_keys cache) + length submissions.
Proof.
  revert cache. induction submissions as [|si submissions IH];
    intros cache; simpl.
  - intros [= <-]. lia.
  - destruct (_evaluate _ _ cache si _ _ _) as [cache1|] eqn:Hev; [simpl|done].
    intros Hrest. rewrite (IH _ Hrest).
    apply evaluate_Some in Hev as (key & r & _ & -> & _).
    rewrite cache_keys_append. simpl. lia.
Qed.

Lemma ready_outcome_stages cache (ml_name : string)
    (ml_stages : list MetaLearnerStage) :
  (ml_name, ml_stages) ∈ MAP_META_TO_STAGES → ready cache ml_stages →
  ready cache [stage "outcome_control"; stage "outcome_treatment"].
Proof.
  unfold MAP_META_TO_STAGES. intros HMAP Hready.
  apply elem_of_cons in HMAP as [[= -> ->]|HMAP];
    [done|apply list_elem_of_singleton in HMAP as [= -> ->]].
  intros s Hs. apply Hready. set_solver.
Qed.

(** C8. When the timer reports the budget as exceeded after a training
    event, [fit] evaluates no further submission: the cache holds the
    records of the events up to this one. If a metalearner then has a
    record for each of its stages, [fit] goes on to score and to select:
    it returns with this cache, a score table whose entries name
    baselearners of the cache, and a best entry of this table. *)
Theorem fit_stops_at_budget (self : Settings)
    (stage_baselearners : list (MLStageFullName * list BaseLearnerWrapper))
    (data train test : DataFrame A) (roles : Roles)
    (test_treatment test_target : list A) (k : nat) cache_k :
  (∀ m df, length (predict m df) = length df) →
  _prepare_data train_test_split self data roles
  = Some (train, test, test_treatment, test_target) →
  let gen := _generate_stage_baselearner_candidates rand stage_baselearners in
  k < length gen.1 →
  foldlM (λ c si, _evaluate fit_predict predict c si train test roles)
         [] (take (S k) gen.1) = Some cache_k →
  (∀ n, n < k → time_limit_exceeded (S n) = false) →
  time_limit_exceeded (S k) = true →
  fit_loop fit_predict predict time_limit_exceeded train test roles
           gen.1 (bool_decide (is_Some gen.2)) 0 [] = Some cache_k
  ∧ length (cache_keys cache_k) = S k
  ∧ ((∃ ml_name ml_stages,
        (ml_name, ml_stages) ∈ MAP_META_TO_STAGES ∧ ready cache_k ml_stages) →
     ∃ fitted,
       fit fit_predict predict calculate_uplift_auc train_test_split
           time_limit_exceeded rand self stage_baselearners data roles
       = Some fitted
       ∧ trained_stage_baselearners fitted = cache_k
       ∧ (∃ score, (best_candidate fitted, score) ∈ metalearner_metrics fitted)
       ∧ ∀ e, e ∈ metalearner_metrics fitted → assembled_from cache_k e.1).
Proof.
  intros Hpredict Hprep gen Hk Hev Hno Hyes.
  assert (Hloop :
    fit_loop fit_predict predict time_limit_exceeded train test roles
             gen.1 (bool_decide (is_Some gen.2)) 0 [] = Some cache_k).
  { eapply fit_loop_budget; [exact Hk|exact Hev|done|done]. }
  split_and!; [done| |].
  - rewrite (evaluate_all_count _ _ _ _ _ _ Hev). simpl.
    rewrite length_take. lia.
  - intros (ml_name & ml_stages & HMAP & Hready).
    apply (ready_outcome_stages _ _ _ HMAP) in Hready.
    assert (Hwf : cache_wf (λ p, length p = length test) cache_k).
    { eapply evaluate_all_wf; [|apply Forall_take, generate_shape|
                               apply cache_wf_nil|exact Hev].
      intros m. apply Hpredict. }
    destruct (calculate_ml_metric_ready calculate_uplift_auc (metric self)
                (normed_metric self) test_treatment test_target cache_k _
                Hwf Hready) as (metrics & Hmetrics & Hne & Hall).
    destruct (select_best_elem (increasing_metric self) metrics Hne)
      as (best & Hbest & Hin).
    destruct (materialize_assembled cache_k best.1 (Hall _ Hin))
      as [[ml Hml] [ml_wrap Hwrap]].
    destruct best as [[best_name best_sbls] score]. simpl in Hml, Hwrap.
    eexists. split_and!.
    + unfold fit. rewrite Hprep. simpl. fold gen. rewrite Hloop. simpl.
      rewrite Hmetrics. simpl. unfold _set_best_metalearner.
      rewrite Hbest. simpl. rewrite Hml. simpl. rewrite Hwrap. simpl. done.
    + done.
    + simpl. by exists score.
    + done.
Qed.
End BudgetFacts.

(* ===================================================================== *)
(** * The properties of [fit] on a concrete configuration *)
(* ===================================================================== *)

Lemma cache_unique_submissions_witness :
  Forall (λ kr : MLStageFullName * list (TrainedStageBaseLearner Z string),
            NoDup (record_key <$> kr.2)
            ∧ (length kr.1 = 1 → NoDup ((λ r, name (stage_bl r)) <$> kr.2)))
         (trained_stage_baselearners example_fitted).
Proof.
  apply Forall_forall. intros [key records] Hin.
  apply (cache_unique_submissions example_fit_predict example_predict
           example_metric example_split no_time_limit (λ _, 0)
           example_settings example_candidates example_train example_roles
           example_fitted); [| | |exact Hin].
  - apply (bool_decide_unpack _). vm_compute. exact I.
  - intros k candidates Hk. unfold example_candidates in Hk.
    repeat (apply elem_of_cons in Hk as [[= -> ->]|Hk];
            [apply (bool_decide_unpack _); vm_compute; exact I|]).
    by apply elem_of_nil in Hk.
  - vm_compute. reflexivity.
Defined.

(** After nine training events both outcome stages have records. *)
Lemma example_cache_ready :
  ready (example_cache_after 9) [stage "outcome_control"; stage "outcome_treatment"].
Proof.
  intros ml_stage Hst.
  repeat (apply elem_of_cons in Hst as [->|Hst];
          [apply (bool_decide_unpack _); vm_compute; exact I|]).
  by apply elem_of_nil in Hst.
Qed.

Lemma fit_stops_at_budget_witness :
  fit_loop example_fit_predict example_predict (time_limit_after 9)
           example_train example_train example_roles
           (_generate_stage_baselearner_candidates (λ _, 0) example_candidates).1
           (bool_decide (is_Some (_generate_stage_baselearner_candidates
                                    (λ _, 0) example_candidates).2))
           0 []
  = Some (example_cache_after 9)
  ∧ length (cache_keys (example_cache_after 9)) = 9
  ∧ ∃ fitted,
      fit example_fit_predict example_predict example_metric example_split
          (time_limit_after 9) (λ _, 0) example_settings example_candidates
          example_train example_roles
      = Some fitted
      ∧ trained_stage_baselearners fitted = example_cache_after 9
      ∧ (∃ score, (best_candidate fitted, score) ∈ metalearner_metrics fitted)
      ∧ ∀ e, e ∈ metalearner_metrics fitted →
             assembled_from (example_cache_after 9) e.1.
Proof.
  assert (Hpredict : ∀ (m : string) (df : DataFrame Z),
            length (example_predict m df) = length df)
    by (intros m df; unfold example_predict; apply length_fmap).
  assert (Hprep :
    _prepare_data example_split example_settings example_train example_roles
    = Some (example_train, example_train, [0; 1; 0; 1]%Z, [1; 0; 0; 1]%Z))
    by (vm_compute; reflexivity).
  assert (Hk : 8 < length (_generate_stage_baselearner_candidates
                             (λ _, 0) example_candidates).1)
    by (vm_compute; lia).
  assert (Hev :
    foldlM (λ c si, _evaluate example_fit_predict example_predict c si
                              example_train example_train example_roles)
           [] (take 9 (_generate_stage_baselearner_candidates
                         (λ _, 0) example_candidates).1)
    = Some (example_cache_after 9))
    by (vm_compute; reflexivity).
  assert (Hno : ∀ n, n < 8 → time_limit_after 9 (S n) = false)
    by (intros n Hn; unfold time_limit_after; apply bool_decide_eq_false_2; lia).
  assert (Hyes : time_limit_after 9 9 = true) by reflexivity.
  destruct (fit_stops_at_budget example_fit_predict example_predict
              example_metric example_split (time_limit_after 9) (λ _, 0)
              example_settings example_candidates
              example_train example_train example_train example_roles
              [0; 1; 0; 1]%Z [1; 0; 0; 1]%Z 8 (example_cache_after 9)
              Hpredict Hprep Hk Hev Hno Hyes)
    as (Hloop & Hcount & Hfit).
  split_and!; [exact Hloop|exact Hcount|]. apply Hfit.
  exists "TLearner", [stage "outcome_control"; stage "outcome_treatment"].
  split; [left|exact example_cache_ready].
Defined.

Lemma pool_infos_app (p1 p2 : list PoolEntry) :
  pool_infos (p1 ++ p2) = pool_infos p1 ++ pool_infos p2.
Proof. unfold pool_infos. apply bind_app. Qed.

Lemma pool_infos_cons (e : PoolEntry) (p : list PoolEntry) :
  pool_infos (e :: p) = entry_infos e ++ pool_infos p.
Proof. done. Qed.

(** A draw yields one submission of the pool and leaves the others. *)
Lemma pool_draw_infos (idx : nat) (pool : list PoolEntry) :
  match pool_draw idx pool with
  | DYield si pool' => si :: pool_infos pool' ≡ₚ pool_infos pool
  | DDrop pool' => pool_infos pool' = pool_infos pool
  | DRaise => True
  end.
Proof.
  unfold pool_draw. destruct (pool !! idx) as [e|] eqn:He; [|done].
  apply list_elem_of_split_length in He as (l1 & l2 & -> & ->).
  destruct (pe_iter e) as [|bl_l2 rest] eqn:Hiter.
  - rewrite delete_middle, !pool_infos_app, pool_infos_cons.
    unfold entry_infos. rewrite Hiter.
    by destruct (_extract_stage (prefix1 (pe_stage e))),
         (_extract_stage (pe_stage e)).
  - destruct (_extract_stage (prefix1 (pe_stage e))) as [stage_l1|] eqn:Hl1;
      [|done].
    destruct (_extract_stage (pe_stage e)) as [stage_l2|] eqn:Hl2; [|done].
    rewrite insert_middle, !pool_infos_app, !pool_infos_cons.
    unfold entry_infos. simpl. rewrite Hl1, Hl2, Hiter. csimpl.
    by rewrite Permutation_middle.
Qed.

Section SchedulerComplete.
Variable rand : nat → nat.
Variable stage_baselearners : list (MLStageFullName * list BaseLearnerWrapper).

Lemma draw_l2_infos (st : GenState) :
  match draw_l2 rand st with
  | DYield si pool' => si :: pool_infos pool' ≡ₚ pool_infos (pool st)
  | DDrop pool' => pool_infos pool' = pool_infos (pool st)
  | DRaise => True
  end.
Proof.
  unfold draw_l2. destruct (randint rand _ _) as [idx|]; [|done].
  apply pool_draw_infos.
Qed.

Lemma run_level2_infos (m : nat) (st st' : GenState) :
  (run_level2 rand m st).2 = Some st' →
  (run_level2 rand m st).1 ++ pool_infos (pool st') ≡ₚ pool_infos (pool st).
Proof.
  revert st. induction m as [|m IH]; intros st; simpl.
  - by intros [= ->].
  - pose proof (draw_l2_infos st) as Hdraw.
    destruct (draw_l2 rand st) as [si pool'|pool'|]; simpl; [| |done].
    + intros Hend. apply IH in Hend. simpl in Hend.
      by rewrite Hend.
    + intros Hend. apply IH in Hend. simpl in Hend. by rewrite Hend, Hdraw.
Qed.

Lemma drain_infos (fuel : nat) (st st' : GenState) :
  (drain rand fuel st).2 = Some st' →
  (drain rand fuel st).1 ++ pool_infos (pool st') ≡ₚ pool_infos (pool st).
Proof.
  revert st. induction fuel as [|fuel IH]; intros st; simpl.
  - by intros [= ->].
  - case_decide; [by intros [= ->]|].
    pose proof (draw_l2_infos st) as Hdraw.
    destruct (draw_l2 rand st) as [si pool'|pool'|]; simpl; [| |done].
    + intros Hend. apply IH in Hend. simpl in Hend. by rewrite Hend.
    + intros Hend. apply IH in Hend. simpl in Hend. by rewrite Hend, Hdraw.
Qed.

Lemma run_level1_item_infos (st st' : GenState)
    (item : MLStageFullName * option BaseLearnerWrapper) :
  (run_level1_item rand stage_baselearners st item).2 = Some st' →
  (run_level1_item rand stage_baselearners st item).1 ++ pool_infos (pool st')
  ≡ₚ pool_infos (pool st) ++ item_infos stage_baselearners item.
Proof.
  unfold run_level1_item, item_infos.
  destruct (_extract_stage item.1) as [stage_l1|]; [|done]. simpl.
  destruct (first_run st); simpl.
  - intros [= <-]. simpl. rewrite pool_infos_app. by rewrite Permutation_middle.
  - case_decide; simpl.
    + intros [= <-]. simpl. rewrite pool_infos_app.
      by rewrite Permutation_middle.
    + destruct (run_level2 _ _ _) as [ys [st2|]] eqn:Hrun; simpl; [|done].
      intros [= <-]. simpl.
      pose proof (run_level2_infos _ _ st2 ltac:(by rewrite Hrun)) as Hl2.
      rewrite Hrun in Hl2. simpl in Hl2. rewrite Hl2, pool_infos_app.
      by rewrite Permutation_middle.
Qed.

Lemma run_level1_infos (items : list (MLStageFullName * option BaseLearnerWrapper))
    (st st' : GenState) :
  (run_level1 rand stage_baselearners items st).2 = Some st' →
  (run_level1 rand stage_baselearners items st).1 ++ pool_infos (pool st')
  ≡ₚ pool_infos (pool st) ++ (items ≫= item_infos stage_baselearners).
Proof.
  revert st. induction items as [|item items IH]; intros st; simpl.
  - intros [= ->]. by rewrite app_nil_r.
  - pose proof (λ st1, run_level1_item_infos st st1 item) as Hitem.
    destruct (run_level1_item rand stage_baselearners st item) as [ys [st1|]];
      simpl in *; [|done].
    intros Hend. apply IH in Hend. rewrite <-app_assoc, Hend.
    rewrite !app_assoc. f_equiv; [by apply Hitem|done].
Qed.

(** A generator that ends normally has yielded every submission of the
    stage dictionary once. *)
Lemma generate_infos (st : GenState) :
  (_generate_stage_baselearner_candidates rand stage_baselearners).2 = Some st →
  (_generate_stage_baselearner_candidates rand stage_baselearners).1
  ≡ₚ all_submissions stage_baselearners.
Proof.
  intros Hend. pose proof (generate_drains _ _ _ Hend) as Hpool.
  revert Hend. unfold _generate_stage_baselearner_candidates, all_submissions.
  pose proof (λ st1, run_level1_infos (level1_items stage_baselearners)
                {| pool := []; first_run := true; n_runs := 0; draws := 0 |} st1)
    as Hl1.
  destruct (run_level1 _ _ _ _) as [ys [st1|]]; simpl in *; [|done].
  intros Hend. pose proof (drain_infos _ _ _ Hend) as Hdrain.
  rewrite Hpool in Hdrain. unfold pool_infos in Hdrain at 1.
  simpl in Hdrain. rewrite app_nil_r in Hdrain.
  rewrite Hdrain. by apply Hl1.
Qed.
End SchedulerComplete.

(** A draw inside the pool, whose stages are known, does not raise. *)
Lemma pool_draw_known (idx : nat) (pool : list PoolEntry) :
  idx < length pool → pool_known pool →
  match pool_draw idx pool with
  | DYield _ pool' => pool_known pool' ∧ length pool' = length pool
  | DDrop pool' => pool_known pool' ∧ S (length pool') = length pool
  | DRaise => False
  end.
Proof.
  intros Hidx Hknown. unfold pool_draw.
  destruct (lookup_lt_is_Some_2 _ _ Hidx) as [e He]. rewrite He.
  pose proof (Forall_lookup_1 _ _ _ _ Hknown He) as [[s1 Hs1] [s2 Hs2]].
  destruct (pe_iter e) as [|bl_l2 rest].
  - split; [by apply Forall_delete|].
    rewrite length_delete by (by eexists). lia.
  - rewrite Hs1, Hs2. split; [|by rewrite length_insert].
    apply Forall_insert; [done|]. simpl. split; by eexists.
Qed.

Section SchedulerTotal.
Variable rand : nat → nat.
Variable stage_baselearners : list (MLStageFullName * list BaseLearnerWrapper).

(** Every first- or second-level key of the stage dictionary is the full
    name of a stage of [__MAP_META_TO_STAGES__]. *)
Hypothesis keys_known : ∀ key,
  key ∈ stage_baselearners.*1 → length key = 1 ∨ length key = 2 →
  is_Some (_extract_stage key).

Lemma draw_l2_known (st : GenState) :
  length (pool st) ≠ 0 → pool_known (pool st) →
  match draw_l2 rand st with
  | DYield _ pool' => pool_known pool' ∧ length pool' = length (pool st)
  | DDrop pool' => pool_known pool' ∧ S (length pool') = length (pool st)
  | DRaise => False
  end.
Proof.
  intros Hlen Hknown. unfold draw_l2, randint. case_decide; [done|].
  apply pool_draw_known; [|done]. by apply Nat.mod_upper_bound.
Qed.

Lemma run_level2_known (m : nat) (st : GenState) :
  m ≤ length (pool st) → pool_known (pool st) →
  ∃ st', (run_level2 rand m st).2 = Some st' ∧ pool_known (pool st').
Proof.
  revert st. induction m as [|m IH]; intros st Hm Hknown; simpl.
  - by exists st.
  - pose proof (draw_l2_known st ltac:(lia) Hknown) as Hdraw.
    destruct (draw_l2 rand st) as [si pool'|pool'|]; [| |done];
      destruct Hdraw as [Hknown' Hlen]; simpl; apply IH; simpl; (done || lia).
Qed.

Lemma drain_known (fuel : nat) (st : GenState) :
  pool_known (pool st) → is_Some (drain rand fuel st).2.
Proof.
  revert st. induction fuel as [|fuel IH]; intros st Hknown; simpl.
  - by eexists.
  - case_decide; [by eexists|].
    pose proof (draw_l2_known st ltac:(done) Hknown) as Hdraw.
    destruct (draw_l2 rand st) as [si pool'|pool'|]; [| |done];
      destruct Hdraw as [Hknown' _]; simpl; by apply IH.
Qed.

Lemma unlocked_known (stage_name_l1 : MLStageFullName)
    (bl_l1 : option BaseLearnerWrapper) :
  is_Some (_extract_stage stage_name_l1) →
  pool_known (unlocked stage_baselearners stage_name_l1 bl_l1).
Proof.
  intros Hl1. unfold pool_known, unlocked. apply Forall_fmap, Forall_forall.
  intros s2 Hs2. apply list_elem_of_filter in Hs2 as [Hpre Hs2]. simpl.
  rewrite Hpre. split; [done|].
  unfold stage_by_levels in Hs2. apply list_elem_of_filter in Hs2 as [Hlen Hs2].
  apply keys_known; [done|by right].
Qed.

Lemma run_level1_item_known (st : GenState)
    (item : MLStageFullName * option BaseLearnerWrapper) :
  item.1 ∈ stage_by_levels stage_baselearners 1 → pool_known (pool st) →
  ∃ st', (run_level1_item rand stage_baselearners st item).2 = Some st'
         ∧ pool_known (pool st').
Proof.
  intros Hitem Hknown. unfold stage_by_levels in Hitem.
  apply list_elem_of_filter in Hitem as [Hlen Hitem].
  pose proof (keys_known _ Hitem (or_introl Hlen)) as Hl1.
  assert (Hknown1 :
    pool_known (pool st ++ unlocked stage_baselearners item.1 item.2)).
  { apply Forall_app. split; [done|by apply unlocked_known]. }
  unfold run_level1_item. destruct Hl1 as [stage_l1 ->]. simpl.
  destruct (first_run st); simpl; [by eexists|].
  case_decide; simpl; [by eexists|].
  edestruct (run_level2_known
               (length (pool st ++ unlocked stage_baselearners item.1 item.2)
                `min` 3)
               {| pool := pool st ++ unlocked stage_baselearners item.1 item.2;
                  first_run := false; n_runs := S (n_runs st);
                  draws := draws st |}) as (st' & Hrun & Hknown');
    [simpl; lia|done|].
  rewrite Hrun. simpl. by eexists.
Qed.

Lemma run_level1_known (items : list (MLStageFullName * option BaseLearnerWrapper))
    (st : GenState) :
  Forall (λ item, item.1 ∈ stage_by_levels stage_baselearners 1) items →
  pool_known (pool st) →
  ∃ st', (run_level1 rand stage_baselearners items st).2 = Some st'
         ∧ pool_known (pool st').
Proof.
  revert st. induction items as [|item items IH]; intros st Hitems Hknown;
    simpl.
  - by exists st.
  - apply Forall_cons in Hitems as [Hitem Hitems].
    destruct (run_level1_item_known st item Hitem Hknown)
      as (st1 & Hrun & Hknown1).
    rewrite Hrun. simpl. by apply IH.
Qed.

Lemma level1_items_keys :
  Forall (λ item : MLStageFullName * option BaseLearnerWrapper,
            item.1 ∈ stage_by_levels stage_baselearners 1)
         (level1_items stage_baselearners).
Proof.
  unfold level1_items. apply Forall_forall. intros item Hitem.
  apply list_elem_of_bind in Hitem as (bls & Hitem & _).
  destruct item as [key bl]. by apply elem_of_zip_l in Hitem.
Qed.

Lemma generate_known :
  ∃ st,
    (_generate_stage_baselearner_candidates rand stage_baselearners).2 = Some st
    ∧ pool st = [].
Proof.
  assert (is_Some (_generate_stage_baselearner_candidates
                     rand stage_baselearners).2) as [st Hst].
  { unfold _generate_stage_baselearner_candidates.
    destruct (run_level1_known (level1_items stage_baselearners)
                {| pool := []; first_run := true; n_runs := 0; draws := 0 |}
                level1_items_keys ltac:(by apply Forall_nil))
      as (st1 & Hrun & Hknown1).
    rewrite Hrun. simpl. by apply drain_known. }
  exists st. split; [done|]. by eapply generate_drains.
Qed.
End SchedulerTotal.

Lemma prerequisites_first_nil (seen : list StageInfo) :
  prerequisites_first seen [].
Proof. intros pre ????? Heq. by destruct pre. Qed.

Lemma prerequisites_first_cons (seen ys : list StageInfo) (si : StageInfo) :
  (∀ prev_ml_stage prev_bl ml_stage bl,
     si = [(prev_ml_stage, prev_bl); (ml_stage, bl)] →
     [(prev_ml_stage, prev_bl)] ∈ seen) →
  prerequisites_first (seen ++ [si]) ys →
  prerequisites_first seen (si :: ys).
Proof.
  intros Hsi Hys pre p pb s b post Heq. destruct pre as [|si' pre].
  - simplify_eq/=. rewrite app_nil_r. by eapply Hsi.
  - simplify_eq/=. rewrite (assoc_L _ seen [si'] pre : seen ++ si' :: pre = _).
    by eapply Hys.
Qed.

Lemma prerequisites_first_mono (seen seen' ys : list StageInfo) :
  seen ⊆ seen' → prerequisites_first seen ys → prerequisites_first seen' ys.
Proof.
  intros Hsub Hys pre p pb s b post Heq. eapply Hys in Heq.
  apply elem_of_app in Heq as [Hin|Hin]; apply elem_of_app; [left|right];
    [by apply Hsub|done].
Qed.

Lemma prerequisites_first_app (seen ys1 ys2 : list StageInfo) :
  prerequisites_first seen ys1 →
  prerequisites_first (seen ++ ys1) ys2 →
  prerequisites_first seen (ys1 ++ ys2).
Proof.
  revert seen. induction ys1 as [|si ys1 IH]; intros seen H1 H2; simpl.
  - by rewrite app_nil_r in H2.
  - apply prerequisites_first_cons.
    + intros p pb s b ->. rewrite <-(app_nil_r seen).
      by apply (H1 [] p pb s b ys1).
    + apply IH.
      * intros pre p pb s b post ->. rewrite <-(assoc_L _ seen [_] pre).
        by apply (H1 (_ :: pre) p pb s b post).
      * by rewrite <-(assoc_L _ seen [_] ys1).
Qed.

Lemma pool_backed_mono (seen seen' : list StageInfo) (pool : list PoolEntry) :
  seen ⊆ seen' → pool_backed seen pool → pool_backed seen' pool.
Proof. intros Hsub Hpool e s1 He Hs1. by eapply Hsub, Hpool. Qed.

Lemma pool_draw_backed (seen : list StageInfo) (idx : nat)
    (pool : list PoolEntry) :
  pool_backed seen pool →
  match pool_draw idx pool with
  | DYield si pool' =>
      (∃ stage_l1 bl_l1 stage_l2 bl_l2,
         si = [(stage_l1, bl_l1); (stage_l2, bl_l2)]
         ∧ [(stage_l1, bl_l1)] ∈ seen)
      ∧ pool_backed seen pool'
  | DDrop pool' => pool_backed seen pool'
  | DRaise => True
  end.
Proof.
  intros Hpool. unfold pool_draw.
  destruct (pool !! idx) as [e|] eqn:He; [|done].
  destruct (pe_iter e) as [|bl_l2 rest].
  - intros e' s1 He'. apply Hpool. by eapply list_elem_of_delete_inv.
  - destruct (_extract_stage (prefix1 (pe_stage e))) as [stage_l1|] eqn:Hl1;
      [|done].
    destruct (_extract_stage (pe_stage e)) as [stage_l2|]; [|done].
    pose proof (list_elem_of_lookup_2 _ _ _ He) as Hin.
    split; [eauto 10|].
    intros e' s1 He'. apply list_elem_of_lookup in He' as [i Hi].
    destruct (decide (i = idx)) as [->|Hne].
    + rewrite list_lookup_insert_eq in Hi by (by eapply lookup_lt_Some).
      simplify_eq/=. intros Hs1. by apply Hpool.
    + rewrite list_lookup_insert_ne in Hi by done.
      apply Hpool. by eapply list_elem_of_lookup_2.
Qed.

Section SchedulerOrder.
Variable rand : nat → nat.
Variable stage_baselearners : list (MLStageFullName * list BaseLearnerWrapper).

Lemma draw_l2_backed (seen : list StageInfo) (st : GenState) :
  pool_backed seen (pool st) →
  match draw_l2 rand st with
  | DYield si pool' =>
      (∃ stage_l1 bl_l1 stage_l2 bl_l2,
         si = [(stage_l1, bl_l1); (stage_l2, bl_l2)]
         ∧ [(stage_l1, bl_l1)] ∈ seen)
      ∧ pool_backed seen pool'
  | DDrop pool' => pool_backed seen pool'
  | DRaise => True
  end.
Proof.
  intros Hpool. unfold draw_l2. destruct (randint rand _ _) as [idx|]; [|done].
  by apply pool_draw_backed.
Qed.

Lemma run_level2_order (seen : list StageInfo) (m : nat) (st : GenState) :
  pool_backed seen (pool st) →
  prerequisites_first seen (run_level2 rand m st).1
  ∧ ∀ st', (run_level2 rand m st).2 = Some st' → pool_backed seen (pool st').
Proof.
  revert st. induction m as [|m IH]; intros st Hpool; simpl.
  - split; [apply prerequisites_first_nil|]. by intros st' [= <-].
  - pose proof (draw_l2_backed seen st Hpool) as Hdraw.
    destruct (draw_l2 rand st) as [si pool'|pool'|]; simpl.
    + destruct Hdraw as [(s1 & b1 & s2 & b2 & -> & Hseen) Hpool'].
      destruct (IH {| pool := pool'; first_run := first_run st;
                      n_runs := S (n_runs st); draws := S (draws st) |} Hpool')
        as [Hfirst Hend].
      split; [|exact Hend].
      apply prerequisites_first_cons.
      * by intros ???? [= <- <- _ _].
      * eapply prerequisites_first_mono; [|exact Hfirst].
        by apply list_subseteq_app_l.
    + by apply IH.
    + split; [apply prerequisites_first_nil|done].
Qed.

Lemma drain_order (seen : list StageInfo) (fuel : nat) (st : GenState) :
  pool_backed seen (pool st) →
  prerequisites_first seen (drain rand fuel st).1.
Proof.
  revert st. induction fuel as [|fuel IH]; intros st Hpool; simpl.
  - apply prerequisites_first_nil.
  - case_decide; [apply prerequisites_first_nil|].
    pose proof (draw_l2_backed seen st Hpool) as Hdraw.
    destruct (draw_l2 rand st) as [si pool'|pool'|]; simpl.
    + destruct Hdraw as [(s1 & b1 & s2 & b2 & -> & Hseen) Hpool'].
      apply prerequisites_first_cons.
      * by intros ???? [= <- <- _ _].
      * eapply prerequisites_first_mono; [|by apply IH].
        by apply list_subseteq_app_l.
    + by apply IH.
    + apply prerequisites_first_nil.
Qed.

Lemma unlocked_backed (stage_l1 : MetaLearnerStage)
    (item : MLStageFullName * option BaseLearnerWrapper) :
  _extract_stage item.1 = Some stage_l1 →
  pool_backed [[(stage_l1, item.2)]]
              (unlocked stage_baselearners item.1 item.2).
Proof.
  intros Hl1 e s1 He. unfold unlocked in He.
  apply list_elem_of_fmap in He as (s2 & -> & Hs2).
  apply list_elem_of_filter in Hs2 as [Hpre _]. simpl. rewrite Hpre, Hl1.
  intros [= <-]. by apply list_elem_of_singleton.
Qed.

Lemma run_level1_item_order (seen : list StageInfo) (st : GenState)
    (item : MLStageFullName * option BaseLearnerWrapper) :
  pool_backed seen (pool st) →
  let out := run_level1_item rand stage_baselearners st item in
  prerequisites_first seen out.1
  ∧ ∀ st', out.2 = Some st' → pool_backed (seen ++ out.1) (pool st').
Proof.
  intros Hpool. unfold run_level1_item.
  destruct (_extract_stage item.1) as [stage_l1|] eqn:Hl1; simpl;
    [|split; [apply prerequisites_first_nil|done]].
  assert (Hpool1 :
    pool_backed (seen ++ [[(stage_l1, item.2)]])
                (pool st ++ unlocked stage_baselearners item.1 item.2)).
  { intros e s1 He. apply elem_of_app in He as [He|He]; intros Hs1.
    - apply elem_of_app. left. by eapply Hpool.
    - apply elem_of_app. right. by eapply unlocked_backed. }
  assert (Hown : ∀ ys,
    prerequisites_first (seen ++ [[(stage_l1, item.2)]]) ys →
    prerequisites_first seen ([(stage_l1, item.2)] :: ys)).
  { intros ys. by apply prerequisites_first_cons. }
  destruct (first_run st); simpl.
  - split; [apply Hown, prerequisites_first_nil|]. by intros st' [= <-].
  - case_decide; simpl.
    + split; [apply Hown, prerequisites_first_nil|]. by intros st' [= <-].
    + destruct (run_level2_order (seen ++ [[(stage_l1, item.2)]])
                  (length (pool st ++ unlocked stage_baselearners item.1 item.2)
                   `min` 3)
                  {| pool := pool st ++ unlocked stage_baselearners item.1 item.2;
                     first_run := false; n_runs := S (n_runs st);
                     draws := draws st |} Hpool1) as [Hfirst Hend].
      split; [by apply Hown|].
      intros st' Hst'. apply fmap_Some in Hst' as (st2 & Hst2 & ->). simpl.
      eapply pool_backed_mono; [|by apply Hend].
      intros x Hx. apply elem_of_app in Hx as [Hx|Hx]; apply elem_of_app.
      { by left. }
      right. apply list_elem_of_singleton in Hx as ->. by left.
Qed.

Lemma run_level1_order (seen : list StageInfo)
    (items : list (MLStageFullName * option BaseLearnerWrapper))
    (st : GenState) :
  pool_backed seen (pool st) →
  let out := run_level1 rand stage_baselearners items st in
  prerequisites_first seen out.1
  ∧ ∀ st', out.2 = Some st' → pool_backed (seen ++ out.1) (pool st').
Proof.
  revert seen st. induction items as [|item items IH]; intros seen st Hpool;
    simpl.
  - split; [apply prerequisites_first_nil|].
    intros st' [= <-]. by rewrite app_nil_r.
  - pose proof (run_level1_item_order seen st item Hpool) as [Hfirst Hend].
    destruct (run_level1_item rand stage_baselearners st item) as [ys [st1|]];
      simpl in *; [|done].
    destruct (IH (seen ++ ys) st1 (Hend _ eq_refl)) as [Hfirst' Hend'].
    split; [by apply prerequisites_first_app|].
    intros st' Hst'. rewrite app_assoc. by apply Hend'.
Qed.

Lemma generate_order :
  prerequisites_first []
    (_generate_stage_baselearner_candidates rand stage_baselearners).1.
Proof.
  unfold _generate_stage_baselearner_candidates.
  pose proof (run_level1_order [] (level1_items stage_baselearners)
                {| pool := []; first_run := true; n_runs := 0; draws := 0 |})
    as Hl1.
  destruct Hl1 as [Hfirst Hend]; [by intros e s1 He%elem_of_nil|].
  destruct (run_level1 _ _ _ _) as [ys [st|]]; simpl in *; [|done].
  apply prerequisites_first_app; [done|].
  apply drain_order. by apply Hend.
Qed.
End SchedulerOrder.

Section TrainingProgress.
Context {A : Type} `{Numeric A} {Model : Type}.
Variable fit_predict : BaseLearnerWrapper → DataFrame A → Roles → Model.
Variable predict : Model → DataFrame A → list A.
Variable train test : DataFrame A.
Variable roles : Roles.
Variable treatment_col target_col : string.
Implicit Types (cache : Cache A Model).

Hypothesis treatment_role : roles !! "treatment" = Some treatment_col.
Hypothesis target_role : roles !! "target" = Some target_col.
Hypothesis columns_differ : treatment_col ≠ target_col.
Hypothesis columns_present :
  Forall (λ row : gmap string A,
            is_Some (row !! treatment_col) ∧ is_Some (row !! target_col))
         train.
Hypothesis predict_length : ∀ m df, length (predict m df) = length df.

Lemma treatment_present :
  Forall (λ row : gmap string A, is_Some (row !! treatment_col)) train.
Proof. eapply Forall_impl; [exact columns_present|by intros ? [? ?]]. Qed.

Lemma target_present :
  Forall (λ row : gmap string A, is_Some (row !! target_col)) train.
Proof. eapply Forall_impl; [exact columns_present|by intros ? [? ?]]. Qed.

Lemma slice_target_present (v : A) :
  Forall (λ row : gmap string A, is_Some (row !! target_col))
         (delete treatment_col <$> rows_where treatment_col v train).
Proof.
  apply Forall_fmap, rows_where_Forall.
  eapply Forall_impl; [exact target_present|].
  intros row Hy. simpl. by rewrite lookup_delete_ne.
Qed.

(** A first-level submission with its candidate is trained. *)
Lemma evaluate_level1_Some cache (key : MLStageFullName)
    (ml_stage : MetaLearnerStage) (bl : BaseLearnerWrapper) :
  length key = 1 → _extract_stage key = Some ml_stage →
  is_Some (_evaluate fit_predict predict cache [(ml_stage, Some bl)]
                     train test roles).
Proof.
  intros Hlen Hst.
  destruct (extract_stage_level1 _ _ Hlen Hst) as (_ & _ & Hname).
  unfold _evaluate, _prepare_data_for_stage, _get_treatment_role,
    _get_target_role.
  rewrite treatment_role, target_role. simpl.
  pose proof treatment_present as Ht. pose proof target_present as Hy.
  destruct Hname as [->|[->| ->]]; simpl.
  - rewrite select_eq_rows_where by done. simpl.
    rewrite drop_col_Some by (by apply rows_where_Forall). simpl. by eexists.
  - rewrite select_eq_rows_where by done. simpl.
    rewrite drop_col_Some by (by apply rows_where_Forall). simpl. by eexists.
  - rewrite drop_col_Some by done. simpl. by eexists.
Qed.

(** A second-level submission with its candidates is trained once the
    cache holds a model of its first-level pair. *)
Lemma evaluate_level2_Some cache (key : MLStageFullName)
    (prev_ml_stage ml_stage : MetaLearnerStage)
    (prev_bl bl : BaseLearnerWrapper) :
  length key = 2 → _extract_stage key = Some ml_stage →
  is_Some (prev_trained_model cache prev_ml_stage prev_bl) →
  is_Some (_evaluate fit_predict predict cache
             [(prev_ml_stage, Some prev_bl); (ml_stage, Some bl)]
             train test roles).
Proof.
  intros Hlen Hst [prev_model Hmodel].
  unfold _evaluate, _prepare_data_for_stage, _get_treatment_role,
    _get_target_role.
  rewrite treatment_role, target_role. simpl. rewrite Hmodel. simpl.
  pose proof treatment_present as Ht.
  destruct (extract_stage_level2 _ _ Hlen Hst) as [[_ ->]|[_ ->]]; simpl.
  - destruct (prepare_effect_slice num_sub
                (delete treatment_col <$> rows_where treatment_col num_zero train)
                (predict prev_model
                   (delete treatment_col
                      <$> rows_where treatment_col num_zero train))
                target_col)
      as (target & train_data & Hg & Hset & _);
      [apply slice_target_present|by rewrite predict_length|].
    rewrite select_eq_rows_where by done. simpl.
    rewrite drop_col_Some by (by apply rows_where_Forall). simpl.
    rewrite Hg. simpl.
    unfold arr_sub. rewrite arr_map2_eq_length
      by (rewrite predict_length; symmetry; by eapply get_col_length).
    simpl. rewrite Hset. simpl. by eexists.
  - destruct (prepare_effect_slice (λ p y, num_sub y p)
                (delete treatment_col <$> rows_where treatment_col num_one train)
                (predict prev_model
                   (delete treatment_col
                      <$> rows_where treatment_col num_one train))
                target_col)
      as (target & train_data & Hg & Hset & _);
      [apply slice_target_present|by rewrite predict_length|].
    rewrite select_eq_rows_where by done. simpl.
    rewrite drop_col_Some by (by apply rows_where_Forall). simpl.
    rewrite Hg. simpl.
    unfold arr_sub. rewrite arr_map2_eq_length
      by (rewrite predict_length; by eapply get_col_length).
    simpl.
    replace (zip_with num_sub target _)
      with (zip_with (λ p y, num_sub y p)
              (predict prev_model
                 (delete treatment_col
                    <$> rows_where treatment_col num_one train)) target)
      by apply (zip_with_flip num_sub).
    rewrite Hset. simpl. by eexists.
Qed.

(** A model found in the cache is still found after a training event. *)
Lemma prev_trained_model_append cache (key : MLStageFullName)
    (r : TrainedStageBaseLearner A Model)
    (ml_stage : MetaLearnerStage) (bl : BaseLearnerWrapper) :
  is_Some (prev_trained_model cache ml_stage bl) →
  is_Some (prev_trained_model (cache_append key r cache) ml_stage bl).
Proof.
  unfold prev_trained_model, cache_append. intros Hold.
  destruct (decide (key = full_name ml_stage)) as [->|Hne].
  - rewrite dict_get_set_eq. simpl.
    rewrite filter_app, fmap_app.
    destruct (trained_model <$> filter _ (default [] _)); [|by eexists].
    by destruct Hold.
  - by rewrite dict_get_set_ne.
Qed.

(** The record of a training event is found by the name of its
    baselearner. *)
Lemma prev_trained_model_new cache (r : TrainedStageBaseLearner A Model)
    (ml_stage : MetaLearnerStage) (bl : BaseLearnerWrapper) :
  name (stage_bl r) = name bl →
  is_Some (prev_trained_model (cache_append (full_name ml_stage) r cache)
                              ml_stage bl).
Proof.
  intros Hname. unfold prev_trained_model, cache_append.
  rewrite dict_get_set_eq. simpl. rewrite filter_app, fmap_app.
  destruct (trained_model <$> filter _ (default [] _)); [|by eexists].
  rewrite filter_cons_True by done. by eexists.
Qed.

(** Submissions of the two shapes, with their candidates, each after the
    first-level submission it depends on, are all trained. *)
Lemma evaluate_all_Some (submissions seen : list StageInfo) cache :
  Forall (λ si, level1_shape si ∨ level2_shape si) submissions →
  Forall candidates_present submissions →
  prerequisites_first seen submissions →
  cache_backs seen cache →
  is_Some (foldlM (λ c si, _evaluate fit_predict predict c si train test roles)
                  cache submissions).
Proof.
  intros Hshape. revert seen cache.
  induction Hshape as [|si submissions Hsi _ IH];
    intros seen cache Hpresent Hfirst Hbacks; simpl.
  - by eexists.
  - apply Forall_cons in Hpresent as [Hsi_present Hpresent].
    assert (Hev : is_Some (_evaluate fit_predict predict cache si
                                     train test roles)).
    { destruct Hsi as [(key & s & b & Hlen & Hst & ->)|
                       (key & p & pb & s & b & Hlen & _ & Hst & ->)].
      - apply Forall_cons in Hsi_present as [[bl Hb] _].
        simpl in Hb. subst b. by eapply evaluate_level1_Some.
      - apply Forall_cons in Hsi_present as [[prev_bl Hpb] _].
        simpl in Hpb. subst pb.
        eapply evaluate_level2_Some; [done|done|]. apply Hbacks.
        rewrite <-(app_nil_r seen).
        by apply (Hfirst [] p (Some prev_bl) s (Some b) submissions). }
    destruct Hev as [cache1 Hev]. rewrite Hev. simpl.
    apply (IH (seen ++ [si])); [done| |].
    + intros pre p pb s b post ->. rewrite <-(assoc_L _ seen [si] pre).
      by apply (Hfirst (si :: pre) p pb s b post).
    + apply evaluate_Some in Hev
        as (key & r & Hkey & -> & _ & _ & s & b & Hlast & ->).
      intros s' bl' Hin. apply elem_of_app in Hin as [Hin|Hin].
      * by apply prev_trained_model_append, Hbacks.
      * apply list_elem_of_singleton in Hin as <-. simpl in *.
        injection Hlast as <- <-. unfold record_key in Hkey.
        injection Hkey as Hname _. by apply prev_trained_model_new.
Qed.
End TrainingProgress.

Lemma foldr_max_le (n : nat) (ls : list nat) :
  Forall (λ m, m ≤ n) ls → foldr max 0 ls ≤ n.
Proof. induction 1; simpl; lia. Qed.

Lemma foldr_max_ge (m : nat) (ls : list nat) : m ∈ ls → m ≤ foldr max 0 ls.
Proof.
  induction ls as [|k ls IH]; intros Hin; [by apply elem_of_nil in Hin|].
  apply elem_of_cons in Hin as [->|Hin]; simpl; [lia|].
  specialize (IH Hin). lia.
Qed.

(** The first-level pairs, row by row of [zip_longest], up to the length of
    the longest first-level list. *)
Lemma level1_items_explicit
    (stage_baselearners : list (MLStageFullName * list BaseLearnerWrapper)) :
  level1_items stage_baselearners
  = seq 0 (foldr max 0
             (length <$> (filter (λ sb : MLStageFullName * list BaseLearnerWrapper,
                                    length sb.1 = 1) stage_baselearners).*2))
      ≫= λ i,
        (λ sb : MLStageFullName * list BaseLearnerWrapper, (sb.1, sb.2 !! i))
          <$> filter (λ sb : MLStageFullName * list BaseLearnerWrapper,
                        length sb.1 = 1) stage_baselearners.
Proof.
  unfold level1_items, zip_longest.
  rewrite list_fmap_bind, level1_entries. apply list_bind_ext; [|done].
  intros i. simpl. rewrite stage_by_levels_fst.
  apply (zip_fst_fmap_snd (λ l : list BaseLearnerWrapper, l !! i)).
Qed.

(** A candidate of a first-level stage is reached by the first-level
    loops. *)
Lemma level1_items_elem
    (stage_baselearners : list (MLStageFullName * list BaseLearnerWrapper))
    (key : MLStageFullName) (candidates : list BaseLearnerWrapper)
    (i : nat) (bl : BaseLearnerWrapper) :
  (key, candidates) ∈ stage_baselearners → length key = 1 →
  candidates !! i = Some bl →
  (key, Some bl) ∈ level1_items stage_baselearners.
Proof.
  intros Hin Hlen Hi. rewrite level1_items_explicit.
  assert (Hfilter : (key, candidates)
            ∈ filter (λ sb : MLStageFullName * list BaseLearnerWrapper,
                        length sb.1 = 1) stage_baselearners)
    by (by apply list_elem_of_filter).
  apply list_elem_of_bind. exists i. split.
  - apply list_elem_of_fmap. exists (key, candidates). simpl.
    by rewrite Hi.
  - apply elem_of_seq. split; [lia|]. simpl.
    apply lookup_lt_Some in Hi.
    eapply Nat.lt_le_trans; [exact Hi|]. apply foldr_max_ge.
    apply list_elem_of_fmap. exists candidates. split; [done|].
    apply list_elem_of_fmap. by exists (key, candidates).
Qed.

(** With first-level lists of one length, [zip_longest] fills nothing in. *)
Lemma level1_items_present
    (stage_baselearners : list (MLStageFullName * list BaseLearnerWrapper))
    (n : nat) :
  (∀ key candidates, (key, candidates) ∈ stage_baselearners →
     length key = 1 → length candidates = n) →
  Forall (λ item : MLStageFullName * option BaseLearnerWrapper,
            is_Some item.2)
         (level1_items stage_baselearners).
Proof.
  intros Hsame. rewrite level1_items_explicit. apply Forall_forall.
  intros item Hitem. apply list_elem_of_bind in Hitem as (i & Hitem & Hi).
  apply list_elem_of_fmap in Hitem as ([key candidates] & -> & Hin).
  apply list_elem_of_filter in Hin as [Hlen Hin]. simpl in *.
  apply lookup_lt_is_Some. rewrite (Hsame _ _ Hin Hlen).
  apply elem_of_seq in Hi as [_ Hi]. simpl in Hi.
  eapply Nat.lt_le_trans; [exact Hi|]. apply foldr_max_le.
  apply Forall_fmap, Forall_fmap, Forall_forall.
  intros [key' candidates'] Hin'.
  apply list_elem_of_filter in Hin' as [Hlen' Hin']. simpl in *.
  by rewrite (Hsame _ _ Hin' Hlen').
Qed.

Lemma all_submissions_present
    (stage_baselearners : list (MLStageFullName * list BaseLearnerWrapper)) :
  Forall (λ item : MLStageFullName * option BaseLearnerWrapper,
            is_Some item.2)
         (level1_items stage_baselearners) →
  Forall candidates_present (all_submissions stage_baselearners).
Proof.
  intros Hitems. unfold all_submissions. apply Forall_forall.
  intros si Hsi. apply list_elem_of_bind in Hsi as (item & Hsi & Hitem).
  pose proof (proj1 (Forall_forall _ _) Hitems _ Hitem) as Hbl.
  unfold item_infos in Hsi.
  destruct (_extract_stage item.1) as [stage_l1|];
    [|by apply elem_of_nil in Hsi].
  apply elem_of_cons in Hsi as [->|Hsi].
  - by apply Forall_singleton.
  - unfold pool_infos, unlocked in Hsi. rewrite list_fmap_bind in Hsi.
    apply list_elem_of_bind in Hsi as (s2 & Hsi & _).
    unfold entry_infos in Hsi. simpl in Hsi.
    destruct (_extract_stage (prefix1 s2)) as [s1'|];
      [|by apply elem_of_nil in Hsi].
    destruct (_extract_stage s2) as [s2'|]; [|by apply elem_of_nil in Hsi].
    apply list_elem_of_fmap in Hsi as (bl2 & -> & _).
    apply Forall_cons. split; [done|]. apply Forall_singleton. by eexists.
Qed.

(** A stage with a record identity in the cache is a key of the cache. *)
Lemma cache_keys_is_Some {A Model : Type} (cache : Cache A Model)
    (key : MLStageFullName) (k : string * option string) :
  (key, k) ∈ cache_keys cache → is_Some (dict_get key cache).
Proof.
  unfold cache_keys. intros Hin.
  apply list_elem_of_bind in Hin as ([key' records] & Hin & Hkr).
  apply list_elem_of_fmap in Hin as (r & [= -> _] & _).
  apply dict_get_is_Some. apply list_elem_of_fmap. by exists (key', records).
Qed.

Section LoopFacts.
Context {A : Type} `{Numeric A} {Model : Type}.
Variable fit_predict : BaseLearnerWrapper → DataFrame A → Roles → Model.
Variable predict : Model → DataFrame A → list A.
Variable time_limit_exceeded : nat → bool.
Implicit Types (cache : Cache A Model).

(** If all the submissions can be trained and the generator ends normally,
    the loop of [fit] returns, with or without time limit. *)
Lemma fit_loop_of_all (train test : DataFrame A) (roles : Roles)
    (submissions : list StageInfo) (n : nat) cache :
  is_Some (foldlM (λ c si, _evaluate fit_predict predict c si train test roles)
                  cache submissions) →
  is_Some (fit_loop fit_predict predict time_limit_exceeded train test roles
                    submissions true n cache).
Proof.
  revert n cache. induction submissions as [|si submissions IH];
    intros n cache; simpl; [done|].
  destruct (_evaluate _ _ cache si _ _ _) as [cache1|]; simpl;
    [|by intros [? ?]].
  intros Hrest. destruct (time_limit_exceeded (S n)); [by eexists|].
  by apply IH.
Qed.

(** Without time limit the loop of [fit] trains every submission. *)
Lemma fit_loop_no_limit (train test : DataFrame A) (roles : Roles)
    (submissions : list StageInfo) (n : nat) cache :
  (∀ m, time_limit_exceeded m = false) →
  fit_loop fit_predict predict time_limit_exceeded train test roles
           submissions true n cache
  = foldlM (λ c si, _evaluate fit_predict predict c si train test roles)
           cache submissions.
Proof.
  intros Hno. revert n cache. induction submissions as [|si submissions IH];
    intros n cache; simpl; [done|].
  destruct (_evaluate _ _ cache si _ _ _) as [cache1|]; simpl; [|done].
  by rewrite Hno.
Qed.
End LoopFacts.

Section FitProgress.
Context {A : Type} `{Numeric A} {Model : Type}.
Variable fit_predict : BaseLearnerWrapper → DataFrame A → Roles → Model.
Variable predict : Model → DataFrame A → list A.
Variable calculate_uplift_auc : list A → list A → list A → string → bool → A.
Variable train_test_split :
  DataFrame A → list A → nat → DataFrame A * DataFrame A.
Variable time_limit_exceeded : nat → bool.
Variable rand : nat → nat.
Implicit Types (cache : Cache A Model).

(** Scoring and selection succeed on a well-formed cache with records for
    the two outcome stages. *)
Lemma fit_of_cache (self : Settings)
    (stage_baselearners : list (MLStageFullName * list BaseLearnerWrapper))
    (data train test : DataFrame A) (roles : Roles)
    (test_treatment test_target : list A) cache :
  _prepare_data train_test_split self data roles
  = Some (train, test, test_treatment, test_target) →
  (let gen := _generate_stage_baselearner_candidates rand stage_baselearners in
   fit_loop fit_predict predict time_limit_exceeded train test roles
            gen.1 (bool_decide (is_Some gen.2)) 0 [] = Some cache) →
  cache_wf (λ p, length p = length test) cache →
  ready cache [stage "outcome_control"; stage "outcome_treatment"] →
  ∃ fitted,
    fit fit_predict predict calculate_uplift_auc train_test_split
        time_limit_exceeded rand self stage_baselearners data roles
    = Some fitted
    ∧ trained_stage_baselearners fitted = cache
    ∧ (∃ score, (best_candidate fitted, score) ∈ metalearner_metrics fitted)
    ∧ ∀ e, e ∈ metalearner_metrics fitted → assembled_from cache e.1.
Proof.
  intros Hprep Hloop Hwf Hready. simpl in Hloop.
  destruct (calculate_ml_metric_ready calculate_uplift_auc (metric self)
              (normed_metric self) test_treatment test_target cache _
              Hwf Hready) as (metrics & Hmetrics & Hne & Hall).
  destruct (select_best_elem (increasing_metric self) metrics Hne)
    as (best & Hbest & Hin).
  destruct (materialize_assembled cache best.1 (Hall _ Hin))
    as [[ml Hml] [ml_wrap Hwrap]].
  destruct best as [[best_name best_sbls] score]. simpl in Hml, Hwrap.
  eexists. split_and!.
  - unfold fit. rewrite Hprep. simpl. rewrite Hloop. simpl.
    rewrite Hmetrics. simpl. unfold _set_best_metalearner.
    rewrite Hbest. simpl. rewrite Hml. simpl. rewrite Hwrap. simpl. done.
  - done.
  - simpl. by exists score.
  - done.
Qed.

Section WellFormedRun.
Variable stage_baselearners : list (MLStageFullName * list BaseLearnerWrapper).
Variable train test : DataFrame A.
Variable roles : Roles.
Variable treatment_col target_col : string.
Variable n : nat.

Hypothesis treatment_role : roles !! "treatment" = Some treatment_col.
Hypothesis target_role : roles !! "target" = Some target_col.
Hypothesis columns_differ : treatment_col ≠ target_col.
Hypothesis columns_present :
  Forall (λ row : gmap string A,
            is_Some (row !! treatment_col) ∧ is_Some (row !! target_col))
         train.
Hypothesis predict_length : ∀ m df, length (predict m df) = length df.
Hypothesis keys_known : ∀ key,
  key ∈ stage_baselearners.*1 → length key = 1 ∨ length key = 2 →
  is_Some (_extract_stage key).
Hypothesis level1_same_length : ∀ key candidates,
  (key, candidates) ∈ stage_baselearners → length key = 1 →
  length candidates = n.

(** On a well-formed stage dictionary and frame every submission of the
    generator is trained, and the cache then holds the submissions of the
    dictionary, each once. *)
Lemma train_all_submissions :
  let gen := _generate_stage_baselearner_candidates rand stage_baselearners in
  bool_decide (is_Some gen.2) = true
  ∧ gen.1 ≡ₚ all_submissions stage_baselearners
  ∧ ∃ cache,
      foldlM (λ c si, _evaluate fit_predict predict c si train test roles)
             [] gen.1 = Some cache
      ∧ cache_keys cache
        ≡ₚ omap submission_key (all_submissions stage_baselearners)
      ∧ cache_wf (λ p, length p = length test) cache.
Proof.
  intros gen.
  destruct (generate_known rand stage_baselearners keys_known)
    as (st & Hend & _). fold gen in Hend.
  pose proof (generate_infos rand stage_baselearners st Hend) as Hperm.
  fold gen in Hperm.
  assert (Hpresent : Forall candidates_present gen.1).
  { rewrite Hperm. apply all_submissions_present.
    by eapply level1_items_present. }
  destruct (evaluate_all_Some fit_predict predict train test roles
              treatment_col target_col treatment_role target_role
              columns_differ columns_present predict_length gen.1 [] [])
    as [cache Hcache].
  - apply generate_shape.
  - done.
  - apply generate_order.
  - intros s bl Hin. by apply elem_of_nil in Hin.
  - split_and!.
    + apply bool_decide_eq_true_2. by rewrite Hend.
    + done.
    + exists cache. split_and!; [done| |].
      * destruct (evaluate_all_keys _ _ _ _ _ _ _ _ Hcache) as [Hkeys _].
        simpl in Hkeys. by rewrite Hkeys, Hperm.
      * eapply evaluate_all_wf; [|apply generate_shape|apply cache_wf_nil|
                                 exact Hcache].
        intros m. apply predict_length.
Qed.

(** A first-level stage with candidates has a record after all the
    submissions were trained. *)
Lemma trained_stage_ready cache (key : MLStageFullName)
    (candidates : list BaseLearnerWrapper) :
  cache_keys cache ≡ₚ omap submission_key (all_submissions stage_baselearners) →
  (key, candidates) ∈ stage_baselearners → length key = 1 → 0 < n →
  is_Some (dict_get key cache).
Proof.
  intros Hkeys Hin Hlen Hn.
  pose proof (level1_same_length _ _ Hin Hlen) as Hcands.
  destruct (lookup_lt_is_Some_2 candidates 0 ltac:(lia)) as [bl Hbl].
  pose proof (level1_items_elem _ _ _ _ _ Hin Hlen Hbl) as Hitem.
  destruct (keys_known key) as [stage_l1 Hst];
    [apply list_elem_of_fmap; by exists (key, candidates)|by left|].
  apply (cache_keys_is_Some cache key (name bl, None)).
  rewrite Hkeys. apply list_elem_of_omap.
  exists [(stage_l1, Some bl)]. split.
  - unfold all_submissions. apply list_elem_of_bind.
    exists (key, Some bl). split; [|done].
    unfold item_infos. simpl. rewrite Hst. by left.
  - simpl. by rewrite (extract_stage_full_name _ _ Hst).
Qed.
End WellFormedRun.
End FitProgress.

(* ===================================================================== *)
(** * The scheduler: termination, completeness, order *)
(* ===================================================================== *)

(** X1. If every first- and second-level key of the stage dictionary is the
    full name of a stage of [__MAP_META_TO_STAGES__], the generator
    [_generate_stage_baselearner_candidates] ends normally whatever
    [np.random.randint] returns: no stage lookup fails, no draw is made
    from an empty pool, and the pool of second-level iterators is empty at
    the end. *)
Theorem generator_ends_normally (rand : nat → nat)
    (stage_baselearners : list (MLStageFullName * list BaseLearnerWrapper)) :
  (∀ key, key ∈ stage_baselearners.*1 → length key = 1 ∨ length key = 2 →
     is_Some (_extract_stage key)) →
  ∃ st,
    (_generate_stage_baselearner_candidates rand stage_baselearners).2 = Some st
    ∧ pool st = [].
Proof. apply generate_known. Qed.

(** X2. A run of the generator that ends normally has yielded, in some
    order, exactly the submissions of the stage dictionary: one for every
    first-level pair the loops over [zip_longest] reach and, for each such
    pair, one for every candidate of every second-level stage that follows
    its stage. The random draws decide the order only. *)
Theorem generator_yields_all_submissions (rand : nat → nat)
    (stage_baselearners : list (MLStageFullName * list BaseLearnerWrapper))
    (st : GenState) :
  (_generate_stage_baselearner_candidates rand stage_baselearners).2 = Some st →
  (_generate_stage_baselearner_candidates rand stage_baselearners).1
  ≡ₚ all_submissions stage_baselearners.
Proof. apply generate_infos. Qed.

(** X3. A second-level submission is yielded only after the first-level
    submission of the pair it depends on: the same stage with the same
    baselearner. *)
Theorem prerequisite_submitted_first (rand : nat → nat)
    (stage_baselearners : list (MLStageFullName * list BaseLearnerWrapper))
    (j : nat) (prev_ml_stage ml_stage : MetaLearnerStage)
    (prev_bl bl : option BaseLearnerWrapper) :
  (_generate_stage_baselearner_candidates rand stage_baselearners).1 !! j
  = Some [(prev_ml_stage, prev_bl); (ml_stage, bl)] →
  ∃ i, i < j
       ∧ (_generate_stage_baselearner_candidates rand stage_baselearners).1 !! i
         = Some [(prev_ml_stage, prev_bl)].
Proof.
  intros Hj.
  pose proof (generate_order rand stage_baselearners) as Hfirst.
  pose proof (take_drop_middle _ _ _ Hj) as Hsplit. symmetry in Hsplit.
  apply Hfirst in Hsplit. simpl in Hsplit.
  apply list_elem_of_lookup in Hsplit as [i Hi].
  pose proof (lookup_lt_Some _ _ _ Hi) as Hlt.
  rewrite length_take in Hlt. exists i. split; [lia|].
  by rewrite lookup_take_lt in Hi by lia.
Qed.

(** X4. Every submission of the generator is a chain of one stage, which is
    [outcome_control], [outcome_treatment] or [propensity], or a chain of
    two stages with a second-level candidate: [effect_control] after
    [outcome_treatment], or [effect_treatment] after [outcome_control]. *)
Theorem generator_submission_shapes (rand : nat → nat)
    (stage_baselearners : list (MLStageFullName * list BaseLearnerWrapper))
    (stage_info : StageInfo) :
  stage_info
    ∈ (_generate_stage_baselearner_candidates rand stage_baselearners).1 →
  (∃ ml_stage bl,
     stage_info = [(ml_stage, bl)]
     ∧ ml_stage ∈ [stage "outcome_control"; stage "outcome_treatment";
                   propensity_stage])
  ∨ (∃ bl_l1 bl_l2,
       stage_info = [(stage "outcome_treatment", bl_l1);
                     (effect_control_stage, Some bl_l2)])
  ∨ (∃ bl_l1 bl_l2,
       stage_info = [(stage "outcome_control", bl_l1);
                     (effect_treatment_stage, Some bl_l2)]).
Proof.
  intros Hin.
  pose proof (proj1 (Forall_forall _ _)
                (generate_shape rand stage_baselearners) _ Hin)
    as [(key & s & b & Hlen & Hst & ->)|
        (key & p & pb & s & b & Hlen & Hprev & Hst & ->)].
  - left. exists s, b. split; [done|].
    destruct (extract_stage_cases _ _ Hst) as [Hfn Hs]. subst key.
    repeat (apply elem_of_cons in Hs as [->|Hs]);
      try (by apply elem_of_nil in Hs); try (simpl in Hlen; lia);
      set_solver.
  - right.
    destruct (extract_stage_cases _ _ Hst) as [Hfn Hs]. subst key.
    repeat (apply elem_of_cons in Hs as [->|Hs]);
      try (by apply elem_of_nil in Hs); try (simpl in Hlen; lia).
    + left. vm_compute in Hprev. injection Hprev as <-. by exists pb, b.
    + right. vm_compute in Hprev. injection Hprev as <-. by exists pb, b.
Qed.

(* ===================================================================== *)
(** * The training loop of [fit] *)
(* ===================================================================== *)

Section FitTheorems.
Context {A : Type} `{Numeric A} {Model : Type}.
Variable fit_predict : BaseLearnerWrapper → DataFrame A → Roles → Model.
Variable predict : Model → DataFrame A → list A.
Variable calculate_uplift_auc : list A → list A → list A → string → bool → A.
Variable train_test_split :
  DataFrame A → list A → nat → DataFrame A * DataFrame A.
Variable time_limit_exceeded : nat → bool.
Variable rand : nat → nat.
Implicit Types (cache : Cache A Model).

(** [_bl_for_ml] finds a metalearner that can predict only if both outcome
    stages have records. *)
Lemma ready_metalearners_outcome cache :
  existsb id (ready_metalearners cache) = true →
  is_Some (dict_get ["outcome_control"] cache)
  ∧ is_Some (dict_get ["outcome_treatment"] cache).
Proof.
  unfold ready_metalearners, MAP_META_TO_STAGES, dict_mem. cbn -[dict_get].
  intros Hready.
  apply orb_prop in Hready as [Hready|Hready];
    [|apply orb_prop in Hready as [Hready|Hready]; [|done]];
    apply andb_prop in Hready as [Hc Hready];
    apply andb_prop in Hready as [Ht _];
    split; by eapply bool_decide_eq_true_1.
Qed.

Lemma ready_metalearners_outcome_2 cache :
  is_Some (dict_get ["outcome_control"] cache) →
  is_Some (dict_get ["outcome_treatment"] cache) →
  existsb id (ready_metalearners cache) = true.
Proof.
  intros Hc Ht. unfold ready_metalearners, MAP_META_TO_STAGES, dict_mem.
  cbn -[dict_get]. rewrite !bool_decide_eq_true_2 by done. done.
Qed.

(** X5. The loop of [fit] raises no exception when the keys of the stage
    dictionary are stage names, the first-level stages have the same
    number of candidates, the frame has the treatment and the target
    column, and the engine predicts one value per row: every submission of
    the generator can be trained, in the order it is yielded, which adds
    one record per submission, and the loop returns whatever the timer
    answers. *)
Theorem fit_loop_trains_every_submission
    (stage_baselearners : list (MLStageFullName * list BaseLearnerWrapper))
    (train test : DataFrame A) (roles : Roles)
    (treatment_col target_col : string) (n : nat) :
  roles !! "treatment" = Some treatment_col →
  roles !! "target" = Some target_col →
  treatment_col ≠ target_col →
  Forall (λ row : gmap string A,
            is_Some (row !! treatment_col) ∧ is_Some (row !! target_col))
         train →
  (∀ m df, length (predict m df) = length df) →
  (∀ key, key ∈ stage_baselearners.*1 → length key = 1 ∨ length key = 2 →
     is_Some (_extract_stage key)) →
  (∀ key candidates, (key, candidates) ∈ stage_baselearners →
     length key = 1 → length candidates = n) →
  let gen := _generate_stage_baselearner_candidates rand stage_baselearners in
  (∃ cache,
     foldlM (λ c si, _evaluate fit_predict predict c si train test roles)
            [] gen.1 = Some cache
     ∧ length (cache_keys cache) = length gen.1)
  ∧ is_Some (fit_loop fit_predict predict time_limit_exceeded train test roles
                      gen.1 (bool_decide (is_Some gen.2)) 0 []).
Proof.
  intros Htr Hta Hne Hcols Hpred Hknown Hsame gen.
  destruct (train_all_submissions fit_predict predict rand stage_baselearners
              train test roles treatment_col target_col n
              Htr Hta Hne Hcols Hpred Hknown Hsame)
    as (Hend & _ & cache & Hcache & _ & _).
  fold gen in Hend, Hcache. split.
  - exists cache. split; [done|].
    apply evaluate_all_count in Hcache. simpl in Hcache. lia.
  - rewrite Hend. apply fit_loop_of_all. by rewrite Hcache.
Qed.

(** X6. Under the same conditions, with candidates for the two outcome
    stages and a timer that never reports the budget as exceeded, [fit]
    returns: the cache holds one record for every submission of the stage
    dictionary, the score table is not empty and the selected metalearner
    is one of its entries. *)
Theorem fit_returns_on_complete_run (self : Settings)
    (stage_baselearners : list (MLStageFullName * list BaseLearnerWrapper))
    (data train test : DataFrame A) (roles : Roles)
    (test_treatment test_target : list A)
    (treatment_col target_col : string) (n : nat)
    (control_candidates treatment_candidates : list BaseLearnerWrapper) :
  _prepare_data train_test_split self data roles
  = Some (train, test, test_treatment, test_target) →
  roles !! "treatment" = Some treatment_col →
  roles !! "target" = Some target_col →
  treatment_col ≠ target_col →
  Forall (λ row : gmap string A,
            is_Some (row !! treatment_col) ∧ is_Some (row !! target_col))
         train →
  (∀ m df, length (predict m df) = length df) →
  (∀ key, key ∈ stage_baselearners.*1 → length key = 1 ∨ length key = 2 →
     is_Some (_extract_stage key)) →
  (∀ key candidates, (key, candidates) ∈ stage_baselearners →
     length key = 1 → length candidates = n) →
  0 < n →
  (["outcome_control"], control_candidates) ∈ stage_baselearners →
  (["outcome_treatment"], treatment_candidates) ∈ stage_baselearners →
  (∀ m, time_limit_exceeded m = false) →
  ∃ fitted,
    fit fit_predict predict calculate_uplift_auc train_test_split
        time_limit_exceeded rand self stage_baselearners data roles
    = Some fitted
    ∧ cache_keys (trained_stage_baselearners fitted)
      ≡ₚ omap submission_key (all_submissions stage_baselearners)
    ∧ ∃ score, (best_candidate fitted, score) ∈ metalearner_metrics fitted.
Proof.
  intros Hprep Htr Hta Hne Hcols Hpred Hknown Hsame Hn Hc Ht Hno.
  destruct (train_all_submissions fit_predict predict rand stage_baselearners
              train test roles treatment_col target_col n
              Htr Hta Hne Hcols Hpred Hknown Hsame)
    as (Hend & _ & cache & Hcache & Hkeys & Hwf).
  destruct (fit_of_cache fit_predict predict calculate_uplift_auc
              train_test_split time_limit_exceeded rand self
              stage_baselearners data train test roles
              test_treatment test_target cache Hprep)
    as (fitted & Hfit & Hcache' & Hbest & _).
  - simpl. rewrite Hend. by rewrite fit_loop_no_limit.
  - done.
  - intros s Hs.
    apply elem_of_cons in Hs as [->|Hs];
      [|apply list_elem_of_singleton in Hs as ->]; simpl.
    + by eapply (trained_stage_ready stage_baselearners n).
    + by eapply (trained_stage_ready stage_baselearners n).
  - exists fitted. by rewrite Hcache'.
Qed.

(** X7. If the timer reports the budget as exceeded at its first check,
    after the first training event, [fit] raises: the loop stops with at
    most one record, and [_bl_for_ml] finds no metalearner that has
    records for all its stages. Nothing is selected. *)
Theorem fit_raises_when_budget_ends_at_first_event (self : Settings)
    (stage_baselearners : list (MLStageFullName * list BaseLearnerWrapper))
    (data : DataFrame A) (roles : Roles) :
  time_limit_exceeded 1 = true →
  fit fit_predict predict calculate_uplift_auc train_test_split
      time_limit_exceeded rand self stage_baselearners data roles
  = None.
Proof.
  intros Hlimit. unfold fit.
  destruct (_prepare_data _ _ _ _) as [[[[train test] tt] ty]|]; [simpl|done].
  destruct (fit_loop _ _ _ _ _ _ _ _ _ _) as [cache|] eqn:Hloop;
    [simpl|done].
  assert (Hone : length cache ≤ 1).
  { destruct (_generate_stage_baselearner_candidates _ _).1 as [|si rest];
      simpl in Hloop.
    - destruct (bool_decide _); simplify_eq; simpl; lia.
    - destruct (_evaluate _ _ _ si _ _ _) as [cache1|] eqn:Hev;
        [simpl in Hloop|done].
      rewrite Hlimit in Hloop. injection Hloop as <-.
      apply evaluate_Some in Hev as (key & r & _ & -> & _). simpl. lia. }
  unfold _calculate_ml_metric, _bl_for_ml.
  destruct (existsb id (ready_metalearners cache)) eqn:Hready; [|done].
  apply ready_metalearners_outcome in Hready as [[rc Hc] [rt Ht]].
  destruct cache as [|[key records] [|? ?]]; simpl in *; try done; try lia.
  repeat case_decide; simplify_eq.
Qed.

(** X8. [_bl_for_ml] raises ["No one metalearner can predict."] exactly
    when [outcome_control] or [outcome_treatment] has no record, the other
    stages do not matter; otherwise it yields one assembly for every
    element of the cross product of the cached record lists. *)
Theorem bl_for_ml_needs_outcome_stages cache :
  (is_Some (_bl_for_ml cache)
   ↔ is_Some (dict_get ["outcome_control"] cache)
     ∧ is_Some (dict_get ["outcome_treatment"] cache))
  ∧ ∀ yielded, _bl_for_ml cache = Some yielded →
      length yielded = foldr Nat.mul 1 (length <$> cache.*2).
Proof.
  unfold _bl_for_ml. split; [split|].
  - destruct (existsb id (ready_metalearners cache)) eqn:Hready;
      [|by intros [? ?]].
    intros _. by apply ready_metalearners_outcome.
  - intros [Hc Ht]. rewrite ready_metalearners_outcome_2 by done.
    by eexists.
  - intros yielded.
    destruct (existsb id (ready_metalearners cache)); [|done].
    intros [= <-]. unfold combinations. rewrite !length_fmap.
    induction (cache.*2) as [|l ls IH]; [done|]. csimpl.
    rewrite <-IH. clear IH.
    induction l as [|x l IH]; [done|]. csimpl.
    rewrite length_app, length_fmap, IH. done.
Qed.
End FitTheorems.

(* ===================================================================== *)
(** * Wrapper parameters, training events and scores *)
(* ===================================================================== *)

Lemma update_fold_lookup (d p : list (string * Atom)) (k : string) :
  NoDup d.*1 →
  dict_get k (foldl (λ p kv, dict_set kv.1 kv.2 p) p d)
  = match dict_get k d with
    | Some v => Some v
    | None => dict_get k p
    end.
Proof.
  revert p. induction d as [|[k1 v1] d IH]; intros p Hnd; simpl; [done|].
  apply NoDup_cons in Hnd as [Hk1 Hnd]. simpl in Hk1. rewrite IH by done.
  destruct (decide (k1 = k)) as [->|Hne].
  - apply dict_get_None in Hk1. rewrite Hk1. apply dict_get_set_eq.
  - destruct (dict_get k d); [done|]. by apply dict_get_set_ne.
Qed.

Lemma update_fold_keys (d p : list (string * Atom)) :
  ∃ new, (foldl (λ p kv, dict_set kv.1 kv.2 p) p d).*1 = p.*1 ++ new.
Proof.
  revert p. induction d as [|[k1 v1] d IH]; intros p; simpl.
  - exists []. by rewrite app_nil_r.
  - destruct (IH (dict_set k1 v1 p)) as [new ->]. rewrite dict_set_keys.
    case_decide; [by exists new|]. exists (k1 :: new).
    by rewrite <-app_assoc.
Qed.

(** X9. [Wrapper.update_params] reads back as a dictionary update: after
    [w.update_params(d)] a key of [d] holds the value [d] gives it, every
    other key holds what it held before, the keys the wrapper had keep
    their positions, and the name and the class of the wrapper are
    unchanged. *)
Theorem update_params_lookup (d : list (string * Atom))
    (w : BaseLearnerWrapper) :
  NoDup d.*1 →
  name (update_params d w) = name w
  ∧ klass (update_params d w) = klass w
  ∧ (∀ k, dict_get k (params (update_params d w))
          = match dict_get k d with
            | Some v => Some v
            | None => dict_get k (params w)
            end)
  ∧ ∃ new, (params (update_params d w)).*1 = (params w).*1 ++ new.
Proof.
  intros Hnd. unfold update_params. simpl. split_and!; [done|done| |].
  - intros k. by apply update_fold_lookup.
  - apply update_fold_keys.
Qed.

Section EventFacts.
Context {A : Type} `{Numeric A} {Model : Type}.
Variable fit_predict : BaseLearnerWrapper → DataFrame A → Roles → Model.
Variable predict : Model → DataFrame A → list A.
Variable calculate_uplift_auc : list A → list A → list A → string → bool → A.
Variable train_test_split :
  DataFrame A → list A → nat → DataFrame A * DataFrame A.
Variable time_limit_exceeded : nat → bool.
Variable rand : nat → nat.
Implicit Types (cache : Cache A Model).

(** X10. A training event that returns has trained the last baselearner of
    the chain on the frame and roles prepared for the stage, has predicted
    on the whole test frame, and has appended one record to the end of the
    records of the stage; the records the cache held are all kept, in
    their order, and no other stage is touched. The record of a chain of
    two stages keeps the baselearner of the first. *)
Theorem evaluate_appends_one_record cache cache' (stage_info : StageInfo)
    (train test : DataFrame A) (roles : Roles) :
  _evaluate fit_predict predict cache stage_info train test roles
  = Some cache' →
  ∃ ml_stage bl_wrap train_data train_roles r,
    last stage_info = Some (ml_stage, Some bl_wrap)
    ∧ _prepare_data_for_stage predict cache stage_info train roles
      = Some (train_data, train_roles)
    ∧ stage_bl r = bl_wrap
    ∧ trained_model r = fit_predict bl_wrap train_data train_roles
    ∧ pred r = predict (trained_model r) test
    ∧ prev_stage_bl r
      = (if decide (length stage_info = 2)
         then '(_, w) ← stage_info !! 0; w else None)
    ∧ dict_get (full_name ml_stage) cache'
      = Some (default [] (dict_get (full_name ml_stage) cache) ++ [r])
    ∧ ∀ key, key ≠ full_name ml_stage →
             dict_get key cache' = dict_get key cache.
Proof.
  unfold _evaluate.
  destruct (_prepare_data_for_stage _ _ _ _ _) as [[train_data train_roles]|];
    [simpl|done].
  destruct (last stage_info) as [[ml_stage [bl_wrap|]]|]; simpl; try done.
  intros [= <-].
  exists ml_stage, bl_wrap, train_data, train_roles,
    {| stage_bl := bl_wrap;
       prev_stage_bl := (if decide (length stage_info = 2)
                         then '(_, w) ← stage_info !! 0; w else None);
       trained_model := fit_predict bl_wrap train_data train_roles;
       pred := predict (fit_predict bl_wrap train_data train_roles) test |}.
  simpl. split_and!; try done.
  - unfold cache_append. apply dict_get_set_eq.
  - intros key Hne. unfold cache_append. by apply dict_get_set_ne.
Qed.

Lemma score_all_sound (metric : string) (normed : bool) (tg tr : list A)
    (mls : list (string * StageBls A Model)) metrics metrics' :
  foldlM (score_metalearner calculate_uplift_auc metric normed tg tr)
         metrics mls = Some metrics' →
  ∀ e, e ∈ metrics' →
    e ∈ metrics
    ∨ ∃ ml uplift_pred,
        ml ∈ mls
        ∧ _metalearner_predict ml.1 ml.2 = Some uplift_pred
        ∧ e = ((ml.1, sorted sbl_leb
                        ((λ sb, (sb.1, name (stage_bl sb.2))) <$> ml.2)),
               calculate_uplift_auc tg uplift_pred tr metric normed).
Proof.
  revert metrics. induction mls as [|ml mls IH]; intros metrics; simpl.
  - intros [= <-] e He. by left.
  - destruct (score_metalearner _ _ _ _ _ metrics ml) as [metrics1|] eqn:Hs;
      [simpl|done].
    intros Hrest e He. unfold score_metalearner in Hs.
    destruct (_metalearner_predict ml.1 ml.2) as [uplift_pred|] eqn:Hp;
      [simpl in Hs|done].
    injection Hs as <-.
    destruct (IH _ Hrest e He) as [Hin|(ml' & up & Hml' & Hup & ->)].
    + destruct e as [k v]. apply dict_set_elem in Hin as [[= -> ->]|Hin].
      * right. exists ml, uplift_pred. split_and!; [by left|done|done].
      * by left.
    + right. exists ml', up. split_and!; [by right|done|done].
Qed.

(** X11. Every score that [fit] leaves in [_metalearner_metrics] is the
    value of [calculate_uplift_auc] on the prediction that
    [_metalearner_predict] composes from one combination of cached records,
    assembled by [_bl_for_ml], and the entry is named by the stage names
    and baselearner names of this assembly, sorted. The metric is called
    with the treatment array of the test part as its first argument and
    the target array as its third: [fit] passes the two arrays to
    [_calculate_ml_metric] in the order treatment, target, while the
    parameters are target, treatment. *)
Theorem fit_scores_are_metric_values (self : Settings)
    (stage_baselearners : list (MLStageFullName * list BaseLearnerWrapper))
    (data : DataFrame A) (roles : Roles) (fitted : Fitted A Model) :
  fit fit_predict predict calculate_uplift_auc train_test_split
      time_limit_exceeded rand self stage_baselearners data roles
  = Some fitted →
  ∃ train test test_treatment test_target,
    _prepare_data train_test_split self data roles
    = Some (train, test, test_treatment, test_target)
    ∧ ∀ entry score, (entry, score) ∈ metalearner_metrics fitted →
        ∃ set_bls ml_bls uplift_pred,
          set_bls ∈ combinations (trained_stage_baselearners fitted)
          ∧ (entry.1, ml_bls) ∈ assemble set_bls
          ∧ entry.2 = sorted sbl_leb
                        ((λ sb, (sb.1, name (stage_bl sb.2))) <$> ml_bls)
          ∧ _metalearner_predict entry.1 ml_bls = Some uplift_pred
          ∧ score = calculate_uplift_auc test_treatment uplift_pred
                      test_target (metric self) (normed_metric self).
Proof.
  unfold fit.
  destruct (_prepare_data _ _ _ _) as [[[[train test] tt] ty]|]; [simpl|done].
  destruct (fit_loop _ _ _ _ _ _ _ _ _ _) as [cache|]; [simpl|done].
  destruct (_calculate_ml_metric _ _ _ _ _ _ _) as [metrics|] eqn:Hm;
    [simpl|done].
  destruct (_set_best_metalearner _ _ _) as [best|]; [simpl|done].
  intros [= <-]. exists train, test, tt, ty. split; [done|]. simpl.
  intros entry score Hin. unfold _calculate_ml_metric, _bl_for_ml in Hm.
  destruct (existsb id (ready_metalearners cache)); [simpl in Hm|done].
  destruct (score_all_sound _ _ _ _ _ _ _ Hm _ Hin)
    as [Hnil|([ml_name ml_bls] & up & Hml & Hup & [= -> ->])];
    [by apply elem_of_nil in Hnil|].
  apply list_elem_of_join in Hml as (yielded & Hml & Hy).
  apply list_elem_of_fmap in Hy as (set_bls & -> & Hset).
  by exists set_bls, ml_bls, up.
Qed.
End EventFacts.

(* ===================================================================== *)
(** * The selected metalearner *)
(* ===================================================================== *)

Section SelectedFacts.
Context {A : Type} `{Numeric A} {Model : Type}.
Variable fit_predict : BaseLearnerWrapper → DataFrame A → Roles → Model.
Variable predict : Model → DataFrame A → list A.
Variable calculate_uplift_auc : list A → list A → list A → string → bool → A.
Variable train_test_split :
  DataFrame A → list A → nat → DataFrame A * DataFrame A.
Variable time_limit_exceeded : nat → bool.
Variable rand : nat → nat.
Implicit Types (cache : Cache A Model) (r : TrainedStageBaseLearner A Model).

(** The records a run of the loop of [fit] leaves for a first-level stage
    have no prerequisite baselearner and different names, when the
    candidates of each stage have different names. *)
Lemma fit_loop_level1_records
    (stage_baselearners : list (MLStageFullName * list BaseLearnerWrapper))
    (train test : DataFrame A) (roles : Roles) cache
    (key : MLStageFullName) (records : list (TrainedStageBaseLearner A Model)) :
  NoDup stage_baselearners.*1 →
  (∀ key candidates,
     (key, candidates) ∈ stage_baselearners → NoDup (name <$> candidates)) →
  (let gen := _generate_stage_baselearner_candidates rand stage_baselearners in
   fit_loop fit_predict predict time_limit_exceeded train test roles
            gen.1 (bool_decide (is_Some gen.2)) 0 [] = Some cache) →
  dict_get key cache = Some records → length key = 1 →
  NoDup cache.*1
  ∧ NoDup ((λ r, name (stage_bl r)) <$> records)
  ∧ ∀ r, r ∈ records → prev_stage_bl r = None.
Proof.
  intros Hkeys Hnames Hloop Hget Hlen. simpl in Hloop.
  apply fit_loop_Some in Hloop as [k Hk].
  destruct (evaluate_all_keys _ _ _ _ _ _ _ _ Hk) as [Hperm Hndk].
  simpl in Hperm.
  assert (Hnd : NoDup (cache_keys cache)).
  { rewrite Hperm. apply omap_take_NoDup. by apply generate_keys_NoDup. }
  assert (Hwf : cache_wf (λ _, True) cache).
  { eapply evaluate_all_wf; [done| |apply cache_wf_nil|exact Hk].
    apply Forall_take, generate_shape. }
  apply dict_get_Some_elem in Hget.
  destruct Hwf as [Hndc Hwf]. destruct (Hwf _ _ Hget) as [_ Hprev].
  assert (Hrec : NoDup (record_key <$> records)).
  { apply (NoDup_bind_elem _ _ _ Hnd) in Hget. simpl in Hget.
    apply (NoDup_fmap_1 (pair key)). by rewrite <-list_fmap_compose. }
  split_and!; [done| |by intros r Hr; apply (Hprev r Hr)].
  apply (NoDup_fmap_1 (λ n, (n, @None string))).
  rewrite <-list_fmap_compose.
  erewrite list_fmap_ext; [exact Hrec|].
  intros i r Hr. simpl. unfold record_key.
  apply list_elem_of_lookup_2 in Hr. destruct (Hprev r Hr) as [_ Hnone].
  by rewrite Hnone.
Qed.

(** Among records with different names, [_get_trained_bl] finds a record
    by its name. *)
Lemma get_trained_bl_unique cache (key : MLStageFullName)
    (records : list (TrainedStageBaseLearner A Model)) r :
  dict_get key cache = Some records →
  NoDup ((λ r, name (stage_bl r)) <$> records) → r ∈ records →
  _get_trained_bl cache key (name (stage_bl r)) = Some r.
Proof.
  intros Hget Hnd Hin. unfold _get_trained_bl. rewrite Hget. simpl.
  destruct (list_find_elem_of (λ bl, name (stage_bl bl) = name (stage_bl r))
              records r Hin eq_refl) as [[i r'] Hfound].
  rewrite Hfound. simpl. f_equal.
  apply list_find_Some in Hfound as (Hi & Hname & _).
  apply list_elem_of_lookup_2 in Hi.
  by apply (NoDup_fmap_inj_on (λ r, name (stage_bl r)) records).
Qed.

Lemma select_best_Some_elem (inc : bool) (metrics : ScoreTable A) best :
  select_best inc metrics = Some best → best ∈ metrics.
Proof.
  intros Hbest. destruct metrics as [|e rest]; [done|].
  destruct (select_best_elem inc (e :: rest)) as (best' & Hbest' & Hin);
    [done|]. congruence.
Qed.

(** X12. When [fit] selects a [TLearner], from a stage dictionary in which
    the candidates of each stage have different names, the predictor it
    returns is built from the very records whose held-out predictions gave
    the selected entry its score: the entry names one [outcome_control]
    and one [outcome_treatment] record of the cache, [_best_metalearner] is
    the [TLearner] of their trained models, [_best_metalearner_wrap] holds
    their wrappers, and the score of the entry in [_metalearner_metrics] is
    the metric of their prediction difference. *)
Theorem best_tlearner_is_the_scored_one (self : Settings)
    (stage_baselearners : list (MLStageFullName * list BaseLearnerWrapper))
    (data : DataFrame A) (roles : Roles) (fitted : Fitted A Model)
    (sbls : list (MLStageFullName * string)) :
  NoDup stage_baselearners.*1 →
  (∀ key candidates,
     (key, candidates) ∈ stage_baselearners → NoDup (name <$> candidates)) →
  fit fit_predict predict calculate_uplift_auc train_test_split
      time_limit_exceeded rand self stage_baselearners data roles
  = Some fitted →
  best_candidate fitted = ("TLearner", sbls) →
  ∃ train test test_treatment test_target records_c records_t
    control treatment uplift_pred,
    _prepare_data train_test_split self data roles
    = Some (train, test, test_treatment, test_target)
    ∧ dict_get ["outcome_control"] (trained_stage_baselearners fitted)
      = Some records_c
    ∧ control ∈ records_c
    ∧ dict_get ["outcome_treatment"] (trained_stage_baselearners fitted)
      = Some records_t
    ∧ treatment ∈ records_t
    ∧ sbls = [ (["outcome_control"], name (stage_bl control));
               (["outcome_treatment"], name (stage_bl treatment)) ]
    ∧ best_metalearner fitted
      = TLearner (trained_model control) (trained_model treatment)
    ∧ best_metalearner_wrap fitted
      = {| ml_name := "__ML__TLearner"; ml_klass := "TLearner";
           ml_params := [ ("control_learner", WOne (stage_bl control));
                          ("treatment_learner", WOne (stage_bl treatment)) ] |}
    ∧ arr_sub (pred treatment) (pred control) = Some uplift_pred
    ∧ (best_candidate fitted,
       calculate_uplift_auc test_treatment uplift_pred test_target
                            (metric self) (normed_metric self))
      ∈ metalearner_metrics fitted.
Proof.
  intros Hkeys Hnames Hfit Hbest_name. unfold fit in Hfit.
  destruct (_prepare_data _ _ _ _) as [[[[train test] tt] ty]|];
    [simpl in Hfit|done].
  destruct (fit_loop _ _ _ _ _ _ _ _ _ _) as [cache|] eqn:Hloop;
    [simpl in Hfit|done].
  destruct (_calculate_ml_metric _ _ _ _ _ _ _) as [metrics|] eqn:Hm;
    [simpl in Hfit|done].
  unfold _set_best_metalearner in Hfit.
  destruct (select_best _ metrics) as [[best score]|] eqn:Hsel;
    [simpl in Hfit|done].
  destruct (_init_metalearner _ _ _) as [ml|] eqn:Hml; [simpl in Hfit|done].
  destruct (_create_metalearner_wrap _ _ _) as [ml_wrap|] eqn:Hwrap;
    [simpl in Hfit|done].
  injection Hfit as <-. simpl in *. subst best.
  apply select_best_Some_elem in Hsel.
  unfold _calculate_ml_metric, _bl_for_ml in Hm.
  destruct (existsb id (ready_metalearners cache)); [simpl in Hm|done].
  destruct (score_all_sound _ _ _ _ _ _ _ _ Hm _ Hsel)
    as [Hnil|([ml_name ml_bls] & up & Hin & Hup & Heq)];
    [by apply elem_of_nil in Hnil|].
  simpl in Hup, Heq. injection Heq as <- Hsbls Hscore.
  apply list_elem_of_join in Hin as (yielded & Hin & Hy).
  apply list_elem_of_fmap in Hy as (set_bls & -> & Hset).
  (* the two records of the assembly *)
  assert (Hstage : ∀ n, n = "outcome_control" ∨ n = "outcome_treatment" →
    ∃ records r,
      dict_get [n] cache = Some records ∧ r ∈ records
      ∧ dict_get [n] set_bls = Some r ∧ prev_stage_bl r = None
      ∧ _get_trained_bl cache [n] (name (stage_bl r)) = Some r).
  { intros n Hn.
    apply assemble_elem in Hin as (ml_stages & HMAP & Hcollect & Hlen).
    assert (ml_stages = [stage "outcome_control"; stage "outcome_treatment"])
      as ->.
    { unfold MAP_META_TO_STAGES in HMAP.
      apply elem_of_cons in HMAP as [[= <-]|HMAP]; [done|].
      by apply list_elem_of_singleton in HMAP as [= ?]. }
    destruct (collect_ml_bls_complete set_bls _
                ltac:(by eapply MAP_META_TO_STAGES_NoDup)
                ltac:(by rewrite <-Hcollect)) as [_ Hall].
    destruct (Hall (stage n)) as (r & _ & Hr);
      [destruct Hn as [-> | ->]; set_solver|].
    simpl in Hr.
    assert (Hndc : NoDup cache.*1).
    { apply fit_loop_Some in Hloop as [k Hk].
      by destruct (evaluate_all_keys _ _ _ _ _ _ _ _ Hk) as [_ Hndk];
        apply Hndk, NoDup_nil_2. }
    pose proof (chosen_from_lookup _ _ [n]
                  (combinations_chosen_from _ _ Hndc Hset)) as Hl.
    unfold MLStageFullName in *.
    destruct (dict_get [n] cache) as [records|] eqn:Hrec;
      [|by rewrite Hr in Hl].
    destruct Hl as (r' & Hr' & Hrin). rewrite Hr in Hr'.
    injection Hr' as <-.
    destruct (fit_loop_level1_records stage_baselearners train test roles
                cache [n] records Hkeys Hnames Hloop Hrec eq_refl)
      as (_ & Hnd & Hprev).
    exists records, r. split_and!; [done|done|done|by apply Hprev|].
    by eapply get_trained_bl_unique. }
  destruct (Hstage "outcome_control") as (rs_c & rc & Hc & Hcin & Hcset & Hcp & Hcget);
    [by left|].
  destruct (Hstage "outcome_treatment") as (rs_t & rt & Ht & Htin & Htset & Htp & Htget);
    [by right|].
  assert (Hbls : ml_bls = [(["outcome_control"], rc); (["outcome_treatment"], rt)]).
  { apply assemble_elem in Hin as (ml_stages & HMAP & -> & _).
    assert (ml_stages = [stage "outcome_control"; stage "outcome_treatment"])
      as ->.
    { unfold MAP_META_TO_STAGES in HMAP.
      apply elem_of_cons in HMAP as [[= <-]|HMAP]; [done|].
      by apply list_elem_of_singleton in HMAP as [= ?]. }
    unfold collect_ml_bls. cbn [foldl].
    rewrite (ml_bls_step_level1 _ _ (stage "outcome_control") rc) by done.
    rewrite (ml_bls_step_level1 _ _ (stage "outcome_treatment") rt) by done.
    done. }
  subst ml_bls.
  assert (Hsorted :
    sorted sbl_leb
      ((λ sb : MLStageFullName * TrainedStageBaseLearner A Model,
          (sb.1, name (stage_bl sb.2)))
         <$> [(["outcome_control"], rc); (["outcome_treatment"], rt)])
    = [ (["outcome_control"], name (stage_bl rc));
        (["outcome_treatment"], name (stage_bl rt)) ]) by reflexivity.
  rewrite Hsorted in Hsbls. clear Hsorted. subst sbls.
  assert (Hdc :
    dict_get ["outcome_control"]
      (dict_of_list [ (["outcome_control"], name (stage_bl rc));
                      (["outcome_treatment"], name (stage_bl rt)) ])
    = Some (name (stage_bl rc))) by reflexivity.
  assert (Hdt :
    dict_get ["outcome_treatment"]
      (dict_of_list [ (["outcome_control"], name (stage_bl rc));
                      (["outcome_treatment"], name (stage_bl rt)) ])
    = Some (name (stage_bl rt))) by reflexivity.
  unfold _init_metalearner, chosen_bl in Hml.
  unfold _create_metalearner_wrap, chosen_bl in Hwrap.
  cbn [fst snd] in Hml, Hwrap.
  rewrite decide_True in Hml by done. rewrite decide_True in Hwrap by done.
  unfold MLStageFullName in *.
  rewrite Hdc, Hdt in Hml. rewrite Hdc, Hdt in Hwrap.
  cbn [mbind option_bind] in Hml, Hwrap.
  rewrite Hcget, Htget in Hml. rewrite Hcget, Htget in Hwrap.
  simpl in Hml, Hwrap.
  injection Hml as <-. injection Hwrap as <-.
  unfold _metalearner_predict in Hup. rewrite decide_True in Hup by done.
  change (dict_get ["outcome_control"]
            [(["outcome_control"], rc); (["outcome_treatment"], rt)])
    with (Some rc) in Hup.
  change (dict_get ["outcome_treatment"]
            [(["outcome_control"], rc); (["outcome_treatment"], rt)])
    with (Some rt) in Hup.
  simpl in Hup.
  exists train, test, tt, ty, rs_c, rs_t, rc, rt, up.
  split_and!; try done. by rewrite <-Hscore.
Qed.
End SelectedFacts.

(* ===================================================================== *)
(** * Default candidates *)
(* ===================================================================== *)

Lemma all_stages_full_names_eq :
  all_stages_full_names
  = [ ["outcome_control"]; ["outcome_treatment"]; ["propensity"];
      ["outcome_treatment"; "effect_control"];
      ["outcome_control"; "effect_treatment"] ].
Proof. reflexivity. Qed.

Lemma all_stages_extract (key : MLStageFullName) :
  key ∈ all_stages_full_names →
  ∃ stage,
    _extract_stage key = Some stage
    ∧ (is_Some (dict_get "task" (stage_params stage)) →
       is_Some (task_name (default ANone
                             (dict_get "task" (stage_params stage))))).
Proof.
  rewrite all_stages_full_names_eq. intros Hin.
  repeat (apply elem_of_cons in Hin as [->|Hin];
          [eexists; split; [reflexivity|]; simpl;
           first [by intros [? ?]|by eexists]|]).
  by apply elem_of_nil in Hin.
Qed.

Lemma classify_default_learners (a : Atom) :
  foldlM classify_baselearner ([], [], [])
         (__default_learners [] [("timeout", a)])
  = Some ([], [], __default_learners [] [("timeout", a)]).
Proof. reflexivity. Qed.

(** A missing stage gets the two default candidates with its task. *)
Lemma fill_stage_default (self : AutoUpliftTX) (b : string) (τ : option Z)
    (acc : list (MLStageFullName * list BaseLearnerWrapper))
    (key : MLStageFullName) :
  base_task self = ATask b → key ∈ all_stages_full_names →
  fill_stage self [] (__default_learners [] [("timeout", opt_atom τ)]) acc key
  = Some (dict_set key
            (default_candidates τ (task_of_stage (base_task self) key)) acc).
Proof.
  intros Hb Hkey. destruct (all_stages_extract key Hkey) as (stage & Hst & Htask).
  unfold fill_stage, task_of_stage. rewrite Hst. simpl.
  assert (Hn : is_Some (task_name
                  (default (base_task self)
                           (dict_get "task" (stage_params stage))))).
  { destruct (dict_get "task" (stage_params stage)) as [t|] eqn:Ht; simpl.
    - by apply Htask.
    - rewrite Hb. by eexists. }
  destruct Hn as [n ->]. simpl. rewrite ?app_nil_r.
  by repeat case_decide.
Qed.

Lemma fill_stages_default (self : AutoUpliftTX) (b : string) (τ : option Z)
    (acc : list (MLStageFullName * list BaseLearnerWrapper))
    (keys : list MLStageFullName) :
  base_task self = ATask b →
  Forall (λ key, key ∈ all_stages_full_names) keys →
  NoDup (acc.*1 ++ keys) →
  foldlM (fill_stage self []
            (__default_learners [] [("timeout", opt_atom τ)])) acc keys
  = Some (acc ++ ((λ key, (key, default_candidates τ
                                  (task_of_stage (base_task self) key)))
                    <$> keys)).
Proof.
  intros Hb Hkeys. revert acc.
  induction Hkeys as [|key keys Hkey _ IH]; intros acc Hnd; simpl.
  - by rewrite app_nil_r.
  - rewrite (fill_stage_default self b) by done. simpl.
    rewrite dict_set_fresh.
    + rewrite IH; [by rewrite <-app_assoc|].
      rewrite fmap_app. simpl. by rewrite <-app_assoc.
    + apply NoDup_app in Hnd as (_ & Hdisj & _).
      intros Hin. apply (Hdisj _ Hin). by left.
Qed.

Section DefaultCandidates.
Variable set_order : list MLStageFullName → list MLStageFullName.

(** The iteration over a set reaches each of its elements once. *)
Hypothesis set_order_Permutation : ∀ l, set_order l ≡ₚ l.

(** X13. [_set_stage_baselearners] on a dictionary: a dictionary with as
    many entries as there are stages, five, is returned as it is, without
    a look at its keys. Any other dictionary keeps its entries, in their
    order, and gets one more entry for every stage name that is not a key,
    in the order of the iteration over the set of missing names, each with
    the two default candidates [__Linear__] and [__Tabular__] whose task
    is the stage's own task or, for a stage without one, the base task;
    the timeout of [__Tabular__] is that of
    [_calculate_single_bl_timeout]. *)
Theorem set_stage_baselearners_fills_missing (self : AutoUpliftTX)
    (d : list (MLStageFullName * list BaseLearnerWrapper)) (b : string) :
  baselearners self = StageBaselearners d →
  NoDup d.*1 →
  base_task self = ATask b →
  (length d = 5 → _set_stage_baselearners set_order self = Some d)
  ∧ (length d ≠ 5 →
     ∀ τ, _calculate_single_bl_timeout self (bool_decide (0 < length d))
          = Some τ →
       ∃ missing,
         missing ≡ₚ filter (λ fn, fn ∉ d.*1) all_stages_full_names
         ∧ _set_stage_baselearners set_order self
           = Some (d ++ ((λ key, (key, default_candidates τ
                                         (task_of_stage (base_task self) key)))
                           <$> missing))).
Proof.
  intros Hd Hnd Hb. unfold _set_stage_baselearners. rewrite Hd.
  rewrite all_stages_full_names_eq. cbn [length].
  split; intros Hlen.
  - by rewrite decide_False by lia.
  - intros τ Hτ. rewrite decide_True by done. rewrite Hτ.
    cbn [mbind option_bind]. cbv zeta.
    rewrite <-all_stages_full_names_eq.
    set (remain := filter (λ fn, fn ∉ d.*1) all_stages_full_names).
    exists (set_order remain). split; [apply set_order_Permutation|].
    rewrite (classify_default_learners (opt_atom τ)).
    cbn [mbind option_bind].
    apply (fill_stages_default self b); [done| |].
    + apply Forall_forall. intros key Hkey.
      rewrite set_order_Permutation in Hkey.
      by apply list_elem_of_filter in Hkey as [_ ?].
    + rewrite set_order_Permutation. apply NoDup_app. split_and!; [done| |].
      * intros key Hin Hkey. by apply list_elem_of_filter in Hkey as [? _].
      * apply NoDup_filter. rewrite all_stages_full_names_eq.
        apply (bool_decide_unpack _). vm_compute. exact I.
Qed.

(** X14. Without a dictionary, [_set_stage_baselearners] returns the
    default candidates for all five stages: a list passed as
    [baselearners] is copied and then dropped, the result is the same as
    for [None]. Every stage gets [__Linear__] and [__Tabular__] with the
    task of the stage, and the keys are the five stage names in the order
    of the set iteration. *)
Theorem set_stage_baselearners_ignores_list (self : AutoUpliftTX)
    (b : string) (τ : option Z) :
  (baselearners self = NoBaselearners
   ∨ ∃ l, baselearners self = ListOfBaselearners l) →
  base_task self = ATask b →
  _calculate_single_bl_timeout self false = Some τ →
  ∃ order,
    order ≡ₚ all_stages_full_names
    ∧ _set_stage_baselearners set_order self
      = Some ((λ key, (key, default_candidates τ
                              (task_of_stage (base_task self) key)))
                <$> order).
Proof.
  intros Harg Hb Hτ. unfold _set_stage_baselearners.
  assert (Hd : match baselearners self with
               | StageBaselearners d => d
               | _ => []
               end = []) by (by destruct Harg as [->|[l ->]]).
  rewrite Hd. rewrite decide_True by (by rewrite all_stages_full_names_eq).
  cbn [length]. rewrite bool_decide_eq_false_2 by lia. rewrite Hτ.
  cbn [mbind option_bind fmap list_fmap]. cbv zeta.
  exists (set_order all_stages_full_names).
  split; [apply set_order_Permutation|].
  rewrite (classify_default_learners (opt_atom τ)).
  cbn [mbind option_bind].
  assert (Hfilter : filter (λ fn : MLStageFullName, fn ∉ ([] : list MLStageFullName))
                           all_stages_full_names = all_stages_full_names).
  { vm_compute. reflexivity. }
  rewrite Hfilter.
  rewrite (fill_stages_default self b τ []); [done|done| |].
  - apply Forall_forall. intros key Hkey.
    by rewrite set_order_Permutation in Hkey.
  - simpl. rewrite set_order_Permutation, all_stages_full_names_eq.
    apply (bool_decide_unpack _). vm_compute. exact I.
Qed.
End DefaultCandidates.


Lemma default_stage_baselearners_keys (τ : option Z) (base : Atom)
    (order : list MLStageFullName) :
  (default_stage_baselearners τ base order).*1 = order.
Proof.
  unfold default_stage_baselearners. rewrite <-list_fmap_compose.
  apply list_fmap_id.
Qed.

Lemma default_stage_baselearners_known (τ : option Z) (base : Atom)
    (order : list MLStageFullName) (key : MLStageFullName) :
  order ≡ₚ all_stages_full_names →
  key ∈ (default_stage_baselearners τ base order).*1 →
  is_Some (_extract_stage key).
Proof.
  intros Hperm. rewrite default_stage_baselearners_keys, Hperm.
  intros Hkey. destruct (all_stages_extract key Hkey) as (stage & -> & _).
  by eexists.
Qed.

Lemma default_stage_baselearners_length (τ : option Z) (base : Atom)
    (order : list MLStageFullName) (key : MLStageFullName)
    (candidates : list BaseLearnerWrapper) :
  (key, candidates) ∈ default_stage_baselearners τ base order →
  length candidates = 2.
Proof.
  unfold default_stage_baselearners. intros Hin.
  by apply list_elem_of_fmap in Hin as (key' & [= -> ->] & _).
Qed.

(** With the default candidates a run has 14 submissions, in whatever
    order the stages are. *)
Lemma default_all_submissions_length (τ : option Z) (base : Atom)
    (order : list MLStageFullName) :
  order ≡ₚ all_stages_full_names →
  length (all_submissions (default_stage_baselearners τ base order)) = 14.
Proof.
  intros Hperm. symmetry in Hperm. apply permutations_Permutation in Hperm.
  revert order Hperm. apply Forall_forall.
  apply (bool_decide_unpack _). vm_compute. exact I.
Qed.

Section DefaultRun.
Context {A : Type} `{Numeric A} {Model : Type}.
Variable fit_predict : BaseLearnerWrapper → DataFrame A → Roles → Model.
Variable predict : Model → DataFrame A → list A.
Variable time_limit_exceeded : nat → bool.
Variable rand : nat → nat.
Variable set_order : list MLStageFullName → list MLStageFullName.
Hypothesis set_order_Permutation : ∀ l, set_order l ≡ₚ l.

(** X16. Without a dictionary of baselearners, [fit] runs on the default
    candidates of [_set_stage_baselearners]: whatever the order of the set
    iteration and the draws of [np.random], the generator ends normally
    after 14 submissions (two candidates for each of the three first-level
    stages, and two for each second-level stage after each of the two
    candidates of the stage it follows), and on a frame with the treatment
    and the target column the training loop raises no exception. *)
Theorem default_candidates_run (self : AutoUpliftTX) (b : string)
    (τ : option Z) (train test : DataFrame A) (roles : Roles)
    (treatment_col target_col : string) :
  (baselearners self = NoBaselearners
   ∨ ∃ l, baselearners self = ListOfBaselearners l) →
  base_task self = ATask b →
  _calculate_single_bl_timeout self false = Some τ →
  roles !! "treatment" = Some treatment_col →
  roles !! "target" = Some target_col →
  treatment_col ≠ target_col →
  Forall (λ row : gmap string A,
            is_Some (row !! treatment_col) ∧ is_Some (row !! target_col))
         train →
  (∀ m df, length (predict m df) = length df) →
  ∃ stage_baselearners,
    _set_stage_baselearners set_order self = Some stage_baselearners
    ∧ let gen :=
        _generate_stage_baselearner_candidates rand stage_baselearners in
      is_Some gen.2
      ∧ length gen.1 = 14
      ∧ is_Some (fit_loop fit_predict predict time_limit_exceeded
                          train test roles gen.1
                          (bool_decide (is_Some gen.2)) 0 []).
Proof.
  intros Harg Hb Hτ Htr Hta Hne Hcols Hpred.
  destruct (set_stage_baselearners_ignores_list set_order
              set_order_Permutation self b τ Harg Hb Hτ)
    as (order & Hperm & Hset).
  fold (default_stage_baselearners τ (base_task self) order) in Hset.
  exists (default_stage_baselearners τ (base_task self) order).
  split; [done|].
  destruct (train_all_submissions fit_predict predict rand
              (default_stage_baselearners τ (base_task self) order)
              train test roles treatment_col target_col 2
              Htr Hta Hne Hcols Hpred)
    as (Hend & Hall & cache & Hcache & _ & _).
  - intros key Hkey _. by eapply default_stage_baselearners_known.
  - intros key candidates Hin _.
    by eapply default_stage_baselearners_length.
  - cbv zeta. split_and!.
    + by apply bool_decide_eq_true_1 in Hend.
    + rewrite Hall. by apply default_all_submissions_length.
    + rewrite Hend. apply fit_loop_of_all. by rewrite Hcache.
Qed.
End DefaultRun.

(* ===================================================================== *)
(** * [AutoUplift]: the greedy search *)
(* ===================================================================== *)

Lemma candidates_evaluated_le (tle : nat → bool) (idx n : nat) :
  candidates_evaluated tle idx n ≤ n.
Proof.
  revert idx. induction n as [|n IH]; intros idx; simpl; [lia|].
  destruct (tle (S idx)); [lia|]. specialize (IH (S idx)). lia.
Qed.

Lemma candidates_evaluated_spec (tle : nat → bool) (idx n : nat) :
  let k := candidates_evaluated tle idx n in
  (0 < n → 0 < k)
  ∧ (∀ i, 0 < i < k → tle (idx + i) = false)
  ∧ (k < n → tle (idx + k) = true).
Proof.
  revert idx. induction n as [|n IH]; intros idx; simpl; [split_and!; lia|].
  destruct (tle (S idx)) eqn:Hlimit.
  - split_and!; [lia|lia|]. intros _. by rewrite Nat.add_1_r.
  - destruct (IH (S idx)) as (_ & Hno & Hyes). split_and!; [lia| |].
    + intros i Hi. destruct (decide (i = 1)) as [->|Hne].
      * by rewrite Nat.add_1_r.
      * replace (idx + i) with (S idx + (i - 1)) by lia. apply Hno. lia.
    + intros Hk. replace (idx + S _) with (S idx + candidates_evaluated tle (S idx) n)
        by lia.
      apply Hyes. lia.
Qed.

Section GreedyFacts.
Context {A : Type} `{Numeric A} {Candidate Model : Type}.
Variable fit_candidate : Candidate → DataFrame A → Roles → Model.
Variable predict_uplift : Model → DataFrame A → list A.
Variable calculate_uplift_auc :
  list A → list A → list A → string → bool → A.
Variable train_test_split :
  DataFrame A → list A → nat → DataFrame A * DataFrame A.
Variable time_limit_exceeded : nat → bool.
Variable self : Settings.
Variable train_data test_data : DataFrame A.
Variable roles : Roles.
Variable test_treatment test_target : list A.

Local Abbreviation score :=
  (AutoUplift.candidate_metric fit_candidate predict_uplift
     calculate_uplift_auc self train_data test_data roles
     test_treatment test_target).

Local Abbreviation step :=
  (AutoUplift.evaluate_candidate fit_candidate predict_uplift
     calculate_uplift_auc self train_data test_data roles
     test_treatment test_target).

Local Abbreviation run :=
  (AutoUplift.search fit_candidate predict_uplift
     calculate_uplift_auc time_limit_exceeded self train_data
     test_data roles test_treatment test_target).

(** The loop evaluates the first candidates, up to the first check of the
    timer that reports the budget as exceeded. *)
Lemma search_prefix (uplift_candidates : list Candidate) (idx : nat)
    (s : AutoUplift.SearchState) :
  run uplift_candidates idx s
  = foldl (λ s ic, step ic.1 ic.2 s) s
          (zip (seq idx (length uplift_candidates))
               (take (candidates_evaluated time_limit_exceeded idx
                        (length uplift_candidates))
                     uplift_candidates)).
Proof.
  revert idx s. induction uplift_candidates as [|c rest IH]; intros idx s;
    simpl; [done|].
  destruct (time_limit_exceeded (S idx)); simpl.
  - by rewrite ?take_0, ?zip_with_nil_r.
  - by rewrite IH.
Qed.

Lemma step_holdout (idx : nat) (c : Candidate) (s : AutoUplift.SearchState) :
  AutoUplift.candidate_holdout_metrics (step idx c s)
  = <[idx := Some (score c)]> (AutoUplift.candidate_holdout_metrics s).
Proof.
  unfold AutoUplift.evaluate_candidate, AutoUplift.candidate_metric.
  destruct (AutoUplift.best_metalearner_candidate_info s); [|done].
  by destruct (num_ltb _ _).
Qed.

Lemma fold_holdout (evaluated : list Candidate) (done : list (option A))
    (rest : list (option A)) (s : AutoUplift.SearchState) (n : nat) :
  AutoUplift.candidate_holdout_metrics s
  = done ++ replicate (length evaluated) None ++ rest →
  length evaluated ≤ n →
  AutoUplift.candidate_holdout_metrics
    (foldl (λ s ic, step ic.1 ic.2 s) s
           (zip (seq (length done) n) evaluated))
  = done ++ (Some ∘ score <$> evaluated) ++ rest.
Proof.
  revert done s n. induction evaluated as [|c evaluated IH];
    intros done s n Hs Hn; simpl in *.
  - by rewrite zip_with_nil_r.
  - destruct n as [|n]; [lia|]. simpl.
    specialize (IH (done ++ [Some (score c)]) (step (length done) c s) n).
    rewrite length_app, Nat.add_1_r, <-!app_assoc in IH. simpl in IH.
    apply IH; [|lia]. rewrite step_holdout, Hs.
    by rewrite insert_middle.
Qed.

Lemma step_best (idx : nat) (c : Candidate) (s : AutoUplift.SearchState) :
  let s' := step idx c s in
  match AutoUplift.best_metalearner_candidate_info s with
  | None =>
      AutoUplift.best_metalearner_candidate_info s' = Some c
      ∧ AutoUplift.best_metalearner s'
        = Some (fit_candidate c train_data roles)
      ∧ AutoUplift.max_metric_value s' = AutoUplift.max_metric_value s
  | Some _ =>
      if num_ltb (AutoUplift.max_metric_value s) (score c) then
        AutoUplift.best_metalearner_candidate_info s' = Some c
        ∧ AutoUplift.best_metalearner s'
          = Some (fit_candidate c train_data roles)
        ∧ AutoUplift.max_metric_value s' = score c
      else
        AutoUplift.best_metalearner_candidate_info s'
        = AutoUplift.best_metalearner_candidate_info s
        ∧ AutoUplift.best_metalearner s' = AutoUplift.best_metalearner s
        ∧ AutoUplift.max_metric_value s' = AutoUplift.max_metric_value s
  end.
Proof.
  unfold AutoUplift.evaluate_candidate, AutoUplift.candidate_metric. simpl.
  destruct (AutoUplift.best_metalearner_candidate_info s); [|done].
  by destruct (num_ltb _ _).
Qed.

(** X17. [AutoUplift.fit] evaluates the candidates in their order and
    stops after the first one at which the timer reports the budget as
    exceeded: [candidate_holdout_metrics] has one entry per candidate, the
    metric of the candidate for those evaluated and [None] for the others,
    and at least one candidate is evaluated whatever the budget. The
    metric is [calculate_uplift_auc] of the test target, the candidate's
    uplift prediction on the test part and the test treatment. *)
Theorem autouplift_holdout_metrics (uplift_candidates : list Candidate)
    (data : DataFrame A) (s : AutoUplift.SearchState) :
  _prepare_data train_test_split self data roles
  = Some (train_data, test_data, test_treatment, test_target) →
  AutoUplift.fit fit_candidate predict_uplift calculate_uplift_auc
                 train_test_split time_limit_exceeded self
                 uplift_candidates data roles
  = Some s →
  let k := candidates_evaluated time_limit_exceeded 0
             (length uplift_candidates) in
  AutoUplift.candidate_holdout_metrics s
  = (Some ∘ score <$> take k uplift_candidates)
    ++ replicate (length uplift_candidates - k) None
  ∧ k ≤ length uplift_candidates
  ∧ (uplift_candidates ≠ [] → 0 < k)
  ∧ (∀ i, 0 < i < k → time_limit_exceeded i = false)
  ∧ (k < length uplift_candidates → time_limit_exceeded k = true).
Proof.
  intros Hprep Hfit k. unfold AutoUplift.fit in Hfit. rewrite Hprep in Hfit.
  simpl in Hfit. injection Hfit as <-.
  pose proof (candidates_evaluated_le time_limit_exceeded 0
                (length uplift_candidates)) as Hle. fold k in Hle.
  destruct (candidates_evaluated_spec time_limit_exceeded 0
              (length uplift_candidates)) as (Hpos & Hno & Hyes).
  fold k in Hpos, Hno, Hyes. split_and!; [|done| |done|done].
  - rewrite search_prefix. fold k.
    pose proof (fold_holdout (take k uplift_candidates) []
                  (replicate (length uplift_candidates - k) None)) as Hfold.
    simpl in Hfold. rewrite <-(app_nil_r (_ ++ _)), <-app_assoc.
    rewrite app_nil_r. apply Hfold; [|rewrite length_take; lia].
    simpl. rewrite length_take, <-replicate_add. f_equal. lia.
  - intros Hne. apply Hpos. destruct uplift_candidates; simpl; [done|lia].
Qed.

Section GreedyChoice.
Hypothesis ltb_trans : ∀ x y z : A,
  num_ltb x y = true → num_ltb y z = true → num_ltb x z = true.
Hypothesis ltb_cotrans : ∀ x y z : A,
  num_ltb x z = true → num_ltb x y = true ∨ num_ltb y z = true.

Lemma fold_choice (first : Candidate) (todo done : list Candidate)
    (idxs : list nat) (s : AutoUplift.SearchState) (best : Candidate) :
  length todo ≤ length idxs →
  AutoUplift.best_metalearner_candidate_info s = Some best →
  AutoUplift.best_metalearner s = Some (fit_candidate best train_data roles) →
  greedy_choice score first done best (AutoUplift.max_metric_value s) →
  let s' := foldl (λ s ic, step ic.1 ic.2 s) s (zip idxs todo) in
  ∃ best',
    AutoUplift.best_metalearner_candidate_info s' = Some best'
    ∧ AutoUplift.best_metalearner s'
      = Some (fit_candidate best' train_data roles)
    ∧ greedy_choice score first (done ++ todo) best'
                    (AutoUplift.max_metric_value s').
Proof.
  revert done idxs s best.
  induction todo as [|c todo IH]; intros done idxs s best Hlen Hinfo Hml Hinv;
    simpl.
  - rewrite zip_with_nil_r, app_nil_r. simpl. by exists best.
  - destruct idxs as [|idx idxs]; simpl in Hlen; [lia|]. simpl.
    pose proof (step_best idx c s) as Hstep. simpl in Hstep.
    rewrite Hinfo in Hstep.
    replace (done ++ c :: todo) with ((done ++ [c]) ++ todo)
      by (by rewrite <-app_assoc).
    destruct (num_ltb (AutoUplift.max_metric_value s) (score c)) eqn:Hlt;
      destruct Hstep as (Hinfo' & Hml' & Hmax').
    + apply (IH _ _ _ c); [lia|done|done|]. rewrite Hmax'. right.
      destruct Hinv as [(Hall & -> & Hzero)|
                        (pre & post & -> & Hmax & Hpos & Hpre & Hpost)].
      * exists done, []. rewrite Hzero in Hlt. split_and!; [done..| |].
        -- intros x Hx. rewrite Forall_forall in Hall.
           destruct (ltb_cotrans _ (score x) _ Hlt) as [Hc|Hc]; [|done].
           by rewrite (Hall x Hx) in Hc.
        -- intros x Hx. by apply elem_of_nil in Hx.
      * exists (pre ++ best :: post), []. rewrite Hmax in Hlt.
        split_and!; [done|done|by eapply ltb_trans| |].
        -- intros x Hx. apply elem_of_app in Hx as [Hx|Hx].
           ++ eapply ltb_trans; [by apply Hpre|done].
           ++ apply elem_of_cons in Hx as [->|Hx]; [done|].
              destruct (ltb_cotrans _ (score x) _ Hlt) as [Hc|Hc]; [|done].
              by rewrite (Hpost x Hx) in Hc.
        -- intros x Hx. by apply elem_of_nil in Hx.
    + apply (IH _ _ _ best); [lia|congruence|congruence|]. rewrite Hmax'.
      destruct Hinv as [(Hall & -> & Hzero)|
                        (pre & post & -> & Hmax & Hpos & Hpre & Hpost)].
      * left. split_and!; [|done|done]. apply Forall_app. split; [done|].
        apply Forall_singleton. by rewrite <-Hzero.
      * right. exists pre, (post ++ [c]).
        split_and!; [by rewrite <-app_assoc|done|done|done|].
        intros x Hx. apply elem_of_app in Hx as [Hx|Hx]; [by apply Hpost|].
        apply list_elem_of_singleton in Hx as ->. by rewrite <-Hmax.
Qed.

(** X18. The candidate [AutoUplift.fit] selects, on metrics whose [<] is a
    strict weak order: with [first :: rest] the candidates evaluated, it is
    [first] as long as no candidate of [rest] has a metric above [0.0],
    whatever the metric of [first], which is never compared; otherwise it
    is the candidate of [rest] with the highest metric, the earliest one
    when several have it. [best_metalearner] is the fitted metalearner of
    the selected candidate. [increasing_metric] is not read. *)
Theorem autouplift_selects (uplift_candidates : list Candidate)
    (data : DataFrame A) (s : AutoUplift.SearchState) :
  _prepare_data train_test_split self data roles
  = Some (train_data, test_data, test_treatment, test_target) →
  AutoUplift.fit fit_candidate predict_uplift calculate_uplift_auc
                 train_test_split time_limit_exceeded self
                 uplift_candidates data roles
  = Some s →
  match take (candidates_evaluated time_limit_exceeded 0
                (length uplift_candidates)) uplift_candidates with
  | [] =>
      AutoUplift.best_metalearner_candidate_info s = None
      ∧ AutoUplift.best_metalearner s = None
  | first :: rest =>
      ∃ best,
        AutoUplift.best_metalearner_candidate_info s = Some best
        ∧ AutoUplift.best_metalearner s
          = Some (fit_candidate best train_data roles)
        ∧ ((Forall (λ c, num_ltb (num_of_Z 0) (score c) = false) rest
            ∧ best = first)
           ∨ ∃ pre post,
               rest = pre ++ best :: post
               ∧ num_ltb (num_of_Z 0) (score best) = true
               ∧ (∀ x, x ∈ pre → num_ltb (score x) (score best) = true)
               ∧ (∀ x, x ∈ post → num_ltb (score best) (score x) = false))
  end.
Proof.
  intros Hprep Hfit. unfold AutoUplift.fit in Hfit. rewrite Hprep in Hfit.
  simpl in Hfit. injection Hfit as <-. rewrite search_prefix.
  destruct (take _ uplift_candidates) as [|first rest] eqn:Htake.
  - by rewrite zip_with_nil_r.
  - assert (Hlen : length (first :: rest) ≤ length uplift_candidates).
    { rewrite <-Htake, length_take. lia. }
    destruct uplift_candidates as [|c0 cs]; [done|].
    cbn [length seq zip_with foldl fst snd]. cbn [length] in Hlen.
    set (s0 := {| AutoUplift.candidate_holdout_metrics :=
                    replicate (S (length cs)) None;
                  AutoUplift.best_metalearner := None;
                  AutoUplift.best_metalearner_candidate_info := None;
                  AutoUplift.max_metric_value := num_of_Z 0 |}).
    pose proof (step_best 0 first s0) as (Hinfo & Hml & Hmax).
    destruct (fold_choice first rest [] (seq 1 (length cs)) (step 0 first s0)
                first)
      as (best & Hinfo' & Hml' & Hchoice);
      [|exact Hinfo|exact Hml| |].
    + rewrite length_seq. lia.
    + left. rewrite Hmax. by split_and!.
    + exists best. split_and!; [exact Hinfo'|exact Hml'|].
      change ([] ++ rest) with rest in Hchoice.
      destruct Hchoice as [(Hall & -> & _)|(pre & post & Heq & _ & Hrest)].
      * by left.
      * right. by exists pre, post.
Qed.
End GreedyChoice.
End GreedyFacts.

(* ===================================================================== *)
(** * Instantiation of wrappers *)
(* ===================================================================== *)

Lemma PyValue_nested_ind (P : PyValue → Prop) :
  (∀ a, P (VAtom a)) →
  (∀ n k ps, Forall (λ kv : string * PyValue, P kv.2) ps →
             P (VWrapper n k ps)) →
  (∀ xs, Forall P xs → P (VList xs)) →
  (∀ kvs, Forall (λ kv : string * PyValue, P kv.2) kvs → P (VDict kvs)) →
  (∀ xs, Forall P xs → P (VTuple xs)) →
  (∀ k kvs, Forall (λ kv : string * PyValue, P kv.2) kvs →
            P (VObject k kvs)) →
  ∀ x, P x.
Proof.
  intros Hatom Hwrapper Hlist Hdict Htuple Hobject.
  fix IH 1. intros [a|n k ps|xs|kvs|xs|k kvs].
  - apply Hatom.
  - apply Hwrapper. induction ps as [|[k' v] ps IHps]; constructor;
      [apply IH|apply IHps].
  - apply Hlist. induction xs as [|x xs IHxs]; constructor;
      [apply IH|apply IHxs].
  - apply Hdict. induction kvs as [|[k' v] kvs IHkvs]; constructor;
      [apply IH|apply IHkvs].
  - apply Htuple. induction xs as [|x xs IHxs]; constructor;
      [apply IH|apply IHxs].
  - apply Hobject. induction kvs as [|[k' v] kvs IHkvs]; constructor;
      [apply IH|apply IHkvs].
Qed.

Lemma init_wrapper (n k : string) (ps : list (string * PyValue)) :
  _init (VWrapper n k ps) = VObject k ((λ kv, (kv.1, _init kv.2)) <$> ps).
Proof.
  simpl. f_equal. induction ps as [|[k' v] ps IH]; [done|].
  csimpl. by rewrite IH.
Qed.

Lemma init_list (xs : list PyValue) : _init (VList xs) = VList (_init <$> xs).
Proof.
  simpl. f_equal.
Qed.

Lemma init_dict (kvs : list (string * PyValue)) :
  _init (VDict kvs) = VDict ((λ kv, (kv.1, _init kv.2)) <$> kvs).
Proof.
  simpl. f_equal. induction kvs as [|[k' v] kvs IH]; [done|].
  csimpl. by rewrite IH.
Qed.

Lemma wrapper_free_elems (xs : list PyValue) :
  wrapper_free (VList xs) = forallb wrapper_free xs
  ∧ wrapper_free (VTuple xs) = forallb wrapper_free xs.
Proof.
  simpl. split; induction xs as [|x xs IH]; simpl; by rewrite ?IH.
Qed.

Lemma wrapper_free_items (k : string) (kvs : list (string * PyValue)) :
  wrapper_free (VDict kvs) = forallb (λ kv, wrapper_free kv.2) kvs
  ∧ wrapper_free (VObject k kvs) = forallb (λ kv, wrapper_free kv.2) kvs.
Proof.
  simpl. split; induction kvs as [|[k' v] kvs IH]; simpl; by rewrite ?IH.
Qed.

Lemma reachable_items (n k : string) (kvs : list (string * PyValue)) :
  reachable_wrappers (VWrapper n k kvs)
  = forallb (λ kv, reachable_wrappers kv.2) kvs
  ∧ reachable_wrappers (VDict kvs)
    = forallb (λ kv, reachable_wrappers kv.2) kvs.
Proof.
  simpl. split; induction kvs as [|[k' v] kvs IH]; simpl; by rewrite ?IH.
Qed.

Lemma reachable_elems (xs : list PyValue) :
  reachable_wrappers (VList xs) = forallb reachable_wrappers xs.
Proof. simpl. induction xs as [|x xs IH]; simpl; by rewrite ?IH. Qed.

(** A value without wrappers is initialised to itself. *)
Lemma init_wrapper_free (x : PyValue) : wrapper_free x = true → _init x = x.
Proof.
  induction x as [a|n k ps _|xs IH|kvs IH|xs _|k kvs _]
    using PyValue_nested_ind; try done.
  - rewrite (proj1 (wrapper_free_elems xs)), init_list. intros Hfree.
    f_equal. induction IH as [|x xs Hx _ IHxs]; [done|]. simpl in Hfree.
    apply andb_prop in Hfree as [Hfx Hfxs]. csimpl.
    by rewrite (Hx Hfx), (IHxs Hfxs).
  - rewrite (proj1 (wrapper_free_items "" kvs)), init_dict. intros Hfree.
    f_equal. induction IH as [|[k' v] kvs Hv _ IHkvs]; [done|].
    simpl in Hfree, Hv. apply andb_prop in Hfree as [Hfv Hfkvs]. csimpl.
    by rewrite (Hv Hfv), (IHkvs Hfkvs).
Qed.

(** Initialisation reaches every wrapper held in parameters, lists and
    dictionaries. *)
Lemma init_reachable (x : PyValue) :
  reachable_wrappers x = true → wrapper_free (_init x) = true.
Proof.
  induction x as [a|n k ps IH|xs IH|kvs IH|xs _|k kvs _]
    using PyValue_nested_ind; try done.
  - rewrite (proj1 (reachable_items n k ps)), init_wrapper.
    rewrite (proj2 (wrapper_free_items k _)). intros Hreach.
    rewrite forallb_forall. intros kv Hkv%list_elem_of_In.
    apply list_elem_of_fmap in Hkv as ([k' v] & -> & Hin). simpl.
    rewrite forallb_forall in Hreach.
    apply (proj1 (Forall_forall _ _) IH _ Hin).
    by apply (Hreach (k', v)), list_elem_of_In.
  - rewrite reachable_elems, init_list.
    rewrite (proj1 (wrapper_free_elems _)). intros Hreach.
    rewrite forallb_forall. intros y Hy%list_elem_of_In.
    apply list_elem_of_fmap in Hy as (x & -> & Hin).
    rewrite forallb_forall in Hreach.
    apply (proj1 (Forall_forall _ _) IH _ Hin).
    by apply Hreach, list_elem_of_In.
  - rewrite (proj2 (reachable_items "" "" kvs)), init_dict.
    rewrite (proj1 (wrapper_free_items "" _)). intros Hreach.
    rewrite forallb_forall. intros kv Hkv%list_elem_of_In.
    apply list_elem_of_fmap in Hkv as ([k' v] & -> & Hin). simpl.
    rewrite forallb_forall in Hreach.
    apply (proj1 (Forall_forall _ _) IH _ Hin).
    by apply (Hreach (k', v)), list_elem_of_In.
Qed.

(** X19. [Wrapper.__call__] hands to [klass] one keyword argument for
    every parameter, under the same key and in the same order, and not the
    name of the wrapper. Every wrapper held in a parameter, directly or
    inside lists and dictionaries at any depth, is replaced by the object
    its own call builds: if no tuple and no built object holds a wrapper,
    none is left in the result. A parameter without wrappers is passed as
    it is, and so is a tuple or an object even when it holds wrappers:
    these are not looked into. *)
Theorem wrapper_call_instantiates (n k : string)
    (ps : list (string * PyValue)) :
  ∃ kwargs,
    Wrapper_call n k ps = VObject k kwargs
    ∧ _init (VWrapper n k ps) = VObject k kwargs
    ∧ kwargs.*1 = ps.*1
    ∧ (reachable_wrappers (VWrapper n k ps) = true →
       wrapper_free (VObject k kwargs) = true)
    ∧ ∀ key v, (key, v) ∈ ps →
        wrapper_free v = true ∨ (∃ xs, v = VTuple xs)
        ∨ (∃ k' kwargs', v = VObject k' kwargs') →
        (key, v) ∈ kwargs.
Proof.
  exists ((λ kv, (kv.1, _init kv.2)) <$> ps).
  split_and!; [done|apply init_wrapper| | |].
  - rewrite <-list_fmap_compose. by apply list_fmap_ext.
  - intros Hreach. rewrite <-(init_wrapper n). by apply init_reachable.
  - intros key v Hin Hv. apply list_elem_of_fmap. exists (key, v).
    split; [|done]. simpl. f_equal.
    destruct Hv as [Hfree|[[xs ->]|(k' & kwargs' & ->)]]; [|done|done].
    by rewrite init_wrapper_free.
Qed.

(* ===================================================================== *)
(** * [create_best_metalearner] leaves the stored wrapper alone *)
(* ===================================================================== *)

Lemma mapM_st_invariant {S X Y : Type} (f : X → S → option (Y * S))
    (I : S → Prop) (Q : Y → Prop) (xs : list X) (s : S) ys s' :
  (∀ x s y s', x ∈ xs → f x s = Some (y, s') → I s → I s' ∧ Q y) →
  mapM_st f xs s = Some (ys, s') → I s → I s' ∧ Forall Q ys.
Proof.
  revert s ys s'. induction xs as [|x xs IH]; intros s ys s' Hf; simpl.
  - intros [= <- <-] Hs. by split.
  - destruct (f x s) as [[y s1]|] eqn:Hx; [simpl|done].
    destruct (mapM_st f xs s1) as [[ys' s2]|] eqn:Hxs; [simpl|done].
    intros [= <- <-] Hs.
    destruct (Hf x s y s1) as [Hs1 Hy]; [by left|done|done|].
    destruct (IH s1 ys' s2) as [Hs2 Hys]; [|done|done|].
    + intros x' s0 y0 s0' Hx'. apply Hf. by right.
    + split; [done|by constructor].
Qed.

Section CopyInvariant.
(** A property [I] of the states of [copy.deepcopy] and a property [Q] of
    the locations it returns, kept by the steps of a copy. *)
Variable I : Memo * Store → Prop.
Variable Q : loc → Prop.
Hypothesis memo_Q : ∀ s l l0, I s → dict_get l s.1 = Some l0 → Q l0.
Hypothesis alloc_I : ∀ s l o,
  I s → I (s.1 ++ [(l, length s.2)], s.2 ++ [o]) ∧ Q (length s.2).
Hypothesis insert_I : ∀ (s : Memo * Store) l' o,
  I s → Q l' → I (s.1, <[l' := o]> s.2).

Lemma copy_item_invariant
    (copy_loc : loc → Memo * Store → option (loc * (Memo * Store)))
    (x : Item) (s : Memo * Store) x' s' :
  (∀ l s l' s', copy_loc l s = Some (l', s') → I s → I s' ∧ Q l') →
  copy_item copy_loc x s = Some (x', s') → I s → I s' ∧ item_refs Q x'.
Proof.
  intros Hcopy. unfold copy_item. destruct x as [l|a].
  - destruct (copy_loc l s) as [[l' s1]|] eqn:Hl; [simpl|done].
    intros [= <- <-] Hs. by apply (Hcopy l s).
  - intros [= <- <-] Hs. by split.
Qed.

Lemma copy_param_invariant
    (copy_loc : loc → Memo * Store → option (loc * (Memo * Store)))
    (kp : string * Param) (s : Memo * Store) kp' s' :
  (∀ l s l' s', copy_loc l s = Some (l', s') → I s → I s' ∧ Q l') →
  copy_param copy_loc kp s = Some (kp', s') → I s → I s' ∧ param_refs Q kp'.2.
Proof.
  intros Hcopy. unfold copy_param. destruct kp.2 as [x|xs].
  - destruct (copy_item copy_loc x s) as [[x' s1]|] eqn:Hx; [simpl|done].
    intros [= <- <-] Hs. simpl. by eapply copy_item_invariant.
  - destruct (mapM_st (copy_item copy_loc) xs s) as [[xs' s1]|] eqn:Hxs;
      [simpl|done].
    intros [= <- <-] Hs. simpl.
    eapply (mapM_st_invariant _ I (item_refs Q)); [|exact Hxs|done].
    intros x s0 y s0' _. by apply copy_item_invariant.
Qed.

Lemma deepcopy_loc_invariant (fuel : nat) (l : loc) (s : Memo * Store) l' s' :
  deepcopy_loc fuel l s = Some (l', s') → I s →
  I s' ∧ Q l'
  ∧ (dict_get l s.1 = None →
     l' = length s.2
     ∧ ∀ m', s'.2 !! l' = Some (OMeta m') → l' < length s'.2 →
         Forall (λ kp : string * Param, param_refs Q kp.2) (mo_params m')).
Proof.
  revert l s l' s'. induction fuel as [|fuel IH]; intros l s l' s'; simpl.
  - destruct (dict_get l s.1) as [l0|] eqn:Hmemo; [|done].
    intros [= <- <-] Hs. split_and!; [done|by eapply memo_Q|done].
  - destruct (dict_get l s.1) as [l0|] eqn:Hmemo.
    { intros [= <- <-] Hs. split_and!; [done|by eapply memo_Q|done]. }
    destruct (s.2 !! l) as [o|] eqn:Ho; [simpl|done].
    intros Hcopy Hs. destruct (alloc_I s l o Hs) as [Hs1 Hfresh].
    destruct o as [w|m].
    + injection Hcopy as <- <-. split_and!; [done|done|]. intros _.
      split; [done|]. simpl. intros m' Hm'.
      by rewrite lookup_app_r, Nat.sub_diag in Hm' by lia.
    + destruct (mapM_st _ (mo_params m) _) as [[ps s2]|] eqn:Hps;
        [simpl in Hcopy|done].
      injection Hcopy as <- <-.
      destruct (mapM_st_invariant (copy_param (deepcopy_loc fuel)) I
                  (λ kp : string * Param, param_refs Q kp.2)
                  (mo_params m)
                  (s.1 ++ [(l, length s.2)], s.2 ++ [OMeta m]) ps s2)
        as [Hs2 Hps_Q]; [|exact Hps|exact Hs1|].
      { intros kp s0 kp' s0' _. apply copy_param_invariant.
        intros l0 s3 l0' s3' Hc Hs3.
        destruct (IH _ _ _ _ Hc Hs3) as (? & ? & _). by split. }
      split_and!; [by apply insert_I|done|]. intros _. split; [done|].
      simpl. intros m' Hm' Hlt. rewrite length_insert in Hlt.
      rewrite list_lookup_insert_eq in Hm' by done.
      by injection Hm' as <-.
Qed.
End CopyInvariant.

(** The store only grows during a copy. *)
Lemma deepcopy_loc_length (n fuel : nat) (l : loc) (s : Memo * Store) l' s' :
  deepcopy_loc fuel l s = Some (l', s') → n ≤ length s.2 → n ≤ length s'.2.
Proof.
  intros Hcopy Hs.
  destruct (deepcopy_loc_invariant (λ s, n ≤ length s.2) (λ _, True))
    with (fuel := fuel) (l := l) (s := s) (l' := l') (s' := s')
    as (Hs' & _); try done.
  - intros s0 l0 o Hs0. split; [|done]. simpl. rewrite length_app. lia.
  - intros s0 l0 o Hs0 _. simpl. by rewrite length_insert.
Qed.

(** A copy that is not answered from the memo allocates a new object. *)
Lemma deepcopy_loc_fresh_lt (fuel : nat) (l : loc) (s : Memo * Store) l' s' :
  dict_get l s.1 = None → deepcopy_loc fuel l s = Some (l', s') →
  length s.2 < length s'.2.
Proof.
  intros Hmemo. destruct fuel as [|fuel]; simpl; rewrite Hmemo; [done|].
  destruct (s.2 !! l) as [o|]; [simpl|done].
  destruct o as [w|m].
  - intros [= <- <-]. simpl. rewrite length_app. simpl. lia.
  - destruct (mapM_st _ (mo_params m) _) as [[ps s2]|] eqn:Hps; [simpl|done].
    intros [= <- <-]. simpl. rewrite length_insert.
    destruct (mapM_st_invariant (copy_param (deepcopy_loc fuel))
                (λ s0, S (length s.2) ≤ length s0.2) (λ _, True)
                (mo_params m)
                (s.1 ++ [(l, length s.2)], s.2 ++ [OMeta m]) ps s2)
      as [Hgrow _]; [|exact Hps| |simpl in Hgrow; lia].
    + intros kp s0 kp' s0' _ Hkp Hs0.
      destruct (copy_param_invariant (λ s0, S (length s.2) ≤ length s0.2)
                  (λ _, True) (deepcopy_loc fuel) kp s0 kp' s0')
        as [? _]; [|done|done|by split].
      intros l1 s1 l1' s1' Hc Hs1. split; [|done].
      by eapply deepcopy_loc_length.
    + simpl. rewrite length_app. simpl. lia.
Qed.

(** [deepcopy(x)] adds objects to the store and changes none; the copy is a
    new object, and the parameters of a copied [MetaLearnerWrapper] refer
    to new objects. *)
Lemma deepcopy_above (l : loc) (σ : Store) l' σ' :
  deepcopy l σ = Some (l', σ') →
  take (length σ) σ' = σ
  ∧ l' = length σ
  ∧ l' < length σ'
  ∧ ∀ m', σ' !! l' = Some (OMeta m') →
      Forall (λ kp : string * Param, param_above (length σ) kp.2)
             (mo_params m').
Proof.
  unfold deepcopy.
  destruct (deepcopy_loc (length σ) l ([], σ)) as [[l0 s]|] eqn:Hcopy;
    [simpl|done].
  intros [= <- <-].
  destruct (deepcopy_loc_invariant (copy_above (length σ) σ)
              (λ l, length σ ≤ l))
    with (fuel := length σ) (l := l) (s := (([] : Memo), σ))
         (l' := l0) (s' := s)
    as ((Htake & Hlen & _) & Hl0 & Hfresh); try done.
  - intros s0 l1 l2 (_ & _ & Hm) Hget. apply dict_get_Some_elem in Hget.
    by apply (proj1 (Forall_forall _ _) Hm) in Hget.
  - intros s0 l1 o (Htake & Hlen & Hm). split; [|done].
    split_and!; simpl.
    + by rewrite take_app_le.
    + rewrite length_app. lia.
    + apply Forall_app. split; [done|]. by apply Forall_singleton.
  - intros s0 l1 o (Htake & Hlen & Hm) Hl1. split_and!; simpl; [|by rewrite length_insert|done].
    by rewrite take_insert_ge.
  - destruct (Hfresh eq_refl) as [-> Hparams]. simpl in *.
    rewrite firstn_all in Htake.
    assert (Hlt : length σ < length s.2).
    { by apply (deepcopy_loc_fresh_lt (length σ) l ([], σ) (length σ) s). }
    split_and!; [done|done|done|].
    intros m' Hm'. specialize (Hparams m' Hm' Hlt).
    exact Hparams.
Qed.

Lemma update_params_at_above (base : nat) (l : loc) (d : list (string * Atom))
    (σ σ' : Store) :
  base ≤ l → update_params_at l d σ = Some σ' →
  take base σ' = take base σ ∧ length σ' = length σ.
Proof.
  intros Hl. unfold update_params_at.
  destruct (σ !! l) as [[w|m]|]; try done. intros [= <-].
  split; [by apply take_insert_ge|by rewrite length_insert].
Qed.

Lemma is_baselearner_above (base : nat) (σ : Store) (x : Item) (l : loc) :
  item_above base x → is_baselearner σ x = Some l → base ≤ l.
Proof.
  destruct x as [l0|a]; simpl; [|done].
  by destruct (σ !! l0) as [[w|m]|]; intros ? [= <-].
Qed.

Lemma update_list_item_above (base : nat) (d : list (string * Atom))
    (x : Item) (σ : Store) x' σ' :
  item_above base x → update_list_item d x σ = Some (x', σ') →
  take base σ' = take base σ ∧ length σ' = length σ.
Proof.
  intros Hx. unfold update_list_item.
  destruct (is_baselearner σ x) as [l|] eqn:Hbl.
  - destruct (update_params_at l d σ) as [σ1|] eqn:Hup; [simpl|done].
    intros [= <- <-]. apply (update_params_at_above base l d); [|done].
    by eapply is_baselearner_above.
  - by intros [= <- <-].
Qed.

Lemma update_list_above (base : nat) (d : list (string * Atom))
    (xs : list Item) (σ : Store) xs' σ' :
  Forall (item_above base) xs →
  mapM_st (update_list_item d) xs σ = Some (xs', σ') →
  take base σ' = take base σ ∧ length σ' = length σ.
Proof.
  intros Hxs. revert σ xs' σ'.
  induction Hxs as [|x xs Hx _ IH]; intros σ xs' σ'; simpl.
  - by intros [= <- <-].
  - destruct (update_list_item d x σ) as [[x1 σ1]|] eqn:Hx1; [simpl|done].
    destruct (mapM_st _ xs σ1) as [[xs1 σ2]|] eqn:Hxs1; [simpl|done].
    intros [= <- <-].
    destruct (update_list_item_above base d x σ x1 σ1 Hx Hx1) as [Ht1 Hl1].
    destruct (IH _ _ _ Hxs1) as [Ht2 Hl2]. split; congruence.
Qed.

Lemma update_param_above (base : nat) (d : list (string * Atom))
    (new_params : list (string * Param)) (σ : Store) (kv : string * Param)
    new_params' σ' :
  param_above base kv.2 → base ≤ length σ →
  update_param d (new_params, σ) kv = Some (new_params', σ') →
  take base σ' = take base σ ∧ length σ ≤ length σ'.
Proof.
  intros Hkv Hbase. unfold update_param. destruct kv.2 as [v|vs].
  - destruct (is_baselearner σ v) as [l|] eqn:Hbl.
    + destruct (deepcopy l σ) as [[v_t σ1]|] eqn:Hcopy; [simpl|done].
      destruct (update_params_at l d σ1) as [σ2|] eqn:Hup; [simpl|done].
      intros [= <- <-].
      destruct (deepcopy_above _ _ _ _ Hcopy) as (Ht1 & -> & Hl1 & _).
      pose proof (is_baselearner_above base σ v l Hkv Hbl) as Hl.
      destruct (update_params_at_above base l d σ1 σ2) as [Ht2 Hl2];
        [done|done|].
      split; [|lia]. rewrite Ht2.
      transitivity (take base (take (length σ) σ1)); [|by rewrite Ht1].
      by rewrite take_take, Nat.min_l.
    + intros [= <- <-]. by split.
  - destruct (mapM_st (update_list_item d) vs σ) as [[vs_t σ1]|] eqn:Hvs;
      [simpl|done].
    intros [= <- <-].
    destruct (update_list_above base d vs σ vs_t σ1 Hkv Hvs) as [Ht Hl].
    split; [done|lia].
Qed.

Lemma update_params_above (base : nat) (d : list (string * Atom))
    (ps : list (string * Param)) (new_params : list (string * Param))
    (σ : Store) new_params' σ' :
  Forall (λ kp : string * Param, param_above base kp.2) ps →
  base ≤ length σ →
  foldlM (update_param d) (new_params, σ) ps = Some (new_params', σ') →
  take base σ' = take base σ ∧ length σ ≤ length σ'.
Proof.
  intros Hps. revert new_params σ.
  induction Hps as [|kp ps Hkp _ IH]; intros new_params σ Hbase;
    cbn [foldlM].
  - by intros [= <- <-].
  - destruct (update_param d (new_params, σ) kp) as [[np1 σ1]|] eqn:Hstep;
      [cbn [mbind option_bind]|done].
    intros Hrest.
    destruct (update_param_above base d _ _ _ _ _ Hkp Hbase Hstep)
      as [Ht1 Hl1].
    destruct (IH np1 σ1 ltac:(lia) Hrest) as [Ht2 Hl2].
    split; [congruence|lia].
Qed.

(** X20. [create_best_metalearner] changes no object that existed before
    the call, whatever parameters are to be updated: the stored
    [_best_metalearner_wrap], the baselearner wrappers it holds and every
    other object are as they were, and the wrapper that is instantiated is
    a new object. The call raises when nothing was trained. *)
Theorem create_best_metalearner_keeps_store (n_trained : nat) (best_wrap : loc)
    (update_metalearner_params : list (string * Atom)) (σ : Store)
    (ml_wrap : loc) (σ' : Store) :
  create_best_metalearner n_trained best_wrap update_metalearner_params σ
  = Some (ml_wrap, σ') →
  n_trained ≠ 0
  ∧ take (length σ) σ' = σ
  ∧ ml_wrap = length σ
  ∧ ml_wrap < length σ'.
Proof.
  unfold create_best_metalearner. case_decide; [done|].
  destruct (deepcopy best_wrap σ) as [[l σ1]|] eqn:Hcopy; [simpl|done].
  destruct (deepcopy_above _ _ _ _ Hcopy) as (Ht1 & Hl & Hlen1 & Hparams).
  destruct update_metalearner_params as [|kv d].
  - intros [= <- <-]. by split_and!.
  - destruct (update_baselearner_params l (kv :: d) σ1) as [σ2|] eqn:Hup;
      [simpl|done].
    intros [= <- <-]. unfold update_baselearner_params in Hup.
    destruct (σ1 !! l) as [[w|m]|] eqn:Hobj; try done.
    destruct (foldlM _ _ (mo_params m)) as [[new_params σ3]|] eqn:Hfold;
      [simpl in Hup|done].
    injection Hup as <-.
    destruct (update_params_above (length σ) (kv :: d) (mo_params m) [] σ1
                new_params σ3 (Hparams m eq_refl) ltac:(lia) Hfold)
      as [Ht3 Hl3].
    split_and!; [done| |done|rewrite length_insert; lia].
    rewrite take_insert_ge by lia. rewrite Ht3. done.
Qed.

(* ===================================================================== *)
(** * [create_best_metalearner] on the wrappers [fit] builds *)
(* ===================================================================== *)

Lemma read_base_Some (σ : Store) (x : Item) (b : BaseLearnerWrapper) :
  read_base σ x = Some b ↔ ∃ l, x = IRef l ∧ σ !! l = Some (OBase b).
Proof.
  destruct x as [l|a]; simpl.
  - destruct (σ !! l) as [[w|m]|] eqn:Hl; split;
      try (intros [= ->]; by exists l); try done;
      intros (l' & [= <-] & Hl'); congruence.
  - split; [done|]. by intros (l & ? & _).
Qed.

Lemma read_base_agree (σ σ' : Store) (x : Item) :
  (∀ l, l ∈ refs_of_item x → σ' !! l = σ !! l) →
  read_base σ' x = read_base σ x.
Proof.
  destruct x as [l|a]; simpl; [|done]. intros Hl.
  rewrite (Hl l); [done|]. by left.
Qed.

Lemma read_bases_agree (σ σ' : Store) (xs : list Item) :
  (∀ l, l ∈ xs ≫= refs_of_item → σ' !! l = σ !! l) →
  mapM (read_base σ') xs = mapM (read_base σ) xs.
Proof.
  induction xs as [|x xs IH]; intros Hl; [done|]. simpl.
  rewrite (read_base_agree σ σ' x), IH; [done| |].
  - intros l Hin. apply Hl. simpl. apply elem_of_app. by right.
  - intros l Hin. apply Hl. simpl. apply elem_of_app. by left.
Qed.

Lemma read_wparam_agree (σ σ' : Store) (kp : string * Param) :
  (∀ l, l ∈ refs_of_param kp.2 → σ' !! l = σ !! l) →
  read_wparam σ' kp = read_wparam σ kp.
Proof.
  unfold read_wparam. destruct kp.2 as [x|xs]; simpl; intros Hl.
  - by rewrite (read_base_agree σ σ' x).
  - by rewrite (read_bases_agree σ σ' xs).
Qed.

Lemma read_wparams_agree (σ σ' : Store) (ps : list (string * Param)) :
  (∀ l, l ∈ refs_of_params ps → σ' !! l = σ !! l) →
  mapM (read_wparam σ') ps = mapM (read_wparam σ) ps.
Proof.
  induction ps as [|kp ps IH]; intros Hl; [done|]. simpl.
  rewrite (read_wparam_agree σ σ' kp), IH; [done| |].
  - intros l Hin. apply Hl. unfold refs_of_params. simpl.
    apply elem_of_app. by right.
  - intros l Hin. apply Hl. unfold refs_of_params. simpl.
    apply elem_of_app. by left.
Qed.

(** The objects a readable parameter refers to are baselearner wrappers of
    the store. *)
Lemma read_bases_refs (σ : Store) (xs : list Item) bs l :
  mapM (read_base σ) xs = Some bs → l ∈ xs ≫= refs_of_item →
  ∃ b, σ !! l = Some (OBase b).
Proof.
  revert bs. induction xs as [|x xs IH]; intros bs; simpl.
  - intros _ Hin. by apply elem_of_nil in Hin.
  - destruct (read_base σ x) as [b|] eqn:Hx; [simpl|done].
    destruct (mapM (read_base σ) xs) as [bs'|] eqn:Hxs; [simpl|done].
    intros _ Hin. apply elem_of_app in Hin as [Hin|Hin].
    + apply read_base_Some in Hx as (l' & -> & Hl'). simpl in Hin.
      apply list_elem_of_singleton in Hin as ->. by exists b.
    + by apply (IH bs').
Qed.

Lemma read_wparam_refs (σ : Store) (kp : string * Param) wp l :
  read_wparam σ kp = Some wp → l ∈ refs_of_param kp.2 →
  ∃ b, σ !! l = Some (OBase b).
Proof.
  unfold read_wparam. destruct kp.2 as [x|xs]; simpl.
  - destruct (read_base σ x) as [b|] eqn:Hx; [simpl|done]. intros _ Hin.
    apply read_base_Some in Hx as (l' & -> & Hl'). simpl in Hin.
    apply list_elem_of_singleton in Hin as ->. by exists b.
  - destruct (mapM (read_base σ) xs) as [bs|] eqn:Hxs; [simpl|done].
    intros _ Hin. by apply (read_bases_refs σ xs bs).
Qed.

Lemma read_wparams_refs (σ : Store) (ps : list (string * Param)) wps l :
  mapM (read_wparam σ) ps = Some wps → l ∈ refs_of_params ps →
  ∃ b, σ !! l = Some (OBase b).
Proof.
  revert wps. induction ps as [|kp ps IH]; intros wps; simpl.
  - intros _ Hin. by apply elem_of_nil in Hin.
  - destruct (read_wparam σ kp) as [wp|] eqn:Hkp; [simpl|done].
    destruct (mapM (read_wparam σ) ps) as [wps'|] eqn:Hps; [simpl|done].
    intros _ Hin. unfold refs_of_params in Hin. simpl in Hin.
    apply elem_of_app in Hin as [Hin|Hin].
    + by apply (read_wparam_refs σ kp wp).
    + by apply (IH wps').
Qed.

Lemma lookup_app_Some_l {X : Type} (l ext : list X) (i : nat) (x : X) :
  l !! i = Some x → (l ++ ext) !! i = l !! i.
Proof. intros Hi. apply lookup_app_l. by eapply lookup_lt_Some. Qed.

(** Reading is not changed by objects added to the store. *)
Lemma read_bases_app (σ ext : Store) (xs : list Item) bs :
  mapM (read_base σ) xs = Some bs → mapM (read_base (σ ++ ext)) xs = Some bs.
Proof.
  intros Hxs. rewrite <-Hxs. apply read_bases_agree. intros l Hl.
  destruct (read_bases_refs σ xs bs l Hxs Hl) as [b Hb].
  by apply (lookup_app_Some_l _ _ _ (OBase b)).
Qed.

Lemma read_wparams_app (σ ext : Store) (ps : list (string * Param)) wps :
  mapM (read_wparam σ) ps = Some wps →
  mapM (read_wparam (σ ++ ext)) ps = Some wps.
Proof.
  intros Hps. rewrite <-Hps. apply read_wparams_agree. intros l Hl.
  destruct (read_wparams_refs σ ps wps l Hps Hl) as [b Hb].
  by apply (lookup_app_Some_l _ _ _ (OBase b)).
Qed.

Lemma dict_get_snoc_None {V : Type} (memo : list (loc * V)) (l l0 : loc)
    (v : V) :
  dict_get l0 memo = None → l0 ≠ l → dict_get l0 (memo ++ [(l, v)]) = None.
Proof.
  intros Hmemo Hne. apply dict_get_None. rewrite fmap_app. simpl.
  apply dict_get_None in Hmemo. intros Hin.
  apply elem_of_app in Hin as [Hin|Hin]; [done|].
  apply list_elem_of_singleton in Hin. by subst.
Qed.

(** The copy of a baselearner wrapper that was not copied before is a new
    object at the end of the store. *)
Lemma deepcopy_loc_base (fuel : nat) (l : loc) (memo : Memo) (σ : Store)
    (b : BaseLearnerWrapper) :
  fuel ≠ 0 → dict_get l memo = None → σ !! l = Some (OBase b) →
  deepcopy_loc fuel l (memo, σ)
  = Some (length σ, (memo ++ [(l, length σ)], σ ++ [OBase b])).
Proof.
  intros Hfuel Hmemo Hl. destruct fuel as [|fuel]; [done|]. simpl.
  by rewrite Hmemo, Hl.
Qed.

Lemma copy_items_fresh (fuel : nat) (xs : list Item) (memo : Memo)
    (σ : Store) bs :
  (xs ≫= refs_of_item ≠ [] → fuel ≠ 0) →
  mapM (read_base σ) xs = Some bs →
  NoDup (xs ≫= refs_of_item) →
  (∀ l, l ∈ xs ≫= refs_of_item → dict_get l memo = None) →
  ∃ xs' memo' ext,
    mapM_st (copy_item (deepcopy_loc fuel)) xs (memo, σ)
    = Some (xs', (memo', σ ++ ext))
    ∧ mapM (read_base (σ ++ ext)) xs' = Some bs
    ∧ NoDup (xs' ≫= refs_of_item)
    ∧ (∀ l, l ∈ xs' ≫= refs_of_item → length σ ≤ l)
    ∧ (∀ l, dict_get l memo = None → l ∉ xs ≫= refs_of_item →
            dict_get l memo' = None).
Proof.
  revert memo σ bs. induction xs as [|x xs IH]; intros memo σ bs Hfuel.
  - intros [= <-] _ _. exists [], memo, []. rewrite app_nil_r.
    split_and!; [done|done|apply NoDup_nil_2| |done].
    intros l Hl. by apply elem_of_nil in Hl.
  - simpl. destruct (read_base σ x) as [b|] eqn:Hx; [simpl|done].
    destruct (mapM (read_base σ) xs) as [bs'|] eqn:Hxs; [simpl|done].
    intros [= <-]. apply read_base_Some in Hx as (l & -> & Hl). simpl.
    intros Hnd Hmemo. apply NoDup_cons in Hnd as [Hl_xs Hnd].
    assert (Hfuel' : fuel ≠ 0) by (by apply Hfuel).
    rewrite (deepcopy_loc_base fuel l memo σ b);
      [simpl|done|apply Hmemo; by left|done].
    destruct (IH (memo ++ [(l, length σ)]) (σ ++ [OBase b]) bs')
      as (xs' & memo' & ext & Hcopy & Hread & Hnd' & Hge & Hframe).
    + done.
    + by apply read_bases_app.
    + done.
    + intros l0 Hl0. apply dict_get_snoc_None.
      * apply Hmemo. by right.
      * intros ->. done.
    + rewrite Hcopy. simpl. exists (IRef (length σ) :: xs'), memo',
        (OBase b :: ext).
      rewrite <-app_assoc in Hread. simpl in Hread.
      rewrite <-app_assoc. simpl.
      assert (Hlen : ∀ l0, l0 ∈ xs' ≫= refs_of_item → S (length σ) ≤ l0).
      { intros l0 Hl0. apply Hge in Hl0. rewrite length_app in Hl0.
        simpl in Hl0. lia. }
      split_and!.
      * done.
      * rewrite lookup_app_r, Nat.sub_diag by lia. simpl. by rewrite Hread.
      * apply NoDup_cons. split; [|done]. intros Hin. apply Hlen in Hin. lia.
      * intros l0 Hl0. apply elem_of_cons in Hl0 as [->|Hl0]; [lia|].
        apply Hlen in Hl0. lia.
      * intros l0 Hl0 Hnot. apply not_elem_of_cons in Hnot as [Hne Hnot].
        apply Hframe; [|done]. by apply dict_get_snoc_None.
Qed.

Lemma copy_param_fresh (fuel : nat) (kp : string * Param) (memo : Memo)
    (σ : Store) wp :
  (refs_of_param kp.2 ≠ [] → fuel ≠ 0) →
  read_wparam σ kp = Some wp →
  NoDup (refs_of_param kp.2) →
  (∀ l, l ∈ refs_of_param kp.2 → dict_get l memo = None) →
  ∃ kp' memo' ext,
    copy_param (deepcopy_loc fuel) kp (memo, σ)
    = Some (kp', (memo', σ ++ ext))
    ∧ read_wparam (σ ++ ext) kp' = Some wp
    ∧ NoDup (refs_of_param kp'.2)
    ∧ (∀ l, l ∈ refs_of_param kp'.2 → length σ ≤ l)
    ∧ (∀ l, dict_get l memo = None → l ∉ refs_of_param kp.2 →
            dict_get l memo' = None).
Proof.
  unfold read_wparam, copy_param. destruct kp as [k [x|xs]]; simpl.
  - intros Hfuel Hread Hnd Hmemo.
    destruct (read_base σ x) as [b|] eqn:Hx; [simpl in Hread|done].
    injection Hread as <-.
    destruct (copy_items_fresh fuel [x] memo σ [b])
      as (xs' & memo' & ext & Hcopy & Hread & Hnd' & Hge & Hframe).
    + simpl. by rewrite app_nil_r.
    + simpl. by rewrite Hx.
    + simpl. by rewrite app_nil_r.
    + simpl. intros l. rewrite app_nil_r. apply Hmemo.
    + simpl in Hcopy.
      destruct (copy_item (deepcopy_loc fuel) x (memo, σ))
        as [[x' s']|]; [simpl in Hcopy|done].
      injection Hcopy as <- ->. simpl in Hread.
      destruct (read_base (σ ++ ext) x') as [b'|] eqn:Hx';
        [simpl in Hread|done].
      injection Hread as ->. simpl in Hnd', Hge. rewrite app_nil_r in Hnd', Hge.
      exists (k, PItem x'), memo', ext. simpl. rewrite Hx'.
      split_and!; [done|done|done|done|].
      intros l Hl Hnot. apply Hframe; [done|]. simpl. by rewrite app_nil_r.
  - intros Hfuel Hread Hnd Hmemo.
    destruct (mapM (read_base σ) xs) as [bs|] eqn:Hxs; [simpl in Hread|done].
    injection Hread as <-.
    destruct (copy_items_fresh fuel xs memo σ bs Hfuel Hxs Hnd Hmemo)
      as (xs' & memo' & ext & Hcopy & Hread & Hnd' & Hge & Hframe).
    rewrite Hcopy. simpl. exists (k, PList xs'), memo', ext. simpl.
    rewrite Hread. by split_and!.
Qed.

Lemma copy_params_fresh (fuel : nat) (ps : list (string * Param))
    (memo : Memo) (σ : Store) wps :
  (refs_of_params ps ≠ [] → fuel ≠ 0) →
  mapM (read_wparam σ) ps = Some wps →
  NoDup (refs_of_params ps) →
  (∀ l, l ∈ refs_of_params ps → dict_get l memo = None) →
  ∃ ps' memo' ext,
    mapM_st (copy_param (deepcopy_loc fuel)) ps (memo, σ)
    = Some (ps', (memo', σ ++ ext))
    ∧ mapM (read_wparam (σ ++ ext)) ps' = Some wps
    ∧ NoDup (refs_of_params ps')
    ∧ (∀ l, l ∈ refs_of_params ps' → length σ ≤ l)
    ∧ ps'.*1 = ps.*1.
Proof.
  revert memo σ wps. unfold refs_of_params.
  induction ps as [|kp ps IH]; intros memo σ wps Hfuel.
  - intros [= <-] _ _. exists [], memo, []. rewrite app_nil_r.
    split_and!; [done|done|apply NoDup_nil_2| |done].
    intros l Hl. by apply elem_of_nil in Hl.
  - simpl. destruct (read_wparam σ kp) as [wp|] eqn:Hkp; [simpl|done].
    destruct (mapM (read_wparam σ) ps) as [wps'|] eqn:Hps; [simpl|done].
    intros [= <-] Hnd Hmemo. apply NoDup_app in Hnd as (Hnd1 & Hdisj & Hnd2).
    destruct (copy_param_fresh fuel kp memo σ wp)
      as (kp' & memo1 & ext1 & Hcopy1 & Hread1 & Hnd1' & Hge1 & Hframe1).
    { intros Hne. apply Hfuel. intros Happ.
      by apply app_eq_nil in Happ as [? _]. }
    { done. }
    { done. }
    { intros l Hl. apply Hmemo. apply elem_of_app. by left. }
    rewrite Hcopy1. simpl.
    destruct (IH memo1 (σ ++ ext1) wps')
      as (ps' & memo' & ext & Hcopy & Hread & Hnd' & Hge & Hkeys).
    { intros Hne. apply Hfuel. intros Happ.
      by apply app_eq_nil in Happ as [_ ?]. }
    { by apply read_wparams_app. }
    { done. }
    { intros l Hl. apply Hframe1.
      - apply Hmemo. apply elem_of_app. by right.
      - intros Hl1. by apply (Hdisj l). }
    rewrite Hcopy. simpl. exists (kp' :: ps'), memo', (ext1 ++ ext).
    rewrite app_assoc. split_and!.
    + done.
    + simpl. rewrite Hread. simpl.
      rewrite (read_wparam_agree (σ ++ ext1) ((σ ++ ext1) ++ ext) kp').
      * by rewrite Hread1.
      * intros l Hl.
        destruct (read_wparam_refs _ _ _ l Hread1 Hl) as [b Hb].
        by apply (lookup_app_Some_l _ _ _ (OBase b)).
    + simpl. apply NoDup_app. split_and!; [done| |done].
      intros l Hl1 Hl2.
      destruct (read_wparam_refs _ _ _ l Hread1 Hl1) as [b Hb].
      apply lookup_lt_Some in Hb. apply Hge in Hl2. lia.
    + simpl. intros l Hl. apply elem_of_app in Hl as [Hl|Hl].
      * by apply Hge1.
      * apply Hge in Hl. rewrite length_app in Hl. lia.
    + simpl. f_equal; [|done].
      unfold copy_param in Hcopy1. destruct kp.2.
      * destruct (copy_item _ _ _) as [[? ?]|]; [simpl in Hcopy1|done].
        by injection Hcopy1 as <- _.
      * destruct (mapM_st _ _ _) as [[? ?]|]; [simpl in Hcopy1|done].
        by injection Hcopy1 as <- _.
Qed.

Lemma deepcopy_loc_meta (fuel : nat) (l : loc) (memo : Memo) (σ : Store)
    (m : MetaObj) :
  fuel ≠ 0 → dict_get l memo = None → σ !! l = Some (OMeta m) →
  deepcopy_loc fuel l (memo, σ)
  = '(ps, s2) ← mapM_st (copy_param (deepcopy_loc (Nat.pred fuel))) (mo_params m)
                        (memo ++ [(l, length σ)], σ ++ [OMeta m]);
    Some (length σ,
          (s2.1, <[length σ := OMeta {| mo_name := mo_name m;
                                        mo_klass := mo_klass m;
                                        mo_params := ps |}]> s2.2)).
Proof.
  intros Hfuel Hmemo Hl. destruct fuel as [|fuel]; [done|]. simpl.
  by rewrite Hmemo, Hl.
Qed.

(** The deep copy of a [MetaLearnerWrapper] whose parameters hold
    baselearner wrappers, each once: the copy is a new object, it reads as
    the original does, and the wrappers it holds are new objects. *)
Lemma deepcopy_meta (l : loc) (σ : Store) (m : MetaObj) wps :
  σ !! l = Some (OMeta m) →
  mapM (read_wparam σ) (mo_params m) = Some wps →
  NoDup (refs_of_params (mo_params m)) →
  ∃ ps' σ',
    deepcopy l σ = Some (length σ, σ')
    ∧ σ' !! length σ = Some (OMeta {| mo_name := mo_name m;
                                      mo_klass := mo_klass m;
                                      mo_params := ps' |})
    ∧ (∀ i, i < length σ → σ' !! i = σ !! i)
    ∧ mapM (read_wparam σ') ps' = Some wps
    ∧ NoDup (refs_of_params ps')
    ∧ (∀ l0, l0 ∈ refs_of_params ps' → length σ < l0)
    ∧ ps'.*1 = (mo_params m).*1.
Proof.
  intros Hl Hread Hnd. unfold deepcopy.
  pose proof (lookup_lt_Some _ _ _ Hl) as Hlen.
  rewrite (deepcopy_loc_meta (length σ) l [] σ m); [|lia|done|done].
  destruct (copy_params_fresh (Nat.pred (length σ)) (mo_params m)
              ([] ++ [(l, length σ)]) (σ ++ [OMeta m]) wps)
    as (ps' & memo' & ext & Hcopy & Hread' & Hnd' & Hge & Hkeys).
  - intros Hne. destruct (refs_of_params (mo_params m)) as [|l0 rest] eqn:Hr;
      [done|].
    destruct (read_wparams_refs σ (mo_params m) wps l0 Hread) as [b Hb].
    { rewrite Hr. by left. }
    apply lookup_lt_Some in Hb as Hlt. assert (l0 ≠ l) by congruence. lia.
  - by apply read_wparams_app.
  - done.
  - intros l0 Hl0.
    destruct (read_wparams_refs σ (mo_params m) wps l0 Hread Hl0) as [b Hb].
    simpl. rewrite decide_False; [done|]. congruence.
  - cbn [app] in Hcopy |- *. rewrite Hcopy. simpl. eexists ps', _.
    split; [reflexivity|].
    assert (Hlt : length σ < length ((σ ++ [OMeta m]) ++ ext)).
    { rewrite !length_app. simpl. lia. }
    assert (Hge' : ∀ l0, l0 ∈ refs_of_params ps' → length σ < l0).
    { intros l0 Hl0. apply Hge in Hl0. rewrite length_app in Hl0.
      simpl in Hl0. lia. }
    split_and!.
    + by rewrite list_lookup_insert_eq.
    + intros i Hi. rewrite list_lookup_insert_ne by lia.
      rewrite <-app_assoc. by rewrite lookup_app_l.
    + rewrite <-Hread'. apply read_wparams_agree. intros l0 Hl0.
      apply Hge' in Hl0. by rewrite list_lookup_insert_ne by lia.
    + done.
    + done.
    + done.
Qed.

(** [update_baselearner_params] on a list of baselearner wrappers, each
    held once: every one is updated where it is. *)
Lemma update_list_refs (d : list (string * Atom)) (xs : list Item)
    (σ : Store) (bs : list BaseLearnerWrapper) :
  mapM (read_base σ) xs = Some bs →
  NoDup (xs ≫= refs_of_item) →
  ∃ σ',
    mapM_st (update_list_item d) xs σ = Some (xs, σ')
    ∧ length σ' = length σ
    ∧ mapM (read_base σ') xs = Some (update_params d <$> bs)
    ∧ (∀ l, l ∉ xs ≫= refs_of_item → σ' !! l = σ !! l).
Proof.
  revert σ bs. induction xs as [|x xs IH]; intros σ bs.
  - intros [= <-] _. by exists σ.
  - simpl. destruct (read_base σ x) as [b|] eqn:Hx; [simpl|done].
    destruct (mapM (read_base σ) xs) as [bs'|] eqn:Hxs; [simpl|done].
    intros [= <-]. apply read_base_Some in Hx as (l & -> & Hl). simpl.
    intros Hnd. apply NoDup_cons in Hnd as [Hl_xs Hnd].
    assert (Hstep : update_list_item d (IRef l) σ
                    = Some (IRef l, <[l := OBase (update_params d b)]> σ)).
    { unfold update_list_item, is_baselearner. rewrite Hl.
      unfold update_params_at. by rewrite Hl. }
    rewrite Hstep. cbn [mbind option_bind].
    pose proof (lookup_lt_Some _ _ _ Hl) as Hlt.
    destruct (IH (<[l := OBase (update_params d b)]> σ) bs')
      as (σ' & Hup & Hlen & Hread & Hframe).
    + rewrite <-Hxs. apply read_bases_agree. intros l0 Hl0.
      apply list_lookup_insert_ne. by intros ->.
    + done.
    + rewrite Hup. simpl. exists σ'. split_and!.
      * done.
      * by rewrite Hlen, length_insert.
      * rewrite (Hframe l Hl_xs), list_lookup_insert_eq by done. simpl.
        by rewrite Hread.
      * intros l0 Hl0. apply not_elem_of_cons in Hl0 as [Hne Hl0].
        by rewrite (Hframe l0 Hl0), list_lookup_insert_ne.
Qed.

(** The step of [update_baselearner_params] on a parameter that holds a
    baselearner wrapper, or a list of them. *)
Lemma update_param_step (d : list (string * Atom))
    (np : list (string * Param)) (σ : Store) (kp : string * Param) wp :
  read_wparam σ kp = Some wp →
  NoDup (refs_of_param kp.2) →
  ∃ kp' σ',
    update_param d (np, σ) kp = Some (dict_set kp.1 kp'.2 np, σ')
    ∧ kp'.1 = kp.1
    ∧ read_wparam σ' kp' = Some (update_held_in_lists d wp)
    ∧ length σ ≤ length σ'
    ∧ (∀ l, l ∈ refs_of_param kp'.2 → l < length σ')
    ∧ (∀ l, l ∈ refs_of_param kp'.2 →
            l ∈ refs_of_param kp.2 ∨ length σ ≤ l)
    ∧ (∀ l, l < length σ → l ∉ refs_of_param kp.2 → σ' !! l = σ !! l).
Proof.
  unfold read_wparam, update_param. destruct kp as [k [x|xs]]; simpl.
  - destruct (read_base σ x) as [b|] eqn:Hx; [simpl|done].
    intros [= <-] _. apply read_base_Some in Hx as (l & -> & Hl). simpl.
    rewrite Hl. pose proof (lookup_lt_Some _ _ _ Hl) as Hlt.
    unfold deepcopy.
    rewrite (deepcopy_loc_base (length σ) l [] σ b); [simpl|lia|done|done].
    assert (Hup : update_params_at l d (σ ++ [OBase b])
                  = Some (<[l := OBase (update_params d b)]>
                            (σ ++ [OBase b]))).
    { unfold update_params_at. rewrite (lookup_app_l σ) by done.
      unfold loc in *. by rewrite Hl. }
    rewrite Hup. cbn [mbind option_bind].
    exists (k, PItem (IRef (length σ))), (<[l := OBase (update_params d b)]>
                                           (σ ++ [OBase b])).
    simpl. split_and!.
    + done.
    + done.
    + rewrite list_lookup_insert_ne by lia.
      by rewrite lookup_app_r, Nat.sub_diag by lia.
    + rewrite length_insert, length_app. lia.
    + intros l0 Hl0. apply list_elem_of_singleton in Hl0 as ->.
      rewrite length_insert, length_app. simpl. lia.
    + intros l0 Hl0. apply list_elem_of_singleton in Hl0 as ->. right. lia.
    + intros l0 Hl0 Hnot. apply not_elem_of_cons in Hnot as [Hne _].
      rewrite list_lookup_insert_ne by done. by rewrite lookup_app_l.
  - destruct (mapM (read_base σ) xs) as [bs|] eqn:Hxs; [simpl|done].
    intros [= <-] Hnd.
    destruct (update_list_refs d xs σ bs Hxs Hnd)
      as (σ' & Hup & Hlen & Hread & Hframe).
    rewrite Hup. simpl. exists (k, PList xs), σ'. simpl. rewrite Hread.
    split_and!; [done|done|done|lia| | |].
    + intros l0 Hl0. rewrite Hlen.
      destruct (read_bases_refs σ xs bs l0 Hxs Hl0) as [b Hb].
      by apply lookup_lt_Some in Hb.
    + intros l0 Hl0. by left.
    + intros l0 _ Hl0. by apply Hframe.
Qed.

Lemma update_params_fold (d : list (string * Atom))
    (ps : list (string * Param)) (np : list (string * Param)) (σ : Store)
    (wps : list (string * WParam)) :
  mapM (read_wparam σ) ps = Some wps →
  NoDup (refs_of_params ps) →
  NoDup (np.*1 ++ ps.*1) →
  ∃ added σ',
    foldlM (update_param d) (np, σ) ps = Some (np ++ added, σ')
    ∧ mapM (read_wparam σ') added = Some (update_held_in_lists d <$> wps)
    ∧ length σ ≤ length σ'
    ∧ (∀ l, l < length σ → l ∉ refs_of_params ps → σ' !! l = σ !! l).
Proof.
  revert np σ wps. unfold refs_of_params.
  induction ps as [|kp ps IH]; intros np σ wps.
  - intros [= <-] _ _. exists [], σ. rewrite app_nil_r. by split_and!.
  - intros Hread Hnd Hkeys. simpl in Hread, Hnd, Hkeys. cbn [foldlM].
    destruct (read_wparam σ kp) as [wp|] eqn:Hkp; [simpl in Hread|done].
    destruct (mapM (read_wparam σ) ps) as [wps'|] eqn:Hps;
      [simpl in Hread|done].
    injection Hread as <-. apply NoDup_app in Hnd as (Hnd1 & Hdisj & Hnd2).
    destruct (update_param_step d np σ kp wp Hkp Hnd1)
      as (kp' & σ1 & Hstep & Hk & Hread1 & Hlen1 & Hlt1 & Hnew1 & Hframe1).
    rewrite Hstep. cbn [mbind option_bind].
    assert (Hfresh : kp.1 ∉ np.*1).
    { apply NoDup_app in Hkeys as (_ & Hdisj' & _). intros Hin.
      apply (Hdisj' _ Hin). by left. }
    rewrite dict_set_fresh by done.
    assert (Hrest : ∀ l, l ∈ ps ≫= (λ kp0, refs_of_param kp0.2) →
                         l < length σ ∧ l ∉ refs_of_param kp.2).
    { intros l Hl.
      destruct (read_wparams_refs σ ps wps' l Hps Hl) as [b Hb].
      apply lookup_lt_Some in Hb. split; [done|].
      intros Hl'. by apply (Hdisj l). }
    destruct (IH (np ++ [(kp.1, kp'.2)]) σ1 wps')
      as (added & σ' & Hfold & Hread & Hlen & Hframe).
    + rewrite <-Hps. apply read_wparams_agree. intros l Hl.
      destruct (Hrest l Hl). by apply Hframe1.
    + done.
    + rewrite fmap_app, <-app_assoc. simpl. done.
    + rewrite Hfold. exists ((kp.1, kp'.2) :: added), σ'.
      rewrite <-app_assoc. simpl. split_and!.
      * done.
      * rewrite Hread. simpl.
        assert (Hkp' : (kp.1, kp'.2) = kp').
        { destruct kp' as [k' p']. simpl in Hk. by subst. }
        rewrite Hkp'.
        rewrite (read_wparam_agree σ1 σ' kp'); [by rewrite Hread1|].
        intros l Hl. apply Hframe; [by apply Hlt1|].
        intros Hl'. destruct (Hrest l Hl') as [Hlt Hnot].
        destruct (Hnew1 l Hl) as [?|?]; [done|lia].
      * lia.
      * intros l Hlt Hnot. apply not_elem_of_app in Hnot as [Hnot1 Hnot2].
        rewrite Hframe by (done || lia). by apply Hframe1.
Qed.

Lemma refs_of_fresh_items (ls : list loc) :
  (IRef <$> ls) ≫= refs_of_item = ls.
Proof. induction ls as [|l ls IH]; [done|]. simpl. f_equal. exact IH. Qed.

Lemma read_bases_seq (σ : Store) (ws : list BaseLearnerWrapper) :
  mapM (read_base (σ ++ (OBase <$> ws)))
       (IRef <$> seq (length σ) (length ws))
  = Some ws.
Proof.
  revert σ. induction ws as [|w ws IH]; intros σ; [done|].
  cbn [length seq fmap list_fmap mapM].
  assert (Hw : read_base (σ ++ OBase w :: (OBase <$> ws)) (IRef (length σ))
               = Some w).
  { simpl. by rewrite lookup_app_r, Nat.sub_diag by lia. }
  rewrite Hw. cbn [mbind option_bind].
  specialize (IH (σ ++ [OBase w])). rewrite <-app_assoc in IH.
  rewrite length_app in IH. simpl in IH.
  rewrite Nat.add_1_r in IH. by rewrite IH.
Qed.

Lemma read_wparams_keys (σ : Store) (ps : list (string * Param))
    (wps : list (string * WParam)) :
  mapM (read_wparam σ) ps = Some wps → wps.*1 = ps.*1.
Proof.
  revert wps. induction ps as [|kp ps IH]; intros wps Hread;
    simpl in Hread.
  - by injection Hread as <-.
  - destruct (read_wparam σ kp) as [wp|] eqn:Hkp; [simpl in Hread|done].
    destruct (mapM (read_wparam σ) ps) as [wps'|] eqn:Hps;
      [simpl in Hread|done].
    injection Hread as <-. simpl. f_equal; [|by apply IH].
    unfold read_wparam in Hkp. destruct kp.2.
    + destruct (read_base σ x); [simpl in Hkp|done]. by injection Hkp as <-.
    + destruct (mapM (read_base σ) xs); [simpl in Hkp|done].
      by injection Hkp as <-.
Qed.

(** The store of [alloc_wrapper]: the parameters read back as the wrapper
    has them, and every baselearner wrapper is an object of its own. *)
Lemma alloc_wparam_read (acc : list (string * Param)) (σ : Store)
    (kp : string * WParam) :
  ∃ kp' ext,
    alloc_wparam (acc, σ) kp = (acc ++ [kp'], σ ++ ext)
    ∧ read_wparam (σ ++ ext) kp' = Some kp
    ∧ NoDup (refs_of_param kp'.2)
    ∧ (∀ l, l ∈ refs_of_param kp'.2 → length σ ≤ l).
Proof.
  unfold alloc_wparam. destruct kp as [k [w|ws]]; simpl.
  - exists (k, PItem (IRef (length σ))), [OBase w]. unfold read_wparam. simpl.
    rewrite lookup_app_r, Nat.sub_diag by lia. simpl.
    split_and!; [done|done|apply NoDup_singleton|].
    intros l Hl. apply list_elem_of_singleton in Hl. lia.
  - exists (k, PList (IRef <$> seq (length σ) (length ws))), (OBase <$> ws).
    unfold read_wparam. simpl. rewrite read_bases_seq. simpl.
    rewrite refs_of_fresh_items.
    split_and!; [done|done|apply NoDup_seq|].
    intros l Hl. apply elem_of_seq in Hl. lia.
Qed.

Lemma alloc_wparams_read (wps : list (string * WParam))
    (acc : list (string * Param)) (σ : Store) :
  ∃ added ext,
    foldl alloc_wparam (acc, σ) wps = (acc ++ added, σ ++ ext)
    ∧ mapM (read_wparam (σ ++ ext)) added = Some wps
    ∧ NoDup (refs_of_params added)
    ∧ (∀ l, l ∈ refs_of_params added → length σ ≤ l).
Proof.
  revert acc σ. unfold refs_of_params.
  induction wps as [|kp wps IH]; intros acc σ.
  - exists [], []. rewrite !app_nil_r.
    split_and!; [done|done|apply NoDup_nil_2|].
    intros l Hl. by apply elem_of_nil in Hl.
  - cbn [foldl].
    destruct (alloc_wparam_read acc σ kp)
      as (kp' & ext1 & Hstep & Hread1 & Hnd1 & Hge1).
    rewrite Hstep.
    destruct (IH (acc ++ [kp']) (σ ++ ext1))
      as (added & ext & Hfold & Hread & Hnd & Hge).
    rewrite Hfold. exists (kp' :: added), (ext1 ++ ext).
    rewrite <-!app_assoc. rewrite <-app_assoc in Hread. simpl.
    split_and!.
    + done.
    + rewrite Hread. simpl.
      rewrite (read_wparam_agree (σ ++ ext1) (σ ++ ext1 ++ ext) kp').
      * by rewrite Hread1.
      * intros l Hl.
        destruct (read_wparam_refs _ _ _ l Hread1 Hl) as [b Hb].
        rewrite app_assoc. by apply (lookup_app_Some_l _ _ _ (OBase b)).
    + apply NoDup_app. split_and!; [done| |done].
      intros l Hl1 Hl2.
      destruct (read_wparam_refs _ _ _ l Hread1 Hl1) as [b Hb].
      apply lookup_lt_Some in Hb. apply Hge in Hl2. lia.
    + intros l Hl. apply elem_of_app in Hl as [Hl|Hl].
      * by apply Hge1.
      * apply Hge in Hl. rewrite length_app in Hl. lia.
Qed.

Lemma read_wrapper_Some (σ : Store) (l : loc) (m : MetaObj)
    (wps : list (string * WParam)) :
  σ !! l = Some (OMeta m) →
  mapM (read_wparam σ) (mo_params m) = Some wps →
  read_wrapper σ l
  = Some {| ml_name := mo_name m; ml_klass := mo_klass m;
            ml_params := wps |}.
Proof.
  intros Hl Hread. unfold read_wrapper. unfold loc in *.
  by rewrite Hl, Hread.
Qed.

Lemma update_held_in_lists_nil (wps : list (string * WParam)) :
  update_held_in_lists [] <$> wps = wps.
Proof.
  induction wps as [|[k [w|ws]] wps IH]; [done| |]; cbn [fmap list_fmap].
  - f_equal. exact IH.
  - f_equal; [|exact IH]. unfold update_held_in_lists. simpl. do 2 f_equal.
    clear. induction ws as [|[n c p] ws IH]; [done|]. cbn [fmap list_fmap].
    f_equal. exact IH.
Qed.

(** [create_best_metalearner] on the store of [alloc_wrapper]. *)
Lemma create_best_metalearner_on_alloc (w : MetaLearnerWrapper)
    (σ : Store) (n_trained : nat)
    (update_metalearner_params : list (string * Atom)) :
  n_trained ≠ 0 →
  NoDup (ml_params w).*1 →
  ∃ ml_wrap σ',
    create_best_metalearner n_trained (alloc_wrapper w σ).1
                            update_metalearner_params (alloc_wrapper w σ).2
    = Some (ml_wrap, σ')
    ∧ read_wrapper σ' (alloc_wrapper w σ).1 = Some w
    ∧ read_wrapper σ' ml_wrap
      = Some {| ml_name := ml_name w; ml_klass := ml_klass w;
                ml_params := update_held_in_lists update_metalearner_params
                               <$> ml_params w |}.
Proof.
  intros Hn Hkeys. unfold alloc_wrapper.
  destruct (alloc_wparams_read (ml_params w) [] σ)
    as (added & ext & Halloc & Hread & Hnd & Hge).
  rewrite Halloc. cbn [fst snd app].
  set (m := {| mo_name := ml_name w; mo_klass := ml_klass w;
               mo_params := added |}).
  set (σ0 := σ ++ ext) in *. set (σ1 := σ0 ++ [OMeta m]).
  assert (Hl : σ1 !! length σ0 = Some (OMeta m)).
  { unfold σ1. by rewrite lookup_app_r, Nat.sub_diag by lia. }
  assert (Hread1 : mapM (read_wparam σ1) (mo_params m) = Some (ml_params w)).
  { by apply read_wparams_app. }
  assert (Hlen1 : length σ1 = S (length σ0)).
  { unfold σ1. rewrite length_app. simpl. lia. }
  assert (Hvalid : ∀ r, r ∈ refs_of_params added → r < length σ0).
  { intros r Hr. destruct (read_wparams_refs σ0 added _ r Hread Hr) as [b Hb].
    by apply lookup_lt_Some in Hb. }
  destruct (deepcopy_meta (length σ0) σ1 m (ml_params w) Hl Hread1 Hnd)
    as (ps' & σ2 & Hcopy & Hl2 & Hframe2 & Hread2 & Hnd2 & Hgt2 & Hkeys2).
  unfold create_best_metalearner. rewrite decide_False by done.
  rewrite Hcopy. cbn [mbind option_bind].
  assert (Hw : {| ml_name := mo_name m; ml_klass := mo_klass m;
                  ml_params := ml_params w |} = w).
  { by destruct w. }
  destruct update_metalearner_params as [|kv d].
  - exists (length σ1), σ2. split; [done|]. split.
    + rewrite (read_wrapper_Some σ2 (length σ0) m (ml_params w));
        [by rewrite Hw| |].
      * rewrite Hframe2 by lia. done.
      * rewrite <-Hread1. apply read_wparams_agree. intros r Hr.
        apply Hframe2. apply Hvalid in Hr. lia.
    + rewrite (read_wrapper_Some σ2 (length σ1) _ (ml_params w) Hl2 Hread2).
      by rewrite update_held_in_lists_nil.
  - unfold update_baselearner_params. unfold loc in *. rewrite Hl2.
    cbn [mo_params mo_name mo_klass].
    destruct (update_params_fold (kv :: d) ps' [] σ2 (ml_params w))
      as (added2 & σ3 & Hfold & Hread3 & Hlen3 & Hframe3).
    { done. }
    { done. }
    { simpl. rewrite Hkeys2. simpl.
      by rewrite <-(read_wparams_keys σ0 added (ml_params w)). }
    rewrite Hfold. cbn [mbind option_bind app].
    pose proof (lookup_lt_Some _ _ _ Hl2) as Hlt2.
    assert (Hl3 : ∀ i, i ≤ length σ1 → σ3 !! i = σ2 !! i).
    { intros i Hi. apply Hframe3; [lia|]. intros Hin.
      apply Hgt2 in Hin. lia. }
    eexists (length σ1), _. split; [reflexivity|]. split.
    + rewrite (read_wrapper_Some _ (length σ0) m (ml_params w));
        [by rewrite Hw| |].
      * rewrite list_lookup_insert_ne by lia.
        rewrite Hl3 by lia. rewrite Hframe2 by lia. done.
      * rewrite <-Hread1. apply read_wparams_agree. intros r Hr.
        apply Hvalid in Hr. rewrite list_lookup_insert_ne by lia.
        rewrite Hl3 by lia. apply Hframe2. lia.
    + rewrite (read_wrapper_Some _ (length σ1)
                 {| mo_name := mo_name m; mo_klass := mo_klass m;
                    mo_params := added2 |}
                 (update_held_in_lists (kv :: d) <$> ml_params w)); [done| |].
      * rewrite list_lookup_insert_eq by lia. done.
      * rewrite <-Hread3. apply read_wparams_agree. intros r Hr.
        destruct (read_wparams_refs σ3 added2 _ r Hread3 Hr) as [b Hb].
        apply list_lookup_insert_ne. intros <-.
        rewrite Hl3, Hl2 in Hb by lia. done.
Qed.

(** X21. On a wrapper as [_create_metalearner_wrap] builds it, with every
    baselearner wrapper an object of its own, [create_best_metalearner]
    returns whenever something was trained, and the wrapper it instantiates
    carries the parameters of [update_metalearner_params] only in the
    baselearner wrappers its parameters hold in lists: a baselearner
    wrapper held directly is replaced by a copy made before the update and
    keeps its parameters. The stored [_best_metalearner_wrap] reads as
    before. *)
Theorem create_best_metalearner_updates_lists_only (w : MetaLearnerWrapper)
    (σ : Store) (n_trained : nat)
    (update_metalearner_params : list (string * Atom)) :
  n_trained ≠ 0 →
  NoDup (ml_params w).*1 →
  ∃ ml_wrap σ',
    create_best_metalearner n_trained (alloc_wrapper w σ).1
                            update_metalearner_params (alloc_wrapper w σ).2
    = Some (ml_wrap, σ')
    ∧ read_wrapper σ' (alloc_wrapper w σ).1 = Some w
    ∧ read_wrapper σ' ml_wrap
      = Some {| ml_name := ml_name w; ml_klass := ml_klass w;
                ml_params := update_held_in_lists update_metalearner_params
                               <$> ml_params w |}.
Proof. apply create_best_metalearner_on_alloc. Qed.

(** X22. [AutoUpliftTX.create_best_metalearner] returns a value exactly
    when a report is asked for and something was trained: with
    [need_report=False] the variable [best_metalearner] is never assigned
    and [return best_metalearner] raises, after the wrapper was copied,
    updated and instantiated. *)
Theorem create_best_metalearner_needs_report (need_report : bool)
    (w : MetaLearnerWrapper) (σ : Store) (n_trained : nat)
    (update_metalearner_params : list (string * Atom)) :
  NoDup (ml_params w).*1 →
  is_Some (create_best_metalearner_result need_report n_trained
             (alloc_wrapper w σ).1 update_metalearner_params
             (alloc_wrapper w σ).2)
  ↔ need_report = true ∧ n_trained ≠ 0.
Proof.
  intros Hkeys. unfold create_best_metalearner_result. split.
  - intros [r Hr].
    destruct (create_best_metalearner _ _ _ _) as [[ml_wrap σ']|] eqn:Hc;
      [simpl in Hr|done].
    destruct need_report; [|done]. split; [done|].
    unfold create_best_metalearner in Hc. by case_decide.
  - intros [-> Hn].
    destruct (create_best_metalearner_on_alloc w σ n_trained
                update_metalearner_params Hn Hkeys)
      as (ml_wrap & σ' & -> & _).
    by eexists.
Qed.

(* ===================================================================== *)
(** * The rating table *)
(* ===================================================================== *)

Lemma insert_sorted_ascending {X : Type} (key : X → nat) (x : X)
    (l : list X) :
  ascending key l →
  ascending key (insert_sorted (λ a b, bool_decide (key a ≤ key b)) x l).
Proof.
  induction l as [|y l IH]; intros Hl; simpl.
  - by split.
  - destruct Hl as [Hy Hl]. case_bool_decide as Hxy; simpl.
    + split; [|by split]. constructor; [done|].
      eapply Forall_impl; [exact Hy|]. simpl. intros z Hz. lia.
    + split; [|by apply IH].
      rewrite insert_sorted_Permutation. constructor; [lia|done].
Qed.

Lemma sorted_ascending {X : Type} (key : X → nat) (l : list X) :
  ascending key (sorted (λ a b, bool_decide (key a ≤ key b)) l).
Proof.
  unfold sorted. induction l as [|x l IH]; simpl; [done|].
  by apply insert_sorted_ascending.
Qed.

Lemma ascending_lookup {X : Type} (key : X → nat) (l : list X) (i j : nat)
    (a b : X) :
  ascending key l → i < j → l !! i = Some a → l !! j = Some b →
  key a ≤ key b.
Proof.
  revert i j. induction l as [|x l IH]; intros i j Hl Hij Hi Hj; [done|].
  destruct Hl as [Hx Hl]. destruct j as [|j]; [lia|]. simpl in Hj.
  destruct i as [|i]; simpl in Hi.
  - injection Hi as ->. apply list_elem_of_lookup_2 in Hj.
    by apply (proj1 (Forall_forall _ _) Hx).
  - apply (IH i j); [done|lia|done|done].
Qed.

Lemma filter_length_disjoint {X : Type} (P Q R : X → Prop)
    `{∀ x, Decision (P x)} `{∀ x, Decision (Q x)} `{∀ x, Decision (R x)}
    (l : list X) :
  (∀ x, P x → R x) → (∀ x, Q x → R x) → (∀ x, P x → Q x → False) →
  length (filter P l) + length (filter Q l) ≤ length (filter R l).
Proof.
  intros HP HQ HPQ. induction l as [|x l IH]; [done|].
  rewrite !filter_cons.
  destruct (decide (P x)) as [Hp|Hp], (decide (Q x)) as [Hq|Hq],
    (decide (R x)) as [Hr|Hr]; simpl; try lia.
  - by destruct (HPQ x).
  - by destruct (HPQ x).
  - by destruct Hr; apply HP.
  - by destruct Hr; apply HQ.
Qed.

Lemma filter_length_take {X : Type} (Q : X → Prop) `{∀ x, Decision (Q x)}
    (l : list X) (j : nat) (v : X) :
  l !! j = Some v → Q v →
  S (length (filter Q (take j l))) ≤ length (filter Q l).
Proof.
  intros Hj Hv. rewrite <-(take_drop_middle l j v Hj) at 2.
  rewrite filter_app, filter_cons, decide_True by done.
  rewrite length_app. simpl. lia.
Qed.

Lemma filter_length_none {X : Type} (P : X → Prop) `{∀ x, Decision (P x)}
    (l : list X) :
  (∀ x, x ∈ l → ¬ P x) → length (filter P l) = 0.
Proof.
  induction l as [|x l IH]; intros Hl; [done|].
  rewrite filter_cons, decide_False by (apply Hl; by left).
  apply IH. intros y Hy. apply Hl. by right.
Qed.

Section RatingFacts.
Context {A : Type} `{Numeric A}.

(** The metrics are numbers: [<] is a strict order in which two values
    that are not equal are comparable. *)
Hypothesis ltb_irrefl : ∀ x : A, num_ltb x x = false.
Hypothesis ltb_trans : ∀ x y z : A,
  num_ltb x y = true → num_ltb y z = true → num_ltb x z = true.
Hypothesis ltb_cotrans : ∀ x y z : A,
  num_ltb x z = true → num_ltb x y = true ∨ num_ltb y z = true.
Hypothesis eqb_ltb : ∀ x y : A,
  num_eqb x y = true ↔ num_ltb x y = false ∧ num_ltb y x = false.

Lemma rank_first_positive (values : list A) (i : nat) (v : A) :
  1 ≤ rank_first values i v.
Proof. unfold rank_first. lia. Qed.

(** A higher value has a lower rank. *)
Lemma rank_first_antitone (values : list A) (i j : nat) (v v' : A) :
  values !! j = Some v' → num_ltb v v' = true →
  rank_first values j v' < rank_first values i v.
Proof.
  intros Hj Hlt. unfold rank_first.
  pose proof (filter_length_take (λ x, num_eqb x v' = true) values j v' Hj)
    as Htake.
  pose proof (filter_length_disjoint
                (λ x, num_ltb v' x = true) (λ x, num_eqb x v' = true)
                (λ x, num_ltb v x = true) values) as Hsum.
  assert (Hrefl : num_eqb v' v' = true) by (apply eqb_ltb; by split).
  specialize (Htake Hrefl).
  assert (length (filter (λ x, num_ltb v' x = true) values)
          + length (filter (λ x, num_eqb x v' = true) values)
          ≤ length (filter (λ x, num_ltb v x = true) values)); [|lia].
  apply Hsum.
  - intros x Hx. by apply (ltb_trans v v' x).
  - intros x Hx. apply eqb_ltb in Hx as [Hx _].
    destruct (ltb_cotrans v x v' Hlt) as [?|?]; [done|congruence].
  - intros x Hx Hx'. apply eqb_ltb in Hx' as [_ Hx']. congruence.
Qed.

Lemma rating_rows (metalearner_metrics : ScoreTable A) (r : RatingRow) :
  r ∈ get_metalearners_ranting metalearner_metrics →
  ∃ i, metalearner_metrics !! i = Some (row_entry r)
       ∧ col_Rank r = rank_first (snd <$> metalearner_metrics) i (col_Metrics r).
Proof.
  unfold get_metalearners_ranting. rewrite sorted_Permutation.
  intros Hin. apply list_elem_of_lookup in Hin as [i Hi].
  rewrite list_lookup_imap in Hi.
  apply fmap_Some in Hi as ([[n p] m] & Hkv & ->). exists i. by split.
Qed.

Lemma rating_Permutation (metalearner_metrics : ScoreTable A) :
  row_entry <$> get_metalearners_ranting metalearner_metrics
  ≡ₚ metalearner_metrics.
Proof.
  unfold get_metalearners_ranting. rewrite sorted_Permutation.
  rewrite fmap_imap.
  rewrite (imap_ext _ (const id)).
  - by rewrite imap_const, list_fmap_id.
  - by intros i [[n p] m] _.
Qed.

(** The entry [_set_best_metalearner] selects for an increasing metric has
    rank 1, and no other entry has. *)
Lemma rank_first_best (pre post : ScoreTable A)
    (best : TrainedMetaLearnerFullName * A) (i : nat)
    (e : TrainedMetaLearnerFullName * A) :
  (∀ x, x ∈ pre → num_ltb x.2 best.2 = true) →
  (∀ x, x ∈ post → num_ltb best.2 x.2 = false) →
  (pre ++ best :: post) !! i = Some e →
  rank_first (snd <$> pre ++ best :: post) i e.2 = 1 ↔ i = length pre.
Proof.
  intros Hpre Hpost Hi. unfold rank_first.
  assert (Hasym : ∀ x y : A, num_ltb x y = true → num_ltb y x = false).
  { intros x y Hxy. destruct (num_ltb y x) eqn:Hyx; [|done].
    pose proof (ltb_trans x y x Hxy Hyx). by rewrite ltb_irrefl in *. }
  assert (Hbest_in : (snd <$> pre ++ best :: post) !! length pre
                     = Some best.2).
  { rewrite list_lookup_fmap, lookup_app_r, Nat.sub_diag by lia. done. }
  split.
  - intros Hrank.
    destruct (decide (i < length pre)) as [Hlt|Hge].
    + rewrite lookup_app_l in Hi by done.
      apply list_elem_of_lookup_2, Hpre in Hi.
      assert (Hpos : 1 ≤ length (filter (λ x, num_ltb e.2 x = true)
                                        (snd <$> pre ++ best :: post))).
      { pose proof (filter_length_take (λ x, num_ltb e.2 x = true) _ _ _
                      Hbest_in Hi). lia. }
      lia.
    + destruct (decide (i = length pre)) as [->|Hne]; [done|].
      rewrite lookup_app_r in Hi by lia.
      destruct (i - length pre) as [|k] eqn:Hk; [lia|]. simpl in Hi.
      apply list_elem_of_lookup_2, Hpost in Hi.
      assert (Heq : num_eqb best.2 e.2 = true).
      { apply eqb_ltb. split; [done|].
        destruct (num_ltb e.2 best.2) eqn:Hlt; [|done].
        assert (Hpos : 1 ≤ length (filter (λ x, num_ltb e.2 x = true)
                                          (snd <$> pre ++ best :: post))).
        { pose proof (filter_length_take (λ x, num_ltb e.2 x = true) _ _ _
                        Hbest_in Hlt). lia. }
        lia. }
      assert (Hpos : 1 ≤ length (filter (λ x, num_eqb x e.2 = true)
                                   (take i (snd <$> pre ++ best :: post)))).
      { pose proof (filter_length_take (λ x, num_eqb x e.2 = true)
                      (take i (snd <$> pre ++ best :: post))
                      (length pre) best.2) as Ht.
        rewrite lookup_take_lt in Ht by lia. specialize (Ht Hbest_in Heq).
        lia. }
      lia.
  - intros ->. rewrite lookup_app_r, Nat.sub_diag in Hi by lia.
    injection Hi as <-.
    rewrite (filter_length_none (λ x, num_ltb best.2 x = true)).
    + rewrite <-fmap_take, take_app_length.
      rewrite (filter_length_none (λ x, num_eqb x best.2 = true)); [done|].
      intros x Hx. apply list_elem_of_fmap in Hx as (y & -> & Hy).
      apply Hpre in Hy. intros Heq. apply eqb_ltb in Heq as [Heq _].
      congruence.
    + intros x Hx. apply list_elem_of_fmap in Hx as (y & -> & Hy).
      apply elem_of_app in Hy as [Hy|Hy].
      * apply Hpre, Hasym in Hy. congruence.
      * apply elem_of_cons in Hy as [->|Hy].
        { rewrite ltb_irrefl. done. }
        { apply Hpost in Hy. congruence. }
Qed.

(** The entry selected for an increasing metric: the entries before it
    are below it, no entry after it is above it. *)
Lemma select_best_true_split (metrics : ScoreTable A) :
  metrics ≠ [] →
  ∃ pre best post,
    metrics = pre ++ best :: post
    ∧ select_best true metrics = Some best
    ∧ (∀ x, x ∈ pre → num_ltb x.2 best.2 = true)
    ∧ (∀ x, x ∈ post → num_ltb best.2 x.2 = false).
Proof.
  destruct metrics as [|e rest]; [done|]. intros _.
  destruct (select_best_invariant ltb_trans ltb_cotrans true rest [] [] e)
    as (pre & best & post & Heq & Hbest & Hpre & Hpost).
  { intros x Hx. by apply elem_of_nil in Hx. }
  { intros x Hx. by apply elem_of_nil in Hx. }
  exists pre, best, post. split_and!.
  - done.
  - done.
  - intros x Hx. apply Hpre in Hx. by rewrite replaces_direction in Hx.
  - intros x Hx. apply Hpost in Hx. by rewrite replaces_direction in Hx.
Qed.

(** X23. [AutoUpliftTX.get_metalearners_ranting], for metrics that are
    numbers: the table has one row for every entry of
    [_metalearner_metrics] and no other; down the table the ranks do not
    decrease and the metrics do not increase; and the first row is the
    entry that [_set_best_metalearner] selects when [increasing_metric] is
    true, the earliest entry among those with the highest metric. The
    rating is always by descending metric, whatever [increasing_metric]
    is. *)
Theorem rating_table_order (metalearner_metrics : ScoreTable A) :
  row_entry <$> get_metalearners_ranting metalearner_metrics
  ≡ₚ metalearner_metrics
  ∧ (∀ i j r r',
       i < j →
       get_metalearners_ranting metalearner_metrics !! i = Some r →
       get_metalearners_ranting metalearner_metrics !! j = Some r' →
       col_Rank r ≤ col_Rank r' ∧ num_ltb (col_Metrics r) (col_Metrics r') = false)
  ∧ row_entry <$> head (get_metalearners_ranting metalearner_metrics)
    = select_best true metalearner_metrics.
Proof.
  split; [apply rating_Permutation|]. split.
  - intros i j r r' Hij Hi Hj.
    assert (Hle : col_Rank r ≤ col_Rank r').
    { apply (ascending_lookup col_Rank
               (get_metalearners_ranting metalearner_metrics) i j r r');
        [|done|done|done].
      apply sorted_ascending. }
    split; [done|].
    destruct (num_ltb (col_Metrics r) (col_Metrics r')) eqn:Hlt; [|done].
    apply list_elem_of_lookup_2, rating_rows in Hi as (i0 & Hi0 & Hr).
    apply list_elem_of_lookup_2, rating_rows in Hj as (j0 & Hj0 & Hr').
    pose proof (rank_first_antitone (snd <$> metalearner_metrics) i0 j0
                  (col_Metrics r) (col_Metrics r')) as Hanti.
    rewrite list_lookup_fmap, Hj0 in Hanti. specialize (Hanti eq_refl Hlt).
    lia.
  - destruct (decide (metalearner_metrics = [])) as [->|Hne]; [done|].
    destruct (select_best_true_split metalearner_metrics Hne)
      as (pre & best & post & -> & -> & Hpre & Hpost).
    set (metrics := pre ++ best :: post).
    set (rb := {| col_MetaLearner := best.1.1; col_Parameters := best.1.2;
                  col_Metrics := best.2;
                  col_Rank := rank_first (snd <$> metrics) (length pre) best.2 |}).
    assert (Hbest : metrics !! length pre = Some best).
    { unfold metrics. by rewrite lookup_app_r, Nat.sub_diag by lia. }
    assert (Hrb : rb ∈ get_metalearners_ranting metrics).
    { unfold get_metalearners_ranting. rewrite sorted_Permutation.
      apply (list_elem_of_lookup_2 _ (length pre)).
      rewrite list_lookup_imap. apply fmap_Some. by exists best. }
    assert (Hrank : col_Rank rb = 1).
    { simpl. by apply (rank_first_best pre post best (length pre) best). }
    pose proof (sorted_ascending col_Rank
                  (imap (λ i kv, {| col_MetaLearner := kv.1.1;
                                    col_Parameters := kv.1.2;
                                    col_Metrics := kv.2;
                                    col_Rank := rank_first (snd <$> metrics)
                                                       i kv.2 |})
                        metrics)) as Hasc.
    fold (get_metalearners_ranting metrics) in Hasc.
    assert (Hrows : ∀ r, r ∈ get_metalearners_ranting metrics →
                         col_Rank r = 1 → row_entry r = best).
    { intros r Hr Hone. apply rating_rows in Hr as (j & Hj & Hr).
      rewrite Hr in Hone.
      apply (rank_first_best pre post best j (row_entry r)) in Hone;
        [|done|done|done].
      subst j. rewrite Hbest in Hj. by injection Hj as <-. }
    destruct (get_metalearners_ranting metrics)
      as [|r0 rating] eqn:Hrating; [by apply elem_of_nil in Hrb|].
    simpl. f_equal. destruct Hasc as [Hhead _].
    assert (Hle : col_Rank r0 ≤ 1).
    { apply elem_of_cons in Hrb as [<-|Hrb]; [lia|].
      apply (proj1 (Forall_forall _ _) Hhead) in Hrb. lia. }
    apply Hrows; [by left|].
    assert (Hr0 : r0 ∈ get_metalearners_ranting metrics).
    { rewrite Hrating. by left. }
    apply rating_rows in Hr0 as (j & _ & Hr0).
    pose proof (rank_first_positive (snd <$> metrics) j (col_Metrics r0)). lia.
Qed.
End RatingFacts.

(* ===================================================================== *)
(** * The selected [XLearner] *)
(* ===================================================================== *)

Section SelectedXLearner.
Context {A : Type} `{Numeric A} {Model : Type}.
Variable fit_predict : BaseLearnerWrapper → DataFrame A → Roles → Model.
Variable predict : Model → DataFrame A → list A.
Variable calculate_uplift_auc : list A → list A → list A → string → bool → A.
Variable train_test_split :
  DataFrame A → list A → nat → DataFrame A * DataFrame A.
Variable time_limit_exceeded : nat → bool.
Variable rand : nat → nat.
Implicit Types (cache : Cache A Model) (r : TrainedStageBaseLearner A Model)
               (ml_bls set_bls : StageBls A Model).

(** [_get_trained_bl] returns the first record of the stage with the
    name, whatever baselearner it was trained after. *)
Lemma get_trained_bl_first cache (key : MLStageFullName) (n : string) built :
  _get_trained_bl cache key n = Some built →
  ∃ records i,
    dict_get key cache = Some records
    ∧ records !! i = Some built
    ∧ name (stage_bl built) = n
    ∧ ∀ j r, j < i → records !! j = Some r → name (stage_bl r) ≠ n.
Proof.
  unfold _get_trained_bl. intros Hget.
  apply fmap_Some in Hget as ([i r] & Hfind & ->).
  apply list_find_Some in Hfind as (Hi & Hname & Hfirst).
  destruct (dict_get key cache) as [records|]; [|done]. simpl in *.
  exists records, i. split_and!; [done|done|done|].
  intros j r' Hj Hr'. by apply (Hfirst j r').
Qed.

(** The name an entry of the score table gives for a stage is that of
    the record assembled for the stage. *)
Lemma sorted_names_lookup ml_bls (key : MLStageFullName) r :
  NoDup ml_bls.*1 → dict_get key ml_bls = Some r →
  dict_get key
    (dict_of_list
       (sorted sbl_leb
          ((λ sb : MLStageFullName * TrainedStageBaseLearner A Model,
              (sb.1, name (stage_bl sb.2))) <$> ml_bls)))
  = Some (name (stage_bl r)).
Proof.
  intros Hnd Hget.
  assert (Hkeys : (sorted sbl_leb
                     ((λ sb : MLStageFullName * TrainedStageBaseLearner A Model,
                         (sb.1, name (stage_bl sb.2))) <$> ml_bls)).*1
                  ≡ₚ ml_bls.*1).
  { rewrite sorted_Permutation, <-list_fmap_compose. done. }
  assert (Hnd' : NoDup (sorted sbl_leb
                     ((λ sb : MLStageFullName * TrainedStageBaseLearner A Model,
                         (sb.1, name (stage_bl sb.2))) <$> ml_bls)).*1).
  { by rewrite Hkeys. }
  rewrite dict_of_list_NoDup by done.
  apply dict_get_NoDup; [done|]. rewrite sorted_Permutation.
  apply list_elem_of_fmap. exists (key, r). split; [done|].
  by apply dict_get_Some_elem.
Qed.

(** X24. When [fit] selects an [XLearner], the entry was scored on one
    record per stage, the second-level records being those trained after
    the first-level candidates the entry names; but [_best_metalearner] is
    built by [_get_trained_bl] from the first cached record of each stage
    that has the name the entry gives, whatever candidate this record was
    trained after. For a first-level stage with several candidates the
    effect models of the returned predictor can therefore be other ones
    than those whose predictions were scored. *)
Theorem best_xlearner_takes_first_by_name (self : Settings)
    (stage_baselearners : list (MLStageFullName * list BaseLearnerWrapper))
    (data : DataFrame A) (roles : Roles) (fitted : Fitted A Model)
    (sbls : list (MLStageFullName * string)) :
  fit fit_predict predict calculate_uplift_auc train_test_split
      time_limit_exceeded rand self stage_baselearners data roles
  = Some fitted →
  best_candidate fitted = ("XLearner", sbls) →
  ∃ set_bls ml_bls ocl otl pl ecl etl,
    set_bls ∈ combinations (trained_stage_baselearners fitted)
    ∧ ("XLearner", ml_bls) ∈ assemble set_bls
    ∧ sbls = sorted sbl_leb
               ((λ sb : MLStageFullName * TrainedStageBaseLearner A Model,
                   (sb.1, name (stage_bl sb.2))) <$> ml_bls)
    ∧ (∀ key r prev_bl,
         dict_get key ml_bls = Some r → prev_stage_bl r = Some prev_bl →
         dict_get (prefix1 key) sbls = Some (name prev_bl))
    ∧ best_metalearner fitted
      = XLearner [trained_model ocl; trained_model otl]
                 [trained_model ecl; trained_model etl]
                 (trained_model pl)
    ∧ ∀ key built,
        (key, built) ∈ [ (["outcome_control"], ocl);
                         (["outcome_treatment"], otl);
                         (["propensity"], pl);
                         (["outcome_treatment"; "effect_control"], ecl);
                         (["outcome_control"; "effect_treatment"], etl) ] →
        ∃ scored records i,
          dict_get key ml_bls = Some scored
          ∧ dict_get key (trained_stage_baselearners fitted) = Some records
          ∧ records !! i = Some built
          ∧ name (stage_bl built) = name (stage_bl scored)
          ∧ ∀ j r, j < i → records !! j = Some r →
                   name (stage_bl r) ≠ name (stage_bl scored).
Proof.
  intros Hfit Hbest_name. unfold fit in Hfit.
  destruct (_prepare_data _ _ _ _) as [[[[train test] tt] ty]|];
    [simpl in Hfit|done].
  destruct (fit_loop _ _ _ _ _ _ _ _ _ _) as [cache|] eqn:Hloop;
    [simpl in Hfit|done].
  destruct (_calculate_ml_metric _ _ _ _ _ _ _) as [metrics|] eqn:Hm;
    [simpl in Hfit|done].
  unfold _set_best_metalearner in Hfit.
  destruct (select_best _ metrics) as [[best score]|] eqn:Hsel;
    [simpl in Hfit|done].
  destruct (_init_metalearner _ _ _) as [ml|] eqn:Hml; [simpl in Hfit|done].
  destruct (_create_metalearner_wrap _ _ _) as [ml_wrap|] eqn:Hwrap;
    [simpl in Hfit|done].
  injection Hfit as <-. simpl in *. subst best.
  apply select_best_Some_elem in Hsel.
  unfold _calculate_ml_metric, _bl_for_ml in Hm.
  destruct (existsb id (ready_metalearners cache)); [simpl in Hm|done].
  destruct (score_all_sound _ _ _ _ _ _ _ _ Hm _ Hsel)
    as [Hnil|([ml_name ml_bls] & up & Hin & Hup & Heq)];
    [by apply elem_of_nil in Hnil|].
  simpl in Hup, Heq. injection Heq as <- Hsbls Hscore.
  apply list_elem_of_join in Hin as (yielded & Hin & Hy).
  apply list_elem_of_fmap in Hy as (set_bls & -> & Hset).
  pose proof Hin as Hassembled.
  apply assemble_elem in Hin as (ml_stages & HMAP & Hcollect & Hlen).
  assert (ml_stages = [ stage "outcome_control"; stage "outcome_treatment";
                        propensity_stage; effect_control_stage;
                        effect_treatment_stage ]) as ->.
  { unfold MAP_META_TO_STAGES in HMAP.
    apply elem_of_cons in HMAP as [[=]|HMAP].
    by apply list_elem_of_singleton in HMAP as [= ->]. }
  destruct (collect_ml_bls_complete set_bls _
              ltac:(by eapply MAP_META_TO_STAGES_NoDup)
              ltac:(by rewrite <-Hcollect)) as [Hnd Hall].
  rewrite <-Hcollect in Hnd, Hall.
  (* the scored record of a stage and the name the entry gives it *)
  assert (Hstage : ∀ s,
    s ∈ [ stage "outcome_control"; stage "outcome_treatment";
          propensity_stage; effect_control_stage; effect_treatment_stage ] →
    ∃ scored,
      dict_get (full_name s) ml_bls = Some scored
      ∧ dict_get (full_name s) set_bls = Some scored
      ∧ dict_get (full_name s) (dict_of_list sbls)
        = Some (name (stage_bl scored))).
  { intros s Hs. destruct (Hall s Hs) as (scored & Hml_bls & Hset_bls).
    exists scored. split_and!; [done|done|]. rewrite Hsbls.
    by apply sorted_names_lookup. }
  destruct (Hstage (stage "outcome_control")) as (s_oc & Hoc1 & Hoc2 & Hoc3);
    [set_solver|].
  destruct (Hstage (stage "outcome_treatment")) as (s_ot & Hot1 & Hot2 & Hot3);
    [set_solver|].
  destruct (Hstage propensity_stage) as (s_p & Hp1 & Hp2 & Hp3);
    [set_solver|].
  destruct (Hstage effect_control_stage) as (s_ec & Hec1 & Hec2 & Hec3);
    [set_solver|].
  destruct (Hstage effect_treatment_stage) as (s_et & Het1 & Het2 & Het3);
    [set_solver|].
  cbn [full_name] in *. simpl in Hoc1, Hoc2, Hoc3, Hot1, Hot2, Hot3,
    Hp1, Hp2, Hp3, Hec1, Hec2, Hec3, Het1, Het2, Het3.
  (* the records the predictor is built from *)
  unfold _init_metalearner, chosen_bl in Hml. cbn [fst snd] in Hml.
  rewrite decide_False in Hml by done. rewrite decide_True in Hml by done.
  unfold MLStageFullName in *.
  rewrite Hoc3, Hot3, Hp3, Hec3, Het3 in Hml.
  cbn [mbind option_bind] in Hml.
  destruct (_get_trained_bl cache ["outcome_control"] _) as [ocl|] eqn:Hocl;
    [cbn [mbind option_bind] in Hml|done].
  destruct (_get_trained_bl cache ["outcome_treatment"] _) as [otl|] eqn:Hotl;
    [cbn [mbind option_bind] in Hml|done].
  destruct (_get_trained_bl cache ["propensity"] _) as [pl|] eqn:Hpl;
    [cbn [mbind option_bind] in Hml|done].
  destruct (_get_trained_bl cache ["outcome_treatment"; "effect_control"] _)
    as [ecl|] eqn:Hecl; [cbn [mbind option_bind] in Hml|done].
  destruct (_get_trained_bl cache ["outcome_control"; "effect_treatment"] _)
    as [etl|] eqn:Hetl; [cbn [mbind option_bind] in Hml|done].
  injection Hml as <-.
  exists set_bls, ml_bls, ocl, otl, pl, ecl, etl.
  split_and!; [done|done|done| |done|].
  - (* the scored second-level records follow the selected candidates *)
    intros key r prev_bl Hr Hprev.
    destruct (collect_ml_bls_invariant set_bls
                [ stage "outcome_control"; stage "outcome_treatment";
                  propensity_stage; effect_control_stage;
                  effect_treatment_stage ] []) as [_ Hinv];
      [apply NoDup_nil_2|].
    fold (collect_ml_bls set_bls
            [ stage "outcome_control"; stage "outcome_treatment";
              propensity_stage; effect_control_stage;
              effect_treatment_stage ]) in Hinv.
    rewrite <-Hcollect in Hinv.
    destruct (Hinv key r (dict_get_Some_elem _ _ _ Hr))
      as [Hnil|(s & Hs & Hkey & _ & _ & Hpair)];
      [by apply elem_of_nil in Hnil|].
    destruct (Hpair prev_bl Hprev) as (first_sbl & Hfirst & Hname).
    rewrite <-Hname, <-Hkey.
    assert (Hpre : ∃ s1,
      s1 ∈ [ stage "outcome_control"; stage "outcome_treatment";
             propensity_stage; effect_control_stage;
             effect_treatment_stage ]
      ∧ full_name s1 = prefix1 (full_name s)).
    { repeat (apply elem_of_cons in Hs as [->|Hs]);
        [exists (stage "outcome_control")
        |exists (stage "outcome_treatment")
        |exists propensity_stage
        |exists (stage "outcome_treatment")
        |exists (stage "outcome_control")
        |by apply elem_of_nil in Hs];
        (split; [set_solver|reflexivity]). }
    destruct Hpre as (s1 & Hs1 & Hfn).
    destruct (Hall s1 Hs1) as (r1 & Hr1 & Hr1').
    rewrite Hfn in Hr1, Hr1'. rewrite <-Hkey in Hfirst.
    unfold MLStageFullName in *. rewrite Hfirst in Hr1'.
    injection Hr1' as <-. rewrite Hsbls.
    rewrite <-(dict_of_list_NoDup (sorted _ _)).
    + by apply sorted_names_lookup.
    + rewrite sorted_Permutation, <-list_fmap_compose. done.
  - (* each is the first record with the name *)
    intros key built Hkb.
    repeat (apply elem_of_cons in Hkb as [[= -> ->]|Hkb]);
      [apply get_trained_bl_first in Hocl
         as (records & i & Hrec & Hi & Hname & Hfirst);
       exists s_oc, records, i
      |apply get_trained_bl_first in Hotl
         as (records & i & Hrec & Hi & Hname & Hfirst);
       exists s_ot, records, i
      |apply get_trained_bl_first in Hpl
         as (records & i & Hrec & Hi & Hname & Hfirst);
       exists s_p, records, i
      |apply get_trained_bl_first in Hecl
         as (records & i & Hrec & Hi & Hname & Hfirst);
       exists s_ec, records, i
      |apply get_trained_bl_first in Hetl
         as (records & i & Hrec & Hi & Hname & Hfirst);
       exists s_et, records, i
      |by apply elem_of_nil in Hkb];
      by split_and!.
Qed.
End SelectedXLearner.

(* ===================================================================== *)
(** * The properties on the two-candidate configuration *)
(* ===================================================================== *)

Lemma example_candidates_known (key : MLStageFullName) :
  key ∈ example_candidates.*1 → length key = 1 ∨ length key = 2 →
  is_Some (_extract_stage key).
Proof.
  intros Hin _. unfold example_candidates in Hin. simpl in Hin.
  repeat (apply elem_of_cons in Hin as [->|Hin];
          [eexists; vm_compute; reflexivity|]).
  by apply elem_of_nil in Hin.
Qed.

Lemma example_candidates_same_length (key : MLStageFullName)
    (candidates : list BaseLearnerWrapper) :
  (key, candidates) ∈ example_candidates → length key = 1 →
  length candidates = 2.
Proof.
  intros Hin _. unfold example_candidates in Hin.
  repeat (apply elem_of_cons in Hin as [[= -> ->]|Hin]; [reflexivity|]).
  by apply elem_of_nil in Hin.
Qed.

Lemma example_train_columns :
  Forall (λ row : gmap string Z, is_Some (row !! "t") ∧ is_Some (row !! "y"))
         example_train.
Proof. apply (bool_decide_unpack _). vm_compute. exact I. Qed.

Lemma example_predict_length (m : string) (df : DataFrame Z) :
  length (example_predict m df) = length df.
Proof. unfold example_predict. apply length_fmap. Qed.

Lemma generator_ends_normally_witness :
  ∃ st,
    (_generate_stage_baselearner_candidates (λ _, 0) example_candidates).2
    = Some st
    ∧ pool st = [].
Proof.
  apply (generator_ends_normally (λ _, 0) example_candidates).
  exact example_candidates_known.
Defined.

Lemma generator_yields_all_submissions_witness :
  (_generate_stage_baselearner_candidates (λ _, 0) example_candidates).1
  ≡ₚ all_submissions example_candidates.
Proof.
  apply (generator_yields_all_submissions (λ _, 0) example_candidates
           {| pool := []; first_run := false; n_runs := 12; draws := 12 |}).
  vm_compute. reflexivity.
Defined.

Lemma prerequisite_submitted_first_witness :
  ∃ i, i < 4
       ∧ (_generate_stage_baselearner_candidates (λ _, 0) example_candidates).1
           !! i
         = Some [(stage "outcome_control", Some (example_bl "A"))].
Proof.
  apply (prerequisite_submitted_first (λ _, 0) example_candidates 4
           (stage "outcome_control") effect_treatment_stage
           (Some (example_bl "A")) (Some (example_bl "A"))).
  vm_compute. reflexivity.
Defined.

Lemma generator_submission_shapes_witness :
  (∃ ml_stage bl,
     [(stage "outcome_control", Some (example_bl "A"));
      (effect_treatment_stage, Some (example_bl "A"))] = [(ml_stage, bl)]
     ∧ ml_stage ∈ [stage "outcome_control"; stage "outcome_treatment";
                   propensity_stage])
  ∨ (∃ bl_l1 bl_l2,
       [(stage "outcome_control", Some (example_bl "A"));
        (effect_treatment_stage, Some (example_bl "A"))]
       = [(stage "outcome_treatment", bl_l1);
          (effect_control_stage, Some bl_l2)])
  ∨ (∃ bl_l1 bl_l2,
       [(stage "outcome_control", Some (example_bl "A"));
        (effect_treatment_stage, Some (example_bl "A"))]
       = [(stage "outcome_control", bl_l1);
          (effect_treatment_stage, Some bl_l2)]).
Proof.
  apply (generator_submission_shapes (λ _, 0) example_candidates).
  apply (list_elem_of_lookup_2 _ 4). vm_compute. reflexivity.
Defined.

Lemma fit_loop_trains_every_submission_witness :
  (∃ cache,
     foldlM (λ c si, _evaluate example_fit_predict example_predict c si
                               example_train example_train example_roles)
            []
            (_generate_stage_baselearner_candidates
               (λ _, 0) example_candidates).1
     = Some cache
     ∧ length (cache_keys cache)
       = length (_generate_stage_baselearner_candidates
                   (λ _, 0) example_candidates).1)
  ∧ is_Some (fit_loop example_fit_predict example_predict (time_limit_after 9)
               example_train example_train example_roles
               (_generate_stage_baselearner_candidates
                  (λ _, 0) example_candidates).1
               (bool_decide (is_Some (_generate_stage_baselearner_candidates
                                        (λ _, 0) example_candidates).2))
               0 []).
Proof.
  apply (fit_loop_trains_every_submission example_fit_predict example_predict
           (time_limit_after 9) (λ _, 0) example_candidates
           example_train example_train example_roles "t" "y" 2).
  - reflexivity.
  - reflexivity.
  - discriminate.
  - exact example_train_columns.
  - exact example_predict_length.
  - exact example_candidates_known.
  - exact example_candidates_same_length.
Defined.

Lemma fit_returns_on_complete_run_witness :
  ∃ fitted,
    fit example_fit_predict example_predict example_metric example_split
        no_time_limit (λ _, 0) example_settings example_candidates
        example_train example_roles
    = Some fitted
    ∧ cache_keys (trained_stage_baselearners fitted)
      ≡ₚ omap submission_key (all_submissions example_candidates)
    ∧ ∃ score, (best_candidate fitted, score) ∈ metalearner_metrics fitted.
Proof.
  apply (fit_returns_on_complete_run example_fit_predict example_predict
           example_metric example_split no_time_limit (λ _, 0)
           example_settings example_candidates
           example_train example_train example_train example_roles
           [0; 1; 0; 1]%Z [1; 0; 0; 1]%Z "t" "y" 2
           [example_bl "A"; example_bl "B"] [example_bl "A"; example_bl "B"]).
  - vm_compute. reflexivity.
  - reflexivity.
  - reflexivity.
  - discriminate.
  - exact example_train_columns.
  - exact example_predict_length.
  - exact example_candidates_known.
  - exact example_candidates_same_length.
  - lia.
  - unfold example_candidates. apply elem_of_cons. by left.
  - unfold example_candidates. apply elem_of_cons. right.
    apply elem_of_cons. by left.
  - reflexivity.
Defined.

Lemma fit_raises_when_budget_ends_at_first_event_witness :
  fit example_fit_predict example_predict example_metric example_split
      (time_limit_after 1) (λ _, 0) example_settings example_candidates
      example_train example_roles
  = None.
Proof.
  apply (fit_raises_when_budget_ends_at_first_event example_fit_predict
           example_predict example_metric example_split (time_limit_after 1)
           (λ _, 0) example_settings example_candidates example_train
           example_roles).
  reflexivity.
Defined.

Lemma bl_for_ml_needs_outcome_stages_witness :
  is_Some (_bl_for_ml example_full_cache)
  ∧ length example_yielded = 4.
Proof.
  destruct (bl_for_ml_needs_outcome_stages example_full_cache)
    as [Hready Hcount].
  assert (Hsome : is_Some (_bl_for_ml example_full_cache)).
  { apply Hready. split; eexists; reflexivity. }
  split; [exact Hsome|].
  destruct Hsome as [yielded Hyielded]. unfold example_yielded.
  rewrite Hyielded. simpl. rewrite (Hcount yielded Hyielded). reflexivity.
Defined.

(* ===================================================================== *)
(** * The further properties on concrete configurations *)
(* ===================================================================== *)

Lemma insertion_order_Permutation (l : list MLStageFullName) :
  insertion_order l ≡ₚ l.
Proof. reflexivity. Qed.

Lemma Z_ltb_trans (x y z : Z) :
  num_ltb x y = true → num_ltb y z = true → num_ltb x z = true.
Proof. simpl. lia. Qed.

Lemma Z_ltb_cotrans (x y z : Z) :
  num_ltb x z = true → num_ltb x y = true ∨ num_ltb y z = true.
Proof. simpl. lia. Qed.

Lemma example_outcome_names (key : MLStageFullName)
    (candidates : list BaseLearnerWrapper) :
  (key, candidates) ∈ example_outcome_candidates →
  NoDup (name <$> candidates).
Proof.
  intros Hin. unfold example_outcome_candidates in Hin.
  repeat (apply elem_of_cons in Hin as [[= -> ->]|Hin];
          [apply (bool_decide_unpack _); vm_compute; exact I|]).
  by apply elem_of_nil in Hin.
Qed.

Lemma update_params_lookup_witness :
  name (update_params [("timeout", ANone); ("cpu_limit", AInt 2)]
                      (example_bl "A")) = "A"
  ∧ dict_get "timeout"
      (params (update_params [("timeout", ANone); ("cpu_limit", AInt 2)]
                             (example_bl "A")))
    = Some ANone.
Proof.
  destruct (update_params_lookup [("timeout", ANone); ("cpu_limit", AInt 2)]
              (example_bl "A")) as (Hname & _ & Hget & _).
  - apply (bool_decide_unpack _). vm_compute. exact I.
  - split; [exact Hname|]. exact (Hget "timeout").
Defined.

Lemma evaluate_appends_one_record_witness :
  ∃ ml_stage bl_wrap train_data train_roles r,
    last [(stage "outcome_control", Some (example_bl "A"))]
    = Some (ml_stage, Some bl_wrap)
    ∧ _prepare_data_for_stage example_predict []
        [(stage "outcome_control", Some (example_bl "A"))]
        example_train example_roles
      = Some (train_data, train_roles)
    ∧ stage_bl r = bl_wrap
    ∧ trained_model r = example_fit_predict bl_wrap train_data train_roles
    ∧ pred r = example_predict (trained_model r) example_train
    ∧ prev_stage_bl r = None
    ∧ dict_get (full_name ml_stage) example_first_event = Some ([] ++ [r])
    ∧ ∀ key, key ≠ full_name ml_stage →
             dict_get key example_first_event = dict_get key [].
Proof.
  apply (evaluate_appends_one_record example_fit_predict example_predict
           [] example_first_event
           [(stage "outcome_control", Some (example_bl "A"))]
           example_train example_train example_roles).
  vm_compute. reflexivity.
Defined.

Lemma fit_scores_are_metric_values_witness :
  ∃ train test test_treatment test_target,
    _prepare_data example_split example_settings example_train example_roles
    = Some (train, test, test_treatment, test_target)
    ∧ ∀ entry score, (entry, score) ∈ metalearner_metrics example_fitted →
        ∃ set_bls ml_bls uplift_pred,
          set_bls ∈ combinations (trained_stage_baselearners example_fitted)
          ∧ (entry.1, ml_bls) ∈ assemble set_bls
          ∧ entry.2 = sorted sbl_leb
                        ((λ sb : MLStageFullName
                                 * TrainedStageBaseLearner Z string,
                            (sb.1, name (stage_bl sb.2))) <$> ml_bls)
          ∧ _metalearner_predict entry.1 ml_bls = Some uplift_pred
          ∧ score = example_metric test_treatment uplift_pred test_target
                      (metric example_settings)
                      (normed_metric example_settings).
Proof.
  apply (fit_scores_are_metric_values example_fit_predict example_predict
           example_metric example_split no_time_limit (λ _, 0)
           example_settings example_candidates example_train example_roles
           example_fitted).
  vm_compute. reflexivity.
Defined.

Lemma best_tlearner_is_the_scored_one_witness :
  ∃ control treatment : TrainedStageBaseLearner Z string,
    best_metalearner example_outcome_fitted
    = TLearner (trained_model control) (trained_model treatment)
    ∧ best_metalearner_wrap example_outcome_fitted
      = {| ml_name := "__ML__TLearner"; ml_klass := "TLearner";
           ml_params := [ ("control_learner", WOne (stage_bl control));
                          ("treatment_learner", WOne (stage_bl treatment)) ] |}.
Proof.
  destruct (best_tlearner_is_the_scored_one example_fit_predict
              example_predict example_metric example_split no_time_limit
              (λ _, 0) example_settings example_outcome_candidates
              example_train example_roles example_outcome_fitted
              [(["outcome_control"], "A"); (["outcome_treatment"], "A")])
    as (_ & _ & _ & _ & _ & _ & control & treatment & _ & _ & _ & _ & _ & _
        & _ & Hbest & Hwrap & _).
  - apply (bool_decide_unpack _). vm_compute. exact I.
  - exact example_outcome_names.
  - vm_compute. reflexivity.
  - vm_compute. reflexivity.
  - exists control, treatment. split; [exact Hbest|exact Hwrap].
Defined.

Lemma set_stage_baselearners_fills_missing_witness :
  ∃ missing,
    missing ≡ₚ [ ["outcome_treatment"]; ["propensity"];
                 ["outcome_treatment"; "effect_control"];
                 ["outcome_control"; "effect_treatment"] ]
    ∧ _set_stage_baselearners insertion_order example_tx_one_stage
      = Some ([(["outcome_control"], [example_bl "A"])]
              ++ ((λ key, (key, default_candidates (Some 30%Z)
                                  (task_of_stage (ATask "binary") key)))
                    <$> missing)).
Proof.
  destruct (set_stage_baselearners_fills_missing insertion_order
              insertion_order_Permutation example_tx_one_stage
              [(["outcome_control"], [example_bl "A"])] "binary")
    as [_ Hfill].
  - reflexivity.
  - apply (bool_decide_unpack _). vm_compute. exact I.
  - reflexivity.
  - apply (Hfill ltac:(simpl; lia) (Some 30%Z)). reflexivity.
Defined.

Lemma set_stage_baselearners_ignores_list_witness :
  ∃ order,
    order ≡ₚ all_stages_full_names
    ∧ _set_stage_baselearners insertion_order example_tx
      = Some ((λ key, (key, default_candidates (Some 14%Z)
                              (task_of_stage (base_task example_tx) key)))
                <$> order).
Proof.
  apply (set_stage_baselearners_ignores_list insertion_order
           insertion_order_Permutation example_tx "binary" (Some 14%Z)).
  - by left.
  - reflexivity.
  - reflexivity.
Defined.


Lemma default_candidates_run_witness :
  ∃ stage_baselearners,
    _set_stage_baselearners insertion_order example_tx
    = Some stage_baselearners
    ∧ let gen := _generate_stage_baselearner_candidates
                   (λ _, 0) stage_baselearners in
      is_Some gen.2
      ∧ length gen.1 = 14
      ∧ is_Some (fit_loop example_fit_predict example_predict no_time_limit
                          example_train example_train example_roles
                          gen.1 (bool_decide (is_Some gen.2)) 0 []).
Proof.
  apply (default_candidates_run example_fit_predict example_predict
           no_time_limit (λ _, 0) insertion_order insertion_order_Permutation
           example_tx "binary" (Some 14%Z) example_train example_train
           example_roles "t" "y").
  - by left.
  - reflexivity.
  - reflexivity.
  - reflexivity.
  - reflexivity.
  - discriminate.
  - exact example_train_columns.
  - exact example_predict_length.
Defined.

Lemma autouplift_holdout_metrics_witness :
  AutoUplift.candidate_holdout_metrics example_search
  = [Some 3; Some (-1); Some 5; Some 5; None]%Z
  ∧ candidates_evaluated (time_limit_after 4) 0
      (length example_uplift_candidates) = 4.
Proof.
  destruct (autouplift_holdout_metrics example_fit_candidate
              example_predict_uplift example_metric example_split
              (time_limit_after 4) example_settings example_train
              example_train example_roles [0; 1; 0; 1]%Z [1; 0; 0; 1]%Z
              example_uplift_candidates example_train example_search)
    as (Hmetrics & _).
  - vm_compute. reflexivity.
  - vm_compute. reflexivity.
  - split; [exact Hmetrics|reflexivity].
Defined.

Lemma autouplift_selects_witness :
  ∃ best,
    AutoUplift.best_metalearner_candidate_info example_search = Some best
    ∧ AutoUplift.best_metalearner example_search
      = Some (example_fit_candidate best example_train example_roles).
Proof.
  destruct (autouplift_selects example_fit_candidate
              example_predict_uplift example_metric example_split
              (time_limit_after 4) example_settings example_train
              example_train example_roles [0; 1; 0; 1]%Z [1; 0; 0; 1]%Z
              Z_ltb_trans Z_ltb_cotrans
              example_uplift_candidates example_train example_search)
    as (best & Hinfo & Hbest & _).
  - vm_compute. reflexivity.
  - vm_compute. reflexivity.
  - exists best. split; [exact Hinfo|exact Hbest].
Defined.

Lemma wrapper_call_instantiates_witness :
  ∃ kwargs,
    Wrapper_call "outer" "XLearner" example_nested_params
    = VObject "XLearner" kwargs
    ∧ kwargs.*1 = ["timeout"; "learners"]
    ∧ wrapper_free (VObject "XLearner" kwargs) = true.
Proof.
  destruct (wrapper_call_instantiates "outer" "XLearner"
              example_nested_params)
    as (kwargs & Hcall & _ & Hkeys & Hfree & _).
  exists kwargs. split_and!; [exact Hcall|exact Hkeys|].
  apply Hfree. reflexivity.
Defined.

Lemma create_best_metalearner_keeps_store_witness :
  1 ≠ 0
  ∧ take (length example_stored.2) example_created.2 = example_stored.2
  ∧ example_created.1 = length example_stored.2
  ∧ example_created.1 < length example_created.2.
Proof.
  apply (create_best_metalearner_keeps_store 1 example_stored.1
           [("timeout", ANone)] example_stored.2
           example_created.1 example_created.2).
  vm_compute. reflexivity.
Defined.

Lemma create_best_metalearner_updates_lists_only_witness :
  ∃ ml_wrap σ',
    create_best_metalearner 1 example_stored.1 [("timeout", ANone)]
                            example_stored.2
    = Some (ml_wrap, σ')
    ∧ read_wrapper σ' example_stored.1 = Some example_x_wrap
    ∧ read_wrapper σ' ml_wrap
      = Some {| ml_name := ml_name example_x_wrap;
                ml_klass := ml_klass example_x_wrap;
                ml_params := update_held_in_lists [("timeout", ANone)]
                               <$> ml_params example_x_wrap |}.
Proof.
  apply (create_best_metalearner_updates_lists_only example_x_wrap [] 1
           [("timeout", ANone)]).
  - discriminate.
  - apply (bool_decide_unpack _). vm_compute. exact I.
Defined.

Lemma create_best_metalearner_needs_report_witness :
  is_Some (create_best_metalearner_result false 1 example_stored.1
             [("timeout", ANone)] example_stored.2)
  ↔ false = true ∧ 1 ≠ 0.
Proof.
  apply (create_best_metalearner_needs_report false example_x_wrap [] 1
           [("timeout", ANone)]).
  apply (bool_decide_unpack _). vm_compute. exact I.
Defined.

Lemma Z_ltb_irrefl (x : Z) : num_ltb x x = false.
Proof. simpl. lia. Qed.

Lemma Z_eqb_ltb (x y : Z) :
  num_eqb x y = true ↔ num_ltb x y = false ∧ num_ltb y x = false.
Proof.
  change (num_eqb x y) with (Z.eqb x y).
  change (num_ltb x y) with (Z.ltb x y).
  change (num_ltb y x) with (Z.ltb y x).
  rewrite Z.eqb_eq, !Z.ltb_ge. lia.
Qed.

Lemma rating_table_order_witness :
  row_entry <$> example_rating ≡ₚ example_scores
  ∧ (∀ i j r r',
       i < j → example_rating !! i = Some r → example_rating !! j = Some r' →
       col_Rank r ≤ col_Rank r' ∧ num_ltb (col_Metrics r) (col_Metrics r') = false)
  ∧ row_entry <$> head example_rating = select_best true example_scores.
Proof.
  apply (rating_table_order Z_ltb_irrefl Z_ltb_trans Z_ltb_cotrans Z_eqb_ltb
           example_scores).
Defined.

Lemma best_xlearner_takes_first_by_name_witness :
  (∃ set_bls ml_bls ocl otl pl ecl etl,
     set_bls ∈ combinations (trained_stage_baselearners example_fitted_targets)
     ∧ ("XLearner", ml_bls) ∈ assemble set_bls
     ∧ example_selected_xlearner
       = sorted sbl_leb
           ((λ sb : MLStageFullName
                    * TrainedStageBaseLearner Z (string * list Z),
               (sb.1, name (stage_bl sb.2))) <$> ml_bls)
     ∧ (∀ key r prev_bl,
          dict_get key ml_bls = Some r → prev_stage_bl r = Some prev_bl →
          dict_get (prefix1 key) example_selected_xlearner
          = Some (name prev_bl))
     ∧ best_metalearner example_fitted_targets
       = XLearner [trained_model ocl; trained_model otl]
                  [trained_model ecl; trained_model etl]
                  (trained_model pl)
     ∧ ∀ key built,
         (key, built) ∈ [ (["outcome_control"], ocl);
                          (["outcome_treatment"], otl);
                          (["propensity"], pl);
                          (["outcome_treatment"; "effect_control"], ecl);
                          (["outcome_control"; "effect_treatment"], etl) ] →
         ∃ scored records i,
           dict_get key ml_bls = Some scored
           ∧ dict_get key (trained_stage_baselearners example_fitted_targets)
             = Some records
           ∧ records !! i = Some built
           ∧ name (stage_bl built) = name (stage_bl scored)
           ∧ ∀ j r, j < i → records !! j = Some r →
                    name (stage_bl r) ≠ name (stage_bl scored))
  ∧ dict_get ["outcome_treatment"] example_selected_xlearner = Some "B"
  ∧ name <$> (_get_trained_bl
                (trained_stage_baselearners example_fitted_targets)
                ["outcome_treatment"; "effect_control"] "B"
              ≫= prev_stage_bl)
    = Some "A".
Proof.
  split; [|split; vm_compute; reflexivity].
  apply (best_xlearner_takes_first_by_name example_fit_predict_targets
           example_predict_targets example_metric example_split
           no_time_limit (λ _, 0) example_settings_decreasing
           example_candidates example_train example_roles
           example_fitted_targets example_selected_xlearner).
  - vm_compute. reflexivity.
  - vm_compute. reflexivity.
Defined.
